(** * remarkable-template-maker: layout, page registry and internal links

    A shallow embedding of the bullet-journal ("bujo") part of the PDF
    generator: the monthly-log page generator, the index builder, the
    page registry, the navigation resolver and the link emitters.

    Conventions of the embedding.
    - A JavaScript [number] that holds a coordinate or a length is an exact
      rational ([Qc]); page indices, counts and day numbers are [nat].
      Rounding of IEEE doubles is not modelled, and a division is only
      meaningful for a non-zero divisor (the statements say so).
    - A pdf-lib document is a page tree (the ordered list of the object
      references of its pages) plus, per page object, the text runs drawn
      on it and its link annotations.  A pdf-lib call that throws is
      [None] in the state-and-error monad [M].
    - Of the drawing calls only [drawText] is recorded (text, position,
      size, font); colours, lines, circles and backgrounds do not take
      part in any layout or link decision and are left out.
    - What the code takes from its libraries and cannot compute here is a
      section variable: the font metrics [widthOfTextAtSize], date-fns
      [format] and [getDay], and [toLocaleString]'s month name. *)

From Stdlib Require Import QArith Qcanon Qround ZArith Lia Lqa.
From Stdlib Require Import DecimalString DecimalNat Ascii String.
From stdpp Require Import base numbers strings gmap option list.



(** ** JavaScript numbers and [Math] *)

Module JS.

Definition ofNat (n : nat) : Qc := Qc_of_Z (Z.of_nat n).
Definition ofZ (z : Z) : Qc := Qc_of_Z z.

Definition Math_floor (x : Qc) : Z := Qfloor x.
Definition Math_ceil (x : Qc) : Z := Qceiling x.
(** [Math.round] rounds half-way cases towards plus infinity. *)
Definition Math_round (x : Qc) : Z := Qfloor (x + Q2Qc (1 # 2))%Qc.
Definition Math_min (a b : Qc) : Qc := if decide (a ≤ b)%Qc then a else b.
Definition Math_max (a b : Qc) : Qc := if decide (a ≤ b)%Qc then b else a.

(** [String(n)] for a natural number, in decimal. *)
Definition toString (n : nat) : string :=
  NilEmpty.string_of_uint (Nat.to_uint n).

(** [String(z)] for an integer. *)
Definition toStringZ (z : Z) : string :=
  if (z <? 0)%Z then "-" +:+ toString (Z.abs_nat z) else toString (Z.to_nat z).

Fixpoint repeatChar (n : nat) (c : ascii) : string :=
  match n with
  | O => EmptyString
  | S n' => String c (repeatChar n' c)
  end.

(** [s.padStart(targetLength, fill)] for a one-character [fill]. *)
Definition padStart (targetLength : nat) (fill : ascii) (s : string) : string :=
  repeatChar (targetLength - String.length s) fill +:+ s.

(** [s.split(sep)] for a one-character separator. *)
Fixpoint split (sep : ascii) (s : string) : list string :=
  match s with
  | EmptyString => [EmptyString]
  | String c s' =>
      if Ascii.eqb c sep then EmptyString :: split sep s'
      else match split sep s' with
           | h :: t => String c h :: t
           | [] => [String c EmptyString]
           end
  end.

Definition isWhiteSpace (c : ascii) : bool :=
  let n := nat_of_ascii c in
  ((n =? 32) || ((9 <=? n) && (n <=? 13)))%nat.

Definition digitValue (radix : nat) (c : ascii) : option nat :=
  let n := nat_of_ascii c in
  let v :=
    if ((48 <=? n) && (n <=? 57))%nat then Some (n - 48)
    else if ((97 <=? n) && (n <=? 122))%nat then Some (n - 87)
    else if ((65 <=? n) && (n <=? 90))%nat then Some (n - 55)
    else None in
  match v with
  | Some d => if (d <? radix)%nat then Some d else None
  | None => None
  end.

(** The longest prefix of digits of [s], read in [radix]; [acc] is [None]
    until a first digit was seen. *)
Fixpoint parseDigits (radix : nat) (s : string) (acc : option nat) : option nat :=
  match s with
  | EmptyString => acc
  | String c s' =>
      match digitValue radix c with
      | Some d => parseDigits radix s' (Some (radix * default 0 acc + d))
      | None => acc
      end
  end.

Fixpoint trimStart (s : string) : string :=
  match s with
  | String c s' => if isWhiteSpace c then trimStart s' else s
  | EmptyString => EmptyString
  end.

Definition stripSign (s : string) : bool * string :=
  match s with
  | String "-" s' => (true, s')
  | String "+" s' => (false, s')
  | _ => (false, s)
  end.

Definition stripHexPrefix (s : string) : nat * string :=
  match s with
  | String "0" (String "x" s') => (16, s')
  | String "0" (String "X" s') => (16, s')
  | _ => (10, s)
  end.

(** [parseInt(s)]; [None] is NaN. *)
Definition parseInt (s : string) : option Z :=
  let '(neg, s1) := stripSign (trimStart s) in
  let '(radix, s2) := stripHexPrefix s1 in
  match parseDigits radix s2 None with
  | Some n => Some (if neg then (- Z.of_nat n)%Z else Z.of_nat n)
  | None => None
  end.

(** A JavaScript truthiness test on an optional string: [undefined] and
    the empty string are falsy. *)
Definition truthy (s : option string) : option string :=
  match s with
  | Some EmptyString => None
  | _ => s
  end.

End JS.

(** ** Dates *)

Record JSDate := mkDate {
  getFullYear : nat;
  getMonth : nat;   (* 0 .. 11 *)
  getDate : nat     (* 1 .. 31 *)
}.

Global Instance JSDate_eq_dec : EqDecision JSDate.
Proof. solve_decision. Defined.

Definition isLeapYear (y : Z) : bool :=
  ((y mod 4 =? 0) && (negb (y mod 100 =? 0) || (y mod 400 =? 0)))%Z.

Definition daysInMonthOf (y : Z) (m : nat) : nat :=
  match m with
  | 1 => if isLeapYear y then 29 else 28
  | 3 | 5 | 8 | 10 => 30
  | _ => 31
  end.

(** date-fns [getDaysInMonth]. *)
Definition getDaysInMonth (date : JSDate) : nat :=
  daysInMonthOf (Z.of_nat (getFullYear date)) (getMonth date).

(** [new Date(year, monthIndex, 0).getDate()]: day 0 of a month is the last
    day of the month before; the constructor reads a year in 0..99 as
    1900 + year and carries a month index outside 0..11 into the year. *)
Definition Date_day0 (year monthIndex : Z) : nat :=
  let year' := if ((0 <=? year) && (year <=? 99))%Z then (1900 + year)%Z else year in
  let t := (year' * 12 + monthIndex - 1)%Z in
  daysInMonthOf (t / 12)%Z (Z.to_nat (t mod 12)).

(** navigation.ts, [formatDateKey] and [formatYearMonth]. *)
Definition formatDateKey (date : JSDate) : string :=
  let y := JS.toString (getFullYear date) in
  let m := JS.padStart 2 "0" (JS.toString (getMonth date + 1)) in
  let d := JS.padStart 2 "0" (JS.toString (getDate date)) in
  y +:+ "-" +:+ m +:+ "-" +:+ d.

Definition formatYearMonth (date : JSDate) : string :=
  let y := JS.toString (getFullYear date) in
  let m := JS.padStart 2 "0" (JS.toString (getMonth date + 1)) in
  y +:+ "-" +:+ m.

(** ** Data model (types.ts, planner.ts) *)

Inductive PageType :=
  | key | future | monthly | monthly_tasks | weekly | daily | collection | index.

Global Instance PageType_eq_dec : EqDecision PageType.
Proof. solve_decision. Defined.

Definition PageType_to_nat (t : PageType) : nat :=
  match t with
  | key => 0 | future => 1 | monthly => 2 | monthly_tasks => 3
  | weekly => 4 | daily => 5 | collection => 6 | index => 7
  end.

Definition PageType_of_nat (n : nat) : option PageType :=
  match n with
  | 0 => Some key | 1 => Some future | 2 => Some monthly | 3 => Some monthly_tasks
  | 4 => Some weekly | 5 => Some daily | 6 => Some collection | 7 => Some index
  | _ => None
  end.

Global Instance PageType_countable : Countable PageType.
Proof.
  apply (inj_countable PageType_to_nat PageType_of_nat).
  intros []; reflexivity.
Defined.

Record PageRef := mkPageRef {
  label : string;
  pageIndex : nat;
  type : PageType;
  date : option JSDate;
  monthIndex : option nat;
  weekIndex : option nat;
  yearMonth : option string
}.

(** [ref.pageIndex += n]. *)
Definition addToPageIndex (n : nat) (ref : PageRef) : PageRef :=
  mkPageRef (label ref) (pageIndex ref + n) (type ref) (date ref)
            (monthIndex ref) (weekIndex ref) (yearMonth ref).

Inductive TargetType :=
  | t_index | t_future | t_monthly | t_monthly_tasks | t_weekly | t_prev | t_next.

Global Instance TargetType_eq_dec : EqDecision TargetType.
Proof. solve_decision. Defined.

Record NavItem := mkNavItem {
  navLabel : string;
  targetType : TargetType;
  targetKey : option string
}.

Record PageRegistry := mkRegistry {
  indexPage : nat;
  futureLogPages : list nat;
  monthlyCalPages : gmap string nat;
  monthlyTasksPages : gmap string nat;
  weeklyPages : gmap nat nat;
  dailyPages : gmap string nat;
  collectionPages : list nat;
  keyPage : option nat;
  pagesByType : gmap PageType (list nat)
}.

Record Padding := mkPadding {
  top : Qc; bottom : Qc; left : Qc; right : Qc
}.

Record Dimensions := mkDimensions {
  WIDTH : Qc;
  HEIGHT : Qc;
  MARGIN : Qc;
  TOOLBAR_HEIGHT : Qc;
  padding : Padding
}.

Record NavContext := mkNavContext {
  hasFutureLog : bool;
  hasMonthlyLog : bool;
  hasWeeklyReview : bool;
  hasDailyLog : bool
}.

Record DensityConfig := mkDensity {
  lineHeight : Qc;
  fontSize : Qc;
  headerSize : Qc;
  spacing : Qc
}.

Inductive DensityLevel := compact | normal | comfortable.

Definition DENSITY_CONFIGS (d : DensityLevel) : DensityConfig :=
  match d with
  | compact => mkDensity (JS.ofZ 14) (JS.ofZ 8) (JS.ofZ 12) (Q2Qc (8 # 10))
  | normal => mkDensity (JS.ofZ 18) (JS.ofZ 9) (JS.ofZ 14) (JS.ofZ 1)
  | comfortable => mkDensity (JS.ofZ 24) (JS.ofZ 10) (JS.ofZ 16) (Q2Qc (12 # 10))
  end.

Inductive DeviceType := remarkable2 | paperPro | move.

(** [DEVICE_CONFIGS[device].pdfPoints] as (width, height). *)
Definition DEVICE_pdfPoints (d : DeviceType) : Qc * Qc :=
  match d with
  | remarkable2 => (JS.ofZ 448, JS.ofZ 597)
  | paperPro => (JS.ofZ 510, JS.ofZ 679)
  | move => (JS.ofZ 260, JS.ofZ 463)
  end.

(** pdf-generator.ts, [getDeviceDimensions]. *)
Definition getDeviceDimensions (device : DeviceType) (pad : Padding) : Dimensions :=
  let '(w, h) := DEVICE_pdfPoints device in
  mkDimensions w h (left pad) (top pad) pad.

(** ** The pdf-lib document *)

Inductive Font := Helvetica | HelveticaBold.

Record TextRun := mkText {
  text : string;
  textX : Qc;
  textY : Qc;
  textSize : Qc;
  textFont : Font
}.

Global Instance Font_eq_dec : EqDecision Font.
Proof. solve_decision. Defined.

Global Instance TextRun_eq_dec : EqDecision TextRun.
Proof. solve_decision. Defined.

Record LinkRect := mkRect {
  rectX : Qc; rectY : Qc; rectWidth : Qc; rectHeight : Qc
}.

(** A destination array [[page /XYZ left top zoom]]; [None] is [null]. *)
Record Destination := mkDest {
  destPage : nat;
  destFit : string;
  destLeft : option Qc;
  destTop : option Qc;
  destZoom : option Qc
}.

(** The dictionary of a link annotation. *)
Record LinkAnnotation := mkAnnot {
  annotType : string;
  annotSubtype : string;
  annotRect : list Qc;
  annotBorder : list Z;
  annotDest : Destination
}.

(** [pageTree]: the object references of the pages, in document order;
    [pageTexts], [pageAnnots]: the content and the [Annots] array of each
    page object; [nextRef]: the next fresh object reference. *)
Record PDFDocument := mkDoc {
  pageTree : list nat;
  pageTexts : gmap nat (list TextRun);
  pageAnnots : gmap nat (list LinkAnnotation);
  nextRef : nat
}.

(** State and error: [None] is a thrown exception. *)
Definition M (A : Type) : Type := PDFDocument → option (A * PDFDocument).

Definition ret {A} (a : A) : M A := λ doc, Some (a, doc).

Definition bind {A B} (m : M A) (f : A → M B) : M B := λ doc,
  match m doc with
  | Some (a, doc') => f a doc'
  | None => None
  end.

Notation "'let*' x ':=' m 'in' k" := (bind m (λ x, k))
  (at level 10, x name, m at level 100, k at level 200).
Notation "m ;; k" := (bind m (λ _, k))
  (at level 100, k at level 200, right associativity).

Definition throw {A} : M A := λ _, None.

Definition getPageCount : M nat := λ doc, Some (length (pageTree doc), doc).

(** [pdfDoc.getPage(i)] throws when [i] is out of range. *)
Definition getPage (i : nat) : M nat := λ doc,
  match pageTree doc !! i with
  | Some p => Some (p, doc)
  | None => None
  end.

(** [pdfDoc.addPage(...)] appends a fresh page. *)
Definition addPage : M nat := λ doc,
  let p := nextRef doc in
  Some (p, mkDoc (pageTree doc ++ [p]) (pageTexts doc) (pageAnnots doc) (S p)).

(** [pdfDoc.insertPage(i, ...)] inserts a fresh page at [i]; it throws when
    [i] is larger than the page count. *)
Definition insertPage (i : nat) : M nat := λ doc,
  if decide (i ≤ length (pageTree doc)) then
    let p := nextRef doc in
    Some (p, mkDoc (take i (pageTree doc) ++ p :: drop i (pageTree doc))
                   (pageTexts doc) (pageAnnots doc) (S p))
  else None.

Definition drawText (page : nat) (run : TextRun) : M unit := λ doc,
  Some (tt, mkDoc (pageTree doc)
                  (<[page := default [] (pageTexts doc !! page) ++ [run]]> (pageTexts doc))
                  (pageAnnots doc) (nextRef doc)).

Fixpoint drawTexts (page : nat) (runs : list TextRun) : M unit :=
  match runs with
  | [] => ret tt
  | run :: rest => drawText page run ;; drawTexts page rest
  end.

Definition textsOf (doc : PDFDocument) (page : nat) : list TextRun :=
  default [] (pageTexts doc !! page).

Definition annotsOf (doc : PDFDocument) (page : nat) : list LinkAnnotation :=
  default [] (pageAnnots doc !! page).

(** ** hyperlinks.ts *)

(** The dictionary [createInternalLink] builds: [Rect] is
    [[x1, y1, x2, y2]], [Border] is [[0, 0, 0]] and [Dest] is
    [[targetPageRef, /XYZ, null, null, null]]. *)
Definition linkAnnotationDict (rect : LinkRect) (targetPageRef : nat)
    : LinkAnnotation :=
  mkAnnot "Annot" "Link"
    [rectX rect; rectY rect;
     (rectX rect + rectWidth rect)%Qc; (rectY rect + rectHeight rect)%Qc]
    [0; 0; 0]%Z
    (mkDest targetPageRef "XYZ" None None None).

(** [createInternalLink(pdfDoc, sourcePage, rect, targetPageIndex)]. *)
Definition createInternalLink (sourcePage : nat) (rect : LinkRect)
    (targetPageIndex : nat) : M unit :=
  let* targetPageRef := getPage targetPageIndex in
  let linkAnnotation := linkAnnotationDict rect targetPageRef in
  λ doc,
    match pageAnnots doc !! sourcePage with
    | Some existingAnnots =>
        Some (tt, mkDoc (pageTree doc) (pageTexts doc)
                        (<[sourcePage := existingAnnots ++ [linkAnnotation]]> (pageAnnots doc))
                        (nextRef doc))
    | None =>
        Some (tt, mkDoc (pageTree doc) (pageTexts doc)
                        (<[sourcePage := [linkAnnotation]]> (pageAnnots doc))
                        (nextRef doc))
    end.

(** usePreview.ts, [renderPage]: the page a link leads to is the position
    of the first page whose object reference is the destination's;
    [targetPage] stays 0 when there is none. *)
Fixpoint findPage (ref : nat) (pages : list nat) (p : nat) : option nat :=
  match pages with
  | [] => None
  | q :: rest => if decide (q = ref) then Some p else findPage ref rest (S p)
  end.

Definition previewTargetPage (doc : PDFDocument) (annot : LinkAnnotation) : nat :=
  default 0 (findPage (destPage (annotDest annot)) (pageTree doc) 0).

(** ** navigation.ts: the page registry *)

Definition allPageTypes : list PageType :=
  [key; future; monthly; monthly_tasks; weekly; daily; collection; index].

Definition emptyRegistry (indexPageIndex : nat) : PageRegistry :=
  mkRegistry indexPageIndex [] ∅ ∅ ∅ ∅ [] None
    (foldl (λ m t, <[t := []]> m) ∅ allPageTypes).

(** One round of the loop over [pageRefs] in [buildPageRegistry]. *)
Definition registerPage (registry : PageRegistry) (ref : PageRef) : PageRegistry :=
  let byType :=
    match pagesByType registry !! type ref with
    | Some typeList => <[type ref := typeList ++ [pageIndex ref]]> (pagesByType registry)
    | None => pagesByType registry
    end in
  let r := mkRegistry (indexPage registry) (futureLogPages registry)
             (monthlyCalPages registry) (monthlyTasksPages registry)
             (weeklyPages registry) (dailyPages registry)
             (collectionPages registry) (keyPage registry) byType in
  match type ref with
  | key =>
      mkRegistry (indexPage r) (futureLogPages r) (monthlyCalPages r)
        (monthlyTasksPages r) (weeklyPages r) (dailyPages r)
        (collectionPages r) (Some (pageIndex ref)) (pagesByType r)
  | future =>
      mkRegistry (indexPage r) (futureLogPages r ++ [pageIndex ref]) (monthlyCalPages r)
        (monthlyTasksPages r) (weeklyPages r) (dailyPages r)
        (collectionPages r) (keyPage r) (pagesByType r)
  | monthly =>
      match JS.truthy (yearMonth ref) with
      | Some ym =>
          mkRegistry (indexPage r) (futureLogPages r)
            (<[ym := pageIndex ref]> (monthlyCalPages r))
            (monthlyTasksPages r) (weeklyPages r) (dailyPages r)
            (collectionPages r) (keyPage r) (pagesByType r)
      | None => r
      end
  | monthly_tasks =>
      match JS.truthy (yearMonth ref) with
      | Some ym =>
          mkRegistry (indexPage r) (futureLogPages r) (monthlyCalPages r)
            (<[ym := pageIndex ref]> (monthlyTasksPages r))
            (weeklyPages r) (dailyPages r)
            (collectionPages r) (keyPage r) (pagesByType r)
      | None => r
      end
  | weekly =>
      match weekIndex ref with
      | Some w =>
          mkRegistry (indexPage r) (futureLogPages r) (monthlyCalPages r)
            (monthlyTasksPages r) (<[w := pageIndex ref]> (weeklyPages r))
            (dailyPages r) (collectionPages r) (keyPage r) (pagesByType r)
      | None => r
      end
  | daily =>
      match date ref with
      | Some d =>
          mkRegistry (indexPage r) (futureLogPages r) (monthlyCalPages r)
            (monthlyTasksPages r) (weeklyPages r)
            (<[formatDateKey d := pageIndex ref]> (dailyPages r))
            (collectionPages r) (keyPage r) (pagesByType r)
      | None => r
      end
  | collection =>
      mkRegistry (indexPage r) (futureLogPages r) (monthlyCalPages r)
        (monthlyTasksPages r) (weeklyPages r) (dailyPages r)
        (collectionPages r ++ [pageIndex ref]) (keyPage r) (pagesByType r)
  | index => r
  end.

Definition buildPageRegistry (pageRefs : list PageRef) (indexPageIndex : nat)
    : PageRegistry :=
  foldl registerPage (emptyRegistry indexPageIndex) pageRefs.

(** ** navigation.ts: navigation items and their resolution *)

(** [l.indexOf(x)]; [None] is -1. *)
Fixpoint indexOf (x : nat) (l : list nat) : option nat :=
  match l with
  | [] => None
  | y :: rest => if decide (y = x) then Some 0 else S <$> indexOf x rest
  end.

Definition getNavItemsForPage (ref : PageRef) (registry : PageRegistry)
    : list NavItem :=
  let yearMonth :=
    match JS.truthy (yearMonth ref) with
    | Some ym => Some ym
    | None => formatYearMonth <$> date ref
    end in
  let weekIndex := JS.toString <$> weekIndex ref in
  let hasFutureLog := bool_decide (0 < length (futureLogPages registry)) in
  let hasMonthlyLog := bool_decide (0 < size (monthlyCalPages registry)) in
  let hasWeeklyReview := bool_decide (0 < size (weeklyPages registry)) in
  match type ref with
  | daily =>
      [mkNavItem "Index" t_index None]
      ++ (if hasFutureLog then [mkNavItem "Future Log" t_future None] else [])
      ++ (if hasMonthlyLog
          then [mkNavItem "Monthly" t_monthly yearMonth;
                mkNavItem "Tasks" t_monthly_tasks yearMonth]
          else [])
      ++ (if hasWeeklyReview then [mkNavItem "Weekly" t_weekly weekIndex] else [])
  | weekly =>
      [mkNavItem "<" t_prev None; mkNavItem "Index" t_index None]
      ++ (if hasFutureLog then [mkNavItem "Future Log" t_future None] else [])
      ++ (if hasMonthlyLog
          then [mkNavItem "Monthly" t_monthly yearMonth;
                mkNavItem "Tasks" t_monthly_tasks yearMonth]
          else [])
      ++ [mkNavItem ">" t_next None]
  | monthly =>
      [mkNavItem "<" t_prev None; mkNavItem "Index" t_index None]
      ++ (if hasFutureLog then [mkNavItem "Future Log" t_future None] else [])
      ++ [mkNavItem "Tasks" t_monthly_tasks yearMonth;
          mkNavItem ">" t_next None]
  | monthly_tasks =>
      [mkNavItem "<" t_prev None; mkNavItem "Index" t_index None]
      ++ (if hasFutureLog then [mkNavItem "Future Log" t_future None] else [])
      ++ [mkNavItem "Calendar" t_monthly yearMonth;
          mkNavItem ">" t_next None]
  | future => [mkNavItem "Index" t_index None]
  | key =>
      [mkNavItem "Index" t_index None]
      ++ (if hasFutureLog then [mkNavItem "Future Log" t_future None] else [])
  | collection =>
      [mkNavItem "<" t_prev None; mkNavItem "Index" t_index None;
       mkNavItem ">" t_next None]
  | index =>
      if hasFutureLog then [mkNavItem "Future Log" t_future None] else []
  end.

Definition resolveNavTarget (item : NavItem) (ref : PageRef)
    (registry : PageRegistry) : option nat :=
  match targetType item with
  | t_index => Some (indexPage registry)
  | t_future => futureLogPages registry !! 0
  | t_monthly =>
      match JS.truthy (targetKey item) with
      | Some k => monthlyCalPages registry !! k
      | None => None
      end
  | t_monthly_tasks =>
      match JS.truthy (targetKey item) with
      | Some k => monthlyTasksPages registry !! k
      | None => None
      end
  | t_weekly =>
      match JS.truthy (targetKey item) with
      | Some k =>
          match JS.parseInt k with
          | Some z => if (0 <=? z)%Z then weeklyPages registry !! Z.to_nat z else None
          | None => None
          end
      | None => None
      end
  | t_prev | t_next =>
      match pagesByType registry !! type ref with
      | None => None
      | Some typePages =>
          match indexOf (pageIndex ref) typePages with
          | None => None
          | Some idx =>
              if bool_decide (targetType item = t_prev) && bool_decide (0 < idx)
              then typePages !! (idx - 1)
              else if bool_decide (targetType item = t_next)
                      && bool_decide (idx < length typePages - 1)
              then typePages !! (idx + 1)
              else None
          end
      end
  end.

(** ** page-utils.ts: navigation labels *)

Definition getNavLabels (pageType : PageType) (nav : NavContext) : list string :=
  match pageType with
  | daily =>
      ["Index"]
      ++ (if hasFutureLog nav then ["Future Log"] else [])
      ++ (if hasMonthlyLog nav then ["Monthly"; "Tasks"] else [])
      ++ (if hasWeeklyReview nav then ["Weekly"] else [])
  | weekly =>
      ["<"; "Index"]
      ++ (if hasFutureLog nav then ["Future Log"] else [])
      ++ (if hasMonthlyLog nav then ["Monthly"; "Tasks"] else [])
      ++ [">"]
  | monthly =>
      ["<"; "Index"]
      ++ (if hasFutureLog nav then ["Future Log"] else [])
      ++ ["Tasks"; ">"]
  | monthly_tasks =>
      ["<"; "Index"]
      ++ (if hasFutureLog nav then ["Future Log"] else [])
      ++ ["Calendar"; ">"]
  | future => ["Index"]
  | key => ["Index"] ++ (if hasFutureLog nav then ["Future Log"] else [])
  | collection => ["<"; "Index"; ">"]
  | index => if hasFutureLog nav then ["Future Log"] else []
  end.

(** ** Library interfaces the generator is handed *)

(** pdf-lib's [PDFFont]: only its metrics are used. *)
Record PDFFont := mkFont {
  widthOfTextAtSize : string → Qc → Qc
}.

(** date-fns [format] and [getDay], and the long month name that
    [Date.prototype.toLocaleString] gives. *)
Record DateEnv := mkDateEnv {
  format : JSDate → string → string;
  getDay : JSDate → nat;
  monthLongName : JSDate → string
}.

Record BujoGeneratorContext := mkCtx {
  font : PDFFont;
  dims : Dimensions;
  density : DensityConfig;
  nav : NavContext
}.

(** ** page-utils.ts: the navigation row and the page title *)

Definition navSeparator : string := "  |  ".

(** The loop of [drawTopNavigation]; [navX] is the running x offset. *)
Fixpoint drawNavItems (page : nat) (font : PDFFont) (navFontSize navY : Qc)
    (navItems : list string) (navX : Qc) : M unit :=
  match navItems with
  | [] => ret tt
  | item :: rest =>
      drawText page (mkText item navX navY navFontSize Helvetica) ;;
      let navX := (navX + widthOfTextAtSize font item navFontSize)%Qc in
      match rest with
      | [] => ret tt
      | _ :: _ =>
          drawText page (mkText navSeparator navX navY navFontSize Helvetica) ;;
          drawNavItems page font navFontSize navY rest
            (navX + widthOfTextAtSize font navSeparator navFontSize)%Qc
      end
  end.

Definition drawTopNavigation (page : nat) (font : PDFFont) (dims : Dimensions)
    (navItems : list string) : M Qc :=
  let navFontSize := JS.ofZ 7 in
  let navY := (HEIGHT dims - top (padding dims) - navFontSize - JS.ofZ 2)%Qc in
  drawNavItems page font navFontSize navY navItems (left (padding dims)) ;;
  ret (navY - navFontSize - JS.ofZ 6)%Qc.

(** Every caller passes the bold font. *)
Definition drawPageTitle (page : nat) (title : string) (dims : Dimensions)
    (startY fontSize : Qc) : M Qc :=
  drawText page (mkText title (left (padding dims)) startY fontSize HelveticaBold) ;;
  ret (startY - fontSize - JS.ofZ 8)%Qc.

(** ** navigation.ts: [addComprehensiveNavigation] *)

(** The inner loop over the navigation items of one page. *)
Fixpoint addNavItemLinks (page : nat) (font : PDFFont) (navFontSize navY linkHeight : Qc)
    (ref : PageRef) (registry : PageRegistry)
    (navItems : list NavItem) (navX : Qc) : M unit :=
  match navItems with
  | [] => ret tt
  | item :: rest =>
      let textWidth := widthOfTextAtSize font (navLabel item) navFontSize in
      match resolveNavTarget item ref registry with
      | Some targetPage =>
          createInternalLink page
            (mkRect (navX - JS.ofZ 2) (navY - JS.ofZ 3) (textWidth + JS.ofZ 4) linkHeight)%Qc
            targetPage
      | None => ret tt
      end ;;
      let navX := (navX + textWidth)%Qc in
      let navX :=
        match rest with
        | [] => navX
        | _ :: _ => (navX + widthOfTextAtSize font navSeparator navFontSize)%Qc
        end in
      addNavItemLinks page font navFontSize navY linkHeight ref registry rest navX
  end.

Definition addNavigationFor (font : PDFFont) (dims : Dimensions)
    (registry : PageRegistry) (ref : PageRef) : M unit :=
  let navFontSize := JS.ofZ 7 in
  let navY := (HEIGHT dims - top (padding dims) - navFontSize - JS.ofZ 2)%Qc in
  let linkHeight := JS.ofZ 12 in
  let* page := getPage (pageIndex ref) in
  let navItems := getNavItemsForPage ref registry in
  addNavItemLinks page font navFontSize navY linkHeight ref registry navItems
    (left (padding dims)).

Fixpoint forEach {A} (f : A → M unit) (l : list A) : M unit :=
  match l with
  | [] => ret tt
  | a :: rest => f a ;; forEach f rest
  end.

Definition addComprehensiveNavigation (font : PDFFont) (dims : Dimensions)
    (pageRefs : list PageRef) (registry : PageRegistry) : M unit :=
  forEach (addNavigationFor font dims registry) pageRefs.

(** ** bujo-monthly.ts: [generateMonthlyLog] *)

Definition DAY_ABBREVS : list string := ["S"; "M"; "T"; "W"; "T"; "F"; "S"].

(** [for (let i = 0; i < daysOnThisPage && dayIndex <= daysInMonth; i++, dayIndex++)]
    of the split layout; [n] counts the rounds [i] has left.  It returns the
    [dayIndex] it stopped at. *)
Fixpoint drawSplitRows (env : DateEnv) (ctx : BujoGeneratorContext) (page : nat)
    (monthDate : JSDate) (daysInMonth : nat) (lineHeight : Qc)
    (n : nat) (dayIndex : nat) (y : Qc) : M nat :=
  match n with
  | O => ret dayIndex
  | S n' =>
      if decide (dayIndex ≤ daysInMonth) then
        let date := mkDate (getFullYear monthDate) (getMonth monthDate) dayIndex in
        let dayOfWeek := getDay env date in
        let x := left (padding (dims ctx)) in
        drawText page (mkText (JS.padStart 2 " " (JS.toString dayIndex))
                              x y (fontSize (density ctx)) Helvetica) ;;
        match DAY_ABBREVS !! dayOfWeek with
        | Some abbrev =>
            drawText page (mkText abbrev (x + JS.ofZ 18)%Qc y
                                  (fontSize (density ctx)) Helvetica)
        | None => throw
        end ;;
        drawSplitRows env ctx page monthDate daysInMonth lineHeight
          n' (S dayIndex) (y - lineHeight)%Qc
      else ret dayIndex
  end.

(** [for (let day = 1; day <= daysInMonth; day++)] of the combined layout;
    [n] counts the days left. *)
Fixpoint drawCombinedRows (env : DateEnv) (ctx : BujoGeneratorContext) (page : nat)
    (monthDate : JSDate) (lineHeight : Qc)
    (n : nat) (day : nat) (y : Qc) : M unit :=
  match n with
  | O => ret tt
  | S n' =>
      let date := mkDate (getFullYear monthDate) (getMonth monthDate) day in
      let dayOfWeek := getDay env date in
      let x := left (padding (dims ctx)) in
      drawText page (mkText (JS.padStart 2 " " (JS.toString day))
                            x y (fontSize (density ctx)) Helvetica) ;;
      match DAY_ABBREVS !! dayOfWeek with
      | Some abbrev =>
          drawText page (mkText abbrev (x + JS.ofZ 18)%Qc y
                                (fontSize (density ctx)) Helvetica)
      | None => throw
      end ;;
      drawCombinedRows env ctx page monthDate lineHeight n' (S day) (y - lineHeight)%Qc
  end.

(** The layout numbers both branches start from. *)
Record MonthlyLayout := mkLayout {
  minLineHeight : Qc;
  preferredLineHeight : Qc;
  availableHeight : Qc;
  daysPerPage : Z;
  calendarPages : Z;
  needsSplit : bool
}.

Definition monthlyLayout (ctx : BujoGeneratorContext) (daysInMonth : nat)
    : MonthlyLayout :=
  let minLineHeight :=
    JS.ofZ (JS.Math_round (lineHeight (density ctx) * Q2Qc (7 # 10))%Qc) in
  let preferredLineHeight := lineHeight (density ctx) in
  let navHeight := JS.ofZ 20 in
  let headerHeight := JS.ofZ 25 in
  let availableHeight :=
    (HEIGHT (dims ctx) - top (padding (dims ctx)) - bottom (padding (dims ctx))
     - navHeight - headerHeight - JS.ofZ 10)%Qc in
  let daysPerPage := JS.Math_floor (availableHeight / minLineHeight)%Qc in
  let calendarPages := JS.Math_ceil (JS.ofNat daysInMonth / JS.ofZ daysPerPage)%Qc in
  let needsSplit :=
    bool_decide (1 < calendarPages)%Z
    || bool_decide (availableHeight < JS.ofNat daysInMonth * preferredLineHeight)%Qc in
  mkLayout minLineHeight preferredLineHeight availableHeight
           daysPerPage calendarPages needsSplit.

(** [while (dayIndex <= daysInMonth)] of the split layout.  The loop has no
    bound of its own; [fuel] bounds its rounds, and running out of it (the
    loop did not advance) gives no result. *)
Fixpoint calendarPagesLoop (fuel : nat) (env : DateEnv) (ctx : BujoGeneratorContext)
    (monthDate : JSDate) (daysInMonth : nat) (lay : MonthlyLayout)
    (dayIndex calendarPageNum : nat) (pageRefs : list PageRef) : M (list PageRef) :=
  if decide (dayIndex ≤ daysInMonth) then
    match fuel with
    | O => throw
    | S fuel' =>
        let* page := addPage in
        let* count := getPageCount in
        let pageIndex := count - 1 in
        let calNavLabels := getNavLabels monthly (nav ctx) in
        let* navY := drawTopNavigation page (font ctx) (dims ctx) calNavLabels in
        let suffix :=
          if bool_decide (1 < calendarPages lay)%Z
          then " (" +:+ JS.toString (calendarPageNum + 1) +:+ "/"
               +:+ JS.toStringZ (calendarPages lay) +:+ ")"
          else "" in
        let title := format env monthDate "MMMM yyyy" +:+ suffix in
        let* contentTop := drawPageTitle page title (dims ctx) navY (JS.ofZ 11) in
        let daysOnThisPage :=
          Z.min (daysPerPage lay) (Z.of_nat daysInMonth - Z.of_nat dayIndex + 1) in
        let lineHeight :=
          JS.Math_max (minLineHeight lay)
                      (availableHeight lay / JS.ofZ daysOnThisPage)%Qc in
        let* dayIndex' :=
          drawSplitRows env ctx page monthDate daysInMonth lineHeight
            (Z.to_nat daysOnThisPage) dayIndex contentTop in
        let label :=
          if bool_decide (1 < calendarPages lay)%Z
          then format env monthDate "MMMM" +:+ " Cal " +:+ JS.toString (calendarPageNum + 1)
          else format env monthDate "MMMM" +:+ " (Calendar)" in
        calendarPagesLoop fuel' env ctx monthDate daysInMonth lay
          dayIndex' (calendarPageNum + 1)
          (pageRefs ++ [mkPageRef label pageIndex monthly (Some monthDate)
                                  (Some (getMonth monthDate)) None
                                  (Some (formatYearMonth monthDate))])
    end
  else ret pageRefs.

Definition generateMonthlyLog (env : DateEnv) (ctx : BujoGeneratorContext)
    (monthDate : JSDate) : M (list PageRef) :=
  let daysInMonth := getDaysInMonth monthDate in
  let lay := monthlyLayout ctx daysInMonth in
  let yearMonth := formatYearMonth monthDate in
  let calNavLabels := getNavLabels monthly (nav ctx) in
  if needsSplit lay then
    let* pageRefs := calendarPagesLoop daysInMonth env ctx monthDate daysInMonth lay 1 0 [] in
    let* taskPage := addPage in
    let* count := getPageCount in
    let taskPageIndex := count - 1 in
    let taskNavLabels := getNavLabels monthly_tasks (nav ctx) in
    let* taskNavY := drawTopNavigation taskPage (font ctx) (dims ctx) taskNavLabels in
    let taskTitle := format env monthDate "MMMM" +:+ " - Tasks" in
    let* taskContentTop := drawPageTitle taskPage taskTitle (dims ctx) taskNavY (JS.ofZ 11) in
    ret (pageRefs ++ [mkPageRef (format env monthDate "MMMM" +:+ " (Tasks)")
                                taskPageIndex monthly_tasks (Some monthDate)
                                (Some (getMonth monthDate)) None (Some yearMonth)])
  else
    let* page := addPage in
    let* count := getPageCount in
    let pageIndex := count - 1 in
    let* navY := drawTopNavigation page (font ctx) (dims ctx) calNavLabels in
    let title := format env monthDate "MMMM yyyy" in
    let* contentTop := drawPageTitle page title (dims ctx) navY (JS.ofZ 11) in
    let pad := padding (dims ctx) in
    let dividerX :=
      (left pad + (WIDTH (dims ctx) - left pad - right pad) * Q2Qc (4 # 10))%Qc in
    let lineHeight :=
      JS.Math_min (preferredLineHeight lay)
                  ((contentTop - bottom pad - JS.ofZ 10) / JS.ofNat daysInMonth)%Qc in
    drawCombinedRows env ctx page monthDate lineHeight daysInMonth 1 contentTop ;;
    drawText page (mkText "Tasks" (dividerX + JS.ofZ 8)%Qc contentTop
                          (fontSize (density ctx)) HelveticaBold) ;;
    ret [mkPageRef (format env monthDate "MMMM") pageIndex monthly (Some monthDate)
                   (Some (getMonth monthDate)) None (Some yearMonth);
         mkPageRef (format env monthDate "MMMM" +:+ " (Tasks)") pageIndex monthly_tasks
                   (Some monthDate) (Some (getMonth monthDate)) None (Some yearMonth)].

(** ** templates/bujo/index.ts: the index builder *)

Record IndexPageState := mkIndexState {
  statePage : nat;
  stateY : Qc;
  statePageNumber : nat
}.

Definition createIndexPage (insertIndex : nat) (dims : Dimensions)
    (pageNumber : nat) (title : option string) : M IndexPageState :=
  let* page := insertPage insertIndex in
  let topY := (HEIGHT dims - MARGIN dims - TOOLBAR_HEIGHT dims)%Qc in
  let pageTitle :=
    match JS.truthy title with
    | Some t => t
    | None => if decide (pageNumber = 1) then "INDEX"
              else "INDEX (" +:+ JS.toString pageNumber +:+ ")"
    end in
  drawText page (mkText pageTitle (MARGIN dims) (topY - JS.ofZ 5)%Qc (JS.ofZ 16)
                        HelveticaBold) ;;
  ret (mkIndexState page (topY - JS.ofZ 30)%Qc pageNumber).

(** The mutable locals of [addBujoIndex]. *)
Record IndexBuild := mkIndexBuild {
  state : IndexPageState;
  indexRefs : list PageRef;
  indexPageCount : nat
}.

Definition setY (b : IndexBuild) (y : Qc) : IndexBuild :=
  mkIndexBuild (mkIndexState (statePage (state b)) y (statePageNumber (state b)))
               (indexRefs b) (indexPageCount b).

(** The three statements that open a further index page:
    [state = createIndexPage(pdfDoc, insertOffset + indexPageCount, ...,
    indexPageCount + 1, colors, title)], [indexRefs.push(...)] and
    [indexPageCount++]. *)
Definition openIndexPage (insertOffset : nat) (dims : Dimensions)
    (refLabel : string) (title : option string) (b : IndexBuild) : M IndexBuild :=
  let* st := createIndexPage (insertOffset + indexPageCount b) dims
               (indexPageCount b + 1) title in
  ret (mkIndexBuild st
         (indexRefs b ++ [mkPageRef refLabel (insertOffset + indexPageCount b) index
                                    None None None None])
         (indexPageCount b + 1)).

(** The local helper [addLink]. *)
Definition addLink (b : IndexBuild) (x y w h : Qc) (targetIdx : nat) : M unit :=
  createInternalLink (statePage (state b)) (mkRect x (y - JS.ofZ 2)%Qc w h)
                     (targetIdx + indexPageCount b).

Definition monthKey (d : JSDate) : string :=
  JS.toString (getFullYear d) +:+ "-" +:+ JS.toString (getMonth d).

(** An insertion-ordered [Map]: [omGet] and, for a key not yet present,
    [omSet] appends; for a present key it replaces the value in place. *)
Fixpoint omGet {V} (k : string) (m : list (string * V)) : option V :=
  match m with
  | [] => None
  | (k', v) :: rest => if decide (k' = k) then Some v else omGet k rest
  end.

Fixpoint omSet {V} (k : string) (v : V) (m : list (string * V)) : list (string * V) :=
  match m with
  | [] => [(k, v)]
  | (k', v') :: rest =>
      if decide (k' = k) then (k, v) :: rest else (k', v') :: omSet k v rest
  end.

Definition groupDailyByMonth (dailyRefs : list PageRef)
    : list (string * list PageRef) :=
  foldl (λ grouped ref,
           match date ref with
           | None => grouped
           | Some d =>
               let monthKey := monthKey d in
               omSet monthKey (default [] (omGet monthKey grouped) ++ [ref]) grouped
           end) [] dailyRefs.

Definition groupWeeklyByMonth (weeklyRefs : list PageRef)
    : gmap nat (list PageRef) :=
  foldl (λ grouped ref,
           let monthIdx := default 0 (monthIndex ref) in
           <[monthIdx := default [] (grouped !! monthIdx) ++ [ref]]> grouped)
        ∅ weeklyRefs.

(** [uniqueMonths]: the first monthly reference of each month. *)
Definition uniqueMonths (monthlyRefs : list PageRef)
    : list (string * (JSDate * PageRef)) :=
  foldl (λ unique ref,
           match date ref with
           | None => unique
           | Some d =>
               match omGet (monthKey d) unique with
               | Some _ => unique
               | None => omSet (monthKey d) (d, ref) unique
               end
           end) [] monthlyRefs.

Definition ofType (t : PageType) (pageRefs : list PageRef) : list PageRef :=
  filter (λ r, type r = t) pageRefs.

(** The key and future-log line. *)
Definition indexKeyFuture (font : PDFFont) (dims : Dimensions)
    (keyRefs futureRefs : list PageRef) (b : IndexBuild) : M IndexBuild :=
  let fontSize := JS.ofZ 8 in
  let y := stateY (state b) in
  let page := statePage (state b) in
  if bool_decide (0 < length keyRefs) || bool_decide (0 < length futureRefs) then
    let x := MARGIN dims in
    let* x :=
      match keyRefs with
      | keyRef :: _ =>
          drawText page (mkText "Key" x y fontSize Helvetica) ;;
          let keyWidth := widthOfTextAtSize font "Key" fontSize in
          drawText page (mkText " >" (x + keyWidth)%Qc y fontSize Helvetica) ;;
          addLink b x y (keyWidth + JS.ofZ 15)%Qc (JS.ofZ 12) (pageIndex keyRef) ;;
          ret (x + (keyWidth + JS.ofZ 30))%Qc
      | [] => ret x
      end in
    match futureRefs with
    | futureRef :: _ =>
        drawText page (mkText "Future Log" x y fontSize Helvetica) ;;
        let flWidth := widthOfTextAtSize font "Future Log" fontSize in
        drawText page (mkText " >" (x + flWidth)%Qc y fontSize Helvetica) ;;
        addLink b x y (flWidth + JS.ofZ 15)%Qc (JS.ofZ 12) (pageIndex futureRef)
    | [] => ret tt
    end ;;
    ret (setY b (y - JS.ofZ 20)%Qc)
  else ret b.

(** The week numbers of one month row. *)
Fixpoint indexWeekLinks (font : PDFFont) (b : IndexBuild)
    (monthWeeks : list PageRef) (wx : Qc) : M unit :=
  match monthWeeks with
  | [] => ret tt
  | weekRef :: rest =>
      let smallFontSize := JS.ofZ 7 in
      let y := stateY (state b) in
      let weekNum := default "?" (JS.toString <$> weekIndex weekRef) in
      drawText (statePage (state b)) (mkText weekNum wx y smallFontSize Helvetica) ;;
      let numWidth := widthOfTextAtSize font weekNum smallFontSize in
      drawText (statePage (state b))
               (mkText ">" (wx + numWidth + JS.ofZ 1)%Qc y smallFontSize Helvetica) ;;
      addLink b wx y (numWidth + JS.ofZ 10)%Qc (JS.ofZ 10) (pageIndex weekRef) ;;
      indexWeekLinks font b rest (wx + JS.ofZ 28)%Qc
  end.

(** The rows of the monthly and weekly table. *)
Fixpoint indexMonthRows (env : DateEnv) (font : PDFFont) (dims : Dimensions)
    (insertOffset : nat) (weeklyByMonth : gmap nat (list PageRef))
    (months : list (string * (JSDate * PageRef))) (b : IndexBuild) : M IndexBuild :=
  match months with
  | [] => ret b
  | (_, (date, ref)) :: rest =>
      let minY := (MARGIN dims + JS.ofZ 30)%Qc in
      let contentWidth := (WIDTH dims - JS.ofZ 2 * MARGIN dims)%Qc in
      let monthColWidth := JS.Math_min (JS.ofZ 80) (contentWidth * Q2Qc (25 # 100))%Qc in
      let fontSize := JS.ofZ 8 in
      let rowHeight := JS.ofZ 28 in
      let* b :=
        if bool_decide (stateY (state b) < minY)%Qc
        then openIndexPage insertOffset dims
               ("Index (" +:+ JS.toString (indexPageCount b + 1) +:+ ")") None b
        else ret b in
      let y := stateY (state b) in
      let page := statePage (state b) in
      let monthName := monthLongName env date in
      let monthIdx := getMonth date in
      drawText page (mkText monthName (MARGIN dims) y fontSize Helvetica) ;;
      let monthWidth := widthOfTextAtSize font monthName fontSize in
      drawText page (mkText " >" (MARGIN dims + monthWidth)%Qc y fontSize Helvetica) ;;
      addLink b (MARGIN dims) y (monthWidth + JS.ofZ 15)%Qc (JS.ofZ 12) (pageIndex ref) ;;
      let monthWeeks := default [] (weeklyByMonth !! monthIdx) in
      indexWeekLinks font b monthWeeks (MARGIN dims + monthColWidth)%Qc ;;
      let b := setY b (y - JS.ofZ 4 - (rowHeight - JS.ofZ 10))%Qc in
      indexMonthRows env font dims insertOffset weeklyByMonth rest b
  end.

Definition indexMonthly (env : DateEnv) (font : PDFFont) (dims : Dimensions)
    (insertOffset : nat) (monthlyRefs weeklyRefs : list PageRef)
    (b : IndexBuild) : M IndexBuild :=
  let fontSize := JS.ofZ 8 in
  let contentWidth := (WIDTH dims - JS.ofZ 2 * MARGIN dims)%Qc in
  let monthColWidth := JS.Math_min (JS.ofZ 80) (contentWidth * Q2Qc (25 # 100))%Qc in
  if bool_decide (0 < length monthlyRefs) || bool_decide (0 < length weeklyRefs) then
    let y := stateY (state b) in
    let page := statePage (state b) in
    drawText page (mkText "Monthly" (MARGIN dims) y (fontSize + JS.ofZ 1)%Qc
                          HelveticaBold) ;;
    (if bool_decide (0 < length weeklyRefs)
     then drawText page (mkText "Weekly Reviews" (MARGIN dims + monthColWidth)%Qc y
                                (fontSize + JS.ofZ 1)%Qc HelveticaBold)
     else ret tt) ;;
    let b := setY b (y - JS.ofZ 5 - JS.ofZ 15)%Qc in
    let weeklyByMonth := groupWeeklyByMonth weeklyRefs in
    indexMonthRows env font dims insertOffset weeklyByMonth
                   (uniqueMonths monthlyRefs) b
  else ret b.

(** The day numbers of one month of the daily grid; [i] is the position in
    [days] and [y] the running [state.y]. *)
Fixpoint indexDayLinks (font : PDFFont) (dims : Dimensions) (b : IndexBuild)
    (maxDaysPerRow : Z) (days : list PageRef) (i : nat) (y : Qc) : M Qc :=
  match days with
  | [] => ret y
  | dayRef :: rest =>
      match date dayRef with
      | None => throw
      | Some d =>
          let smallFontSize := JS.ofZ 7 in
          let dayNumWidth := JS.ofZ 16 in
          let dayNum := JS.toString (getDate d) in
          let col := Z.rem (Z.of_nat i) maxDaysPerRow in
          let y := if bool_decide (0 < i) && bool_decide (col = 0%Z)
                   then (y - JS.ofZ 14)%Qc else y in
          let dx := (MARGIN dims + JS.ofZ col * dayNumWidth)%Qc in
          drawText (statePage (state b)) (mkText dayNum dx y smallFontSize Helvetica) ;;
          addLink b (dx - JS.ofZ 2)%Qc (y - JS.ofZ 2)%Qc dayNumWidth (JS.ofZ 12)
                  (pageIndex dayRef) ;;
          indexDayLinks font dims b maxDaysPerRow rest (S i) y
      end
  end.

Fixpoint indexDailyMonths (env : DateEnv) (font : PDFFont) (dims : Dimensions)
    (insertOffset : nat) (groups : list (string * list PageRef))
    (b : IndexBuild) : M IndexBuild :=
  match groups with
  | [] => ret b
  | (_, days) :: rest =>
      let minY := (MARGIN dims + JS.ofZ 30)%Qc in
      let fontSize := JS.ofZ 8 in
      let contentWidth := (WIDTH dims - JS.ofZ 2 * MARGIN dims)%Qc in
      let dayNumWidth := JS.ofZ 16 in
      let monthRowHeight := JS.ofZ 42 in
      let* b :=
        if bool_decide (stateY (state b) < minY + monthRowHeight)%Qc
        then openIndexPage insertOffset dims "Index - Daily" (Some "INDEX - Daily") b
        else ret b in
      match days with
      | [] => throw
      | firstRef :: _ =>
          match date firstRef with
          | None => throw
          | Some firstDay =>
              let monthName := monthLongName env firstDay in
              drawText (statePage (state b))
                       (mkText monthName (MARGIN dims) (stateY (state b)) fontSize
                               Helvetica) ;;
              let y := (stateY (state b) - JS.ofZ 14)%Qc in
              let maxDaysPerRow := JS.Math_floor (contentWidth / dayNumWidth)%Qc in
              let* y := indexDayLinks font dims b maxDaysPerRow days 0 y in
              let b := setY b (y - JS.ofZ 6 - JS.ofZ 14)%Qc in
              indexDailyMonths env font dims insertOffset rest b
          end
      end
  end.

Definition indexDaily (env : DateEnv) (font : PDFFont) (dims : Dimensions)
    (insertOffset : nat) (dailyRefs : list PageRef) (b : IndexBuild) : M IndexBuild :=
  let fontSize := JS.ofZ 8 in
  if bool_decide (0 < length dailyRefs) then
    let* b := openIndexPage insertOffset dims "Index - Daily" (Some "INDEX - Daily") b in
    drawText (statePage (state b))
             (mkText "Daily Logs" (MARGIN dims) (stateY (state b))
                     (fontSize + JS.ofZ 1)%Qc HelveticaBold) ;;
    let b := setY b (stateY (state b) - JS.ofZ 18)%Qc in
    indexDailyMonths env font dims insertOffset (groupDailyByMonth dailyRefs) b
  else ret b.

(** The numbered strip of collection pages; [i] is the position in
    [collectionRefs]. *)
Fixpoint indexCollectionLinks (dims : Dimensions) (b : IndexBuild)
    (collectionRefs : list PageRef) (i : nat) (cx y : Qc) : M unit :=
  match collectionRefs with
  | [] => ret tt
  | ref :: rest =>
      let smallFontSize := JS.ofZ 7 in
      let num := JS.toString (i + 1) in
      drawText (statePage (state b)) (mkText num cx y smallFontSize Helvetica) ;;
      addLink b (cx - JS.ofZ 1)%Qc y (JS.ofZ 12) (JS.ofZ 10) (pageIndex ref) ;;
      let cx := (cx + JS.ofZ 14)%Qc in
      if bool_decide (WIDTH dims - MARGIN dims - JS.ofZ 20 < cx)%Qc
      then indexCollectionLinks dims b rest (S i) (MARGIN dims) (y - JS.ofZ 12)%Qc
      else indexCollectionLinks dims b rest (S i) cx y
  end.

Definition indexCollections (dims : Dimensions) (insertOffset : nat)
    (collectionRefs : list PageRef) (b : IndexBuild) : M IndexBuild :=
  let minY := (MARGIN dims + JS.ofZ 30)%Qc in
  let fontSize := JS.ofZ 8 in
  if bool_decide (0 < length collectionRefs) then
    let* b :=
      if bool_decide (stateY (state b) < minY + JS.ofZ 50)%Qc
      then openIndexPage insertOffset dims
             ("Index (" +:+ JS.toString (indexPageCount b + 1) +:+ ")") None b
      else ret b in
    drawText (statePage (state b))
             (mkText "Collections" (MARGIN dims) (stateY (state b))
                     (fontSize + JS.ofZ 1)%Qc HelveticaBold) ;;
    indexCollectionLinks dims b collectionRefs 0 (MARGIN dims)
                         (stateY (state b) - JS.ofZ 15)%Qc ;;
    ret b
  else ret b.

Record BujoIndexResult := mkIndexResult {
  pageCount : nat;
  resultIndexRefs : list PageRef
}.

Definition addBujoIndex (env : DateEnv) (pageRefs : list PageRef) (font : PDFFont)
    (dims : Dimensions) (insertOffset : nat) : M BujoIndexResult :=
  let keyRefs := ofType key pageRefs in
  let futureRefs := ofType future pageRefs in
  let monthlyRefs := ofType monthly pageRefs in
  let weeklyRefs := ofType weekly pageRefs in
  let dailyRefs := ofType daily pageRefs in
  let collectionRefs := ofType collection pageRefs in
  let* st := createIndexPage insertOffset dims 1 None in
  let b := mkIndexBuild st [mkPageRef "Index" insertOffset index None None None None] 1 in
  let* b := indexKeyFuture font dims keyRefs futureRefs b in
  let* b := indexMonthly env font dims insertOffset monthlyRefs weeklyRefs b in
  let* b := indexDaily env font dims insertOffset dailyRefs b in
  let* b := indexCollections dims insertOffset collectionRefs b in
  ret (mkIndexResult (indexPageCount b) (indexRefs b)).

(** ** navigation.ts: [addMonthlyDateLinks] *)

(** [monthlyPagesByYearMonth]: the calendar references grouped by their
    [yearMonth], in the order the months first occur. *)
Definition groupMonthlyByYearMonth (monthlyRefs : list PageRef)
    : list (string * list PageRef) :=
  foldl (λ grouped ref,
           match JS.truthy (yearMonth ref) with
           | None => grouped
           | Some ym => omSet ym (default [] (omGet ym grouped) ++ [ref]) grouped
           end) [] monthlyRefs.

(** The date key the link pass builds from the parsed year and month. *)
Definition linkDateKey (year month : Z) (day : nat) : string :=
  JS.toStringZ year +:+ "-" +:+ JS.padStart 2 "0" (JS.toStringZ (month + 1))
  +:+ "-" +:+ JS.padStart 2 "0" (JS.toString day).

(** The inner [for] of the split branch; [n] counts the rounds [i] has
    left.  It returns the [dayIndex] it stopped at. *)
Fixpoint linkSplitRows (dims : Dimensions) (density : DensityConfig)
    (registry : PageRegistry) (page : nat) (year month : Z) (daysInMonth : nat)
    (lineHeight : Qc) (n : nat) (dayIndex : nat) (y : Qc) : M nat :=
  match n with
  | O => ret dayIndex
  | S n' =>
      if decide (dayIndex ≤ daysInMonth) then
        let dateKey := linkDateKey year month dayIndex in
        match dailyPages registry !! dateKey with
        | Some dailyPageIndex =>
            createInternalLink page
              (mkRect (left (padding dims) - JS.ofZ 2) (y - JS.ofZ 2) (JS.ofZ 28)
                      (fontSize density + JS.ofZ 4))%Qc
              dailyPageIndex
        | None => ret tt
        end ;;
        linkSplitRows dims density registry page year month daysInMonth lineHeight
          n' (S dayIndex) (y - lineHeight)%Qc
      else ret dayIndex
  end.

(** The loop over the pages of one month in the split branch. *)
Fixpoint linkSplitPages (dims : Dimensions) (density : DensityConfig)
    (registry : PageRegistry) (year month : Z) (daysInMonth : nat)
    (minLineHeight availableHeight : Qc) (daysPerPage : Z)
    (monthPages : list PageRef) (dayIndex : nat) : M unit :=
  match monthPages with
  | [] => ret tt
  | pageRef :: rest =>
      let navFontSize := JS.ofZ 7 in
      let titleFontSize := JS.ofZ 11 in
      let* page := getPage (pageIndex pageRef) in
      let navY := (HEIGHT dims - top (padding dims) - navFontSize - JS.ofZ 2)%Qc in
      let navReturnY := (navY - navFontSize - JS.ofZ 6)%Qc in
      let contentTop := (navReturnY - titleFontSize - JS.ofZ 8)%Qc in
      let daysOnThisPage :=
        Z.min daysPerPage (Z.of_nat daysInMonth - Z.of_nat dayIndex + 1) in
      let lineHeight :=
        JS.Math_max minLineHeight (availableHeight / JS.ofZ daysOnThisPage)%Qc in
      let* dayIndex' :=
        linkSplitRows dims density registry page year month daysInMonth lineHeight
          (Z.to_nat daysOnThisPage) dayIndex contentTop in
      linkSplitPages dims density registry year month daysInMonth
        minLineHeight availableHeight daysPerPage rest dayIndex'
  end.

(** The [for] of the single-page branch; [n] counts the days left. *)
Fixpoint linkCombinedRows (dims : Dimensions) (density : DensityConfig)
    (registry : PageRegistry) (page : nat) (year month : Z)
    (lineHeight : Qc) (n : nat) (day : nat) (y : Qc) : M unit :=
  match n with
  | O => ret tt
  | S n' =>
      let dateKey := linkDateKey year month day in
      match dailyPages registry !! dateKey with
      | Some dailyPageIndex =>
          createInternalLink page
            (mkRect (left (padding dims) - JS.ofZ 2) (y - JS.ofZ 2) (JS.ofZ 28)
                    (fontSize density + JS.ofZ 4))%Qc
            dailyPageIndex
      | None => ret tt
      end ;;
      linkCombinedRows dims density registry page year month lineHeight
        n' (S day) (y - lineHeight)%Qc
  end.

(** The body of the loop over [monthlyPagesByYearMonth].  When the key does
    not parse, [daysInMonth] is NaN: every comparison with it is false, so
    the pages are fetched and no row is visited. *)
Definition linkMonth (dims : Dimensions) (density : DensityConfig)
    (registry : PageRegistry) (group : string * list PageRef) : M unit :=
  let '(yearMonth, monthPages) := group in
  let navFontSize := JS.ofZ 7 in
  let titleFontSize := JS.ofZ 11 in
  let navHeight := JS.ofZ 20 in
  let headerHeight := JS.ofZ 25 in
  let minLineHeight :=
    JS.ofZ (JS.Math_round (lineHeight density * Q2Qc (7 # 10))%Qc) in
  let preferredLineHeight := lineHeight density in
  let availableHeight :=
    (HEIGHT dims - top (padding dims) - bottom (padding dims)
     - navHeight - headerHeight - JS.ofZ 10)%Qc in
  let parts := JS.split "-" yearMonth in
  let year := parts !! 0 ≫= JS.parseInt in
  let month := (λ m, m - 1)%Z <$> (parts !! 1 ≫= JS.parseInt) in
  let daysPerPage := JS.Math_floor (availableHeight / minLineHeight)%Qc in
  match year, month with
  | Some year, Some month =>
      let daysInMonth := Date_day0 year (month + 1) in
      let isSplitLayout :=
        bool_decide (1 < length monthPages)
        || bool_decide (availableHeight < JS.ofNat daysInMonth * preferredLineHeight)%Qc in
      if isSplitLayout then
        linkSplitPages dims density registry year month daysInMonth
          minLineHeight availableHeight daysPerPage monthPages 1
      else
        match monthPages with
        | [] => throw
        | pageRef :: _ =>
            let* page := getPage (pageIndex pageRef) in
            let navY := (HEIGHT dims - top (padding dims) - navFontSize - JS.ofZ 2)%Qc in
            let navReturnY := (navY - navFontSize - JS.ofZ 6)%Qc in
            let contentTop := (navReturnY - titleFontSize - JS.ofZ 8)%Qc in
            let lineHeight :=
              JS.Math_min preferredLineHeight
                ((contentTop - bottom (padding dims) - JS.ofZ 10)
                 / JS.ofNat daysInMonth)%Qc in
            linkCombinedRows dims density registry page year month lineHeight
              daysInMonth 1 contentTop
        end
  | _, _ =>
      if bool_decide (1 < length monthPages) then
        forEach (λ pageRef, getPage (pageIndex pageRef) ;; ret tt) monthPages
      else
        match monthPages with
        | [] => throw
        | pageRef :: _ => getPage (pageIndex pageRef) ;; ret tt
        end
  end.

Definition addMonthlyDateLinks (dims : Dimensions) (pageRefs : list PageRef)
    (registry : PageRegistry) (density : DensityConfig) : M unit :=
  let monthlyRefs := ofType monthly pageRefs in
  if bool_decide (length monthlyRefs = 0) then ret tt
  else forEach (linkMonth dims density registry)
               (groupMonthlyByYearMonth monthlyRefs).

(** ** pdf-generator.ts: the index, the shift and the link passes

    The part of [generatePlannerPDF] that follows the generation of the
    bullet-journal pages when an index is asked for: the index is inserted
    after the cover, at [tocPageIndex = 1]. *)
Definition tocPageIndex : nat := 1.

Definition shiftPageRefs (indexPageCount : nat) (bujoPageRefs : list PageRef)
    : list PageRef :=
  map (addToPageIndex indexPageCount) bujoPageRefs.

Definition addIndexAndNavigation (env : DateEnv) (font : PDFFont) (dims : Dimensions)
    (density : DensityConfig) (bujoPageRefs : list PageRef)
    : M (list PageRef * PageRegistry) :=
  let* indexResult := addBujoIndex env bujoPageRefs font dims 1 in
  let indexPageCount := pageCount indexResult in
  let bujoPageRefs := shiftPageRefs indexPageCount bujoPageRefs in
  let allRefs := resultIndexRefs indexResult ++ bujoPageRefs in
  let registry := buildPageRegistry allRefs tocPageIndex in
  addComprehensiveNavigation font dims allRefs registry ;;
  addMonthlyDateLinks dims allRefs registry density ;;
  ret (allRefs, registry).

(** ** The layout function of the specification

    Section 4.5 of the specification describes one pure function that takes
    the ordered labels and a starting x offset and gives, for each label,
    its [(label, x, width)], with the separator's width between
    neighbours.  The code has no such function: [drawTopNavigation] and
    [addComprehensiveNavigation] each accumulate [navX] on their own.
    [navLayout] is the specification's function; the theorems compare both
    loops with it. *)

Fixpoint navLayout (font : PDFFont) (navFontSize : Qc) (labels : list string)
    (x : Qc) : list (string * Qc * Qc) :=
  match labels with
  | [] => []
  | l :: rest =>
      let w := widthOfTextAtSize font l navFontSize in
      (l, x, w)
      :: navLayout font navFontSize rest
           (x + w + widthOfTextAtSize font navSeparator navFontSize)%Qc
  end.

(** The text runs of a navigation row laid out by [navLayout]: every label
    at its offset, and a separator right after every label but the last. *)
Fixpoint navRowRuns (navFontSize navY : Qc) (layout : list (string * Qc * Qc))
    : list TextRun :=
  match layout with
  | [] => []
  | (l, x, w) :: rest =>
      mkText l x navY navFontSize Helvetica
      :: match rest with
         | [] => []
         | _ :: _ => mkText navSeparator (x + w)%Qc navY navFontSize Helvetica
                     :: navRowRuns navFontSize navY rest
         end
  end.

(** The rectangle laid over a label: two points of slack on either side. *)
Definition navLinkRect (navY linkHeight : Qc) (entry : string * Qc * Qc) : LinkRect :=
  let '(_, x, w) := entry in
  mkRect (x - JS.ofZ 2)%Qc (navY - JS.ofZ 3)%Qc (w + JS.ofZ 4)%Qc linkHeight.

Definition navY_of (dims : Dimensions) : Qc :=
  (HEIGHT dims - top (padding dims) - JS.ofZ 7 - JS.ofZ 2)%Qc.

(** The links that belong on the page of [ref]: one for every navigation
    item whose target resolves, over the item's label and leading to the
    resolved page; none for an item whose target does not resolve. *)
Definition resolvedNavLinks (doc : PDFDocument) (font : PDFFont) (dims : Dimensions)
    (registry : PageRegistry) (ref : PageRef) : list LinkAnnotation :=
  let navItems := getNavItemsForPage ref registry in
  omap (λ '(item, entry),
          targetPage ← resolveNavTarget item ref registry;
          targetPageRef ← pageTree doc !! targetPage;
          Some (linkAnnotationDict (navLinkRect (navY_of dims) (JS.ofZ 12) entry)
                                   targetPageRef))
       (zip navItems
            (navLayout font (JS.ofZ 7) (navLabel <$> navItems) (left (padding dims)))).

(** [doc'] is [doc] with the annotations [added q] appended to every page
    [q], and nothing else changed. *)
Definition annotsAdded (doc doc' : PDFDocument) (added : nat → list LinkAnnotation)
    : Prop :=
  pageTree doc' = pageTree doc
  ∧ pageTexts doc' = pageTexts doc
  ∧ nextRef doc' = nextRef doc
  ∧ ∀ q, annotsOf doc' q = annotsOf doc q ++ added q.

(** [doc'] is [doc] with [k] fresh pages appended and the text runs
    [added q] drawn on every page [q]; the annotations are as before. *)
Definition drawn (doc doc' : PDFDocument) (k : nat) (added : nat → list TextRun)
    : Prop :=
  pageTree doc' = pageTree doc ++ seq (nextRef doc) k
  ∧ pageAnnots doc' = pageAnnots doc
  ∧ nextRef doc' = nextRef doc + k
  ∧ ∀ q, textsOf doc' q = textsOf doc q ++ added q.

Definition onPage {A} (page : nat) (l : list A) : nat → list A :=
  λ q, if decide (q = page) then l else [].

(** ** The rows of a calendar page, in closed form *)

(** Where the rows of a monthly page start: below the navigation row and
    the title. *)
Definition contentTop_of (dims : Dimensions) : Qc :=
  (navY_of dims - JS.ofZ 7 - JS.ofZ 6 - JS.ofZ 11 - JS.ofZ 8)%Qc.

(** The two text runs of the row of day [day] at height [y]: the day
    number and the letter of the day of the week. *)
Definition calendarRow (env : DateEnv) (ctx : BujoGeneratorContext)
    (monthDate : JSDate) (day : nat) (y : Qc) : list TextRun :=
  let date := mkDate (getFullYear monthDate) (getMonth monthDate) day in
  let x := left (padding (dims ctx)) in
  [mkText (JS.padStart 2 " " (JS.toString day)) x y (fontSize (density ctx)) Helvetica;
   mkText (default "" (DAY_ABBREVS !! getDay env date)) (x + JS.ofZ 18)%Qc y
          (fontSize (density ctx)) Helvetica].

(** [n] rows for the days from [firstDay] on, the first at [rowsTop] and
    each [rowHeight] below the one before. *)
Definition calendarRowRuns (env : DateEnv) (ctx : BujoGeneratorContext)
    (monthDate : JSDate) (firstDay n : nat) (rowsTop rowHeight : Qc) : list TextRun :=
  concat ((λ i, calendarRow env ctx monthDate (firstDay + i)
                  (rowsTop - JS.ofNat i * rowHeight)%Qc) <$> seq 0 n).

(** The navigation row and the title that head a page. *)
Definition pageHeaderRuns (font : PDFFont) (dims : Dimensions)
    (labels : list string) (title : string) (titleSize : Qc) : list TextRun :=
  navRowRuns (JS.ofZ 7) (navY_of dims)
             (navLayout font (JS.ofZ 7) labels (left (padding dims)))
  ++ [mkText title (left (padding dims)) (navY_of dims - JS.ofZ 7 - JS.ofZ 6)%Qc
             titleSize HelveticaBold].

(** The number of rows on calendar page [j] (from 0) when [daysInMonth]
    rows are dealt out [rowsPerPage] to a page. *)
Definition rowsOnPage (rowsPerPage daysInMonth j : nat) : nat :=
  rowsPerPage `min` (daysInMonth - j * rowsPerPage).

(** Calendar page [j] (from 0) of a month that is split over several
    pages: its title, the label and the reference it is registered under,
    and what is drawn on it, with the rows stretched over the available
    height. *)
Definition calendarTitle (env : DateEnv) (lay : MonthlyLayout) (monthDate : JSDate)
    (j : nat) : string :=
  format env monthDate "MMMM yyyy"
  +:+ (if bool_decide (1 < calendarPages lay)%Z
       then " (" +:+ JS.toString (j + 1) +:+ "/"
            +:+ JS.toStringZ (calendarPages lay) +:+ ")"
       else "").

Definition calendarPageRef (env : DateEnv) (lay : MonthlyLayout) (monthDate : JSDate)
    (j pageIndex : nat) : PageRef :=
  mkPageRef
    (if bool_decide (1 < calendarPages lay)%Z
     then format env monthDate "MMMM" +:+ " Cal " +:+ JS.toString (j + 1)
     else format env monthDate "MMMM" +:+ " (Calendar)")
    pageIndex monthly (Some monthDate) (Some (getMonth monthDate)) None
    (Some (formatYearMonth monthDate)).

Definition calendarPageRuns (env : DateEnv) (ctx : BujoGeneratorContext)
    (monthDate : JSDate) (lay : MonthlyLayout) (rowsPerPage daysInMonth j : nat)
    : list TextRun :=
  pageHeaderRuns (font ctx) (dims ctx) (getNavLabels monthly (nav ctx))
                 (calendarTitle env lay monthDate j) (JS.ofZ 11)
  ++ calendarRowRuns env ctx monthDate (1 + j * rowsPerPage)
       (rowsOnPage rowsPerPage daysInMonth j) (contentTop_of (dims ctx))
       (availableHeight lay / JS.ofNat (rowsOnPage rowsPerPage daysInMonth j))%Qc.

(** ** Total correctness in the monad

    [total P m Q]: from every document that satisfies [P], [m] returns,
    with a result and a document that satisfy [Q]. *)
Definition total {A} (P : PDFDocument → Prop) (m : M A)
    (Q : A → PDFDocument → Prop) : Prop :=
  ∀ doc, P doc → ∃ a doc', m doc = Some (a, doc') ∧ Q a doc'.

(** ** The invariant of the index builder

    [doc0] is the document the builder starts from and [insertOffset] the
    place of the first index page.  While [b] holds the builder's locals,
    the document is [doc0] with [indexPageCount b] fresh pages at
    [insertOffset]; the current page is one of them; the index references
    count them; and every annotation that was not in [doc0] sits on an
    index page and leads to the page object that one of the references in
    [linked] had in [doc0]. *)
Definition indexLinkOk (doc0 : PDFDocument) (linked : PageRef → Prop)
    (a : LinkAnnotation) : Prop :=
  ∃ r, linked r ∧ pageTree doc0 !! pageIndex r = Some (destPage (annotDest a)).

Definition IndexInv (doc0 : PDFDocument) (insertOffset : nat)
    (linked : PageRef → Prop) (b : IndexBuild) (doc : PDFDocument) : Prop :=
  pageTree doc = take insertOffset (pageTree doc0)
                 ++ seq (nextRef doc0) (indexPageCount b)
                 ++ drop insertOffset (pageTree doc0)
  ∧ nextRef doc = nextRef doc0 + indexPageCount b
  ∧ statePage (state b) ∈ seq (nextRef doc0) (indexPageCount b)
  ∧ pageIndex <$> indexRefs b = seq insertOffset (indexPageCount b)
  ∧ Forall (λ r, type r = index) (indexRefs b)
  ∧ ∀ q a, a ∈ annotsOf doc q →
           a ∈ annotsOf doc0 q
           ∨ (q ∈ seq (nextRef doc0) (indexPageCount b) ∧ indexLinkOk doc0 linked a).

(** A reference the builder may link: it is one of [linked] and its page
    index is that of a page of [doc0] at or after [insertOffset]. *)
Definition linkableRef (doc0 : PDFDocument) (insertOffset : nat)
    (linked : PageRef → Prop) (r : PageRef) : Prop :=
  linked r ∧ insertOffset ≤ pageIndex r < length (pageTree doc0).

(** ** The date links of a calendar page, in closed form *)

(** The rectangle the link pass lays over the row at height [y]. *)
Definition dateLinkRect (dims : Dimensions) (density : DensityConfig) (y : Qc)
    : LinkRect :=
  mkRect (left (padding dims) - JS.ofZ 2)%Qc (y - JS.ofZ 2)%Qc (JS.ofZ 28)
         (fontSize density + JS.ofZ 4)%Qc.

(** The link of the row of day [day] at height [y]: there is one when the
    registry has a daily page for the day; [pages] is the page tree. *)
Definition dateLink (pages : list nat) (dims : Dimensions) (density : DensityConfig)
    (registry : PageRegistry) (year month : Z) (day : nat) (y : Qc)
    : list LinkAnnotation :=
  match dailyPages registry !! linkDateKey year month day ≫= (pages !!.) with
  | Some target => [linkAnnotationDict (dateLinkRect dims density y) target]
  | None => []
  end.

(** The links of [n] rows for the days from [firstDay] on, the first at
    [rowsTop] and each [rowHeight] below the one before. *)
Definition dateLinks (pages : list nat) (dims : Dimensions) (density : DensityConfig)
    (registry : PageRegistry) (year month : Z) (firstDay n : nat)
    (rowsTop rowHeight : Qc) : list LinkAnnotation :=
  concat ((λ i, dateLink pages dims density registry year month (firstDay + i)
                  (rowsTop - JS.ofNat i * rowHeight)%Qc) <$> seq 0 n).

(** Every daily page of the registry is a page of the document. *)
Definition dailyTargetsIn (registry : PageRegistry) (pages : list nat) : Prop :=
  ∀ key t, dailyPages registry !! key = Some t → t < length pages.

(** The calendar references of the month with key [ym], in their order:
    the value of [ym] in [monthlyPagesByYearMonth]. *)
Definition monthGroup (ym : string) (refs : list PageRef) : list PageRef :=
  filter (λ r, JS.truthy (yearMonth r) = Some ym) refs.

(** A string that [split] leaves whole: it has no dash. *)
Definition noDash (s : string) : Prop := JS.split "-" s = [s].

(** ** Documents that only gain links *)

(** [doc'] has the page tree, the text and the page counter of [doc], and on
    every page the annotations of [doc] followed by new ones that all
    satisfy [P]. *)
Definition annotsGrown (P : LinkAnnotation → Prop) (doc doc' : PDFDocument) : Prop :=
  ∃ added, annotsAdded doc doc' added ∧ ∀ q a, a ∈ added q → P a.

(** A link that leads to a page of the page tree [pages]. *)
Definition leadsInto (pages : list nat) (a : LinkAnnotation) : Prop :=
  destPage (annotDest a) ∈ pages.

(** ** hyperlinks.ts: [addNavigationLinks] and [addTocEntryLink] *)

(** [NavigationConfig]; [tocPageIndex] is -1 when there is no index. *)
Record NavigationConfig := mkNavigationConfig {
  configTocPageIndex : Z;
  showPrevNext : bool;
  configNavHeight : Qc;
  configNavWidth : Qc
}.

Definition addNavigationLinks (page : nat) (pageIndex totalPages : nat)
    (config : NavigationConfig) (pageWidth margin : Qc) : M unit :=
  let navY := (margin / JS.ofZ 2)%Qc in
  (if showPrevNext config && bool_decide (0 < pageIndex)
   then createInternalLink page
          (mkRect margin navY (configNavWidth config) (configNavHeight config))
          (pageIndex - 1)
   else ret tt) ;;
  (if bool_decide (0 ≤ configTocPageIndex config)%Z
   then createInternalLink page
          (mkRect (pageWidth / JS.ofZ 2 - configNavWidth config / JS.ofZ 2)%Qc navY
                  (configNavWidth config) (configNavHeight config))
          (Z.to_nat (configTocPageIndex config))
   else ret tt) ;;
  (if showPrevNext config && bool_decide (pageIndex < totalPages - 1)
   then createInternalLink page
          (mkRect (pageWidth - margin - configNavWidth config)%Qc navY
                  (configNavWidth config) (configNavHeight config))
          (pageIndex + 1)
   else ret tt).

Definition addTocEntryLink (tocPage : nat) (entryY : Qc) (targetPageIndex : nat)
    (pageWidth margin lineHeight : Qc) : M unit :=
  createInternalLink tocPage
    (mkRect margin (entryY - lineHeight / JS.ofZ 4)%Qc
            (pageWidth - JS.ofZ 2 * margin)%Qc lineHeight)
    targetPageIndex.

(** ** pdf-generator.ts: the table of contents and the basic navigation *)

(** An entry of [pageRefs : { label: string; pageIndex: number }[]]. *)
Record TocEntry := mkTocEntry {
  entryLabel : string;
  entryPageIndex : nat
}.

(** The loop of [addTableOfContents] over [pageRefs]; it breaks at the
    first entry that would come below [MARGIN + 20]. *)
Fixpoint tocEntries (tocPage : nat) (dims : Dimensions) (lineHeight : Qc)
    (pageRefs : list TocEntry) (y : Qc) : M unit :=
  match pageRefs with
  | [] => ret tt
  | ref :: rest =>
      if decide (y < MARGIN dims + JS.ofZ 20)%Qc then ret tt
      else
        drawText tocPage (mkText (entryLabel ref) (MARGIN dims) y (JS.ofZ 10) Helvetica) ;;
        drawText tocPage
          (mkText (JS.toString (entryPageIndex ref + 2))
                  (WIDTH dims - MARGIN dims - JS.ofZ 20)%Qc y (JS.ofZ 10) Helvetica) ;;
        addTocEntryLink tocPage y (entryPageIndex ref + 1) (WIDTH dims) (MARGIN dims)
          lineHeight ;;
        tocEntries tocPage dims lineHeight rest (y - lineHeight)%Qc
  end.

Definition addTableOfContents (dims : Dimensions) (pageRefs : list TocEntry) : M unit :=
  let topY := (HEIGHT dims - MARGIN dims - TOOLBAR_HEIGHT dims)%Qc in
  let* tocPage := insertPage 1 in
  drawText tocPage
    (mkText "Table of Contents" (MARGIN dims) (topY - JS.ofZ 5)%Qc (JS.ofZ 16)
            HelveticaBold) ;;
  let y := (topY - JS.ofZ 35)%Qc in
  let lineHeight := JS.ofZ 18 in
  tocEntries tocPage dims lineHeight pageRefs y.

(** The loop of [generatePlannerPDF] that gives every page its basic
    navigation. *)
Definition addBasicNavigation (tocIndex : Z) (dims : Dimensions) : M unit :=
  let* totalPages := getPageCount in
  let navConfig := mkNavigationConfig tocIndex true (JS.ofZ 20) (JS.ofZ 40) in
  forEach (λ i, let* page := getPage i in
                addNavigationLinks page i totalPages navConfig (WIDTH dims) (MARGIN dims))
          (seq 0 totalPages).

(** The part of [generatePlannerPDF] after the pages are generated:
    [pageRefs] are the labels and page indices collected, [bujoPageRefs]
    the typed references of a bullet journal ([None] is [null]). *)
Definition addIndexAndLinks (env : DateEnv) (font : PDFFont) (dims : Dimensions)
    (density : DensityConfig) (includeIndex : bool) (pageRefs : list TocEntry)
    (bujoPageRefs : option (list PageRef)) : M unit :=
  let hasRefs := bool_decide (0 < length pageRefs) in
  let* tocIndex :=
    if includeIndex && hasRefs then
      match bujoPageRefs with
      | Some refs => addIndexAndNavigation env font dims density refs ;; ret 1%Z
      | None => addTableOfContents dims pageRefs ;; ret 1%Z
      end
    else ret (-1)%Z in
  if hasRefs then
    match bujoPageRefs with
    | Some _ => if includeIndex then ret tt else addBasicNavigation tocIndex dims
    | None => addBasicNavigation tocIndex dims
    end
  else ret tt.

(** The links [addNavigationLinks] gives the page at [pageIndex] of the
    page tree [pages]: to the page before, when there is one, to the
    index when [tocIndex] is not negative, and to the page after, when
    there is one. *)
Definition basicNavLinks (pages : list nat) (tocIndex : Z) (dims : Dimensions)
    (pageIndex : nat) : list LinkAnnotation :=
  let navY := (MARGIN dims / JS.ofZ 2)%Qc in
  let w := JS.ofZ 40 in
  let h := JS.ofZ 20 in
  (if bool_decide (0 < pageIndex)
   then from_option (λ p, [linkAnnotationDict (mkRect (MARGIN dims) navY w h) p]) []
          (pages !! (pageIndex - 1))
   else [])
  ++ (if bool_decide (0 ≤ tocIndex)%Z
      then from_option
             (λ p, [linkAnnotationDict
                      (mkRect (WIDTH dims / JS.ofZ 2 - w / JS.ofZ 2)%Qc navY w h) p]) []
             (pages !! Z.to_nat tocIndex)
      else [])
  ++ from_option
       (λ p, [linkAnnotationDict
                (mkRect (WIDTH dims - MARGIN dims - w)%Qc navY w h) p]) []
       (pages !! (pageIndex + 1)).

(** [doc'] is [doc] with the text runs [runs] and the links [links]
    appended on [page], and nothing else changed. *)
Definition wroteOn (doc doc' : PDFDocument) (page : nat) (runs : list TextRun)
    (links : list LinkAnnotation) : Prop :=
  pageTree doc' = pageTree doc
  ∧ nextRef doc' = nextRef doc
  ∧ (∀ q, textsOf doc' q = textsOf doc q ++ onPage page runs q)
  ∧ (∀ q, annotsOf doc' q = annotsOf doc q ++ onPage page links q).

(** Row [j] of the table of contents, for the entry [ref], when the first
    row is at [y0]: its label and page number, and its link when the page
    [pageIndex + 1] exists in the page tree [pages]. *)
Definition tocRowY (y0 lineHeight : Qc) (j : nat) : Qc :=
  (y0 - JS.ofNat j * lineHeight)%Qc.

Definition tocRowRuns (dims : Dimensions) (y0 lineHeight : Qc) (j : nat)
    (ref : TocEntry) : list TextRun :=
  [mkText (entryLabel ref) (MARGIN dims) (tocRowY y0 lineHeight j) (JS.ofZ 10) Helvetica;
   mkText (JS.toString (entryPageIndex ref + 2))
          (WIDTH dims - MARGIN dims - JS.ofZ 20)%Qc (tocRowY y0 lineHeight j)
          (JS.ofZ 10) Helvetica].

Definition tocRowLink (pages : list nat) (dims : Dimensions) (y0 lineHeight : Qc)
    (j : nat) (ref : TocEntry) : list LinkAnnotation :=
  from_option
    (λ p, [linkAnnotationDict
             (mkRect (MARGIN dims) (tocRowY y0 lineHeight j - lineHeight / JS.ofZ 4)%Qc
                     (WIDTH dims - JS.ofZ 2 * MARGIN dims)%Qc lineHeight) p])
    [] (pages !! (entryPageIndex ref + 1)).

(** ** The page generators of the other sections *)

(** What the generators take from date-fns beyond [DateEnv]: [addMonths],
    [getWeek] and [endOfWeek] with [weekStartsOn: 0], the three interval
    functions, where [None] is an interval that date-fns rejects with an
    exception, and [formatTime hour] for
    [format(new Date(2000, 0, 1, hour), 'h:mm a')]. *)
Record DateFns := mkDateFns {
  addMonths : JSDate → nat → JSDate;
  getWeek : JSDate → nat;
  endOfWeek : JSDate → JSDate;
  eachMonthOfInterval : JSDate → JSDate → option (list JSDate);
  eachWeekOfInterval : JSDate → JSDate → option (list JSDate);
  eachDayOfInterval : JSDate → JSDate → option (list JSDate);
  formatTime : Z → string
}.

(** The result of a library call that may throw. *)
Definition orThrow {A} (o : option A) : M A := λ doc,
  match o with
  | Some a => Some (a, doc)
  | None => None
  end.

(** navigation.ts, [getWeekNumber]. *)
Definition getWeekNumber (fns : DateFns) (date : JSDate) : nat := getWeek fns date.

(** *** bujo-key.ts *)

Record BulletKeyEntry := mkBulletKey {
  keySymbol : string;
  keyLabel : string;
  keyDescription : string
}.

Definition BULLET_KEY : list BulletKeyEntry :=
  [mkBulletKey "dot" "Task" "Something to be done";
   mkBulletKey "x" "Complete" "Accomplished task";
   mkBulletKey ">" "Migrated" "Moved to future log";
   mkBulletKey "<" "Scheduled" "Moved to specific date";
   mkBulletKey "circle" "Event" "Date-related entry";
   mkBulletKey "-" "Note" "Facts, ideas, thoughts";
   mkBulletKey "*" "Priority" "Important signifier";
   mkBulletKey "!" "Inspiration" "Great ideas to revisit"].

(** [drawBulletSymbol] draws a shape for three of the symbols and says
    whether it did. *)
Definition drawBulletSymbol (symbol : string) : bool :=
  if decide (symbol = "dot") then true
  else if decide (symbol = "circle") then true
  else if decide (symbol = "x") then true
  else false.

(** [for (const entry of BULLET_KEY)]. *)
Fixpoint drawKeyEntries (ctx : BujoGeneratorContext) (page : nat) (lineHeight : Qc)
    (entries : list BulletKeyEntry) (y : Qc) : M unit :=
  match entries with
  | [] => ret tt
  | entry :: rest =>
      let x := left (padding (dims ctx)) in
      (if drawBulletSymbol (keySymbol entry) then ret tt
       else drawText page (mkText (keySymbol entry) x y (JS.ofZ 10) HelveticaBold)) ;;
      drawText page (mkText (keyLabel entry) (x + JS.ofZ 20)%Qc y
                            (fontSize (density ctx)) HelveticaBold) ;;
      drawText page (mkText (keyDescription entry) (x + JS.ofZ 20)%Qc (y - JS.ofZ 10)%Qc
                            (fontSize (density ctx) - JS.ofZ 1)%Qc Helvetica) ;;
      drawKeyEntries ctx page lineHeight rest (y - lineHeight)%Qc
  end.

Definition generateKeyPage (ctx : BujoGeneratorContext) : M PageRef :=
  let pad := padding (dims ctx) in
  let* page := addPage in
  let* count := getPageCount in
  let pageIndex := count - 1 in
  let navLabels := getNavLabels key (nav ctx) in
  let* navY := drawTopNavigation page (font ctx) (dims ctx) navLabels in
  let* contentTop := drawPageTitle page "Key" (dims ctx) navY (JS.ofZ 11) in
  drawText page (mkText "Rapid Logging Signifiers" (left pad) (contentTop + JS.ofZ 2)%Qc
                        (JS.ofZ 7) Helvetica) ;;
  let availableHeight := (contentTop - bottom pad - JS.ofZ 10)%Qc in
  let lineHeight :=
    JS.Math_min (availableHeight / JS.ofNat (length BULLET_KEY))%Qc
                (lineHeight (density ctx) * JS.ofZ 2)%Qc in
  drawKeyEntries ctx page lineHeight BULLET_KEY (contentTop - JS.ofZ 15)%Qc ;;
  ret (mkPageRef "Key" pageIndex key None None None None).

(** *** bujo-future.ts *)

(** [for (let i = 0; i < monthsOnThisPage; i++)]: the month headers of one
    page; [n] counts the rounds left. *)
Fixpoint drawFutureMonths (env : DateEnv) (fns : DateFns) (ctx : BujoGeneratorContext)
    (page : nat) (startDate : JSDate) (startMonth : nat)
    (contentTop actualMonthHeight : Qc) (n i : nat) : M unit :=
  match n with
  | O => ret tt
  | S n' =>
      let monthIndex := startMonth + i in
      let monthDate := addMonths fns startDate monthIndex in
      let monthY := (contentTop - JS.ofNat i * actualMonthHeight)%Qc in
      drawText page (mkText (format env monthDate "MMMM yyyy")
                            (left (padding (dims ctx))) (monthY - JS.ofZ 2)%Qc
                            (fontSize (density ctx)) HelveticaBold) ;;
      drawFutureMonths env fns ctx page startDate startMonth contentTop actualMonthHeight
        n' (S i)
  end.

Definition futureMonthsPerPage (ctx : BujoGeneratorContext) : Z :=
  let pad := padding (dims ctx) in
  let navHeight := JS.ofZ 20 in
  let headerHeight := JS.ofZ 20 in
  let minMonthHeight :=
    JS.ofZ (JS.Math_round (JS.ofZ 70 * spacing (density ctx))%Qc) in
  let availableHeight :=
    (HEIGHT (dims ctx) - top pad - bottom pad - navHeight - headerHeight)%Qc in
  let monthsPerPage :=
    Z.max 2 (JS.Math_floor (availableHeight / minMonthHeight)%Qc) in
  Z.min monthsPerPage 4.

(** [for (let pageNum = 0; pageNum < numPages; pageNum++)]; [n] counts
    the pages left. *)
Fixpoint futureLogLoop (env : DateEnv) (fns : DateFns) (ctx : BujoGeneratorContext)
    (startDate : JSDate) (months : nat) (monthsPerPage : Z)
    (n pageNum : nat) (pageRefs : list PageRef) : M (list PageRef) :=
  match n with
  | O => ret pageRefs
  | S n' =>
      let* page := addPage in
      let* count := getPageCount in
      let pageIndex := count - 1 in
      let navLabels := getNavLabels future (nav ctx) in
      let* navY := drawTopNavigation page (font ctx) (dims ctx) navLabels in
      let pageTitle :=
        if decide (pageNum = 0) then "Future Log"
        else "Future Log (" +:+ JS.toString (pageNum + 1) +:+ ")" in
      let* contentTop := drawPageTitle page pageTitle (dims ctx) navY (JS.ofZ 11) in
      let startMonth := (Z.of_nat pageNum * monthsPerPage)%Z in
      let monthsOnThisPage := Z.min monthsPerPage (Z.of_nat months - startMonth) in
      let actualMonthHeight :=
        ((contentTop - bottom (padding (dims ctx))) / JS.ofZ monthsOnThisPage)%Qc in
      drawFutureMonths env fns ctx page startDate (Z.to_nat startMonth)
        contentTop actualMonthHeight (Z.to_nat monthsOnThisPage) 0 ;;
      futureLogLoop env fns ctx startDate months monthsPerPage n' (S pageNum)
        (pageRefs ++ [mkPageRef pageTitle pageIndex future None None None None])
  end.

Definition generateFutureLog (env : DateEnv) (fns : DateFns) (ctx : BujoGeneratorContext)
    (startDate : JSDate) (months : nat) : M (list PageRef) :=
  let monthsPerPage := futureMonthsPerPage ctx in
  let numPages := JS.Math_ceil (JS.ofNat months / JS.ofZ monthsPerPage)%Qc in
  futureLogLoop env fns ctx startDate months monthsPerPage (Z.to_nat numPages) 0 [].

(** *** bujo-weekly.ts *)

(** Of [drawSection] only the header is text; the separator, the bullets
    and the lines are shapes. *)
Definition drawSection (page : nat) (title : string) (topY leftMargin : Qc) : M unit :=
  drawText page (mkText title leftMargin (topY - JS.ofZ 2)%Qc (JS.ofZ 8) HelveticaBold).

Definition generateWeeklyReview (env : DateEnv) (fns : DateFns)
    (ctx : BujoGeneratorContext) (weekStartDate : JSDate) : M PageRef :=
  let pad := padding (dims ctx) in
  let* page := addPage in
  let* count := getPageCount in
  let pageIndex := count - 1 in
  let weekNum := getWeekNumber fns weekStartDate in
  let weekEnd := endOfWeek fns weekStartDate in
  let navLabels := getNavLabels weekly (nav ctx) in
  let* navY := drawTopNavigation page (font ctx) (dims ctx) navLabels in
  let title := "Week " +:+ JS.toString weekNum in
  let* contentTop := drawPageTitle page title (dims ctx) navY (JS.ofZ 11) in
  let dateRange :=
    format env weekStartDate "MMM d" +:+ " - " +:+ format env weekEnd "MMM d" in
  drawText page (mkText dateRange (left pad) (contentTop + JS.ofZ 2)%Qc
                        (JS.ofZ 7) Helvetica) ;;
  let contentTop := (contentTop - JS.ofZ 8)%Qc in
  let availableHeight := (contentTop - bottom pad)%Qc in
  let sectionHeight := (availableHeight / JS.ofZ 3)%Qc in
  drawSection page "What went well" contentTop (left pad) ;;
  let section2Y := (contentTop - sectionHeight)%Qc in
  drawSection page "What to improve" section2Y (left pad) ;;
  let section3Y := (section2Y - sectionHeight)%Qc in
  drawSection page "Goals for next week" section3Y (left pad) ;;
  ret (mkPageRef ("Week " +:+ JS.toString weekNum) pageIndex weekly
                 (Some weekStartDate) (Some (getMonth weekStartDate)) (Some weekNum)
                 (Some (formatYearMonth weekStartDate))).

(** *** bujo-daily.ts *)

Definition generateDailyLog (env : DateEnv) (fns : DateFns)
    (ctx : BujoGeneratorContext) (date : JSDate) : M PageRef :=
  let* page := addPage in
  let* count := getPageCount in
  let pageIndex := count - 1 in
  let navLabels := getNavLabels daily (nav ctx) in
  let* navY := drawTopNavigation page (font ctx) (dims ctx) navLabels in
  let dateStr := format env date "EEEE MMMM do" in
  let* contentStartY := drawPageTitle page dateStr (dims ctx) navY (JS.ofZ 10) in
  ret (mkPageRef (format env date "EEE, MMM d") pageIndex daily (Some date)
                 (Some (getMonth date)) (Some (getWeekNumber fns date))
                 (Some (formatYearMonth date))).

(** *** bujo-collection.ts *)

(** [for (let i = 0; i < count; i++)]; [n] counts the pages left. *)
Fixpoint collectionPagesLoop (ctx : BujoGeneratorContext) (n i : nat)
    (pageRefs : list PageRef) : M (list PageRef) :=
  match n with
  | O => ret pageRefs
  | S n' =>
      let navLabels := getNavLabels collection (nav ctx) in
      let* page := addPage in
      let* count := getPageCount in
      let pageIndex := count - 1 in
      let* navY := drawTopNavigation page (font ctx) (dims ctx) navLabels in
      let title := "Collection " +:+ JS.toString (i + 1) in
      let* contentTop := drawPageTitle page title (dims ctx) navY (JS.ofZ 10) in
      collectionPagesLoop ctx n' (S i)
        (pageRefs ++ [mkPageRef title pageIndex collection None None None None])
  end.

Definition generateCollectionPages (ctx : BujoGeneratorContext) (count : nat)
    : M (list PageRef) :=
  collectionPagesLoop ctx count 0 [].

(** *** templates/bujo/index.ts: [generateBujoPages] *)

(** [BujoConfig]; the page styles and the dot spacing only choose the
    background shapes. *)
Record BujoConfig := mkBujoConfig {
  includeFutureLog : bool;
  futureLogMonths : nat;
  includeMonthlyLog : bool;
  includeWeeklyReview : bool;
  includeDailyLog : bool;
  includeCollectionPages : nat;
  showBulletKey : bool;
  bujoDensity : DensityLevel
}.

Inductive PlannerType :=
  | bujo | dailyPlanner | weeklyPlanner | monthlyPlanner | dotgrid | lined | blank.

(** [PlannerConfig]; the dark mode and the toolbar position only choose
    colours. *)
Record PlannerConfig := mkPlannerConfig {
  plannerType : PlannerType;
  device : DeviceType;
  startDate : JSDate;
  endDate : JSDate;
  includeWeekends : bool;
  timeStart : Z;
  timeEnd : Z;
  timeInterval : Z;
  includeIndex : bool;
  pageNumbers : bool;
  configTitle : option string;
  bujoConfig : option BujoConfig;
  configPadding : Padding
}.

(** [for (const monthDate of months)]. *)
Fixpoint monthlyLogs (env : DateEnv) (ctx : BujoGeneratorContext)
    (months : list JSDate) (pageRefs : list PageRef) : M (list PageRef) :=
  match months with
  | [] => ret pageRefs
  | monthDate :: rest =>
      let* monthRefs := generateMonthlyLog env ctx monthDate in
      monthlyLogs env ctx rest (pageRefs ++ monthRefs)
  end.

(** [for (const weekStart of weeks)]. *)
Fixpoint weeklyReviews (env : DateEnv) (fns : DateFns) (ctx : BujoGeneratorContext)
    (weeks : list JSDate) (pageRefs : list PageRef) : M (list PageRef) :=
  match weeks with
  | [] => ret pageRefs
  | weekStart :: rest =>
      let* weekRef := generateWeeklyReview env fns ctx weekStart in
      weeklyReviews env fns ctx rest (pageRefs ++ [weekRef])
  end.

(** [for (const day of days)], which skips the weekends if asked to. *)
Fixpoint dailyLogs (env : DateEnv) (fns : DateFns) (ctx : BujoGeneratorContext)
    (includeWeekends : bool) (days : list JSDate) (pageRefs : list PageRef)
    : M (list PageRef) :=
  match days with
  | [] => ret pageRefs
  | day :: rest =>
      let dayOfWeek := getDay env day in
      if negb includeWeekends
         && (bool_decide (dayOfWeek = 0) || bool_decide (dayOfWeek = 6))
      then dailyLogs env fns ctx includeWeekends rest pageRefs
      else
        let* dailyRef := generateDailyLog env fns ctx day in
        dailyLogs env fns ctx includeWeekends rest (pageRefs ++ [dailyRef])
  end.

Definition generateBujoPages (env : DateEnv) (fns : DateFns) (config : PlannerConfig)
    (font : PDFFont) (dims : Dimensions) : M (list PageRef) :=
  match bujoConfig config with
  | None => ret []
  | Some bujoConfig =>
      let density := DENSITY_CONFIGS (bujoDensity bujoConfig) in
      let nav := mkNavContext (includeFutureLog bujoConfig) (includeMonthlyLog bujoConfig)
                              (includeWeeklyReview bujoConfig)
                              (includeDailyLog bujoConfig) in
      let ctx := mkCtx font dims density nav in
      let pageRefs := [] in
      let* pageRefs :=
        if showBulletKey bujoConfig then
          let* keyRef := generateKeyPage ctx in
          ret (pageRefs ++ [keyRef])
        else ret pageRefs in
      let* pageRefs :=
        if includeFutureLog bujoConfig then
          let* futureRefs :=
            generateFutureLog env fns ctx (startDate config)
              (futureLogMonths bujoConfig) in
          ret (pageRefs ++ futureRefs)
        else ret pageRefs in
      let* pageRefs :=
        if includeMonthlyLog bujoConfig then
          let* months :=
            orThrow (eachMonthOfInterval fns (startDate config) (endDate config)) in
          monthlyLogs env ctx months pageRefs
        else ret pageRefs in
      let* pageRefs :=
        if includeWeeklyReview bujoConfig then
          let* weeks :=
            orThrow (eachWeekOfInterval fns (startDate config) (endDate config)) in
          weeklyReviews env fns ctx weeks pageRefs
        else ret pageRefs in
      let* pageRefs :=
        if includeDailyLog bujoConfig then
          let* days :=
            orThrow (eachDayOfInterval fns (startDate config) (endDate config)) in
          dailyLogs env fns ctx (includeWeekends config) days pageRefs
        else ret pageRefs in
      let* pageRefs :=
        if bool_decide (0 < includeCollectionPages bujoConfig) then
          let* collectionRefs :=
            generateCollectionPages ctx (includeCollectionPages bujoConfig) in
          ret (pageRefs ++ collectionRefs)
        else ret pageRefs in
      ret pageRefs
  end.

(** [doc'] is [doc] with [n] fresh pages appended behind its pages:
    the annotations and the text of the pages there were are as before. *)
Definition appendedPages (doc doc' : PDFDocument) (n : nat) : Prop :=
  pageTree doc' = pageTree doc ++ seq (nextRef doc) n
  ∧ pageAnnots doc' = pageAnnots doc
  ∧ nextRef doc' = nextRef doc + n
  ∧ ∀ q, q < nextRef doc → textsOf doc' q = textsOf doc q.

(** The references [refs] lead to the [n] pages from position [base] on,
    to every one of them, and in the order of the pages. *)
Definition refsCover (base n : nat) (refs : list PageRef) : Prop :=
  Forall (λ r, base ≤ pageIndex r < base + n) refs
  ∧ (∀ i, i < n → ∃ r, r ∈ refs ∧ pageIndex r = base + i)
  ∧ ∀ i j r r', i ≤ j → refs !! i = Some r → refs !! j = Some r' →
      pageIndex r ≤ pageIndex r'.

(** A step of [generateBujoPages]: from the references collected so far
    it returns them with the references of the pages it appends, which
    all satisfy [P]. *)
Definition generatesPages (P : PageRef → Prop) (m : list PageRef → M (list PageRef))
    : Prop :=
  ∀ pageRefs doc, ∃ refs doc' n,
    m pageRefs doc = Some (pageRefs ++ refs, doc')
    ∧ appendedPages doc doc' n
    ∧ refsCover (length (pageTree doc)) n refs
    ∧ Forall P refs.

(** The section of the journal a page of type [t] belongs to is switched
    on in [bujoConfig]. *)
Definition sectionIncluded (bujoConfig : BujoConfig) (t : PageType) : Prop :=
  match t with
  | key => showBulletKey bujoConfig = true
  | future => includeFutureLog bujoConfig = true
  | monthly | monthly_tasks => includeMonthlyLog bujoConfig = true
  | weekly => includeWeeklyReview bujoConfig = true
  | daily => includeDailyLog bujoConfig = true
  | collection => 0 < includeCollectionPages bujoConfig
  | index => False
  end.

(** *** The future log in closed form *)

Definition futurePageTitle (pageNum : nat) : string :=
  if decide (pageNum = 0) then "Future Log"
  else "Future Log (" +:+ JS.toString (pageNum + 1) +:+ ")".

Definition futurePageRef (pageNum pageIndex : nat) : PageRef :=
  mkPageRef (futurePageTitle pageNum) pageIndex future None None None None.

(** The number of months on page [j] (from 0) of the future log. *)
Definition monthsOnPage (monthsPerPage months j : nat) : nat :=
  monthsPerPage `min` (months - j * monthsPerPage).

(** The header of month [startMonth + i], the [i]-th of its page. *)
Definition futureMonthRun (env : DateEnv) (fns : DateFns) (ctx : BujoGeneratorContext)
    (startDate : JSDate) (startMonth : nat) (contentTop h : Qc) (i : nat) : TextRun :=
  mkText (format env (addMonths fns startDate (startMonth + i)) "MMMM yyyy")
         (left (padding (dims ctx))) (contentTop - JS.ofNat i * h - JS.ofZ 2)%Qc
         (fontSize (density ctx)) HelveticaBold.

(** What is drawn on page [j] of the future log: the navigation row, the
    title and the headers of its months, which share the height between
    the title and the bottom padding. *)
Definition futurePageRuns (env : DateEnv) (fns : DateFns) (ctx : BujoGeneratorContext)
    (startDate : JSDate) (months j : nat) : list TextRun :=
  let monthsPerPage := Z.to_nat (futureMonthsPerPage ctx) in
  let n := monthsOnPage monthsPerPage months j in
  let contentTop := contentTop_of (dims ctx) in
  let h := ((contentTop - bottom (padding (dims ctx))) / JS.ofNat n)%Qc in
  pageHeaderRuns (font ctx) (dims ctx) (getNavLabels future (nav ctx))
                 (futurePageTitle j) (JS.ofZ 11)
  ++ (futureMonthRun env fns ctx startDate (j * monthsPerPage) contentTop h
      <$> seq 0 n).

(** ** pdf-generator.ts: the cover, the standard planners and
    [generatePlannerPDF] *)

Definition getPlannerTypeName (t : PlannerType) : string :=
  match t with
  | bujo => "Bullet Journal"
  | dailyPlanner => "Daily Planner"
  | weeklyPlanner => "Weekly Planner"
  | monthlyPlanner => "Monthly Planner"
  | dotgrid => "Dot Grid Notebook"
  | lined => "Lined Notebook"
  | blank => "Notebook"
  end.

Definition generateCoverPage (env : DateEnv) (config : PlannerConfig)
    (font fontBold : PDFFont) (dims : Dimensions) : M unit :=
  let* page := addPage in
  let centerX := (WIDTH dims / JS.ofZ 2)%Qc in
  let centerY := (HEIGHT dims / JS.ofZ 2)%Qc in
  let title :=
    match JS.truthy (configTitle config) with
    | Some t => t
    | None => getPlannerTypeName (plannerType config)
    end in
  let titleSize := JS.Math_min (JS.ofZ 24) (WIDTH dims / JS.ofZ 12)%Qc in
  let titleWidth := widthOfTextAtSize fontBold title titleSize in
  drawText page (mkText title (centerX - titleWidth / JS.ofZ 2)%Qc
                        (centerY + JS.ofZ 20)%Qc titleSize HelveticaBold) ;;
  let dateRangeText :=
    format env (startDate config) "MMMM d, yyyy" +:+ " - "
    +:+ format env (endDate config) "MMMM d, yyyy" in
  let subtitleSize := JS.Math_min (JS.ofZ 10) (WIDTH dims / JS.ofZ 30)%Qc in
  let subtitleWidth := widthOfTextAtSize font dateRangeText subtitleSize in
  drawText page (mkText dateRangeText (centerX - subtitleWidth / JS.ofZ 2)%Qc
                        (centerY - JS.ofZ 10)%Qc subtitleSize Helvetica).

(** [if (config.pageNumbers) page.drawText(`${pageIndex + 1}`, ...)]. *)
Definition drawPageNumber (config : PlannerConfig) (dims : Dimensions)
    (page pageIndex : nat) : M unit :=
  if pageNumbers config then
    drawText page (mkText (JS.toString (pageIndex + 1))
                          (WIDTH dims - MARGIN dims - JS.ofZ 20)%Qc
                          (MARGIN dims / JS.ofZ 2)%Qc (JS.ofZ 8) Helvetica)
  else ret tt.

(** *** [generateDailyPages] *)

(** [for (let hour = config.timeStart; hour <= config.timeEnd; hour++)];
    [n] counts the hours left. *)
Fixpoint drawTimeSlots (fns : DateFns) (config : PlannerConfig) (dims : Dimensions)
    (page : nat) (n : nat) (hour : Z) (y : Qc) : M unit :=
  match n with
  | O => ret tt
  | S n' =>
      let slotHeight := JS.ofZ 24 in
      drawText page (mkText (formatTime fns hour) (MARGIN dims) y (JS.ofZ 10) Helvetica) ;;
      let y := (y - slotHeight)%Qc in
      let y :=
        if bool_decide (timeInterval config = 30%Z)
           && bool_decide (hour < timeEnd config)%Z
        then (y - slotHeight)%Qc else y in
      drawTimeSlots fns config dims page n' (hour + 1)%Z y
  end.

(** [for (const day of days)]. *)
Fixpoint dailyPagesLoop (env : DateEnv) (fns : DateFns) (config : PlannerConfig)
    (dims : Dimensions) (days : list JSDate) (pageRefs : list TocEntry)
    : M (list TocEntry) :=
  match days with
  | [] => ret pageRefs
  | day :: rest =>
      let topY := (HEIGHT dims - MARGIN dims - TOOLBAR_HEIGHT dims)%Qc in
      let dayOfWeek := getDay env day in
      if negb (includeWeekends config)
         && (bool_decide (dayOfWeek = 0) || bool_decide (dayOfWeek = 6))
      then dailyPagesLoop env fns config dims rest pageRefs
      else
        let* page := addPage in
        let* count := getPageCount in
        let pageIndex := count - 1 in
        let pageRefs := pageRefs ++ [mkTocEntry (format env day "EEE, MMM d") pageIndex] in
        drawText page (mkText (format env day "EEEE, MMMM d, yyyy") (MARGIN dims)
                              (topY - JS.ofZ 16)%Qc (JS.ofZ 14) HelveticaBold) ;;
        drawTimeSlots fns config dims page
          (Z.to_nat (timeEnd config - timeStart config + 1)) (timeStart config)
          (topY - JS.ofZ 50)%Qc ;;
        drawPageNumber config dims page pageIndex ;;
        dailyPagesLoop env fns config dims rest pageRefs
  end.

Definition generateDailyPages (env : DateEnv) (fns : DateFns) (config : PlannerConfig)
    (dims : Dimensions) (pageRefs : list TocEntry) : M (list TocEntry) :=
  let* days := orThrow (eachDayOfInterval fns (startDate config) (endDate config)) in
  dailyPagesLoop env fns config dims days pageRefs.

(** *** [generateWeeklyPages] *)

(** [for (let i = 0; i < daysToShow; i++)]: the headers of the columns;
    [n] counts the columns left.  A missing name makes [drawText]
    throw. *)
Fixpoint drawDayColumns (dims : Dimensions) (page : nat) (dayNames : list string)
    (colWidth topY : Qc) (n i : nat) : M unit :=
  match n with
  | O => ret tt
  | S n' =>
      let x := (MARGIN dims + JS.ofNat i * colWidth)%Qc in
      match dayNames !! i with
      | Some name =>
          drawText page (mkText name (x + JS.ofZ 4)%Qc (topY - JS.ofZ 40)%Qc
                                (JS.ofZ 10) HelveticaBold)
      | None => throw
      end ;;
      drawDayColumns dims page dayNames colWidth topY n' (S i)
  end.

(** [for (const weekStart of weeks)]. *)
Fixpoint weeklyPagesLoop (env : DateEnv) (config : PlannerConfig) (dims : Dimensions)
    (weeks : list JSDate) (pageRefs : list TocEntry) : M (list TocEntry) :=
  match weeks with
  | [] => ret pageRefs
  | weekStart :: rest =>
      let topY := (HEIGHT dims - MARGIN dims - TOOLBAR_HEIGHT dims)%Qc in
      let* page := addPage in
      let* count := getPageCount in
      let pageIndex := count - 1 in
      let pageRefs :=
        pageRefs ++ [mkTocEntry ("Week of " +:+ format env weekStart "MMM d") pageIndex] in
      drawText page (mkText ("Week of " +:+ format env weekStart "MMMM d, yyyy")
                            (MARGIN dims) (topY - JS.ofZ 16)%Qc (JS.ofZ 14)
                            HelveticaBold) ;;
      let daysToShow := if includeWeekends config then 7 else 5 in
      let colWidth :=
        ((WIDTH dims - JS.ofZ 2 * MARGIN dims) / JS.ofNat daysToShow)%Qc in
      let dayNames :=
        if includeWeekends config
        then ["Sun"; "Mon"; "Tue"; "Wed"; "Thu"; "Fri"; "Sat"]
        else ["Mon"; "Tue"; "Wed"; "Thu"; "Fri"] in
      drawDayColumns dims page dayNames colWidth topY daysToShow 0 ;;
      drawText page (mkText "Notes" (MARGIN dims) (MARGIN dims + JS.ofZ 30)%Qc
                            (JS.ofZ 10) HelveticaBold) ;;
      drawPageNumber config dims page pageIndex ;;
      weeklyPagesLoop env config dims rest pageRefs
  end.

Definition generateWeeklyPages (env : DateEnv) (fns : DateFns) (config : PlannerConfig)
    (dims : Dimensions) (pageRefs : list TocEntry) : M (list TocEntry) :=
  let* weeks := orThrow (eachWeekOfInterval fns (startDate config) (endDate config)) in
  weeklyPagesLoop env config dims weeks pageRefs.

(** *** [generateMonthlyPages] *)

(** [new Date(year, month, 1)] for a month index in 0..11: a year in
    0..99 is read as 1900 + year. *)
Definition Date_first (year month : nat) : JSDate :=
  mkDate (if year <=? 99 then 1900 + year else year) month 1.

(** [for (let col = 0; col < 7; col++)] of one row of the grid; [n]
    counts the columns left.  It returns the next day to draw. *)
Fixpoint drawGridCols (dims : Dimensions) (page : nat) (colWidth y : Qc)
    (firstDay daysInMonth row : nat) (n col day : nat) : M nat :=
  match n with
  | O => ret day
  | S n' =>
      let x := (MARGIN dims + JS.ofNat col * colWidth)%Qc in
      let* day :=
        if (bool_decide (row = 0) && bool_decide (firstDay ≤ col))
           || bool_decide (0 < row)
        then
          if bool_decide (day ≤ daysInMonth) then
            drawText page (mkText (JS.toString day) (x + JS.ofZ 4)%Qc (y - JS.ofZ 14)%Qc
                                  (JS.ofZ 10) Helvetica) ;;
            ret (day + 1)
          else ret day
        else ret day in
      drawGridCols dims page colWidth y firstDay daysInMonth row n' (S col) day
  end.

(** [for (let row = 0; row < 6 && day <= daysInMonth; row++)]; [n] counts
    the rows left. *)
Fixpoint drawGridRows (dims : Dimensions) (page : nat) (colWidth rowHeight topY : Qc)
    (firstDay daysInMonth : nat) (n row day : nat) : M unit :=
  match n with
  | O => ret tt
  | S n' =>
      if bool_decide (day ≤ daysInMonth) then
        let y := (topY - JS.ofZ 60 - JS.ofNat row * rowHeight)%Qc in
        let* day := drawGridCols dims page colWidth y firstDay daysInMonth row 7 0 day in
        drawGridRows dims page colWidth rowHeight topY firstDay daysInMonth n' (S row) day
      else ret tt
  end.

(** [for (let i = 0; i < 7; i++)]: the names of the days over the grid. *)
Fixpoint drawDayNames (dims : Dimensions) (page : nat) (dayNames : list string)
    (colWidth topY : Qc) (n i : nat) : M unit :=
  match n with
  | O => ret tt
  | S n' =>
      match dayNames !! i with
      | Some name =>
          drawText page
            (mkText name
                    (MARGIN dims + JS.ofNat i * colWidth + colWidth / JS.ofZ 2
                     - JS.ofZ 10)%Qc
                    (topY - JS.ofZ 45)%Qc (JS.ofZ 9) HelveticaBold)
      | None => throw
      end ;;
      drawDayNames dims page dayNames colWidth topY n' (S i)
  end.

(** [for (const monthStart of months)]. *)
Fixpoint monthlyPagesLoop (env : DateEnv) (config : PlannerConfig) (dims : Dimensions)
    (months : list JSDate) (pageRefs : list TocEntry) : M (list TocEntry) :=
  match months with
  | [] => ret pageRefs
  | monthStart :: rest =>
      let topY := (HEIGHT dims - MARGIN dims - TOOLBAR_HEIGHT dims)%Qc in
      let* page := addPage in
      let* count := getPageCount in
      let pageIndex := count - 1 in
      let pageRefs := pageRefs ++ [mkTocEntry (format env monthStart "MMMM yyyy") pageIndex] in
      drawText page (mkText (format env monthStart "MMMM yyyy") (MARGIN dims)
                            (topY - JS.ofZ 16)%Qc (JS.ofZ 16) HelveticaBold) ;;
      let colWidth := ((WIDTH dims - JS.ofZ 2 * MARGIN dims) / JS.ofZ 7)%Qc in
      let availableHeight := (topY - MARGIN dims - JS.ofZ 80)%Qc in
      let rowHeight := JS.Math_min (JS.ofZ 60) (availableHeight / JS.ofZ 6)%Qc in
      let dayNames := ["Sun"; "Mon"; "Tue"; "Wed"; "Thu"; "Fri"; "Sat"] in
      drawDayNames dims page dayNames colWidth topY 7 0 ;;
      let year := getFullYear monthStart in
      let month := getMonth monthStart in
      let firstDay := getDay env (Date_first year month) in
      let daysInMonth := Date_day0 (Z.of_nat year) (Z.of_nat month + 1) in
      drawGridRows dims page colWidth rowHeight topY firstDay daysInMonth 6 0 1 ;;
      drawPageNumber config dims page pageIndex ;;
      monthlyPagesLoop env config dims rest pageRefs
  end.

Definition generateMonthlyPages (env : DateEnv) (fns : DateFns) (config : PlannerConfig)
    (dims : Dimensions) (pageRefs : list TocEntry) : M (list TocEntry) :=
  let* months := orThrow (eachMonthOfInterval fns (startDate config) (endDate config)) in
  monthlyPagesLoop env config dims months pageRefs.

(** *** The notebooks: dots and lines are shapes, so that of
    [generateDotGridPages], [generateLinedPages] and [generateBlankPages]
    the pages are left. *)
Fixpoint addPages (count : nat) : M unit :=
  match count with
  | O => ret tt
  | S n => addPage ;; addPages n
  end.

Definition generateDotGridPages (count : nat) : M unit := addPages count.
Definition generateLinedPages (count : nat) : M unit := addPages count.
Definition generateBlankPages (count : nat) : M unit := addPages count.

(** *** [generatePlannerPDF] *)

(** [PDFDocument.create()]. *)
Definition emptyDocument : PDFDocument := mkDoc [] ∅ ∅ 0.

Definition generatePlannerPDF (env : DateEnv) (fns : DateFns) (font fontBold : PDFFont)
    (config : PlannerConfig) : M unit :=
  let dims := getDeviceDimensions (device config) (configPadding config) in
  generateCoverPage env config font fontBold dims ;;
  let pageRefs : list TocEntry := [] in
  let* generated :=
    match plannerType config with
    | bujo =>
        let* bujoPageRefs := generateBujoPages env fns config font dims in
        ret (pageRefs ++ ((λ ref, mkTocEntry (label ref) (pageIndex ref)) <$> bujoPageRefs),
             Some bujoPageRefs)
    | dailyPlanner =>
        let* pageRefs := generateDailyPages env fns config dims pageRefs in
        ret (pageRefs, None)
    | weeklyPlanner =>
        let* pageRefs := generateWeeklyPages env fns config dims pageRefs in
        ret (pageRefs, None)
    | monthlyPlanner =>
        let* pageRefs := generateMonthlyPages env fns config dims pageRefs in
        ret (pageRefs, None)
    | dotgrid => generateDotGridPages 50 ;; ret (pageRefs, None)
    | lined => generateLinedPages 50 ;; ret (pageRefs, None)
    | blank => generateBlankPages 50 ;; ret (pageRefs, None)
    end in
  let densityLevel :=
    match bujoConfig config with
    | Some bujoConfig => bujoDensity bujoConfig
    | None => normal
    end in
  addIndexAndLinks env font dims (DENSITY_CONFIGS densityLevel) (includeIndex config)
    generated.1 generated.2.

(** *** The standard planners in closed form *)

(** The loop the three generators share: a page for every item, an entry
    for the table of contents, and the content of the page. *)
Fixpoint pagesLoop {A} (entryLabelOf : A → string) (body : A → nat → nat → M unit)
    (items : list A) (pageRefs : list TocEntry) : M (list TocEntry) :=
  match items with
  | [] => ret pageRefs
  | item :: rest =>
      let* page := addPage in
      let* count := getPageCount in
      let pageIndex := count - 1 in
      let pageRefs := pageRefs ++ [mkTocEntry (entryLabelOf item) pageIndex] in
      body item page pageIndex ;;
      pagesLoop entryLabelOf body rest pageRefs
  end.

(** [m] returns and only draws text on [page]: runs that satisfy [Q]. *)
Definition writesOn (page : nat) (m : M unit) (Q : list TextRun → Prop) : Prop :=
  ∀ doc, ∃ doc' runs,
    m doc = Some (tt, doc') ∧ drawn doc doc' 0 (onPage page runs) ∧ Q runs.

(** The page number at the foot of a page. *)
Definition pageNumberRun (dims : Dimensions) (pageIndex : nat) : TextRun :=
  mkText (JS.toString (pageIndex + 1)) (WIDTH dims - MARGIN dims - JS.ofZ 20)%Qc
         (MARGIN dims / JS.ofZ 2)%Qc (JS.ofZ 8) Helvetica.

(** The days [generateDailyPages] makes a page for. *)
Definition keepsDay (env : DateEnv) (config : PlannerConfig) (day : JSDate) : bool :=
  negb (negb (includeWeekends config)
        && (bool_decide (getDay env day = 0) || bool_decide (getDay env day = 6))).

(** The days, weeks or months a daily, weekly or monthly planner has a
    page for, and the label of the entry of one of them. *)
Definition standardItems (env : DateEnv) (fns : DateFns) (config : PlannerConfig)
    : option (list JSDate) :=
  match plannerType config with
  | dailyPlanner =>
      List.filter (keepsDay env config)
        <$> eachDayOfInterval fns (startDate config) (endDate config)
  | weeklyPlanner => eachWeekOfInterval fns (startDate config) (endDate config)
  | monthlyPlanner => eachMonthOfInterval fns (startDate config) (endDate config)
  | _ => None
  end.

Definition standardLabel (env : DateEnv) (config : PlannerConfig) (item : JSDate)
    : string :=
  match plannerType config with
  | dailyPlanner => format env item "EEE, MMM d"
  | weeklyPlanner => "Week of " +:+ format env item "MMM d"
  | _ => format env item "MMMM yyyy"
  end.

(** The number of day [day] in the grid of a monthly page whose first day
    falls on day [firstDay] of the week: in the row and the column of
    its cell. *)
Definition gridDayRun (dims : Dimensions) (colWidth rowHeight topY : Qc)
    (firstDay day : nat) : TextRun :=
  let cell := firstDay + day - 1 in
  mkText (JS.toString day)
         (MARGIN dims + JS.ofNat (cell `mod` 7) * colWidth + JS.ofZ 4)%Qc
         (topY - JS.ofZ 60 - JS.ofNat (cell / 7) * rowHeight - JS.ofZ 14)%Qc
         (JS.ofZ 10) Helvetica.

(** What the grid loops draw for the cell [cell], counted row by row. *)
Definition gridCellRun (dims : Dimensions) (colWidth rowHeight topY : Qc)
    (firstDay daysInMonth cell : nat) : option TextRun :=
  if bool_decide (firstDay ≤ cell ∧ cell - firstDay + 1 ≤ daysInMonth)
  then Some (gridDayRun dims colWidth rowHeight topY firstDay (cell - firstDay + 1))
  else None.

(** What the three generators draw on the page of an item. *)
Definition dailyPageBody (env : DateEnv) (fns : DateFns) (config : PlannerConfig)
    (dims : Dimensions) (day : JSDate) (page pageIndex : nat) : M unit :=
  let topY := (HEIGHT dims - MARGIN dims - TOOLBAR_HEIGHT dims)%Qc in
  drawText page (mkText (format env day "EEEE, MMMM d, yyyy") (MARGIN dims)
                        (topY - JS.ofZ 16)%Qc (JS.ofZ 14) HelveticaBold) ;;
  drawTimeSlots fns config dims page
    (Z.to_nat (timeEnd config - timeStart config + 1)) (timeStart config)
    (topY - JS.ofZ 50)%Qc ;;
  drawPageNumber config dims page pageIndex.

Definition weeklyPageBody (env : DateEnv) (config : PlannerConfig) (dims : Dimensions)
    (weekStart : JSDate) (page pageIndex : nat) : M unit :=
  let topY := (HEIGHT dims - MARGIN dims - TOOLBAR_HEIGHT dims)%Qc in
  drawText page (mkText ("Week of " +:+ format env weekStart "MMMM d, yyyy")
                        (MARGIN dims) (topY - JS.ofZ 16)%Qc (JS.ofZ 14)
                        HelveticaBold) ;;
  let daysToShow := if includeWeekends config then 7 else 5 in
  let colWidth :=
    ((WIDTH dims - JS.ofZ 2 * MARGIN dims) / JS.ofNat daysToShow)%Qc in
  let dayNames :=
    if includeWeekends config
    then ["Sun"; "Mon"; "Tue"; "Wed"; "Thu"; "Fri"; "Sat"]
    else ["Mon"; "Tue"; "Wed"; "Thu"; "Fri"] in
  drawDayColumns dims page dayNames colWidth topY daysToShow 0 ;;
  drawText page (mkText "Notes" (MARGIN dims) (MARGIN dims + JS.ofZ 30)%Qc
                        (JS.ofZ 10) HelveticaBold) ;;
  drawPageNumber config dims page pageIndex.

Definition monthlyPageBody (env : DateEnv) (config : PlannerConfig) (dims : Dimensions)
    (monthStart : JSDate) (page pageIndex : nat) : M unit :=
  let topY := (HEIGHT dims - MARGIN dims - TOOLBAR_HEIGHT dims)%Qc in
  drawText page (mkText (format env monthStart "MMMM yyyy") (MARGIN dims)
                        (topY - JS.ofZ 16)%Qc (JS.ofZ 16) HelveticaBold) ;;
  let colWidth := ((WIDTH dims - JS.ofZ 2 * MARGIN dims) / JS.ofZ 7)%Qc in
  let availableHeight := (topY - MARGIN dims - JS.ofZ 80)%Qc in
  let rowHeight := JS.Math_min (JS.ofZ 60) (availableHeight / JS.ofZ 6)%Qc in
  let dayNames := ["Sun"; "Mon"; "Tue"; "Wed"; "Thu"; "Fri"; "Sat"] in
  drawDayNames dims page dayNames colWidth topY 7 0 ;;
  let year := getFullYear monthStart in
  let month := getMonth monthStart in
  let firstDay := getDay env (Date_first year month) in
  let daysInMonth := Date_day0 (Z.of_nat year) (Z.of_nat month + 1) in
  drawGridRows dims page colWidth rowHeight topY firstDay daysInMonth 6 0 1 ;;
  drawPageNumber config dims page pageIndex.

(** The name of day [i] of the week over its column of the grid. *)
Definition dayNameRun (dims : Dimensions) (colWidth topY : Qc) (i : nat) (name : string)
    : TextRun :=
  mkText name
         (MARGIN dims + JS.ofNat i * colWidth + colWidth / JS.ofZ 2 - JS.ofZ 10)%Qc
         (topY - JS.ofZ 45)%Qc (JS.ofZ 9) HelveticaBold.

(** The page of a month in a monthly planner: the month, the names of
    the days, every day of the month in its cell and the page number. *)
Definition monthlyPageRuns (env : DateEnv) (config : PlannerConfig) (dims : Dimensions)
    (monthStart : JSDate) (pageIndex : nat) : list TextRun :=
  let topY := (HEIGHT dims - MARGIN dims - TOOLBAR_HEIGHT dims)%Qc in
  let colWidth := ((WIDTH dims - JS.ofZ 2 * MARGIN dims) / JS.ofZ 7)%Qc in
  let rowHeight :=
    JS.Math_min (JS.ofZ 60) ((topY - MARGIN dims - JS.ofZ 80) / JS.ofZ 6)%Qc in
  let firstDay :=
    getDay env (Date_first (getFullYear monthStart) (getMonth monthStart)) in
  let daysInMonth :=
    Date_day0 (Z.of_nat (getFullYear monthStart)) (Z.of_nat (getMonth monthStart) + 1) in
  [mkText (format env monthStart "MMMM yyyy") (MARGIN dims) (topY - JS.ofZ 16)%Qc
          (JS.ofZ 16) HelveticaBold]
  ++ imap (dayNameRun dims colWidth topY) ["Sun"; "Mon"; "Tue"; "Wed"; "Thu"; "Fri"; "Sat"]
  ++ (gridDayRun dims colWidth rowHeight topY firstDay <$> seq 1 daysInMonth)
  ++ (if pageNumbers config then [pageNumberRun dims pageIndex] else []).

(** [doc'] is [doc] with the page of the table of contents inserted at
    position 1: on it the title and the rows of the first [k] entries of
    [pageRefs], where [k] is the number of rows that fit. *)
Definition tocInserted (dims : Dimensions) (pageRefs : list TocEntry)
    (doc doc' : PDFDocument) (k : nat) : Prop :=
  let tocPage := nextRef doc in
  let y0 := (HEIGHT dims - MARGIN dims - TOOLBAR_HEIGHT dims - JS.ofZ 35)%Qc in
  let lineHeight := JS.ofZ 18 in
  let pages' := take 1 (pageTree doc) ++ tocPage :: drop 1 (pageTree doc) in
  pageTree doc' = pages'
  ∧ nextRef doc' = S (nextRef doc)
  ∧ k ≤ length pageRefs
  ∧ (∀ j, j < k → ¬ (tocRowY y0 lineHeight j < MARGIN dims + JS.ofZ 20)%Qc)
  ∧ (k < length pageRefs → (tocRowY y0 lineHeight k < MARGIN dims + JS.ofZ 20)%Qc)
  ∧ (∀ q, textsOf doc' q
          = textsOf doc q
            ++ onPage tocPage
                 (mkText "Table of Contents" (MARGIN dims)
                         (HEIGHT dims - MARGIN dims - TOOLBAR_HEIGHT dims - JS.ofZ 5)%Qc
                         (JS.ofZ 16) HelveticaBold
                  :: concat (imap (tocRowRuns dims y0 lineHeight) (take k pageRefs))) q)
  ∧ (∀ q, annotsOf doc' q
          = annotsOf doc q
            ++ onPage tocPage
                 (concat (imap (tocRowLink pages' dims y0 lineHeight)
                               (take k pageRefs))) q).

(** [doc'] is [doc] with the basic navigation links on every page. *)
Definition basicallyLinked (tocIndex : Z) (dims : Dimensions) (doc doc' : PDFDocument)
    : Prop :=
  annotsAdded doc doc'
    (λ q, concat ((λ i, if decide (pageTree doc !! i = Some q)
                        then basicNavLinks (pageTree doc) tocIndex dims i else [])
                  <$> seq 0 (length (pageTree doc)))).

(** ** usePreview.ts: the links and the page of the preview *)

(** A [PreviewLink]: the rectangle in percent of the page, measured from
    its top left corner, and the page the link leads to. *)
Record PreviewLink := mkPreviewLink {
  previewX : Qc;
  previewY : Qc;
  previewWidth : Qc;
  previewHeight : Qc;
  targetPage : nat
}.

(** One round of the loop over the annotations in [renderPage];
    [pageWidth] and [pageHeight] are those of the viewport at scale 1. *)
Definition previewLinkOf (doc : PDFDocument) (pageWidth pageHeight : Qc)
    (annot : LinkAnnotation) : option PreviewLink :=
  if decide (annotSubtype annot = "Link") then
    let targetPage := previewTargetPage doc annot in
    match annotRect annot with
    | [rect0; rect1; rect2; rect3] =>
        Some (mkPreviewLink (rect0 / pageWidth * JS.ofZ 100)%Qc
                            ((pageHeight - rect3) / pageHeight * JS.ofZ 100)%Qc
                            ((rect2 - rect0) / pageWidth * JS.ofZ 100)%Qc
                            ((rect3 - rect1) / pageHeight * JS.ofZ 100)%Qc
                            targetPage)
    | _ => None
    end
  else None.

(** The part of [PreviewState] the page controls work on. *)
Record PreviewState := mkPreviewState {
  currentPage : Z;
  totalPages : Z
}.

Definition goToPage (page : Z) (prev : PreviewState) : PreviewState :=
  let newPage := Z.max 0 (Z.min page (totalPages prev - 1)) in
  mkPreviewState newPage (totalPages prev).

Definition goNext (prev : PreviewState) : PreviewState :=
  let newPage := Z.min (currentPage prev + 1) (totalPages prev - 1) in
  mkPreviewState newPage (totalPages prev).

Definition goPrev (prev : PreviewState) : PreviewState :=
  let newPage := Z.max 0 (currentPage prev - 1) in
  mkPreviewState newPage (totalPages prev).

(** [restoredPage] of [generatePreview]: the page shown before, clamped
    to the new number of pages. *)
Definition restoredPage (previousPage totalPages : Z) : Z :=
  Z.min previousPage (totalPages - 1).
(** The time slots of a daily page in closed form: the distance between
    two labels, and the label of every hour from [timeStart] to
    [timeEnd]. *)
Definition timeSlotStep (config : PlannerConfig) : Qc :=
  if bool_decide (timeInterval config = 30%Z) then JS.ofZ 48 else JS.ofZ 24.

Definition timeSlotRun (fns : DateFns) (config : PlannerConfig) (dims : Dimensions)
    (hour : Z) (y : Qc) (k : nat) : TextRun :=
  mkText (formatTime fns (hour + Z.of_nat k)) (MARGIN dims)
         (y - JS.ofNat k * timeSlotStep config)%Qc (JS.ofZ 10) Helvetica.

Definition dailyPageRuns (env : DateEnv) (fns : DateFns) (config : PlannerConfig)
    (dims : Dimensions) (day : JSDate) (pageIndex : nat) : list TextRun :=
  let topY := (HEIGHT dims - MARGIN dims - TOOLBAR_HEIGHT dims)%Qc in
  [mkText (format env day "EEEE, MMMM d, yyyy") (MARGIN dims) (topY - JS.ofZ 16)%Qc
          (JS.ofZ 14) HelveticaBold]
  ++ (timeSlotRun fns config dims (timeStart config) (topY - JS.ofZ 50)%Qc
        <$> seq 0 (Z.to_nat (timeEnd config - timeStart config + 1)))
  ++ (if pageNumbers config then [pageNumberRun dims pageIndex] else []).
(** The key page in closed form: what one entry draws at height [y], the
    distance between two entries, and the text of the page. *)
Definition keyEntryRuns (ctx : BujoGeneratorContext) (entry : BulletKeyEntry) (y : Qc)
    : list TextRun :=
  let x := left (padding (dims ctx)) in
  (if drawBulletSymbol (keySymbol entry) then []
   else [mkText (keySymbol entry) x y (JS.ofZ 10) HelveticaBold])
  ++ [mkText (keyLabel entry) (x + JS.ofZ 20)%Qc y (fontSize (density ctx)) HelveticaBold;
      mkText (keyDescription entry) (x + JS.ofZ 20)%Qc (y - JS.ofZ 10)%Qc
             (fontSize (density ctx) - JS.ofZ 1)%Qc Helvetica].

Definition keyAvailableHeight (ctx : BujoGeneratorContext) : Qc :=
  (contentTop_of (dims ctx) - bottom (padding (dims ctx)) - JS.ofZ 10)%Qc.

Definition keyLineHeight (ctx : BujoGeneratorContext) : Qc :=
  JS.Math_min (keyAvailableHeight ctx / JS.ofNat (length BULLET_KEY))%Qc
              (lineHeight (density ctx) * JS.ofZ 2)%Qc.

Definition keyEntriesRuns (ctx : BujoGeneratorContext) (lineHeight : Qc)
    (entries : list BulletKeyEntry) (y : Qc) : list TextRun :=
  concat (imap (λ k entry, keyEntryRuns ctx entry (y - JS.ofNat k * lineHeight)%Qc)
               entries).

Definition keyPageRuns (ctx : BujoGeneratorContext) : list TextRun :=
  let pad := padding (dims ctx) in
  navRowRuns (JS.ofZ 7) (navY_of (dims ctx))
    (navLayout (font ctx) (JS.ofZ 7) (getNavLabels key (nav ctx)) (left pad))
  ++ [mkText "Key" (left pad) (navY_of (dims ctx) - JS.ofZ 7 - JS.ofZ 6)%Qc (JS.ofZ 11)
             HelveticaBold;
      mkText "Rapid Logging Signifiers" (left pad)
             (contentTop_of (dims ctx) + JS.ofZ 2)%Qc (JS.ofZ 7) Helvetica]
  ++ keyEntriesRuns ctx (keyLineHeight ctx) BULLET_KEY
       (contentTop_of (dims ctx) - JS.ofZ 15)%Qc.

(** ** Sample inputs

    A font whose glyphs are all half as wide as they are high, the English
    month names, and the day of the week by Sakamoto's rule. *)

Definition sampleFont : PDFFont :=
  mkFont (λ s size, (JS.ofNat (String.length s) * size * Q2Qc (1 # 2))%Qc).

Definition sampleDayOfWeek (d : JSDate) : nat :=
  let m := getMonth d + 1 in
  let y := if m <? 3 then getFullYear d - 1 else getFullYear d in
  let t := default 0 ([0; 3; 2; 5; 0; 3; 5; 1; 4; 6; 2; 4] !! getMonth d) in
  (y + y / 4 - y / 100 + y / 400 + t + getDate d) mod 7.

Definition sampleMonthName (d : JSDate) : string :=
  default "" (["January"; "February"; "March"; "April"; "May"; "June"; "July";
               "August"; "September"; "October"; "November"; "December"]
              !! getMonth d).

Definition sampleFormat (d : JSDate) (pattern : string) : string :=
  if decide (pattern = "MMMM") then sampleMonthName d
  else if decide (pattern = "MMMM yyyy")
       then sampleMonthName d +:+ " " +:+ JS.toString (getFullYear d)
       else pattern.

Definition sampleEnv : DateEnv :=
  mkDateEnv sampleFormat sampleDayOfWeek sampleMonthName.

(** The padding the application starts with. *)
Definition defaultPadding : Padding :=
  mkPadding (JS.ofZ 40) (JS.ofZ 24) (JS.ofZ 24) (JS.ofZ 24).

Definition ctxMoveNormal : BujoGeneratorContext :=
  mkCtx sampleFont (getDeviceDimensions move defaultPadding)
        (DENSITY_CONFIGS normal) (mkNavContext false true false true).

Definition ctxRm2Compact : BujoGeneratorContext :=
  mkCtx sampleFont (getDeviceDimensions remarkable2 defaultPadding)
        (DENSITY_CONFIGS compact) (mkNavContext false true false true).

(** A document that holds the cover page only. *)
Definition coverOnly : PDFDocument := mkDoc [0] ∅ ∅ 1.

Definition january2025 : JSDate := mkDate 2025 0 1.

(** A small finished document: the cover, one index page and three
    collection pages, with the references and the registry that go with
    it. *)
Definition collectionsDoc : PDFDocument := mkDoc [0; 1; 2; 3; 4] ∅ ∅ 5.

Definition collectionsRefs : list PageRef :=
  [mkPageRef "Index" 1 index None None None None;
   mkPageRef "Collection 1" 2 collection None None None None;
   mkPageRef "Collection 2" 3 collection None None None None;
   mkPageRef "Collection 3" 4 collection None None None None].

Definition collectionsRegistry : PageRegistry :=
  buildPageRegistry collectionsRefs 1.

(** The scenario of the specification: a cover, a key page, a future-log
    page and two monthly pages, on a page so short (180 points) that the
    index needs a second page for its month rows. *)
Definition shortDims : Dimensions :=
  mkDimensions (JS.ofZ 448) (JS.ofZ 180) (JS.ofZ 24) (JS.ofZ 40) defaultPadding.

Definition scenarioDoc : PDFDocument := mkDoc [0; 1; 2; 3; 4] ∅ ∅ 5.

Definition scenarioKeyRef : PageRef := mkPageRef "Key" 1 key None None None None.

Definition scenarioRefs : list PageRef :=
  [scenarioKeyRef;
   mkPageRef "Future Log" 2 future None None None None;
   mkPageRef "January" 3 monthly (Some (mkDate 2025 0 1)) (Some 0) None (Some "2025-01");
   mkPageRef "February" 4 monthly (Some (mkDate 2025 1 1)) (Some 1) None (Some "2025-02")].

(** January 2025 on the smallest device: the pages of the month behind
    the cover, then daily pages for the 5th and the 30th, then the index,
    the shift of the references and the navigation links, as
    [generatePlannerPDF] has them before the date links are added. *)
Definition januaryRun : option (list PageRef * PDFDocument) :=
  generateMonthlyLog sampleEnv ctxMoveNormal january2025 coverOnly.

Definition januaryRefs : list PageRef := default [] (fst <$> januaryRun).

Definition januaryDoc : PDFDocument := default coverOnly (snd <$> januaryRun).

Definition januaryDailyRefs : list PageRef :=
  [mkPageRef "Sun, Jan 5" 4 daily (Some (mkDate 2025 0 5)) None None None;
   mkPageRef "Thu, Jan 30" 5 daily (Some (mkDate 2025 0 30)) None None None].

Definition januaryFinalRun : option (list PageRef * PDFDocument) :=
  (addPage ;; addPage ;;
   let bujoPageRefs := januaryRefs ++ januaryDailyRefs in
   let* indexResult :=
     addBujoIndex sampleEnv bujoPageRefs sampleFont (dims ctxMoveNormal) 1 in
   let bujoPageRefs := shiftPageRefs (pageCount indexResult) bujoPageRefs in
   let allRefs := resultIndexRefs indexResult ++ bujoPageRefs in
   let registry := buildPageRegistry allRefs tocPageIndex in
   addComprehensiveNavigation sampleFont (dims ctxMoveNormal) allRefs registry ;;
   ret allRefs) januaryDoc.

Definition januaryAllRefs : list PageRef := default [] (fst <$> januaryFinalRun).

Definition januaryFinalDoc : PDFDocument := default coverOnly (snd <$> januaryFinalRun).

(** A weekly planner of four weeks behind the cover, with the entries
    [generateWeeklyPages] collects for it. *)
Definition fourWeeksDoc : PDFDocument := mkDoc [0; 1; 2; 3; 4] ∅ ∅ 5.

Definition fourWeeksEntries : list TocEntry :=
  [mkTocEntry "Week 1" 1; mkTocEntry "Week 2" 2; mkTocEntry "Week 3" 3;
   mkTocEntry "Week 4" 4].

(** A stand-in for date-fns on the proleptic Gregorian calendar: the
    intervals are rejected when they end before they start, weeks start
    on Sunday, and week 1 is the week of January 1st. *)
Definition sampleDateLe (a b : JSDate) : bool :=
  (getFullYear a <? getFullYear b)
  || ((getFullYear a =? getFullYear b)
      && ((getMonth a <? getMonth b)
          || ((getMonth a =? getMonth b) && (getDate a <=? getDate b)))).

Definition sampleAddMonths (d : JSDate) (n : nat) : JSDate :=
  let t := getFullYear d * 12 + getMonth d + n in
  mkDate (t / 12) (t mod 12)
         (getDate d `min` daysInMonthOf (Z.of_nat (t / 12)) (t mod 12)).

Definition sampleNextDay (d : JSDate) : JSDate :=
  if getDate d <? getDaysInMonth d
  then mkDate (getFullYear d) (getMonth d) (S (getDate d))
  else sampleAddMonths (mkDate (getFullYear d) (getMonth d) 1) 1.

Definition samplePrevDay (d : JSDate) : JSDate :=
  match getDate d with
  | S (S n) => mkDate (getFullYear d) (getMonth d) (S n)
  | _ =>
      let t := getFullYear d * 12 + getMonth d - 1 in
      mkDate (t / 12) (t mod 12) (daysInMonthOf (Z.of_nat (t / 12)) (t mod 12))
  end.

Definition sampleStartOfWeek (d : JSDate) : JSDate :=
  Nat.iter (sampleDayOfWeek d) samplePrevDay d.

Fixpoint sampleEvery (fuel : nat) (next : JSDate → JSDate) (d last : JSDate)
    : list JSDate :=
  match fuel with
  | O => []
  | S fuel' =>
      if sampleDateLe d last then d :: sampleEvery fuel' next (next d) last else []
  end.

Definition sampleInterval (next : JSDate → JSDate) (first start last : JSDate)
    : option (list JSDate) :=
  if sampleDateLe start last then Some (sampleEvery 400 next first last) else None.

Definition sampleDayOfYear (d : JSDate) : nat :=
  sum_list ((λ m, daysInMonthOf (Z.of_nat (getFullYear d)) m) <$> seq 0 (getMonth d))
  + getDate d.

Definition sampleFns : DateFns :=
  mkDateFns
    sampleAddMonths
    (λ d, (sampleDayOfYear d - 1
           + sampleDayOfWeek (mkDate (getFullYear d) 0 1)) / 7 + 1)
    (λ d, Nat.iter (6 - sampleDayOfWeek d) sampleNextDay d)
    (λ start last,
       sampleInterval (λ d, sampleAddMonths d 1)
                      (mkDate (getFullYear start) (getMonth start) 1) start last)
    (λ start last,
       sampleInterval (Nat.iter 7 sampleNextDay) (sampleStartOfWeek start) start last)
    (λ start last, sampleInterval sampleNextDay start start last)
    (λ hour,
       let h := (hour mod 12)%Z in
       JS.toStringZ (if (h =? 0)%Z then 12%Z else h) +:+ ":00 "
       +:+ (if (hour mod 24 <? 12)%Z then "AM" else "PM")).

(** A bullet journal from Thursday, January 30th to Sunday, February 2nd
    2025 with every section, two collection pages and no weekends. *)
Definition sampleBujoConfig : BujoConfig :=
  mkBujoConfig true 6 true true true 2 true normal.

Definition sampleBujoPlanner : PlannerConfig :=
  mkPlannerConfig bujo move (mkDate 2025 0 30) (mkDate 2025 1 2) false
                  9 17 60 true false None (Some sampleBujoConfig) defaultPadding.

(** A daily and a monthly planner over the same four days, with an index
    and page numbers, and a dot-grid notebook that asks for an index. *)
Definition sampleDailyPlanner : PlannerConfig :=
  mkPlannerConfig dailyPlanner move (mkDate 2025 0 30) (mkDate 2025 1 2) false
                  9 17 60 true true None None defaultPadding.

Definition sampleMonthlyPlanner : PlannerConfig :=
  mkPlannerConfig monthlyPlanner move (mkDate 2025 0 30) (mkDate 2025 1 2) false
                  9 17 60 true true None None defaultPadding.

Definition sampleNotebook : PlannerConfig :=
  mkPlannerConfig dotgrid move (mkDate 2025 0 30) (mkDate 2025 1 2) false
                  9 17 60 true true None None defaultPadding.

(** Daily references in which the 5th of January comes twice, and a
    document whose second page is the object made last. *)
Definition repeatedDailyRefs : list PageRef :=
  januaryDailyRefs
  ++ [mkPageRef "Sun, Jan 5" 9 daily (Some (mkDate 2025 0 5)) None None None].

Definition indexedDoc : PDFDocument := mkDoc [0; 5; 1; 2; 3; 4] ∅ ∅ 6.

(** A daily planner with the hours, the device and the padding the
    application starts with. *)
Definition longDayPlanner : PlannerConfig :=
  mkPlannerConfig dailyPlanner move (mkDate 2025 0 30) (mkDate 2025 1 2) false
                  6 22 60 true true None None defaultPadding.

(** * Properties *)

(** ** The state-and-error monad *)

Lemma bind_Some {A B} (m : M A) (f : A → M B) doc a doc' :
  m doc = Some (a, doc') → bind m f doc = f a doc'.
Proof. intros H. unfold bind. by rewrite H. Qed.

Lemma bind_inv {A B} (m : M A) (f : A → M B) doc r :
  bind m f doc = Some r →
  ∃ a doc', m doc = Some (a, doc') ∧ f a doc' = Some r.
Proof.
  unfold bind. destruct (m doc) as [[a doc']|] eqn:E; [|done].
  intros H. by exists a, doc'.
Qed.

Lemma getPage_Some i doc p :
  pageTree doc !! i = Some p → getPage i doc = Some (p, doc).
Proof. intros H. unfold getPage. by rewrite H. Qed.

Lemma getPage_None i doc :
  pageTree doc !! i = None → getPage i doc = None.
Proof. intros H. unfold getPage. by rewrite H. Qed.

(** ** hyperlinks.ts *)

Lemma createInternalLink_Some sourcePage rect targetPageIndex doc p :
  pageTree doc !! targetPageIndex = Some p →
  createInternalLink sourcePage rect targetPageIndex doc =
    Some (tt, mkDoc (pageTree doc) (pageTexts doc)
                    (<[sourcePage := annotsOf doc sourcePage
                                     ++ [linkAnnotationDict rect p]]> (pageAnnots doc))
                    (nextRef doc)).
Proof.
  intros H. unfold createInternalLink.
  rewrite (bind_Some _ _ _ _ _ (getPage_Some _ _ _ H)).
  unfold annotsOf. by destruct (pageAnnots doc !! sourcePage).
Qed.

Lemma annotsOf_insert doc texts next src new q :
  annotsOf (mkDoc (pageTree doc) texts (<[src := new]> (pageAnnots doc)) next) q =
    if decide (q = src) then new else annotsOf doc q.
Proof.
  unfold annotsOf. simpl. case_decide as E.
  - subst. by rewrite lookup_insert_eq.
  - by rewrite lookup_insert_ne.
Qed.


(** ** The page registry *)

Lemma registerPage_pagesByType registry ref :
  pagesByType (registerPage registry ref) =
    match pagesByType registry !! type ref with
    | Some typeList => <[type ref := typeList ++ [pageIndex ref]]> (pagesByType registry)
    | None => pagesByType registry
    end.
Proof.
  unfold registerPage.
  destruct (type ref); simpl; try done;
    repeat match goal with |- context [match ?x with _ => _ end] =>
      destruct x; simpl; try done end.
Qed.

Lemma registerPage_monthlyCalPages registry ref :
  monthlyCalPages (registerPage registry ref) =
    match type ref, JS.truthy (yearMonth ref) with
    | monthly, Some ym => <[ym := pageIndex ref]> (monthlyCalPages registry)
    | _, _ => monthlyCalPages registry
    end.
Proof.
  unfold registerPage.
  destruct (type ref); simpl; try done;
    repeat match goal with |- context [match ?x with _ => _ end] =>
      destruct x; simpl; try done end.
Qed.

Lemma registerPage_indexPage registry ref :
  indexPage (registerPage registry ref) = indexPage registry.
Proof.
  unfold registerPage.
  destruct (type ref); simpl; try done;
    repeat match goal with |- context [match ?x with _ => _ end] =>
      destruct x; simpl; try done end.
Qed.

Lemma ofType_cons t ref refs :
  ofType t (ref :: refs) =
    if decide (type ref = t) then ref :: ofType t refs else ofType t refs.
Proof. unfold ofType. by rewrite filter_cons. Qed.

Lemma ofType_app t refs1 refs2 :
  ofType t (refs1 ++ refs2) = ofType t refs1 ++ ofType t refs2.
Proof. unfold ofType. by rewrite filter_app. Qed.

Lemma foldl_registerPage_pagesByType refs registry t l :
  (∀ t', is_Some (pagesByType registry !! t')) →
  pagesByType registry !! t = Some l →
  pagesByType (foldl registerPage registry refs) !! t =
    Some (l ++ (pageIndex <$> ofType t refs)).
Proof.
  revert registry l. induction refs as [|ref refs IH]; intros registry l Hall Ht.
  - simpl. by rewrite app_nil_r.
  - simpl. destruct (Hall (type ref)) as [l' Hl'].
    rewrite ofType_cons. case_decide as E.
    + subst t. assert (l' = l) as -> by congruence.
      rewrite (IH _ (l ++ [pageIndex ref])).
      * by rewrite fmap_cons, <- app_assoc.
      * intros t'. rewrite registerPage_pagesByType, Hl'.
        destruct (decide (type ref = t')) as [->|].
        -- rewrite lookup_insert_eq. eauto.
        -- rewrite lookup_insert_ne by done. apply Hall.
      * by rewrite registerPage_pagesByType, Hl', lookup_insert_eq.
    + apply IH.
      * intros t'. rewrite registerPage_pagesByType, Hl'.
        destruct (decide (type ref = t')) as [->|].
        -- rewrite lookup_insert_eq. eauto.
        -- rewrite lookup_insert_ne by done. apply Hall.
      * by rewrite registerPage_pagesByType, Hl', lookup_insert_ne.
Qed.

Lemma emptyRegistry_pagesByType i t :
  pagesByType (emptyRegistry i) !! t = Some [].
Proof. by destruct t. Qed.

(** [pagesByType] lists, for every type, the indices of all its pages in
    the order of [pageRefs]. *)
Lemma buildPageRegistry_pagesByType refs i t :
  pagesByType (buildPageRegistry refs i) !! t = Some (pageIndex <$> ofType t refs).
Proof.
  unfold buildPageRegistry.
  rewrite (foldl_registerPage_pagesByType refs _ t []); [done| |].
  - intros t'. rewrite emptyRegistry_pagesByType. eauto.
  - apply emptyRegistry_pagesByType.
Qed.

Lemma foldl_registerPage_monthly_unchanged post registry ym :
  Forall (λ r, ¬ (type r = monthly ∧ JS.truthy (yearMonth r) = Some ym)) post →
  monthlyCalPages (foldl registerPage registry post) !! ym =
    monthlyCalPages registry !! ym.
Proof.
  revert registry. induction post as [|r post IH]; intros registry Hpost; [done|].
  inversion Hpost as [|? ? Hr Hrest]; subst. simpl.
  rewrite IH by done. rewrite registerPage_monthlyCalPages.
  destruct (type r) eqn:Et; try done.
  destruct (JS.truthy (yearMonth r)) as [ym'|] eqn:Ey; [|done].
  rewrite lookup_insert_ne; [done|]. intros ->. by apply Hr.
Qed.

(** C1. [buildPageRegistry] writes the calendar entry of a month with
    [Map.set] and no test: the entry of [yearMonth] is the index of the last
    calendar page with that key, so a continuation page replaces the first
    page of its month.  ([buildPageRegistry_pagesByType] above is the part
    of the claim that holds: [pagesByType] keeps every calendar page, in
    order.) *)
Theorem buildPageRegistry_monthly_last_wins :
  ∀ (pre post : list PageRef) (ref : PageRef) (indexPageIndex : nat) (ym : string),
    type ref = monthly →
    JS.truthy (yearMonth ref) = Some ym →
    Forall (λ r, ¬ (type r = monthly ∧ JS.truthy (yearMonth r) = Some ym)) post →
    monthlyCalPages (buildPageRegistry (pre ++ ref :: post) indexPageIndex) !! ym
      = Some (pageIndex ref).
Proof.
  intros pre post ref i ym Ht Hy Hpost.
  unfold buildPageRegistry. rewrite foldl_app. simpl.
  rewrite foldl_registerPage_monthly_unchanged by done.
  rewrite registerPage_monthlyCalPages, Ht, Hy. apply lookup_insert_eq.
Qed.

(** The month of January 2025 on the Paper Pro Move at normal density
    needs two calendar pages; the registry then holds the second one. *)
Lemma buildPageRegistry_monthly_last_wins_witness :
  ∃ first later tasks,
    fst <$> generateMonthlyLog sampleEnv ctxMoveNormal january2025 coverOnly
      = Some [first; later; tasks]
    ∧ type first = monthly ∧ pageIndex first = 1
    ∧ type later = monthly ∧ pageIndex later = 2
    ∧ yearMonth first = Some "2025-01" ∧ yearMonth later = Some "2025-01"
    ∧ monthlyCalPages (buildPageRegistry ([first] ++ later :: [tasks]) 1) !! "2025-01"
        = Some 2.
Proof.
  eexists _, _, _. split; [vm_compute; reflexivity|].
  repeat (split; [reflexivity|]).
  lazymatch goal with
  | |- monthlyCalPages (buildPageRegistry ([?a] ++ ?b :: [?c]) _) !! _ = _ =>
      apply (buildPageRegistry_monthly_last_wins [a] [c] b 1 "2025-01")
  end.
  - reflexivity.
  - reflexivity.
  - repeat constructor. intros [H _]. discriminate H.
Defined.

(** ** The navigation resolver *)

Lemma indexOf_head x (l : list nat) :
  l !! 0 = Some x → indexOf x l = Some 0.
Proof. destruct l as [|y l]; [done|]. simpl. intros [= ->]. by rewrite decide_True. Qed.

Lemma indexOf_last x l :
  NoDup l → last l = Some x → indexOf x l = Some (length l - 1).
Proof.
  induction l as [|y l IH]; [done|].
  intros Hnd Hlast. apply NoDup_cons in Hnd as [Hy Hnd].
  destruct l as [|z l].
  - simpl in *. injection Hlast as ->. by rewrite decide_True.
  - rewrite last_cons_cons in Hlast.
    assert (y ≠ x) as Hne.
    { intros ->. apply Hy. by apply last_Some_elem_of. }
    change (indexOf x (y :: z :: l))
      with (if decide (y = x) then Some 0 else S <$> indexOf x (z :: l)).
    rewrite decide_False by done.
    rewrite (IH Hnd Hlast). simpl. f_equal. lia.
Qed.

(** C7. [resolveNavTarget] gives no target for a [prev] item on the first
    page of its type and for a [next] item on the last page of its type
    (the per-type list holds distinct page indices): it does not wrap
    around. *)
Theorem resolveNavTarget_boundary :
  ∀ (item : NavItem) (ref : PageRef) (registry : PageRegistry) (typePages : list nat),
    pagesByType registry !! type ref = Some typePages →
    NoDup typePages →
    (targetType item = t_prev → typePages !! 0 = Some (pageIndex ref) →
       resolveNavTarget item ref registry = None)
    ∧ (targetType item = t_next → last typePages = Some (pageIndex ref) →
       resolveNavTarget item ref registry = None).
Proof.
  intros item ref registry typePages Hty Hnd. split.
  - intros Hprev Hhead. unfold resolveNavTarget. rewrite Hprev, Hty.
    rewrite (indexOf_head _ _ Hhead).
    rewrite (bool_decide_eq_false_2 (0 < 0)) by lia.
    rewrite (bool_decide_eq_false_2 (t_prev = t_next)) by done.
    by rewrite andb_false_r.
  - intros Hnext Hlast. unfold resolveNavTarget. rewrite Hnext, Hty.
    rewrite (indexOf_last _ _ Hnd Hlast).
    rewrite (bool_decide_eq_false_2 (t_next = t_prev)) by done.
    rewrite (bool_decide_eq_false_2 (length typePages - 1 < length typePages - 1)) by lia.
    by rewrite andb_false_r.
Qed.

(** Three collection pages at 5, 6 and 7: no [prev] on page 5, no [next]
    on page 7. *)
Lemma resolveNavTarget_boundary_witness :
  let refs := [mkPageRef "Collection 1" 5 collection None None None None;
               mkPageRef "Collection 2" 6 collection None None None None;
               mkPageRef "Collection 3" 7 collection None None None None] in
  let registry := buildPageRegistry refs 1 in
  resolveNavTarget (mkNavItem "<" t_prev None)
                   (mkPageRef "Collection 1" 5 collection None None None None) registry = None
  ∧ resolveNavTarget (mkNavItem ">" t_next None)
                     (mkPageRef "Collection 3" 7 collection None None None None) registry = None
  ∧ resolveNavTarget (mkNavItem ">" t_next None)
                     (mkPageRef "Collection 1" 5 collection None None None None) registry = Some 6.
Proof.
  intros refs registry.
  assert (NoDup [5; 6; 7]) as Hnd by (by apply (bool_decide_unpack _)).
  assert (pagesByType registry !! collection = Some [5; 6; 7]) as Hty
    by (vm_compute; reflexivity).
  split; [|split].
  - exact (proj1 (resolveNavTarget_boundary (mkNavItem "<" t_prev None)
                    (mkPageRef "Collection 1" 5 collection None None None None)
                    registry [5; 6; 7] Hty Hnd) eq_refl eq_refl).
  - exact (proj2 (resolveNavTarget_boundary (mkNavItem ">" t_next None)
                    (mkPageRef "Collection 3" 7 collection None None None None)
                    registry [5; 6; 7] Hty Hnd) eq_refl eq_refl).
  - vm_compute; reflexivity.
Defined.

(** ** Appending annotations and text runs *)

Lemma annotsAdded_refl doc : annotsAdded doc doc (λ _, []).
Proof. repeat split. intros q. by rewrite app_nil_r. Qed.

Lemma annotsAdded_trans doc1 doc2 doc3 f g :
  annotsAdded doc1 doc2 f → annotsAdded doc2 doc3 g →
  annotsAdded doc1 doc3 (λ q, f q ++ g q).
Proof.
  intros (H1 & H2 & H3 & H4) (G1 & G2 & G3 & G4). repeat split; try congruence.
  intros q. by rewrite G4, H4, app_assoc.
Qed.

Lemma annotsAdded_ext doc doc' f g :
  (∀ q, f q = g q) → annotsAdded doc doc' f → annotsAdded doc doc' g.
Proof.
  intros E (H1 & H2 & H3 & H4). repeat split; try done.
  intros q. by rewrite <- E.
Qed.

Lemma createInternalLink_added sourcePage rect targetPageIndex doc p :
  pageTree doc !! targetPageIndex = Some p →
  ∃ doc', createInternalLink sourcePage rect targetPageIndex doc = Some (tt, doc')
          ∧ annotsAdded doc doc' (onPage sourcePage [linkAnnotationDict rect p]).
Proof.
  intros H. eexists. split; [by apply createInternalLink_Some|].
  repeat split. intros q. rewrite annotsOf_insert. unfold onPage.
  case_decide; [by subst|by rewrite app_nil_r].
Qed.

Lemma onPage_app {A} page (l1 l2 : list A) q :
  onPage page l1 q ++ onPage page l2 q = onPage page (l1 ++ l2) q.
Proof. unfold onPage. by case_decide. Qed.

(** ** [addComprehensiveNavigation] *)

Lemma addNavItemLinks_added page font navFontSize navY linkHeight ref registry :
  ∀ (navItems : list NavItem) (navX : Qc) (doc : PDFDocument),
    (∀ item t, item ∈ navItems → resolveNavTarget item ref registry = Some t →
               is_Some (pageTree doc !! t)) →
    ∃ doc',
      addNavItemLinks page font navFontSize navY linkHeight ref registry navItems navX doc
        = Some (tt, doc')
      ∧ annotsAdded doc doc'
          (onPage page
             (omap (λ '(item, entry),
                      targetPage ← resolveNavTarget item ref registry;
                      targetPageRef ← pageTree doc !! targetPage;
                      Some (linkAnnotationDict (navLinkRect navY linkHeight entry)
                                               targetPageRef))
                   (zip navItems
                        (navLayout font navFontSize (navLabel <$> navItems) navX)))).
Proof.
  induction navItems as [|item rest IH]; intros navX doc Hvalid.
  - exists doc. split; [done|]. eapply annotsAdded_ext; [|apply annotsAdded_refl].
    intros q. unfold onPage. by case_decide.
  - cbn [addNavItemLinks fmap list_fmap navLayout zip zip_with omap list_omap].
    set (w := widthOfTextAtSize font (navLabel item) navFontSize).
    destruct (resolveNavTarget item ref registry) as [t|] eqn:Et.
    + destruct (Hvalid item t) as [p Hp]; [by left|done|].
      destruct (createInternalLink_added page
                  (mkRect (navX - JS.ofZ 2) (navY - JS.ofZ 3) (w + JS.ofZ 4) linkHeight)%Qc
                  t doc p Hp) as (doc1 & E1 & A1).
      rewrite (bind_Some _ _ _ _ _ E1).
      destruct (IH (match rest with
                    | [] => (navX + w)%Qc
                    | _ :: _ => (navX + w + widthOfTextAtSize font navSeparator navFontSize)%Qc
                    end) doc1) as (doc' & E' & A').
      { intros item' t' Hin Hres. destruct A1 as (-> & _).
        apply (Hvalid item' t'); [by right|done]. }
      exists doc'. split.
      * rewrite <- E'. unfold w. by destruct rest.
      * eapply annotsAdded_ext; [|exact (annotsAdded_trans _ _ _ _ _ A1 A')].
        intros q. cbv beta. rewrite onPage_app. f_equal.
        cbn [mbind option_bind]. rewrite Hp. cbn [mbind option_bind app]. f_equal.
        destruct A1 as (-> & _). by destruct rest.
    + rewrite (bind_Some _ _ doc tt doc) by done.
      destruct (IH (match rest with
                    | [] => (navX + w)%Qc
                    | _ :: _ => (navX + w + widthOfTextAtSize font navSeparator navFontSize)%Qc
                    end) doc) as (doc' & E' & A').
      { intros item' t' Hin Hres. apply (Hvalid item' t'); [by right|done]. }
      exists doc'. split.
      * rewrite <- E'. unfold w. by destruct rest.
      * eapply annotsAdded_ext; [|exact A'].
        intros q. f_equal. simpl. by destruct rest.
Qed.

Lemma addNavigationFor_added font dims registry ref doc page :
  pageTree doc !! pageIndex ref = Some page →
  (∀ item t, item ∈ getNavItemsForPage ref registry →
             resolveNavTarget item ref registry = Some t →
             is_Some (pageTree doc !! t)) →
  ∃ doc', addNavigationFor font dims registry ref doc = Some (tt, doc')
          ∧ annotsAdded doc doc' (onPage page (resolvedNavLinks doc font dims registry ref)).
Proof.
  intros Hpage Hvalid. unfold addNavigationFor.
  rewrite (bind_Some _ _ _ _ _ (getPage_Some _ _ _ Hpage)).
  apply addNavItemLinks_added. exact Hvalid.
Qed.

Lemma resolvedNavLinks_dests_aux doc font navFontSize navY linkHeight registry ref :
  ∀ (navItems : list NavItem) (x : Qc),
    (destPage ∘ annotDest)
      <$> omap (λ '(item, entry),
                  targetPage ← resolveNavTarget item ref registry;
                  targetPageRef ← pageTree doc !! targetPage;
                  Some (linkAnnotationDict (navLinkRect navY linkHeight entry)
                                           targetPageRef))
               (zip navItems (navLayout font navFontSize (navLabel <$> navItems) x))
    = omap (λ item, resolveNavTarget item ref registry ≫= (pageTree doc !!.)) navItems.
Proof.
  induction navItems as [|item rest IH]; intros x; [done|].
  cbn [fmap list_fmap navLayout zip zip_with omap list_omap].
  destruct (resolveNavTarget item ref registry) as [t|]; cbn [mbind option_bind].
  - destruct (pageTree doc !! t) as [p|]; cbn [mbind option_bind].
    + rewrite fmap_cons. f_equal. apply IH.
    + apply IH.
  - apply IH.
Qed.


Ltac elem_cases H :=
  repeat (apply elem_of_cons in H as [-> | H]);
  [.. | by apply elem_of_nil in H].


(** ** Drawing *)

Lemma drawn_refl doc : drawn doc doc 0 (λ _, []).
Proof.
  repeat split; simpl; [by rewrite app_nil_r|lia|].
  intros q. by rewrite app_nil_r.
Qed.

Lemma drawn_trans doc1 doc2 doc3 k1 k2 f g :
  drawn doc1 doc2 k1 f → drawn doc2 doc3 k2 g →
  drawn doc1 doc3 (k1 + k2) (λ q, f q ++ g q).
Proof.
  intros (H1 & H2 & H3 & H4) (G1 & G2 & G3 & G4). repeat split.
  - rewrite G1, H1, H3, <- app_assoc. f_equal. by rewrite seq_app.
  - congruence.
  - lia.
  - intros q. by rewrite G4, H4, app_assoc.
Qed.

Lemma drawn_ext doc doc' k k' f g :
  k = k' → (∀ q, f q = g q) → drawn doc doc' k f → drawn doc doc' k' g.
Proof.
  intros <- E (H1 & H2 & H3 & H4). repeat split; try done.
  intros q. by rewrite <- E.
Qed.

Lemma drawText_drawn page run doc :
  ∃ doc', drawText page run doc = Some (tt, doc')
          ∧ drawn doc doc' 0 (onPage page [run]).
Proof.
  eexists. split; [reflexivity|].
  repeat split; simpl; [by rewrite app_nil_r|lia|].
  intros q. unfold textsOf, onPage. simpl. case_decide as E.
  - subst. by rewrite lookup_insert_eq.
  - rewrite lookup_insert_ne by done. by rewrite app_nil_r.
Qed.

Lemma addPage_drawn doc :
  ∃ doc', addPage doc = Some (nextRef doc, doc')
          ∧ drawn doc doc' 1 (λ _, []).
Proof.
  eexists. split; [reflexivity|].
  repeat split; simpl; [lia|]. intros q. by rewrite app_nil_r.
Qed.

Lemma getPageCount_eq doc :
  getPageCount doc = Some (length (pageTree doc), doc).
Proof. done. Qed.

(** Running [m] and then [f]: the combinator behind the sequential
    proofs below. *)
Lemma bind_drawn {A B} (m : M A) (f : A → M B) doc a doc1 k1 g1 b doc2 k2 g2 :
  m doc = Some (a, doc1) → drawn doc doc1 k1 g1 →
  f a doc1 = Some (b, doc2) → drawn doc1 doc2 k2 g2 →
  bind m f doc = Some (b, doc2) ∧ drawn doc doc2 (k1 + k2) (λ q, g1 q ++ g2 q).
Proof.
  intros E1 D1 E2 D2. split.
  - by rewrite (bind_Some _ _ _ _ _ E1).
  - by eapply drawn_trans.
Qed.

Lemma drawNavItems_drawn page font navFontSize navY :
  ∀ (navItems : list string) (navX : Qc) (doc : PDFDocument),
    ∃ doc',
      drawNavItems page font navFontSize navY navItems navX doc = Some (tt, doc')
      ∧ drawn doc doc' 0
          (onPage page (navRowRuns navFontSize navY
                                   (navLayout font navFontSize navItems navX))).
Proof.
  induction navItems as [|item rest IH]; intros navX doc.
  - exists doc. split; [done|].
    eapply drawn_ext; [done| |apply drawn_refl].
    intros q. unfold onPage. by case_decide.
  - cbn [drawNavItems navLayout navRowRuns].
    destruct (drawText_drawn page (mkText item navX navY navFontSize Helvetica) doc)
      as (doc1 & E1 & D1).
    rewrite (bind_Some _ _ _ _ _ E1).
    destruct rest as [|item2 rest].
    + exists doc1. split; [done|]. exact D1.
    + set (x1 := (navX + widthOfTextAtSize font item navFontSize)%Qc).
      destruct (drawText_drawn page (mkText navSeparator x1 navY navFontSize Helvetica) doc1)
        as (doc2 & E2 & D2).
      rewrite (bind_Some _ _ _ _ _ E2).
      destruct (IH (x1 + widthOfTextAtSize font navSeparator navFontSize)%Qc doc2)
        as (doc' & E' & D').
      exists doc'. split; [exact E'|].
      eapply drawn_ext; [| |exact (drawn_trans _ _ _ _ _ _ _ D1
                                     (drawn_trans _ _ _ _ _ _ _ D2 D'))]; [done|].
      intros q. cbv beta. rewrite !onPage_app. done.
Qed.

Lemma drawTopNavigation_drawn page font dims navItems doc :
  ∃ doc',
    drawTopNavigation page font dims navItems doc
      = Some ((navY_of dims - JS.ofZ 7 - JS.ofZ 6)%Qc, doc')
    ∧ drawn doc doc' 0
        (onPage page (navRowRuns (JS.ofZ 7) (navY_of dims)
                        (navLayout font (JS.ofZ 7) navItems (left (padding dims))))).
Proof.
  unfold drawTopNavigation.
  destruct (drawNavItems_drawn page font (JS.ofZ 7) (navY_of dims) navItems
              (left (padding dims)) doc) as (doc' & E & D).
  exists doc'. split; [|exact D].
  unfold navY_of in *. by rewrite (bind_Some _ _ _ _ _ E).
Qed.

Lemma drawPageTitle_drawn page title dims startY size doc :
  ∃ doc',
    drawPageTitle page title dims startY size doc
      = Some ((startY - size - JS.ofZ 8)%Qc, doc')
    ∧ drawn doc doc' 0
        (onPage page [mkText title (left (padding dims)) startY size HelveticaBold]).
Proof.
  unfold drawPageTitle.
  destruct (drawText_drawn page
              (mkText title (left (padding dims)) startY size HelveticaBold) doc)
    as (doc' & E & D).
  exists doc'. split; [|exact D]. by rewrite (bind_Some _ _ _ _ _ E).
Qed.

(** ** Numbers *)

Lemma ofNat_S n : JS.ofNat (S n) = (JS.ofNat n + JS.ofZ 1)%Qc.
Proof.
  unfold JS.ofNat, JS.ofZ. rewrite Nat2Z.inj_succ, <- Z.add_1_r.
  apply Z2Qc_inj_add.
Qed.

Lemma ofZ_of_nat n : JS.ofZ (Z.of_nat n) = JS.ofNat n.
Proof. done. Qed.

Lemma ofNat_0 : JS.ofNat 0 = 0%Qc.
Proof. by apply Qc_is_canon. Qed.

Lemma ofZ_1 : JS.ofZ 1 = 1%Qc.
Proof. by apply Qc_is_canon. Qed.

Lemma ofZ_le (a b : Z) : (a ≤ b)%Z → (JS.ofZ a ≤ JS.ofZ b)%Qc.
Proof. intros H. unfold Qcle, JS.ofZ. simpl. by rewrite <- Zle_Qle. Qed.

Lemma ofZ_lt (a b : Z) : (a < b)%Z → (JS.ofZ a < JS.ofZ b)%Qc.
Proof. intros H. unfold Qclt, JS.ofZ. simpl. by rewrite <- Zlt_Qlt. Qed.

Lemma ofNat_pos n : 0 < n → (0 < JS.ofNat n)%Qc.
Proof.
  intros H. unfold JS.ofNat. rewrite <- Z2Qc_inj_0.
  apply ofZ_lt. lia.
Qed.

Lemma calendarRowRuns_0 env ctx monthDate firstDay rowsTop rowHeight :
  calendarRowRuns env ctx monthDate firstDay 0 rowsTop rowHeight = [].
Proof. done. Qed.

Lemma calendarRowRuns_S env ctx monthDate firstDay n rowsTop rowHeight :
  calendarRowRuns env ctx monthDate firstDay (S n) rowsTop rowHeight =
    calendarRow env ctx monthDate firstDay rowsTop
    ++ calendarRowRuns env ctx monthDate (S firstDay) n (rowsTop - rowHeight)%Qc rowHeight.
Proof.
  unfold calendarRowRuns. cbn [seq fmap list_fmap concat].
  rewrite Nat.add_0_r, ofNat_0.
  replace (rowsTop - 0 * rowHeight)%Qc with rowsTop by ring.
  f_equal. rewrite <- fmap_S_seq, <- list_fmap_compose. f_equal.
  apply list_fmap_ext. intros _ i _. cbn [compose].
  rewrite Nat.add_succ_r, ofNat_S, ofZ_1. f_equal. ring.
Qed.

(** ** [generateMonthlyLog]: the rows of a page *)

Section MonthlyRows.

Context (env : DateEnv) (ctx : BujoGeneratorContext) (monthDate : JSDate).
Hypothesis getDay_range : ∀ d, getDay env d < 7.

Lemma dayAbbrev_Some d : ∃ abbrev, DAY_ABBREVS !! getDay env d = Some abbrev.
Proof.
  apply lookup_lt_is_Some. simpl. apply getDay_range.
Qed.

Lemma drawSplitRows_drawn page daysInMonth lineHeight :
  ∀ (n dayIndex : nat) (y : Qc) (doc : PDFDocument),
    let rows := n `min` (S daysInMonth - dayIndex) in
    ∃ doc',
      drawSplitRows env ctx page monthDate daysInMonth lineHeight n dayIndex y doc
        = Some (dayIndex + rows, doc')
      ∧ drawn doc doc' 0
          (onPage page (calendarRowRuns env ctx monthDate dayIndex rows y lineHeight)).
Proof.
  induction n as [|n IH]; intros dayIndex y doc rows.
  - exists doc. split.
    + simpl. unfold ret. do 2 f_equal. subst rows. lia.
    + eapply drawn_ext; [done| |apply drawn_refl].
      intros q. unfold onPage. by case_decide.
  - cbn [drawSplitRows]. case_decide as Hle.
    + assert (rows = S (n `min` (S daysInMonth - S dayIndex))) as Hrows
        by (subst rows; lia).
      rewrite Hrows, calendarRowRuns_S.
      set (date := mkDate (getFullYear monthDate) (getMonth monthDate) dayIndex).
      destruct (dayAbbrev_Some date) as [abbrev Habbrev].
      unfold calendarRow. fold date. rewrite Habbrev. cbn [default].
      destruct (drawText_drawn page
                  (mkText (JS.padStart 2 " " (JS.toString dayIndex))
                          (left (padding (dims ctx))) y (fontSize (density ctx)) Helvetica)
                  doc) as (doc1 & E1 & D1).
      rewrite (bind_Some _ _ _ _ _ E1).
      destruct (drawText_drawn page
                  (mkText abbrev (left (padding (dims ctx)) + JS.ofZ 18)%Qc y
                          (fontSize (density ctx)) Helvetica)
                  doc1) as (doc2 & E2 & D2).
      rewrite (bind_Some _ _ _ _ _ E2).
      destruct (IH (S dayIndex) (y - lineHeight)%Qc doc2) as (doc' & E' & D').
      exists doc'. split.
      * rewrite E'. do 2 f_equal. lia.
      * eapply drawn_ext; [| |exact (drawn_trans _ _ _ _ _ _ _ D1
                                       (drawn_trans _ _ _ _ _ _ _ D2 D'))]; [done|].
        intros q. cbv beta. rewrite !onPage_app. done.
    + assert (rows = 0) as -> by (subst rows; lia).
      exists doc. split.
      * unfold ret. do 2 f_equal. lia.
      * eapply drawn_ext; [done| |apply drawn_refl].
        intros q. unfold onPage. by case_decide.
Qed.

Lemma drawCombinedRows_drawn page lineHeight :
  ∀ (n day : nat) (y : Qc) (doc : PDFDocument),
    ∃ doc',
      drawCombinedRows env ctx page monthDate lineHeight n day y doc = Some (tt, doc')
      ∧ drawn doc doc' 0
          (onPage page (calendarRowRuns env ctx monthDate day n y lineHeight)).
Proof.
  induction n as [|n IH]; intros day y doc.
  - exists doc. split; [done|].
    eapply drawn_ext; [done| |apply drawn_refl].
    intros q. unfold onPage. by case_decide.
  - cbn [drawCombinedRows]. rewrite calendarRowRuns_S.
    set (date := mkDate (getFullYear monthDate) (getMonth monthDate) day).
    destruct (dayAbbrev_Some date) as [abbrev Habbrev].
    unfold calendarRow. fold date. rewrite Habbrev. cbn [default].
    destruct (drawText_drawn page
                (mkText (JS.padStart 2 " " (JS.toString day))
                        (left (padding (dims ctx))) y (fontSize (density ctx)) Helvetica)
                doc) as (doc1 & E1 & D1).
    rewrite (bind_Some _ _ _ _ _ E1).
    destruct (drawText_drawn page
                (mkText abbrev (left (padding (dims ctx)) + JS.ofZ 18)%Qc y
                        (fontSize (density ctx)) Helvetica)
                doc1) as (doc2 & E2 & D2).
    rewrite (bind_Some _ _ _ _ _ E2).
    destruct (IH (S day) (y - lineHeight)%Qc doc2) as (doc' & E' & D').
    exists doc'. split; [exact E'|].
    eapply drawn_ext; [| |exact (drawn_trans _ _ _ _ _ _ _ D1
                                   (drawn_trans _ _ _ _ _ _ _ D2 D'))]; [done|].
    intros q. cbv beta. rewrite !onPage_app. done.
Qed.

End MonthlyRows.

(** ** Rounding and division *)

Ltac qc_to_q :=
  try apply Qc_is_canon;
  unfold Qcle, Qclt, Qcdiv, Qcminus, Qcplus, Qcmult, Qcopp, Qcinv,
         JS.ofZ, JS.ofNat, Qc_of_Z, Q2Qc in *;
  cbn [this] in *;
  rewrite ?Qred_correct in *.

Lemma ofZ_le_inv (a b : Z) : (JS.ofZ a ≤ JS.ofZ b)%Qc → (a ≤ b)%Z.
Proof. unfold Qcle, JS.ofZ. simpl. by rewrite <- Zle_Qle. Qed.

Lemma ofZ_lt_inv (a b : Z) : (JS.ofZ a < JS.ofZ b)%Qc → (a < b)%Z.
Proof. unfold Qclt, JS.ofZ. simpl. by rewrite <- Zlt_Qlt. Qed.

Lemma ofZ_mul (a b : Z) : JS.ofZ (a * b) = (JS.ofZ a * JS.ofZ b)%Qc.
Proof. apply Z2Qc_inj_mul. Qed.

Lemma floor_le (x : Qc) : (JS.ofZ (JS.Math_floor x) ≤ x)%Qc.
Proof. unfold Qcle, JS.ofZ, JS.Math_floor. simpl. apply Qfloor_le. Qed.

Lemma floor_ge (z : Z) (x : Qc) : (JS.ofZ z ≤ x)%Qc → (z ≤ JS.Math_floor x)%Z.
Proof.
  unfold Qcle, JS.ofZ, JS.Math_floor. simpl. intros H.
  rewrite <- (Qfloor_Z z). by apply Qfloor_resp_le.
Qed.

Lemma lt_floor_succ (x : Qc) : (x < JS.ofZ (JS.Math_floor x + 1))%Qc.
Proof. unfold Qclt, JS.ofZ, JS.Math_floor. simpl. apply Qlt_floor. Qed.

Lemma ceil_le (z : Z) (x : Qc) : (x ≤ JS.ofZ z)%Qc → (JS.Math_ceil x ≤ z)%Z.
Proof.
  unfold Qcle, JS.ofZ, JS.Math_ceil. simpl. intros H.
  rewrite <- (Qceiling_Z z). by apply Qceiling_resp_le.
Qed.

Lemma ceil_gt (z : Z) (x : Qc) : (JS.ofZ z < x)%Qc → (z < JS.Math_ceil x)%Z.
Proof.
  unfold Qclt, JS.ofZ, JS.Math_ceil. simpl. intros H.
  rewrite Zlt_Qlt. eapply Qlt_le_trans; [exact H|apply Qle_ceiling].
Qed.

Lemma Qc_pos_neq (d : Qc) : (0 < d)%Qc → d ≠ 0%Qc.
Proof. intros H E. rewrite E in H. by apply Qclt_not_eq in H. Qed.

Lemma div_mul_cancel (a d : Qc) : (0 < d)%Qc → (a / d * d)%Qc = a.
Proof. intros H. field. by apply Qc_pos_neq. Qed.

Lemma le_div (a b d : Qc) : (0 < d)%Qc → (b * d ≤ a)%Qc → (b ≤ a / d)%Qc.
Proof.
  intros Hd H. apply (Qcmult_le_mono_pos_r _ _ d Hd).
  by rewrite div_mul_cancel.
Qed.

Lemma div_le (a b d : Qc) : (0 < d)%Qc → (a ≤ b * d)%Qc → (a / d ≤ b)%Qc.
Proof.
  intros Hd H. apply (Qcmult_le_mono_pos_r _ _ d Hd).
  by rewrite div_mul_cancel.
Qed.

Lemma lt_div (a b d : Qc) : (0 < d)%Qc → (b * d < a)%Qc → (b < a / d)%Qc.
Proof.
  intros Hd H. apply (Qcmult_lt_mono_pos_r _ _ d Hd).
  by rewrite div_mul_cancel.
Qed.

Lemma Math_min_l (a b : Qc) : (a ≤ b)%Qc → JS.Math_min a b = a.
Proof. intros H. unfold JS.Math_min. by rewrite decide_True. Qed.

Lemma Math_max_r (a b : Qc) : (a ≤ b)%Qc → JS.Math_max a b = b.
Proof. intros H. unfold JS.Math_max. by rewrite decide_True. Qed.

(** [Math.round(0.7 * lineHeight)] is positive and at most [lineHeight]
    for every line height from 2 points on. *)
Lemma minLineHeight_bounds (lh : Qc) :
  (JS.ofZ 2 ≤ lh)%Qc →
  let minLH := JS.ofZ (JS.Math_round (lh * Q2Qc (7 # 10))%Qc) in
  (0 < minLH)%Qc ∧ (minLH ≤ lh)%Qc.
Proof.
  intros Hlh minLH. subst minLH. unfold JS.Math_round.
  set (x := (lh * Q2Qc (7 # 10) + Q2Qc (1 # 2))%Qc).
  pose proof (floor_le x) as Hle.
  pose proof (lt_floor_succ x) as Hlt.
  fold (JS.Math_floor x). set (z := JS.Math_floor x) in *.
  split.
  - rewrite <- Z2Qc_inj_0. apply ofZ_lt.
    assert (JS.ofZ 0 < JS.ofZ (z + 1))%Qc as H.
    { eapply Qclt_trans; [|exact Hlt]. subst x. clear Hle Hlt.
      qc_to_q. unfold inject_Z in *. lra. }
    apply ofZ_lt_inv in H.
    assert (JS.ofZ 1 < JS.ofZ (z + 1))%Qc as H1.
    { eapply Qcle_lt_trans; [|exact Hlt]. subst x. clear Hle Hlt H.
      qc_to_q. unfold inject_Z in *. lra. }
    apply ofZ_lt_inv in H1. lia.
  - eapply Qcle_trans; [exact Hle|]. subst x. clear Hle Hlt.
    qc_to_q. unfold inject_Z in *. lra.
Qed.

Lemma getDaysInMonth_pos monthDate : 0 < getDaysInMonth monthDate.
Proof.
  unfold getDaysInMonth, daysInMonthOf.
  repeat match goal with |- context [match ?x with _ => _ end] => destruct x end; lia.
Qed.

(** ** [generateMonthlyLog]: the layout decision *)

Lemma contentTop_above_available (dims : Dimensions) :
  (contentTop_of dims - bottom (padding dims) - JS.ofZ 10)%Qc
  = (HEIGHT dims - top (padding dims) - bottom (padding dims)
     - JS.ofZ 20 - JS.ofZ 25 - JS.ofZ 10 + JS.ofZ 4)%Qc.
Proof.
  unfold contentTop_of, navY_of. qc_to_q. unfold inject_Z. lra.
Qed.

Section OnePage.

Context (env : DateEnv) (ctx : BujoGeneratorContext) (monthDate : JSDate).
Hypothesis getDay_range : ∀ d, getDay env d < 7.
Hypothesis lineHeight_2 : (JS.ofZ 2 ≤ lineHeight (density ctx))%Qc.

Let N := getDaysInMonth monthDate.
Let lay := monthlyLayout ctx N.

Hypothesis fits : (JS.ofNat N * preferredLineHeight lay ≤ availableHeight lay)%Qc.

Lemma one_page_daysPerPage : (Z.of_nat N ≤ daysPerPage lay)%Z.
Proof using lineHeight_2 fits.
  destruct (minLineHeight_bounds _ lineHeight_2) as [Hpos Hle].
  apply floor_ge. apply le_div; [exact Hpos|].
  eapply Qcle_trans; [|exact fits].
  apply Qcmult_le_mono_nonneg_l; [|exact Hle].
  apply Qclt_le_weak, ofNat_pos, getDaysInMonth_pos.
Qed.

Lemma one_page_needsSplit : needsSplit lay = false.
Proof using lineHeight_2 fits.
  pose proof one_page_daysPerPage as Hdpp.
  pose proof (getDaysInMonth_pos monthDate) as HN. fold N in HN.
  unfold lay, monthlyLayout. cbn [needsSplit].
  apply orb_false_intro.
  - apply bool_decide_eq_false_2. apply Z.le_ngt.
    apply ceil_le. apply div_le.
    + rewrite <- Z2Qc_inj_0. apply ofZ_lt. fold lay in Hdpp.
      unfold lay, monthlyLayout in Hdpp. cbn [daysPerPage] in Hdpp. lia.
    + rewrite ofZ_1, Qcmult_1_l. apply ofZ_le. exact Hdpp.
  - apply bool_decide_eq_false_2. apply Qcle_not_lt. exact fits.
Qed.

Lemma one_page_lineHeight :
  JS.Math_min (preferredLineHeight lay)
    ((contentTop_of (dims ctx) - bottom (padding (dims ctx)) - JS.ofZ 10)
     / JS.ofNat N)%Qc
  = preferredLineHeight lay.
Proof using fits.
  apply Math_min_l. apply le_div.
  - apply ofNat_pos, getDaysInMonth_pos.
  - rewrite contentTop_above_available, Qcmult_comm.
    eapply Qcle_trans; [exact fits|].
    unfold lay, monthlyLayout. cbn [availableHeight].
    generalize (HEIGHT (dims ctx) - top (padding (dims ctx))
                - bottom (padding (dims ctx)) - JS.ofZ 20 - JS.ofZ 25 - JS.ofZ 10)%Qc.
    intros h. qc_to_q. unfold inject_Z. lra.
Qed.

Lemma generateMonthlyLog_combined doc :
  ∃ calRef tasksRef doc',
    generateMonthlyLog env ctx monthDate doc = Some ([calRef; tasksRef], doc')
    ∧ type calRef = monthly ∧ type tasksRef = monthly_tasks
    ∧ pageIndex calRef = length (pageTree doc)
    ∧ pageIndex tasksRef = length (pageTree doc)
    ∧ yearMonth calRef = Some (formatYearMonth monthDate)
    ∧ yearMonth tasksRef = Some (formatYearMonth monthDate)
    ∧ drawn doc doc' 1
        (onPage (nextRef doc)
           (pageHeaderRuns (font ctx) (dims ctx) (getNavLabels monthly (nav ctx))
                           (format env monthDate "MMMM yyyy") (JS.ofZ 11)
            ++ calendarRowRuns env ctx monthDate 1 N (contentTop_of (dims ctx))
                               (preferredLineHeight lay)
            ++ [mkText "Tasks"
                  (left (padding (dims ctx))
                   + (WIDTH (dims ctx) - left (padding (dims ctx))
                      - right (padding (dims ctx))) * Q2Qc (4 # 10) + JS.ofZ 8)%Qc
                  (contentTop_of (dims ctx)) (fontSize (density ctx)) HelveticaBold])).
Proof using getDay_range lineHeight_2 fits.
  unfold generateMonthlyLog. fold N. fold lay. rewrite one_page_needsSplit.
  destruct (addPage_drawn doc) as (doc1 & E1 & D1).
  rewrite (bind_Some _ _ _ _ _ E1).
  rewrite (bind_Some _ _ _ _ _ (getPageCount_eq doc1)).
  destruct (drawTopNavigation_drawn (nextRef doc) (font ctx) (dims ctx)
              (getNavLabels monthly (nav ctx)) doc1) as (doc2 & E2 & D2).
  rewrite (bind_Some _ _ _ _ _ E2).
  destruct (drawPageTitle_drawn (nextRef doc) (format env monthDate "MMMM yyyy")
              (dims ctx) (navY_of (dims ctx) - JS.ofZ 7 - JS.ofZ 6)%Qc (JS.ofZ 11) doc2)
    as (doc3 & E3 & D3).
  rewrite (bind_Some _ _ _ _ _ E3).
  change (navY_of (dims ctx) - JS.ofZ 7 - JS.ofZ 6 - JS.ofZ 11 - JS.ofZ 8)%Qc
    with (contentTop_of (dims ctx)).
  rewrite one_page_lineHeight.
  destruct (drawCombinedRows_drawn env ctx monthDate getDay_range (nextRef doc)
              (preferredLineHeight lay) N 1 (contentTop_of (dims ctx)) doc3)
    as (doc4 & E4 & D4).
  rewrite (bind_Some _ _ _ _ _ E4).
  match goal with
  | |- context [drawText ?p ?run] =>
      destruct (drawText_drawn p run doc4) as (doc5 & E5 & D5)
  end.
  rewrite (bind_Some _ _ _ _ _ E5).
  eexists _, _, doc5. split; [reflexivity|].
  assert (length (pageTree doc1) - 1 = length (pageTree doc)) as Hidx.
  { destruct D1 as (-> & _). rewrite length_app. simpl. lia. }
  cbn [type pageIndex yearMonth]. rewrite Hidx.
  do 6 (split; [done|]).
  eapply drawn_ext;
    [| |exact (drawn_trans _ _ _ _ _ _ _ D1
                 (drawn_trans _ _ _ _ _ _ _ D2
                    (drawn_trans _ _ _ _ _ _ _ D3
                       (drawn_trans _ _ _ _ _ _ _ D4 D5))))]; [done|].
  intros q. cbv beta. cbn [app]. rewrite !onPage_app.
  unfold pageHeaderRuns. by rewrite <- !app_assoc.
Qed.

End OnePage.

Lemma drawn_textsOf doc doc' k page runs :
  drawn doc doc' k (onPage page runs) →
  textsOf doc' page = textsOf doc page ++ runs.
Proof.
  intros (_ & _ & _ & H). rewrite H. unfold onPage. by rewrite decide_True.
Qed.

(** C5, as the code has it. Whenever [N * Rpref <= H] (and the preferred
    line height is one of the density profiles', 2 points or more),
    [generateMonthlyLog] lays out all [N] rows on one page, which also
    carries the task column: it returns a calendar and a tasks reference
    to that one new page.  The rows are not stretched: the row height is
    the preferred line height [Rpref], because
    [Math.min(Rpref, (contentTop - padding.bottom - 10) / N)] is [Rpref]
    whenever [N * Rpref <= H] ([contentTop - padding.bottom - 10] is
    [H + 4]). *)
Theorem generateMonthlyLog_one_page :
  ∀ (env : DateEnv) (ctx : BujoGeneratorContext) (monthDate : JSDate)
    (doc : PDFDocument),
    let N := getDaysInMonth monthDate in
    let lay := monthlyLayout ctx N in
    (∀ d, getDay env d < 7) →
    (JS.ofZ 2 ≤ lineHeight (density ctx))%Qc →
    (JS.ofNat N * preferredLineHeight lay ≤ availableHeight lay)%Qc →
    ∃ calRef tasksRef doc',
      generateMonthlyLog env ctx monthDate doc = Some ([calRef; tasksRef], doc')
      ∧ type calRef = monthly ∧ type tasksRef = monthly_tasks
      ∧ pageIndex calRef = length (pageTree doc)
      ∧ pageIndex tasksRef = length (pageTree doc)
      ∧ pageTree doc' = pageTree doc ++ [nextRef doc]
      ∧ preferredLineHeight lay = lineHeight (density ctx)
      ∧ textsOf doc' (nextRef doc) =
          textsOf doc (nextRef doc)
          ++ pageHeaderRuns (font ctx) (dims ctx) (getNavLabels monthly (nav ctx))
                            (format env monthDate "MMMM yyyy") (JS.ofZ 11)
          ++ calendarRowRuns env ctx monthDate 1 N (contentTop_of (dims ctx))
                             (preferredLineHeight lay)
          ++ [mkText "Tasks"
                (left (padding (dims ctx))
                 + (WIDTH (dims ctx) - left (padding (dims ctx))
                    - right (padding (dims ctx))) * Q2Qc (4 # 10) + JS.ofZ 8)%Qc
                (contentTop_of (dims ctx)) (fontSize (density ctx)) HelveticaBold].
Proof.
  intros env ctx monthDate doc N lay Hday Hlh Hfits.
  destruct (generateMonthlyLog_combined env ctx monthDate Hday Hlh Hfits doc)
    as (calRef & tasksRef & doc' & E & Hc & Ht & Hic & Hit & _ & _ & D).
  exists calRef, tasksRef, doc'.
  do 5 (split; [done|]).
  split; [by destruct D as (-> & _)|].
  split; [done|].
  by apply (drawn_textsOf _ _ _ _ _ D).
Qed.

(** January 2025 on the reMarkable 2 at compact density: 31 rows of 14
    points fit the 478 points available. *)
Lemma generateMonthlyLog_one_page_witness :
  ∃ calRef tasksRef doc',
    generateMonthlyLog sampleEnv ctxRm2Compact january2025 coverOnly
      = Some ([calRef; tasksRef], doc')
    ∧ type calRef = monthly ∧ type tasksRef = monthly_tasks
    ∧ pageIndex calRef = 1 ∧ pageIndex tasksRef = 1
    ∧ pageTree doc' = [0; 1]
    ∧ preferredLineHeight (monthlyLayout ctxRm2Compact 31) = JS.ofZ 14
    ∧ textsOf doc' 1 =
        textsOf coverOnly 1
        ++ pageHeaderRuns sampleFont (dims ctxRm2Compact)
             (getNavLabels monthly (nav ctxRm2Compact)) "January 2025" (JS.ofZ 11)
        ++ calendarRowRuns sampleEnv ctxRm2Compact january2025 1 31
             (contentTop_of (dims ctxRm2Compact))
             (preferredLineHeight (monthlyLayout ctxRm2Compact 31))
        ++ [mkText "Tasks"
              (left (padding (dims ctxRm2Compact))
               + (WIDTH (dims ctxRm2Compact) - left (padding (dims ctxRm2Compact))
                  - right (padding (dims ctxRm2Compact))) * Q2Qc (4 # 10) + JS.ofZ 8)%Qc
              (contentTop_of (dims ctxRm2Compact)) (fontSize (density ctxRm2Compact))
              HelveticaBold].
Proof.
  apply (generateMonthlyLog_one_page sampleEnv ctxRm2Compact january2025 coverOnly).
  - intros d. unfold sampleEnv, getDay, sampleDayOfWeek. apply Nat.mod_upper_bound. lia.
  - by vm_compute.
  - by vm_compute.
Defined.

(** C5, as stated, fails on the same input: the claim has the rows [H / N]
    apart, that is 478/31 points, but the row of day 2 is drawn 14 points
    below the row of day 1, and the page is not the page the claim
    describes. *)
Lemma generateMonthlyLog_one_page_not_stretched :
  let ctx := ctxRm2Compact in
  let N := getDaysInMonth january2025 in
  let lay := monthlyLayout ctx N in
  (JS.ofNat N * preferredLineHeight lay ≤ availableHeight lay)%Qc
  ∧ ∃ refs doc',
      generateMonthlyLog sampleEnv ctx january2025 coverOnly = Some (refs, doc')
      ∧ calendarRow sampleEnv ctx january2025 2
          (contentTop_of (dims ctx) - JS.ofZ 14)%Qc ⊆ textsOf doc' 1
      ∧ ¬ (calendarRow sampleEnv ctx january2025 2
             (contentTop_of (dims ctx) - availableHeight lay / JS.ofNat N)%Qc
           ⊆ textsOf doc' 1)
      ∧ textsOf doc' 1 ≠
          textsOf coverOnly 1
          ++ pageHeaderRuns sampleFont (dims ctx) (getNavLabels monthly (nav ctx))
               "January 2025" (JS.ofZ 11)
          ++ calendarRowRuns sampleEnv ctx january2025 1 N (contentTop_of (dims ctx))
               (availableHeight lay / JS.ofNat N)%Qc
          ++ [mkText "Tasks"
                (left (padding (dims ctx))
                 + (WIDTH (dims ctx) - left (padding (dims ctx))
                    - right (padding (dims ctx))) * Q2Qc (4 # 10) + JS.ofZ 8)%Qc
                (contentTop_of (dims ctx)) (fontSize (density ctx)) HelveticaBold].
Proof.
  intros ctx N lay. split; [by vm_compute|].
  eexists _, _. split; [vm_compute; reflexivity|].
  split; [|split]; apply (bool_decide_unpack _); by vm_compute.
Qed.

(** ** [generateMonthlyLog]: a month split over several pages *)

Lemma ceil_pred_lt (x : Qc) : (JS.ofZ (JS.Math_ceil x - 1) < x)%Qc.
Proof. unfold Qclt, JS.ofZ, JS.Math_ceil. simpl. apply Qceiling_lt. Qed.

Lemma concat_onPage_seq {A} (base m i0 : nat) (content : nat → list A) :
  i0 < m →
  concat ((λ i, onPage (base + i) (content i) (base + i0)) <$> seq 0 m) = content i0.
Proof.
  revert base i0 content. induction m as [|m IH]; intros base i0 content Hi; [lia|].
  cbn [seq fmap list_fmap concat]. rewrite <- fmap_S_seq, <- list_fmap_compose.
  destruct i0 as [|i0].
  - unfold onPage at 1. rewrite decide_True by lia.
    rewrite (proj2 (concat_nil_Forall _)); [by rewrite app_nil_r|].
    apply Forall_fmap, Forall_forall. intros i _. cbn [compose].
    unfold onPage. rewrite decide_False; [done|lia].
  - unfold onPage at 1. rewrite decide_False by lia. cbn [app].
    rewrite <- (IH (S base) i0 (λ i, content (S i))) by lia.
    f_equal. apply list_fmap_ext. intros _ i _. cbn [compose].
    unfold onPage. repeat case_decide; try done; lia.
Qed.

Lemma concat_onPage_seq_other {A} (base m q : nat) (content : nat → list A) :
  (q < base ∨ base + m ≤ q) →
  concat ((λ i, onPage (base + i) (content i) q) <$> seq 0 m) = [].
Proof.
  intros Hq. apply concat_nil_Forall, Forall_fmap, Forall_forall.
  intros i Hi%elem_of_seq. cbn [compose]. unfold onPage.
  rewrite decide_False; [done|lia].
Qed.

Section SplitPages.

Context (env : DateEnv) (ctx : BujoGeneratorContext) (monthDate : JSDate).
Hypothesis getDay_range : ∀ d, getDay env d < 7.

Let N := getDaysInMonth monthDate.
Let lay := monthlyLayout ctx N.
Let rpp := Z.to_nat (daysPerPage lay).
Let k := Z.to_nat (calendarPages lay).

Hypothesis minLineHeight_pos : (0 < minLineHeight lay)%Qc.
Hypothesis daysPerPage_pos : (1 ≤ daysPerPage lay)%Z.

Lemma rpp_pos : 0 < rpp.
Proof. unfold rpp. lia. Qed.

Lemma ofZ_daysPerPage : JS.ofZ (daysPerPage lay) = JS.ofNat rpp.
Proof. unfold JS.ofNat, rpp. by rewrite Z2Nat.id by lia. Qed.

Lemma calendarPages_eq :
  calendarPages lay = JS.Math_ceil (JS.ofNat N / JS.ofNat rpp)%Qc.
Proof. by rewrite <- ofZ_daysPerPage. Qed.

Lemma ofNat_mul a b : JS.ofNat (a * b) = (JS.ofNat a * JS.ofNat b)%Qc.
Proof. unfold JS.ofNat. rewrite Nat2Z.inj_mul. apply Z2Qc_inj_mul. Qed.

Lemma ofNat_lt a b : a < b → (JS.ofNat a < JS.ofNat b)%Qc.
Proof. intros H. apply ofZ_lt. lia. Qed.

Lemma ofNat_le a b : a ≤ b → (JS.ofNat a ≤ JS.ofNat b)%Qc.
Proof. intros H. apply ofZ_le. lia. Qed.

Lemma ofNat_lt_inv a b : (JS.ofNat a < JS.ofNat b)%Qc → a < b.
Proof. intros H%ofZ_lt_inv. lia. Qed.

(** Page [j] is needed exactly when the pages before it leave days over. *)
Lemma page_needed j : j < k ↔ j * rpp < N.
Proof.
  pose proof rpp_pos as Hrpp.
  assert (0 < JS.ofNat rpp)%Qc as Hq by (by apply ofNat_pos).
  unfold k. rewrite calendarPages_eq.
  set (x := (JS.ofNat N / JS.ofNat rpp)%Qc).
  split.
  - intros Hj.
    pose proof (ceil_pred_lt x) as Hlt.
    assert (Z.of_nat j ≤ JS.Math_ceil x - 1)%Z as Hle by lia.
    assert (JS.ofNat j < x)%Qc as Hjx.
    { eapply Qcle_lt_trans; [|exact Hlt]. by apply ofZ_le. }
    apply (Qcmult_lt_mono_pos_r _ _ (JS.ofNat rpp) Hq) in Hjx.
    subst x. rewrite div_mul_cancel in Hjx by done.
    rewrite <- ofNat_mul in Hjx. by apply ofNat_lt_inv.
  - intros Hj.
    assert (JS.ofZ (Z.of_nat j) < x)%Qc as Hjx.
    { subst x. apply lt_div; [done|].
      change (JS.ofZ (Z.of_nat j)) with (JS.ofNat j).
      rewrite <- ofNat_mul. by apply ofNat_lt. }
    apply ceil_gt in Hjx. lia.
Qed.

Lemma page_count_exact q : N = q * rpp → k = q.
Proof.
  intros HN. pose proof rpp_pos as Hrpp.
  destruct (Nat.lt_trichotomy k q) as [H|[H|H]]; [|done|].
  - assert (¬ k < k) as Hk by lia. rewrite page_needed in Hk. nia.
  - apply page_needed in H. nia.
Qed.

Lemma page_count_remainder q r : N = q * rpp + r → 0 < r < rpp → k = q + 1.
Proof.
  intros HN Hr.
  destruct (Nat.lt_trichotomy k (q + 1)) as [H|[H|H]]; [|done|].
  - assert (¬ k < k) as Hk by lia. rewrite page_needed in Hk. nia.
  - apply page_needed in H. nia.
Qed.

Lemma page_count_pos : 0 < k.
Proof.
  apply page_needed. pose proof (getDaysInMonth_pos monthDate). unfold N. lia.
Qed.

Lemma page_count_le : k ≤ N.
Proof.
  pose proof rpp_pos.
  destruct (decide (k ≤ N)) as [|Hn]; [done|].
  assert (N < k) as H' by lia. apply page_needed in H'. nia.
Qed.

Lemma rowsOnPage_pos j : j < k → 0 < rowsOnPage rpp N j ≤ rpp.
Proof.
  intros Hj%page_needed. pose proof rpp_pos. unfold rowsOnPage. lia.
Qed.

(** On every page the stretched row height is at least the minimum. *)
Lemma split_lineHeight j :
  j < k →
  JS.Math_max (minLineHeight lay)
    (availableHeight lay
     / JS.ofZ (Z.min (daysPerPage lay)
                     (Z.of_nat N - Z.of_nat (1 + j * rpp) + 1)))%Qc
  = (availableHeight lay / JS.ofNat (rowsOnPage rpp N j))%Qc.
Proof.
  intros Hj. pose proof (rowsOnPage_pos j Hj) as [Hn1 Hn2].
  apply page_needed in Hj.
  assert (Z.min (daysPerPage lay) (Z.of_nat N - Z.of_nat (1 + j * rpp) + 1)
          = Z.of_nat (rowsOnPage rpp N j)) as ->.
  { unfold rowsOnPage. unfold rpp. lia. }
  rewrite ofZ_of_nat. apply Math_max_r. apply le_div; [by apply ofNat_pos|].
  eapply Qcle_trans.
  - apply Qcmult_le_mono_nonneg_l; [by apply Qclt_le_weak|].
    apply (ofNat_le _ rpp). exact Hn2.
  - rewrite <- ofZ_daysPerPage.
    assert (daysPerPage lay
            = JS.Math_floor (availableHeight lay / minLineHeight lay)%Qc) as -> by done.
    rewrite Qcmult_comm.
    rewrite <- (div_mul_cancel (availableHeight lay) (minLineHeight lay)) at 2 by done.
    apply Qcmult_le_mono_nonneg_r; [by apply Qclt_le_weak|].
    apply floor_le.
Qed.

Lemma split_rows_count j :
  j < k →
  Z.to_nat (Z.min (daysPerPage lay) (Z.of_nat N - Z.of_nat (1 + j * rpp) + 1))
  = rowsOnPage rpp N j.
Proof.
  intros Hj%page_needed. unfold rowsOnPage. unfold rpp. lia.
Qed.

(** The [while] loop from calendar page [j] on: it draws the [m] pages that
    are left and returns their references after the ones it was given. *)
Lemma calendarPagesLoop_drawn :
  ∀ (m j fuel : nat) (pageRefs : list PageRef) (doc : PDFDocument),
    j + m = k → m ≤ fuel →
    ∃ doc',
      calendarPagesLoop fuel env ctx monthDate N lay (1 + (j * rpp) `min` N) j pageRefs doc
        = Some (pageRefs
                ++ ((λ i, calendarPageRef env lay monthDate (j + i)
                            (length (pageTree doc) + i)) <$> seq 0 m),
                doc')
      ∧ drawn doc doc' m
          (λ q, concat ((λ i, onPage (nextRef doc + i)
                                (calendarPageRuns env ctx monthDate lay rpp N (j + i)) q)
                        <$> seq 0 m)).
Proof.
  induction m as [|m IH]; intros j fuel pageRefs doc Hjm Hfuel.
  - assert (¬ j < k) as Hj by lia. rewrite page_needed in Hj.
    exists doc. split.
    + destruct fuel; cbn [calendarPagesLoop]; rewrite decide_False by lia;
        by rewrite app_nil_r.
    + apply drawn_refl.
  - assert (j < k) as Hj by lia.
    pose proof (proj1 (page_needed j) Hj) as HjN.
    pose proof (rowsOnPage_pos j Hj) as [Hn1 Hn2].
    destruct fuel as [|fuel]; [lia|].
    cbn [calendarPagesLoop]. rewrite decide_True by lia.
    replace ((j * rpp) `min` N) with (j * rpp) by lia.
    destruct (addPage_drawn doc) as (doc1 & E1 & D1).
    rewrite (bind_Some _ _ _ _ _ E1).
    rewrite (bind_Some _ _ _ _ _ (getPageCount_eq doc1)).
    destruct (drawTopNavigation_drawn (nextRef doc) (font ctx) (dims ctx)
                (getNavLabels monthly (nav ctx)) doc1) as (doc2 & E2 & D2).
    rewrite (bind_Some _ _ _ _ _ E2).
    fold (calendarTitle env lay monthDate j).
    destruct (drawPageTitle_drawn (nextRef doc) (calendarTitle env lay monthDate j)
                (dims ctx) (navY_of (dims ctx) - JS.ofZ 7 - JS.ofZ 6)%Qc (JS.ofZ 11) doc2)
      as (doc3 & E3 & D3).
    rewrite (bind_Some _ _ _ _ _ E3).
    change (navY_of (dims ctx) - JS.ofZ 7 - JS.ofZ 6 - JS.ofZ 11 - JS.ofZ 8)%Qc
      with (contentTop_of (dims ctx)).
    rewrite (split_lineHeight j Hj), (split_rows_count j Hj).
    destruct (drawSplitRows_drawn env ctx monthDate getDay_range (nextRef doc) N
                (availableHeight lay / JS.ofNat (rowsOnPage rpp N j))%Qc
                (rowsOnPage rpp N j) (1 + j * rpp) (contentTop_of (dims ctx)) doc3)
      as (doc4 & E4 & D4).
    cbv zeta in E4, D4.
    replace (rowsOnPage rpp N j `min` (S N - (1 + j * rpp)))
      with (rowsOnPage rpp N j) in E4, D4 by (unfold rowsOnPage; lia).
    rewrite (bind_Some _ _ _ _ _ E4).
    fold (calendarPageRef env lay monthDate j (length (pageTree doc1) - 1)).
    replace (1 + j * rpp + rowsOnPage rpp N j) with (1 + (S j * rpp) `min` N)
      by (unfold rowsOnPage; lia).
    replace (j + 1) with (S j) by lia.
    destruct (IH (S j) fuel
                (pageRefs ++ [calendarPageRef env lay monthDate j
                                (length (pageTree doc1) - 1)]) doc4)
      as (doc' & E' & D'); [lia|lia|].
    exists doc'.
    pose proof (drawn_trans _ _ _ _ _ _ _ D1
                  (drawn_trans _ _ _ _ _ _ _ D2
                     (drawn_trans _ _ _ _ _ _ _ D3 D4))) as D14.
    assert (length (pageTree doc1) - 1 = length (pageTree doc)) as Hidx.
    { destruct D1 as (-> & _). rewrite length_app. simpl. lia. }
    assert (length (pageTree doc4) = S (length (pageTree doc))) as Hlen4.
    { destruct D14 as (-> & _). rewrite length_app. simpl. lia. }
    assert (nextRef doc4 = S (nextRef doc)) as Hnext4.
    { destruct D14 as (_ & _ & -> & _). lia. }
    split.
    + rewrite E'. f_equal. f_equal. rewrite <- app_assoc. f_equal.
      cbn [seq fmap list_fmap app]. rewrite Hidx, !Nat.add_0_r. f_equal.
      rewrite <- fmap_S_seq, <- list_fmap_compose. apply list_fmap_ext.
      intros _ i _. cbn [compose]. rewrite Hlen4. f_equal; lia.
    + eapply drawn_ext; [| |exact (drawn_trans _ _ _ _ _ _ _ D14 D')]; [lia|].
      intros q. cbv beta. cbn [seq fmap list_fmap concat app].
      rewrite !onPage_app, !Nat.add_0_r. unfold calendarPageRuns at 2, pageHeaderRuns.
      rewrite <- !app_assoc. f_equal.
      rewrite <- fmap_S_seq, <- list_fmap_compose. f_equal. apply list_fmap_ext.
      intros _ i _. cbn [compose]. rewrite Hnext4. f_equal; [lia|f_equal; lia].
Qed.

End SplitPages.

Lemma generateMonthlyLog_split env ctx monthDate doc :
  let N := getDaysInMonth monthDate in
  let lay := monthlyLayout ctx N in
  let rpp := Z.to_nat (daysPerPage lay) in
  let k := Z.to_nat (calendarPages lay) in
  (∀ d, getDay env d < 7) →
  (0 < minLineHeight lay)%Qc →
  (1 ≤ daysPerPage lay)%Z →
  needsSplit lay = true →
  ∃ tasksRef doc',
    generateMonthlyLog env ctx monthDate doc
      = Some (((λ i, calendarPageRef env lay monthDate i (length (pageTree doc) + i))
               <$> seq 0 k) ++ [tasksRef], doc')
    ∧ type tasksRef = monthly_tasks
    ∧ pageIndex tasksRef = length (pageTree doc) + k
    ∧ yearMonth tasksRef = Some (formatYearMonth monthDate)
    ∧ drawn doc doc' (k + 1)
        (λ q, concat ((λ i, onPage (nextRef doc + i)
                              (calendarPageRuns env ctx monthDate lay rpp N i) q)
                      <$> seq 0 k)
              ++ onPage (nextRef doc + k)
                   (pageHeaderRuns (font ctx) (dims ctx)
                      (getNavLabels monthly_tasks (nav ctx))
                      (format env monthDate "MMMM" +:+ " - Tasks") (JS.ofZ 11)) q).
Proof.
  intros N lay rpp k Hday Hmin Hdpp Hsplit.
  unfold generateMonthlyLog. fold N. fold lay. rewrite Hsplit.
  destruct (calendarPagesLoop_drawn env ctx monthDate Hday Hmin Hdpp k 0 N [] doc)
    as (doc1 & E1 & D1).
  { fold N lay. lia. }
  { apply page_count_le. exact Hdpp. }
  fold N lay rpp k in E1, D1.
  replace (1 + (0 * rpp) `min` N) with 1 in E1 by lia.
  rewrite (bind_Some _ _ _ _ _ E1).
  destruct (addPage_drawn doc1) as (doc2 & E2 & D2).
  rewrite (bind_Some _ _ _ _ _ E2).
  rewrite (bind_Some _ _ _ _ _ (getPageCount_eq doc2)).
  destruct (drawTopNavigation_drawn (nextRef doc1) (font ctx) (dims ctx)
              (getNavLabels monthly_tasks (nav ctx)) doc2) as (doc3 & E3 & D3).
  rewrite (bind_Some _ _ _ _ _ E3).
  destruct (drawPageTitle_drawn (nextRef doc1)
              (format env monthDate "MMMM" +:+ " - Tasks")
              (dims ctx) (navY_of (dims ctx) - JS.ofZ 7 - JS.ofZ 6)%Qc (JS.ofZ 11) doc3)
    as (doc4 & E4 & D4).
  rewrite (bind_Some _ _ _ _ _ E4).
  eexists _, doc4. split; [reflexivity|].
  assert (nextRef doc1 = nextRef doc + k) as Hnext1 by (by destruct D1 as (_ & _ & -> & _)).
  assert (length (pageTree doc2) - 1 = length (pageTree doc) + k) as Hidx.
  { destruct D2 as (-> & _). destruct D1 as (-> & _).
    rewrite !length_app, length_seq. simpl. lia. }
  cbn [type pageIndex yearMonth]. rewrite Hidx.
  do 3 (split; [done|]).
  eapply drawn_ext;
    [| |exact (drawn_trans _ _ _ _ _ _ _ D1
                 (drawn_trans _ _ _ _ _ _ _ D2
                    (drawn_trans _ _ _ _ _ _ _ D3 D4)))]; [lia|].
  intros q. cbv beta. cbn [app]. rewrite onPage_app, Hnext1. done.
Qed.

Lemma ofType_all t refs :
  Forall (λ r, type r = t) refs → ofType t refs = refs.
Proof.
  induction 1 as [|r refs Hr _ IH]; [done|].
  rewrite ofType_cons, decide_True by done. by rewrite IH.
Qed.

Lemma ofType_calendarPageRefs env lay monthDate idx k tasksRef :
  type tasksRef = monthly_tasks →
  ofType monthly (((λ i, calendarPageRef env lay monthDate i (idx + i)) <$> seq 0 k)
                  ++ [tasksRef])
  = (λ i, calendarPageRef env lay monthDate i (idx + i)) <$> seq 0 k.
Proof.
  intros Ht. rewrite ofType_app.
  assert (ofType monthly [tasksRef] = []) as ->.
  { rewrite ofType_cons, decide_False; [done|]. rewrite Ht. done. }
  rewrite app_nil_r. apply ofType_all, Forall_fmap, Forall_forall.
  by intros i _.
Qed.

(** C6. In the overflow case, with [rowsPerPage = floor(H / Rmin)],
    [generateMonthlyLog] produces exactly [ceil(N / rowsPerPage)] calendar
    pages, one after the other and followed only by the tasks page: [q]
    pages when [N = q * rowsPerPage], and [q + 1] when
    [N = q * rowsPerPage + r] with [0 < r < rowsPerPage].  Page [j] holds
    the rows of the days from [1 + j * rowsPerPage] on, as many as are
    left up to [rowsPerPage], and on every page, the last included, the
    row height is [H] divided by the number of rows on that page, so the
    rows fill [H] exactly.  The statement takes a page tall enough for one
    row of the minimum height; on a smaller one the loop of the generator
    never advances. *)
Theorem generateMonthlyLog_split_pages :
  ∀ (env : DateEnv) (ctx : BujoGeneratorContext) (monthDate : JSDate)
    (doc : PDFDocument),
    let N := getDaysInMonth monthDate in
    let lay := monthlyLayout ctx N in
    let rowsPerPage := Z.to_nat (daysPerPage lay) in
    let k := Z.to_nat (calendarPages lay) in
    (∀ d, getDay env d < 7) →
    (0 < minLineHeight lay)%Qc →
    (1 ≤ daysPerPage lay)%Z →
    needsSplit lay = true →
    ∃ refs doc',
      generateMonthlyLog env ctx monthDate doc = Some (refs, doc')
      ∧ daysPerPage lay = JS.Math_floor (availableHeight lay / minLineHeight lay)%Qc
      ∧ calendarPages lay = JS.Math_ceil (JS.ofNat N / JS.ofNat rowsPerPage)%Qc
      ∧ pageIndex <$> ofType monthly refs = seq (length (pageTree doc)) k
      ∧ pageTree doc' = pageTree doc ++ seq (nextRef doc) (k + 1)
      ∧ (∀ q, N = q * rowsPerPage → k = q)
      ∧ (∀ q r, N = q * rowsPerPage + r → 0 < r < rowsPerPage → k = q + 1)
      ∧ ∀ j, j < k →
          let rows := rowsOnPage rowsPerPage N j in
          let rowHeight := (availableHeight lay / JS.ofNat rows)%Qc in
          0 < rows
          ∧ (JS.ofNat rows * rowHeight)%Qc = availableHeight lay
          ∧ textsOf doc' (nextRef doc + j) =
              textsOf doc (nextRef doc + j)
              ++ pageHeaderRuns (font ctx) (dims ctx) (getNavLabels monthly (nav ctx))
                                (calendarTitle env lay monthDate j) (JS.ofZ 11)
              ++ calendarRowRuns env ctx monthDate (1 + j * rowsPerPage) rows
                                 (contentTop_of (dims ctx)) rowHeight.
Proof.
  intros env ctx monthDate doc N lay rpp k Hday Hmin Hdpp Hsplit.
  destruct (generateMonthlyLog_split env ctx monthDate doc Hday Hmin Hdpp Hsplit)
    as (tasksRef & doc' & E & Ht & Hti & _ & D).
  fold N lay rpp k in E, D.
  eexists _, doc'. split; [exact E|].
  split; [done|].
  split; [by apply calendarPages_eq|].
  split.
  { rewrite (ofType_calendarPageRefs _ _ _ _ _ _ Ht).
    rewrite <- list_fmap_compose.
    replace (seq (length (pageTree doc)) k)
      with (seq (length (pageTree doc) + 0) k) by (f_equal; lia).
    rewrite <- (fmap_add_seq (length (pageTree doc)) 0 k).
    by apply list_fmap_ext. }
  split; [by destruct D as (-> & _)|].
  split; [intros q; by apply page_count_exact|].
  split; [intros q r; by apply page_count_remainder|].
  intros j Hj rows rowHeight.
  pose proof (rowsOnPage_pos ctx monthDate Hdpp j Hj) as [Hr1 Hr2].
  fold N lay rpp in Hr1, Hr2.
  split; [exact Hr1|]. split.
  { subst rowHeight. rewrite Qcmult_comm. apply div_mul_cancel. by apply ofNat_pos. }
  destruct D as (_ & _ & _ & D). rewrite D. f_equal.
  rewrite (concat_onPage_seq (nextRef doc) k j) by done.
  unfold onPage. rewrite decide_False by lia. by rewrite app_nil_r.
Qed.

(** January 2025 on the Paper Pro Move at normal density: 26 rows of at
    least 13 points fit the 344 points available, so the 31 days take two
    calendar pages of 26 and 5 rows. *)
Lemma generateMonthlyLog_split_pages_witness :
  ∃ refs doc',
    generateMonthlyLog sampleEnv ctxMoveNormal january2025 coverOnly = Some (refs, doc')
    ∧ daysPerPage (monthlyLayout ctxMoveNormal 31) = 26%Z
    ∧ calendarPages (monthlyLayout ctxMoveNormal 31) = 2%Z
    ∧ pageIndex <$> ofType monthly refs = [1; 2]
    ∧ pageTree doc' = [0; 1; 2; 3]
    ∧ rowsOnPage 26 31 0 = 26 ∧ rowsOnPage 26 31 1 = 5
    ∧ textsOf doc' 2 =
        pageHeaderRuns sampleFont (dims ctxMoveNormal)
          (getNavLabels monthly (nav ctxMoveNormal)) "January 2025 (2/2)" (JS.ofZ 11)
        ++ calendarRowRuns sampleEnv ctxMoveNormal january2025 27 5
             (contentTop_of (dims ctxMoveNormal)) (JS.ofZ 344 / JS.ofZ 5)%Qc.
Proof.
  destruct (generateMonthlyLog_split_pages sampleEnv ctxMoveNormal january2025 coverOnly)
    as (refs & doc' & E & Hdpp & Hcp & Hidx & Htree & _ & _ & Hpages).
  - intros d. unfold sampleEnv, getDay, sampleDayOfWeek. apply Nat.mod_upper_bound. lia.
  - by vm_compute.
  - by vm_compute.
  - by vm_compute.
  - exists refs, doc'. split; [exact E|].
    split; [by vm_compute|]. split; [by vm_compute|].
    split; [exact Hidx|]. split; [exact Htree|].
    split; [done|]. split; [done|].
    destruct (Hpages 1) as (_ & _ & Htexts); [by vm_compute|].
    exact Htexts.
Defined.

(** ** Navigation labels: drawing and linking *)

(** For a reference of the type its page was drawn with, the labels of
    [getNavItemsForPage] are the labels of [getNavLabels], as long as the
    section flags say what the registry holds. *)
Lemma getNavItemsForPage_labels (ref : PageRef) (registry : PageRegistry)
    (nav : NavContext) :
  hasFutureLog nav = bool_decide (0 < length (futureLogPages registry)) →
  hasMonthlyLog nav = bool_decide (0 < size (monthlyCalPages registry)) →
  hasWeeklyReview nav = bool_decide (0 < size (weeklyPages registry)) →
  navLabel <$> getNavItemsForPage ref registry = getNavLabels (type ref) nav.
Proof.
  intros Hf Hm Hw. unfold getNavItemsForPage, getNavLabels.
  rewrite Hf, Hm, Hw.
  destruct (type ref);
    destruct (bool_decide (0 < length (futureLogPages registry)));
    destruct (bool_decide (0 < size (monthlyCalPages registry)));
    destruct (bool_decide (0 < size (weeklyPages registry))); reflexivity.
Qed.

(** On a collection page of a planner that has collections only, both
    give the arrows and the index label. *)
Lemma getNavItemsForPage_labels_witness :
  navLabel <$> getNavItemsForPage
                 (mkPageRef "Collection 1" 2 collection None None None None)
                 collectionsRegistry
  = getNavLabels collection (mkNavContext false false false false).
Proof.
  apply (getNavItemsForPage_labels
           (mkPageRef "Collection 1" 2 collection None None None None)
           collectionsRegistry (mkNavContext false false false false));
    by vm_compute.
Defined.

Lemma tasks_labels_not_calendar_labels (ref : PageRef) (registry : PageRegistry)
    (nav : NavContext) :
  type ref = monthly_tasks →
  navLabel <$> getNavItemsForPage ref registry ≠ getNavLabels monthly nav.
Proof.
  intros Ht. unfold getNavItemsForPage, getNavLabels. rewrite Ht.
  destruct (bool_decide (0 < length (futureLogPages registry)));
    destruct (hasFutureLog nav); discriminate.
Qed.

(** C10 fails on the page of a month that fits one page.
    [generateMonthlyLog] draws that page once, with the labels of a
    calendar page ("<", "Index", ..., "Tasks", ">"), and registers it
    under two references, a calendar and a tasks reference with the same
    page index.  [addComprehensiveNavigation] visits both: for the tasks
    reference, whatever the registry and the index shift,
    [getNavItemsForPage] gives the labels of a tasks page (... "Calendar",
    ">"), which are not the labels drawn, so the rectangles computed from
    them are laid over other text. *)
Theorem combined_page_tasks_reference_labels_differ :
  ∀ (env : DateEnv) (ctx : BujoGeneratorContext) (monthDate : JSDate)
    (doc : PDFDocument),
    let N := getDaysInMonth monthDate in
    let lay := monthlyLayout ctx N in
    (∀ d, getDay env d < 7) →
    (JS.ofZ 2 ≤ lineHeight (density ctx))%Qc →
    (JS.ofNat N * preferredLineHeight lay ≤ availableHeight lay)%Qc →
    ∃ calRef tasksRef doc' rest,
      generateMonthlyLog env ctx monthDate doc = Some ([calRef; tasksRef], doc')
      ∧ type calRef = monthly ∧ type tasksRef = monthly_tasks
      ∧ pageIndex tasksRef = pageIndex calRef
      ∧ textsOf doc' (nextRef doc) =
          textsOf doc (nextRef doc)
          ++ navRowRuns (JS.ofZ 7) (navY_of (dims ctx))
               (navLayout (font ctx) (JS.ofZ 7) (getNavLabels monthly (nav ctx))
                          (left (padding (dims ctx))))
          ++ rest
      ∧ ∀ (indexPageCount : nat) (registry : PageRegistry),
          navLabel <$> getNavItemsForPage (addToPageIndex indexPageCount tasksRef) registry
          ≠ getNavLabels monthly (nav ctx).
Proof.
  intros env ctx monthDate doc N lay Hday Hlh Hfits.
  destruct (generateMonthlyLog_combined env ctx monthDate Hday Hlh Hfits doc)
    as (calRef & tasksRef & doc' & E & Hc & Ht & Hic & Hit & _ & _ & D).
  exists calRef, tasksRef, doc'. eexists.
  split; [exact E|]. do 2 (split; [done|]). split; [congruence|]. split.
  - rewrite (drawn_textsOf _ _ _ _ _ D). unfold pageHeaderRuns.
    rewrite <- !app_assoc. reflexivity.
  - intros M registry. by apply tasks_labels_not_calendar_labels.
Qed.

(** January 2025 on the reMarkable 2 at compact density, with one index
    page in front: the page is drawn with "<", "Index", "Tasks", ">" and
    linked, for its tasks reference, as "<", "Index", "Calendar", ">". *)
Lemma combined_page_tasks_reference_labels_differ_witness :
  ∃ calRef tasksRef doc' rest,
    generateMonthlyLog sampleEnv ctxRm2Compact january2025 coverOnly
      = Some ([calRef; tasksRef], doc')
    ∧ type calRef = monthly ∧ type tasksRef = monthly_tasks
    ∧ pageIndex tasksRef = pageIndex calRef
    ∧ textsOf doc' 1 =
        textsOf coverOnly 1
        ++ navRowRuns (JS.ofZ 7) (navY_of (dims ctxRm2Compact))
             (navLayout sampleFont (JS.ofZ 7) ["<"; "Index"; "Tasks"; ">"]
                        (left (padding (dims ctxRm2Compact))))
        ++ rest
    ∧ (∀ (indexPageCount : nat) (registry : PageRegistry),
         navLabel <$> getNavItemsForPage (addToPageIndex indexPageCount tasksRef) registry
         ≠ ["<"; "Index"; "Tasks"; ">"])
    ∧ let allRefs := [mkPageRef "Index" 1 index None None None None;
                      addToPageIndex 1 calRef; addToPageIndex 1 tasksRef] in
      navLabel <$> getNavItemsForPage (addToPageIndex 1 tasksRef)
                                      (buildPageRegistry allRefs 1)
      = ["<"; "Index"; "Calendar"; ">"].
Proof.
  destruct (combined_page_tasks_reference_labels_differ
              sampleEnv ctxRm2Compact january2025 coverOnly)
    as (calRef & tasksRef & doc' & rest & E & Hc & Ht & Hi & Htexts & Hne).
  - intros d. unfold sampleEnv, getDay, sampleDayOfWeek. apply Nat.mod_upper_bound. lia.
  - by vm_compute.
  - by vm_compute.
  - exists calRef, tasksRef, doc', rest.
    do 4 (split; [done|]). split; [exact Htexts|]. split; [exact Hne|].
    vm_compute in E. injection E as <- <- <-. by vm_compute.
Defined.

(** ** Rules for [total] *)

Lemma total_ret {A} (Q : A → PDFDocument → Prop) (a : A) :
  total (Q a) (ret a) Q.
Proof. intros doc H. by exists a, doc. Qed.

Lemma total_bind {A B} (P : PDFDocument → Prop) (Q : A → PDFDocument → Prop)
    (R : B → PDFDocument → Prop) (m : M A) (f : A → M B) :
  total P m Q → (∀ a, total (Q a) (f a) R) → total P (bind m f) R.
Proof.
  intros Hm Hf doc HP. destruct (Hm doc HP) as (a & doc1 & E1 & HQ).
  destruct (Hf a doc1 HQ) as (b & doc2 & E2 & HR).
  exists b, doc2. split; [|done]. by rewrite (bind_Some _ _ _ _ _ E1).
Qed.

Lemma total_pre {A} (P P' : PDFDocument → Prop) (Q : A → PDFDocument → Prop)
    (m : M A) :
  (∀ doc, P' doc → P doc) → total P m Q → total P' m Q.
Proof. intros HP Hm doc H. apply Hm, HP, H. Qed.

Lemma total_post {A} (P : PDFDocument → Prop) (Q Q' : A → PDFDocument → Prop)
    (m : M A) :
  (∀ a doc, Q a doc → Q' a doc) → total P m Q → total P m Q'.
Proof.
  intros HQ Hm doc H. destruct (Hm doc H) as (a & doc' & E & H').
  exists a, doc'. split; [done|]. by apply HQ.
Qed.

(** ** The index builder keeps its invariant *)

Section IndexBuilder.

Context (doc0 : PDFDocument) (insertOffset : nat) (linked : PageRef → Prop).
Hypothesis offset_in_range : insertOffset ≤ length (pageTree doc0).

Local Abbreviation Inv := (IndexInv doc0 insertOffset linked).
Local Abbreviation linkable := (linkableRef doc0 insertOffset linked).

Lemma IndexInv_setY b y doc : Inv b doc → Inv (setY b y) doc.
Proof. done. Qed.

Lemma drawText_inv b page run :
  total (Inv b) (drawText page run) (λ _, Inv b).
Proof.
  intros doc (H1 & H2 & H3 & H4 & H5 & H6).
  eexists tt, _. split; [reflexivity|].
  repeat split; try done.
Qed.

Lemma lookup_shifted_page b doc i :
  Inv b doc → insertOffset ≤ i →
  pageTree doc !! (i + indexPageCount b) = pageTree doc0 !! i.
Proof using offset_in_range.
  intros (H1 & _) Hi. rewrite H1.
  rewrite lookup_app_r; rewrite length_take; [|lia].
  rewrite lookup_app_r; rewrite length_seq; [|lia].
  rewrite lookup_drop. f_equal. lia.
Qed.

Lemma addLink_inv b x y w h r :
  linkable r →
  total (Inv b) (addLink b x y w h (pageIndex r)) (λ _, Inv b).
Proof using offset_in_range.
  intros [Hr Hrange] doc HI.
  destruct (lookup_lt_is_Some_2 (pageTree doc0) (pageIndex r)) as [p Hp]; [lia|].
  assert (pageTree doc !! (pageIndex r + indexPageCount b) = Some p) as Hp'.
  { rewrite (lookup_shifted_page b doc) by (done || lia). done. }
  unfold addLink. eexists tt, _.
  split; [by apply createInternalLink_Some|].
  destruct HI as (H1 & H2 & H3 & H4 & H5 & H6).
  repeat split; try done.
  intros q a. rewrite annotsOf_insert. case_decide as Eq.
  - subst q. rewrite elem_of_app, list_elem_of_singleton.
    intros [Ha | ->]; [by apply H6|].
    right. split; [done|]. by exists r.
  - apply H6.
Qed.

(** Opening index page number [c + 1] at [insertOffset + c], from a
    document that holds [c] index pages. *)
Lemma createIndexPage_inv dims pageNumber title (c i : nat) (refs : list PageRef)
    (refLabel : string) (doc : PDFDocument) :
  i = insertOffset + c →
  pageTree doc = take insertOffset (pageTree doc0) ++ seq (nextRef doc0) c
                 ++ drop insertOffset (pageTree doc0) →
  nextRef doc = nextRef doc0 + c →
  pageIndex <$> refs = seq insertOffset c →
  Forall (λ r, type r = index) refs →
  (∀ q a, a ∈ annotsOf doc q →
          a ∈ annotsOf doc0 q
          ∨ (q ∈ seq (nextRef doc0) c ∧ indexLinkOk doc0 linked a)) →
  ∃ st doc',
    createIndexPage i dims pageNumber title doc = Some (st, doc')
    ∧ Inv (mkIndexBuild st (refs ++ [mkPageRef refLabel i index None None None None])
                        (c + 1)) doc'.
Proof using offset_in_range.
  intros -> H1 H2 H4 H5 H6. unfold createIndexPage.
  assert (insertPage (insertOffset + c) doc
          = Some (nextRef doc,
                  mkDoc (take (insertOffset + c) (pageTree doc)
                         ++ nextRef doc :: drop (insertOffset + c) (pageTree doc))
                        (pageTexts doc) (pageAnnots doc) (S (nextRef doc)))) as E.
  { unfold insertPage. rewrite decide_True; [done|].
    rewrite H1, !length_app, length_take, length_seq, length_drop. lia. }
  eexists _, _. split.
  { rewrite (bind_Some _ _ _ _ _ E). reflexivity. }
  unfold IndexInv. cbn [indexPageCount state statePage indexRefs].
  assert (take (insertOffset + c) (pageTree doc)
          = take insertOffset (pageTree doc0) ++ seq (nextRef doc0) c) as Htake.
  { rewrite H1, app_assoc. apply take_app_length'.
    rewrite length_app, length_take, length_seq. lia. }
  assert (drop (insertOffset + c) (pageTree doc) = drop insertOffset (pageTree doc0))
    as Hdrop.
  { rewrite H1, app_assoc. apply drop_app_length'.
    rewrite length_app, length_take, length_seq. lia. }
  repeat split.
  - cbn [pageTree]. rewrite Htake, Hdrop, H2.
    rewrite seq_app, <- !app_assoc. done.
  - cbn [nextRef]. lia.
  - rewrite H2. apply elem_of_seq. lia.
  - rewrite fmap_app, H4, seq_app. done.
  - apply Forall_app. split; [done|]. by repeat constructor.
  - intros q a Ha.
    assert (a ∈ annotsOf doc q) as Ha' by done.
    destruct (H6 q a Ha') as [?|[Hq Hok]]; [by left|].
    right. split; [|done]. apply elem_of_seq. apply elem_of_seq in Hq. lia.
Qed.

Lemma openIndexPage_inv dims refLabel title b :
  total (Inv b) (openIndexPage insertOffset dims refLabel title b) (λ b', Inv b').
Proof using offset_in_range.
  intros doc (H1 & H2 & H3 & H4 & H5 & H6). unfold openIndexPage.
  destruct (createIndexPage_inv dims (indexPageCount b + 1) title (indexPageCount b)
              (insertOffset + indexPageCount b) (indexRefs b) refLabel doc)
    as (st & doc' & E & HI); try done.
  eexists _, doc'. split; [|exact HI].
  by rewrite (bind_Some _ _ _ _ _ E).
Qed.

Lemma total_setY {A} b y (m : M A) (Q : A → PDFDocument → Prop) :
  total (Inv (setY b y)) m Q → total (Inv b) m Q.
Proof. intros H doc HI. apply H. by apply IndexInv_setY. Qed.

(** The conditional page break in front of a row. *)
Lemma maybe_openIndexPage_inv (cond : bool) dims refLabel title b :
  total (Inv b)
        (if cond then openIndexPage insertOffset dims refLabel title b else ret b)
        (λ b', Inv b').
Proof using offset_in_range.
  destruct cond; [apply openIndexPage_inv|].
  apply (total_ret (λ b', Inv b') b).
Qed.

Ltac idx_step :=
  eapply total_bind;
  [first [apply drawText_inv | apply addLink_inv; assumption]|intros ?].

Lemma indexKeyFuture_inv font dims keyRefs futureRefs b :
  Forall linkable keyRefs → Forall linkable futureRefs →
  total (Inv b) (indexKeyFuture font dims keyRefs futureRefs b) (λ b', Inv b').
Proof using offset_in_range.
  intros Hk Hf. unfold indexKeyFuture.
  destruct (bool_decide (0 < length keyRefs) || bool_decide (0 < length futureRefs));
    [|apply (total_ret (λ b', Inv b') b)].
  eapply total_bind with (Q := λ _, Inv b).
  - destruct keyRefs as [|keyRef ?].
    + apply (total_ret (λ _, Inv b)).
    + inversion Hk; subst. do 3 idx_step. apply (total_ret (λ _, Inv b)).
  - intros x. eapply total_bind with (Q := λ _, Inv b).
    + destruct futureRefs as [|futureRef ?].
      * apply (total_ret (λ _, Inv b)).
      * inversion Hf; subst. do 2 idx_step. by apply addLink_inv.
    + intros _. apply (total_ret (λ b', Inv b') (setY b _)).
Qed.

Lemma indexWeekLinks_inv font b :
  ∀ (monthWeeks : list PageRef) (wx : Qc),
    Forall linkable monthWeeks →
    total (Inv b) (indexWeekLinks font b monthWeeks wx) (λ _, Inv b).
Proof using offset_in_range.
  induction monthWeeks as [|weekRef rest IH]; intros wx Hw.
  - apply (total_ret (λ _, Inv b)).
  - inversion Hw; subst. cbn [indexWeekLinks]. do 3 idx_step. by apply IH.
Qed.

Lemma indexMonthRows_inv env font dims weeklyByMonth :
  (∀ m l, weeklyByMonth !! m = Some l → Forall linkable l) →
  ∀ (months : list (string * (JSDate * PageRef))) (b : IndexBuild),
    Forall (λ entry, linkable (snd (snd entry))) months →
    total (Inv b)
          (indexMonthRows env font dims insertOffset weeklyByMonth months b)
          (λ b', Inv b').
Proof using offset_in_range.
  intros Hweeks. induction months as [|[key0 [date0 ref]] rest IH]; intros b Hm.
  - apply (total_ret (λ b', Inv b') b).
  - inversion Hm as [|? ? Href Hrest]; subst. cbn [snd] in Href.
    cbn [indexMonthRows].
    eapply total_bind; [apply maybe_openIndexPage_inv|]. intros b1.
    do 3 idx_step.
    eapply total_bind with (Q := λ _, Inv b1).
    + apply indexWeekLinks_inv.
      destruct (weeklyByMonth !! getMonth date0) as [l|] eqn:El; cbn [default].
      * by apply (Hweeks _ _ El).
      * constructor.
    + intros _. apply (IH (setY b1 _)). exact Hrest.
Qed.

Lemma foldl_invariant {A B} (P : A → Prop) (f : A → B → A) (l : list B) (a : A) :
  P a → (∀ acc x, P acc → x ∈ l → P (f acc x)) → P (foldl f a l).
Proof.
  revert a. induction l as [|x l IH]; intros a Ha Hf; [done|].
  cbn [foldl]. apply IH.
  - apply Hf; [done|by left].
  - intros acc y Hacc Hy. apply Hf; [done|by right].
Qed.

Lemma omSet_Forall {V} (Q : V → Prop) (k : string) (v : V) (m : list (string * V)) :
  Forall (λ e, Q (snd e)) m → Q v → Forall (λ e, Q (snd e)) (omSet k v m).
Proof.
  intros Hm Hv. induction Hm as [|[k' v'] m Hk' Hm IH]; cbn [omSet].
  - by repeat constructor.
  - case_decide; constructor; done.
Qed.

Lemma omGet_Forall {V} (Q : V → Prop) (k : string) (v : V) (m : list (string * V)) :
  Forall (λ e, Q (snd e)) m → omGet k m = Some v → Q v.
Proof.
  intros Hm. induction Hm as [|[k' v'] m Hk' Hm IH]; cbn [omGet]; [done|].
  case_decide; [|done]. by intros [= <-].
Qed.

Lemma ofType_Forall (Q : PageRef → Prop) t refs :
  Forall Q refs → Forall Q (ofType t refs).
Proof.
  induction 1 as [|r refs Hr _ IH]; [constructor|].
  rewrite ofType_cons. case_decide; [by constructor|done].
Qed.

Lemma uniqueMonths_Forall (Q : PageRef → Prop) refs :
  Forall Q refs → Forall (λ e, Q (snd (snd e))) (uniqueMonths refs).
Proof.
  intros Hrefs. unfold uniqueMonths.
  apply (foldl_invariant (Forall (λ e, Q (snd (snd e))))); [constructor|].
  intros acc r Hacc Hr. destruct (date r) as [d|]; [|done].
  destruct (omGet (monthKey d) acc); [done|].
  apply (omSet_Forall (λ v, Q (snd v))); [done|].
  cbn [snd]. by apply (proj1 (Forall_forall _ _) Hrefs).
Qed.

Lemma groupWeeklyByMonth_Forall (Q : PageRef → Prop) refs :
  Forall Q refs →
  ∀ m l, groupWeeklyByMonth refs !! m = Some l → Forall Q l.
Proof.
  intros Hrefs. unfold groupWeeklyByMonth.
  apply (foldl_invariant
           (λ grouped : gmap nat (list PageRef),
              ∀ m l, grouped !! m = Some l → Forall Q l)).
  - intros m l. by rewrite lookup_empty.
  - intros acc r Hacc Hr m l.
    destruct (decide (default 0 (monthIndex r) = m)) as [<-|Hne].
    + rewrite lookup_insert_eq. intros [= <-].
      apply Forall_app. split.
      * destruct (acc !! default 0 (monthIndex r)) as [l'|] eqn:E; cbn [default].
        -- by apply (Hacc _ _ E).
        -- constructor.
      * repeat constructor. by apply (proj1 (Forall_forall _ _) Hrefs).
    + rewrite lookup_insert_ne by done. apply Hacc.
Qed.

Lemma groupDailyByMonth_Forall (Q : PageRef → Prop) refs :
  Forall Q refs →
  Forall (λ e, snd e ≠ [] ∧ Forall (λ r, Q r ∧ is_Some (date r)) (snd e))
         (groupDailyByMonth refs).
Proof.
  intros Hrefs. unfold groupDailyByMonth.
  apply (foldl_invariant
           (Forall (λ e : string * list PageRef,
                      snd e ≠ [] ∧ Forall (λ r, Q r ∧ is_Some (date r)) (snd e))));
    [constructor|].
  intros acc r Hacc Hr. destruct (date r) as [d|] eqn:Ed; [|done].
  apply (omSet_Forall (λ v, v ≠ [] ∧ Forall (λ r, Q r ∧ is_Some (date r)) v));
    [done|].
  split; [by destruct (default [] (omGet (monthKey d) acc))|].
  apply Forall_app. split.
  - destruct (omGet (monthKey d) acc) as [l|] eqn:E; cbn [default]; [|constructor].
    by destruct (omGet_Forall
                   (λ v, v ≠ [] ∧ Forall (λ r, Q r ∧ is_Some (date r)) v) _ _ _ Hacc E).
  - repeat constructor; [|by rewrite Ed].
    by apply (proj1 (Forall_forall _ _) Hrefs).
Qed.

Lemma indexMonthly_inv env font dims monthlyRefs weeklyRefs b :
  Forall linkable monthlyRefs → Forall linkable weeklyRefs →
  total (Inv b)
        (indexMonthly env font dims insertOffset monthlyRefs weeklyRefs b)
        (λ b', Inv b').
Proof using offset_in_range.
  intros Hm Hw. unfold indexMonthly.
  destruct (bool_decide (0 < length monthlyRefs) || bool_decide (0 < length weeklyRefs));
    [|apply (total_ret (λ b', Inv b') b)].
  idx_step.
  eapply total_bind with (Q := λ _, Inv b).
  - destruct (bool_decide (0 < length weeklyRefs)).
    + apply drawText_inv.
    + apply (total_ret (λ _, Inv b)).
  - intros _. eapply total_setY. apply (indexMonthRows_inv env font dims).
    + by apply groupWeeklyByMonth_Forall.
    + by apply uniqueMonths_Forall.
Qed.

Lemma indexDayLinks_inv font dims b maxDaysPerRow :
  ∀ (days : list PageRef) (i : nat) (y : Qc),
    Forall (λ r, linkable r ∧ is_Some (date r)) days →
    total (Inv b) (indexDayLinks font dims b maxDaysPerRow days i y) (λ _, Inv b).
Proof using offset_in_range.
  induction days as [|dayRef rest IH]; intros i y Hd.
  - apply (total_ret (λ _, Inv b)).
  - inversion Hd as [|? ? [Hl [d Hdate]] Hrest]; subst.
    cbn [indexDayLinks]. rewrite Hdate. do 2 idx_step. by apply IH.
Qed.

Lemma indexDailyMonths_inv env font dims :
  ∀ (groups : list (string * list PageRef)) (b : IndexBuild),
    Forall (λ e, snd e ≠ [] ∧ Forall (λ r, linkable r ∧ is_Some (date r)) (snd e))
           groups →
    total (Inv b) (indexDailyMonths env font dims insertOffset groups b) (λ b', Inv b').
Proof using offset_in_range.
  induction groups as [|[key0 days] rest IH]; intros b Hg.
  - apply (total_ret (λ b', Inv b') b).
  - inversion Hg as [|? ? [Hne Hdays] Hrest]; subst. cbn [snd] in Hne, Hdays.
    cbn [indexDailyMonths].
    eapply total_bind; [apply maybe_openIndexPage_inv|]. intros b1.
    destruct days as [|firstRef days']; [done|].
    pose proof Hdays as Hdays'.
    inversion Hdays as [|? ? [_ [d Hdate]] _]; subst. rewrite Hdate.
    idx_step.
    eapply total_bind with (Q := λ _, Inv b1).
    + by apply indexDayLinks_inv.
    + intros y. apply (IH (setY b1 _)). exact Hrest.
Qed.

Lemma indexDaily_inv env font dims dailyRefs b :
  Forall linkable dailyRefs →
  total (Inv b) (indexDaily env font dims insertOffset dailyRefs b) (λ b', Inv b').
Proof using offset_in_range.
  intros Hd. unfold indexDaily.
  destruct (bool_decide (0 < length dailyRefs));
    [|apply (total_ret (λ b', Inv b') b)].
  eapply total_bind; [apply openIndexPage_inv|]. intros b1.
  idx_step. eapply total_setY. apply (indexDailyMonths_inv env font dims).
  by apply groupDailyByMonth_Forall.
Qed.

Lemma indexCollectionLinks_inv dims b :
  ∀ (collectionRefs : list PageRef) (i : nat) (cx y : Qc),
    Forall linkable collectionRefs →
    total (Inv b) (indexCollectionLinks dims b collectionRefs i cx y) (λ _, Inv b).
Proof using offset_in_range.
  induction collectionRefs as [|ref rest IH]; intros i cx y Hc.
  - apply (total_ret (λ _, Inv b)).
  - inversion Hc; subst. cbn [indexCollectionLinks]. do 2 idx_step.
    case_match; by apply IH.
Qed.

Lemma indexCollections_inv dims collectionRefs b :
  Forall linkable collectionRefs →
  total (Inv b) (indexCollections dims insertOffset collectionRefs b) (λ b', Inv b').
Proof using offset_in_range.
  intros Hc. unfold indexCollections.
  destruct (bool_decide (0 < length collectionRefs));
    [|apply (total_ret (λ b', Inv b') b)].
  eapply total_bind; [apply maybe_openIndexPage_inv|]. intros b1.
  idx_step.
  eapply total_bind with (Q := λ _, Inv b1).
  - by apply indexCollectionLinks_inv.
  - intros _. apply (total_ret (λ b', Inv b') b1).
Qed.

(** [addBujoIndex] from [doc0]: it returns, and its locals and the document
    satisfy the invariant at the end. *)
Lemma addBujoIndex_inv env font dims pageRefs :
  Forall linkable pageRefs →
  ∃ res doc' b,
    addBujoIndex env pageRefs font dims insertOffset doc0 = Some (res, doc')
    ∧ res = mkIndexResult (indexPageCount b) (indexRefs b)
    ∧ Inv b doc'.
Proof using offset_in_range.
  intros Hrefs. unfold addBujoIndex.
  destruct (createIndexPage_inv dims 1 None 0 insertOffset [] "Index" doc0)
    as (st & doc1 & E1 & HI1);
    [lia|cbn [seq app]; by rewrite take_drop|lia|done|done|intros q a Ha; by left|].
  rewrite (bind_Some _ _ _ _ _ E1). cbn [app Nat.add] in HI1.
  set (b0 := mkIndexBuild st [mkPageRef "Index" insertOffset index None None None None] 1)
    in *.
  assert (total (Inv b0)
            (let* b := indexKeyFuture font dims (ofType key pageRefs)
                         (ofType future pageRefs) b0 in
             let* b := indexMonthly env font dims insertOffset (ofType monthly pageRefs)
                         (ofType weekly pageRefs) b in
             let* b := indexDaily env font dims insertOffset (ofType daily pageRefs) b in
             let* b := indexCollections dims insertOffset (ofType collection pageRefs) b in
             ret (mkIndexResult (indexPageCount b) (indexRefs b)))
            (λ res doc', ∃ b, res = mkIndexResult (indexPageCount b) (indexRefs b)
                              ∧ Inv b doc')) as Htotal.
  { eapply total_bind; [apply indexKeyFuture_inv; by apply ofType_Forall|]. intros b1.
    eapply total_bind; [apply indexMonthly_inv; by apply ofType_Forall|]. intros b2.
    eapply total_bind; [apply indexDaily_inv; by apply ofType_Forall|]. intros b3.
    eapply total_bind; [apply indexCollections_inv; by apply ofType_Forall|]. intros b4.
    intros doc HI. eexists _, doc. split; [reflexivity|]. by exists b4. }
  destruct (Htotal doc1 HI1) as (res & doc' & E & b & Hres & HI).
  exists res, doc', b. split; [exact E|]. done.
Qed.

End IndexBuilder.

(** ** The index shift *)

Lemma findPage_lookup (pages : list nat) :
  ∀ (i base p : nat),
    NoDup pages → pages !! i = Some p → findPage p pages base = Some (base + i).
Proof.
  induction pages as [|q rest IH]; intros i base p Hnd Hi; [done|].
  apply NoDup_cons in Hnd as [Hq Hnd]. cbn [findPage].
  destruct i as [|i].
  - injection Hi as ->. rewrite decide_True by done. f_equal. lia.
  - cbn in Hi. rewrite decide_False.
    + rewrite (IH i (S base) p Hnd Hi). f_equal. lia.
    + intros ->. apply Hq. by eapply list_elem_of_lookup_2.
Qed.

Lemma inserted_lookup_after (pages : list nat) (off next M i : nat) :
  off ≤ length pages →
  (take off pages ++ seq next M ++ drop off pages) !! (off + M + i) = pages !! (off + i).
Proof.
  intros Hoff.
  rewrite lookup_app_r; rewrite length_take; [|lia].
  rewrite lookup_app_r; rewrite length_seq; [|lia].
  rewrite lookup_drop. f_equal. lia.
Qed.

Lemma inserted_lookup_before (pages : list nat) (off next M i : nat) :
  i < off → off ≤ length pages →
  (take off pages ++ seq next M ++ drop off pages) !! i = pages !! i.
Proof.
  intros Hi Hoff. rewrite lookup_app_l by (rewrite length_take; lia).
  by rewrite lookup_take_lt.
Qed.

Lemma inserted_lookup_index (pages : list nat) (off next M j : nat) :
  j < M → off ≤ length pages →
  (take off pages ++ seq next M ++ drop off pages) !! (off + j) = Some (next + j).
Proof.
  intros Hj Hoff.
  rewrite lookup_app_r; rewrite length_take; [|lia].
  rewrite lookup_app_l by (rewrite length_seq; lia).
  replace (off + j - off `min` length pages) with j by lia.
  by apply lookup_seq_lt.
Qed.

Lemma inserted_NoDup (pages : list nat) (off next M : nat) :
  NoDup pages → (∀ p, p ∈ pages → p < next) →
  NoDup (take off pages ++ seq next M ++ drop off pages).
Proof.
  intros Hnd Hfresh.
  rewrite <- (take_drop off pages) in Hnd.
  apply NoDup_app in Hnd as (Ht & Hdisj & Hd).
  assert (∀ p, p ∈ take off pages → p < next) as Hft.
  { intros p Hp. apply Hfresh. rewrite <- (take_drop off pages).
    apply elem_of_app. by left. }
  assert (∀ p, p ∈ drop off pages → p < next) as Hfd.
  { intros p Hp. apply Hfresh. rewrite <- (take_drop off pages).
    apply elem_of_app. by right. }
  apply NoDup_app. split; [done|]. split.
  - intros p Hp [Hs|Hdr]%elem_of_app.
    + apply elem_of_seq in Hs. specialize (Hft p Hp). lia.
    + by apply (Hdisj p).
  - apply NoDup_app. split; [apply NoDup_seq|]. split; [|done].
    intros p Hs%elem_of_seq Hdr. specialize (Hfd p Hdr). lia.
Qed.



(** ** Index entry links *)



(** ** Decimal strings: [String(n)], [split] and [parseInt] *)

Ltac eval_digitValue :=
  repeat match goal with
         | |- context [JS.digitValue 10 ?c] =>
             let v := eval vm_compute in (JS.digitValue 10 c) in
             change (JS.digitValue 10 c) with v
         end.

Lemma parseDigits_string_of_uint (d : Decimal.uint) :
  ∀ acc : nat,
    JS.parseDigits 10 (NilEmpty.string_of_uint d) (Some acc)
    = Some (Nat.of_uint_acc d acc).
Proof.
  induction d; intros acc;
    cbn [NilEmpty.string_of_uint Nat.of_uint_acc JS.parseDigits];
    [done|..];
    eval_digitValue; cbv iota beta; rewrite IHd, Nat.tail_mul_spec;
    cbn [default]; do 2 f_equal; unfold id; lia.
Qed.

Lemma to_uint_not_Nil (n : nat) : Nat.to_uint n ≠ Decimal.Nil.
Proof.
  intros H. pose proof (Unsigned.of_to n) as Hn. rewrite H in Hn.
  cbn in Hn. subst n. discriminate H.
Qed.

Lemma parseDigits_string_of_uint_None (d : Decimal.uint) :
  JS.parseDigits 10 (NilEmpty.string_of_uint d) None
  = match d with
    | Decimal.Nil => None
    | _ => Some (Nat.of_uint_acc d 0)
    end.
Proof.
  destruct d; cbn [NilEmpty.string_of_uint JS.parseDigits Nat.of_uint_acc];
    [done|..]; eval_digitValue; cbv iota beta;
    rewrite parseDigits_string_of_uint, Nat.tail_mul_spec; cbn [default];
    do 2 f_equal; lia.
Qed.

Ltac fold_string_of_uint :=
  match goal with
  | |- match JS.parseDigits 10 ?s None with _ => _ end
       = Some (Z.of_nat (Nat.of_uint_acc ?d 0)) =>
      change s with (NilEmpty.string_of_uint d)
  end.

(** [parseInt] reads a decimal numeral back: its first character is a
    digit, so nothing is trimmed and no sign is taken, and a leading 0 is
    followed by a digit or by nothing, never by an x. *)
Lemma parseInt_string_of_uint (d : Decimal.uint) :
  d ≠ Decimal.Nil →
  JS.parseInt (NilEmpty.string_of_uint d) = Some (Z.of_nat (Nat.of_uint d)).
Proof.
  intros Hd. unfold Nat.of_uint.
  destruct d as [|d|d|d|d|d|d|d|d|d|d]; [done|..];
    unfold JS.parseInt; cbn [NilEmpty.string_of_uint JS.trimStart];
    match goal with
    | |- context [JS.isWhiteSpace ?c] => change (JS.isWhiteSpace c) with false
    end;
    cbv iota; cbn [JS.stripSign];
    [destruct d|..]; cbn [NilEmpty.string_of_uint JS.stripHexPrefix];
    fold_string_of_uint; by rewrite parseDigits_string_of_uint_None.
Qed.

Lemma parseInt_toString (n : nat) : JS.parseInt (JS.toString n) = Some (Z.of_nat n).
Proof.
  unfold JS.toString.
  rewrite parseInt_string_of_uint by apply to_uint_not_Nil.
  by rewrite Unsigned.of_to.
Qed.

Lemma split_cons_other (c : ascii) (s : string) :
  c ≠ "-"%char → noDash s → noDash (String c s).
Proof.
  unfold noDash. intros Hc Hs. cbn [JS.split].
  destruct (Ascii.eqb_spec c "-") as [->|_]; [done|]. by rewrite Hs.
Qed.

Lemma split_string_of_uint (d : Decimal.uint) : noDash (NilEmpty.string_of_uint d).
Proof.
  induction d; cbn [NilEmpty.string_of_uint]; [done|..]; by apply split_cons_other.
Qed.

(** [split] cuts at the first dash after a string that has none. *)
Lemma split_app_dash (s1 s2 : string) :
  noDash s1 → JS.split "-" (s1 +:+ String "-" s2) = s1 :: JS.split "-" s2.
Proof.
  unfold noDash. revert s2. induction s1 as [|c s1 IH]; intros s2 Hs1; [done|].
  change (String c s1 +:+ String "-" s2) with (String c (s1 +:+ String "-" s2)).
  cbn [JS.split] in Hs1 |- *.
  destruct (Ascii.eqb_spec c "-") as [->|Hc]; [done|].
  destruct (JS.split "-" s1) as [|h t] eqn:E.
  - injection Hs1 as <-. done.
  - injection Hs1 as -> ->. by rewrite IH.
Qed.

Lemma split_formatYearMonth (date : JSDate) :
  getMonth date < 12 →
  JS.split "-" (formatYearMonth date)
  = [JS.toString (getFullYear date);
     JS.padStart 2 "0" (JS.toString (getMonth date + 1))].
Proof.
  destruct date as [y m d]. cbn [getFullYear getMonth].
  intros Hm. unfold formatYearMonth. cbn [getFullYear getMonth].
  change ("-" +:+ ?s) with (String "-" s).
  rewrite split_app_dash by apply split_string_of_uint.
  f_equal.
  do 12 (destruct m as [|m]; [by vm_compute|]). lia.
Qed.

Lemma parseInt_month (m : nat) :
  m < 12 →
  JS.parseInt (JS.padStart 2 "0" (JS.toString (m + 1))) = Some (Z.of_nat (m + 1)).
Proof.
  intros Hm. do 12 (destruct m as [|m]; [by vm_compute|]). lia.
Qed.

Lemma linkDateKey_formatDateKey (y m d : nat) :
  linkDateKey (Z.of_nat y) (Z.of_nat m) d = formatDateKey (mkDate y m d).
Proof.
  unfold linkDateKey, formatDateKey, JS.toStringZ. cbn [getFullYear getMonth getDate].
  rewrite !(proj2 (Z.ltb_ge _ _)) by lia.
  rewrite Nat2Z.id. by replace (Z.to_nat (Z.of_nat m + 1)) with (m + 1) by lia.
Qed.

(** Day 0 of the month after [m] is the last day of [m]; the year is read
    as it stands from 100 on. *)
Lemma Date_day0_next_month (date : JSDate) :
  100 ≤ getFullYear date → getMonth date < 12 →
  Date_day0 (Z.of_nat (getFullYear date)) (Z.of_nat (getMonth date) + 1)
  = getDaysInMonth date.
Proof.
  destruct date as [y m d]. cbn [getFullYear getMonth].
  intros Hy Hm. unfold Date_day0, getDaysInMonth. cbn [getFullYear getMonth].
  replace ((0 <=? Z.of_nat y) && (Z.of_nat y <=? 99))%Z with false
    by (symmetry; apply andb_false_intro2, Z.leb_gt; lia).
  replace (Z.of_nat y * 12 + (Z.of_nat m + 1) - 1)%Z
    with (Z.of_nat m + Z.of_nat y * 12)%Z by lia.
  rewrite Z_div_plus, Z_mod_plus by lia.
  rewrite Z.div_small, Z.mod_small by lia.
  by rewrite Z.add_0_l, Nat2Z.id.
Qed.

(** ** [addMonthlyDateLinks]: the rows of a page *)

Lemma dateLinks_S pages dims density registry year month firstDay n rowsTop rowHeight :
  dateLinks pages dims density registry year month firstDay (S n) rowsTop rowHeight =
    dateLink pages dims density registry year month firstDay rowsTop
    ++ dateLinks pages dims density registry year month (S firstDay) n
         (rowsTop - rowHeight)%Qc rowHeight.
Proof.
  unfold dateLinks. cbn [seq fmap list_fmap concat].
  rewrite Nat.add_0_r, ofNat_0.
  replace (rowsTop - 0 * rowHeight)%Qc with rowsTop by ring.
  f_equal. rewrite <- fmap_S_seq, <- list_fmap_compose. f_equal.
  apply list_fmap_ext. intros _ i _. cbn [compose].
  rewrite Nat.add_succ_r, ofNat_S, ofZ_1. f_equal. ring.
Qed.

Lemma elem_of_concat {A} (x : A) (ls : list (list A)) (l : list A) :
  l ∈ ls → x ∈ l → x ∈ concat ls.
Proof.
  intros Hl Hx. apply list_elem_of_In, in_concat. exists l.
  split; by apply list_elem_of_In.
Qed.

Lemma dateLinks_elem pages dims density registry year month firstDay n rowsTop rowHeight
    i t target :
  i < n →
  dailyPages registry !! linkDateKey year month (firstDay + i) = Some t →
  pages !! t = Some target →
  linkAnnotationDict (dateLinkRect dims density (rowsTop - JS.ofNat i * rowHeight)%Qc)
                     target
  ∈ dateLinks pages dims density registry year month firstDay n rowsTop rowHeight.
Proof.
  intros Hi Ht Htarget. unfold dateLinks.
  eapply elem_of_concat.
  - apply list_elem_of_fmap. exists i. split; [reflexivity|].
    apply elem_of_seq. lia.
  - unfold dateLink. rewrite Ht. cbn [mbind option_bind]. rewrite Htarget.
    by left.
Qed.

Lemma calendarRowRuns_elem env ctx monthDate firstDay n rowsTop rowHeight i :
  i < n →
  mkText (JS.padStart 2 " " (JS.toString (firstDay + i))) (left (padding (dims ctx)))
         (rowsTop - JS.ofNat i * rowHeight)%Qc (fontSize (density ctx)) Helvetica
  ∈ calendarRowRuns env ctx monthDate firstDay n rowsTop rowHeight.
Proof.
  intros Hi. unfold calendarRowRuns.
  eapply elem_of_concat.
  - apply list_elem_of_fmap. exists i. split; [reflexivity|].
    apply elem_of_seq. lia.
  - unfold calendarRow. by left.
Qed.

Section DateLinkRows.

Context (dims : Dimensions) (density : DensityConfig) (registry : PageRegistry)
        (year month : Z).

Lemma dateLink_added page day y doc :
  dailyTargetsIn registry (pageTree doc) →
  ∃ doc',
    (match dailyPages registry !! linkDateKey year month day with
     | Some dailyPageIndex =>
         createInternalLink page
           (mkRect (left (padding dims) - JS.ofZ 2) (y - JS.ofZ 2) (JS.ofZ 28)
                   (fontSize density + JS.ofZ 4))%Qc
           dailyPageIndex
     | None => ret tt
     end) doc = Some (tt, doc')
    ∧ annotsAdded doc doc'
        (onPage page (dateLink (pageTree doc) dims density registry year month day y)).
Proof.
  intros Hvalid. unfold dateLink.
  destruct (dailyPages registry !! linkDateKey year month day) as [t|] eqn:Et.
  - destruct (lookup_lt_is_Some_2 (pageTree doc) t) as [p Hp]; [by eapply Hvalid|].
    cbn [mbind option_bind]. rewrite Hp.
    by apply createInternalLink_added.
  - exists doc. split; [done|].
    eapply annotsAdded_ext; [|apply annotsAdded_refl].
    intros q. unfold onPage. by case_decide.
Qed.

Lemma linkCombinedRows_added page lineHeight :
  ∀ (n day : nat) (y : Qc) (doc : PDFDocument),
    dailyTargetsIn registry (pageTree doc) →
    ∃ doc',
      linkCombinedRows dims density registry page year month lineHeight n day y doc
        = Some (tt, doc')
      ∧ annotsAdded doc doc'
          (onPage page (dateLinks (pageTree doc) dims density registry year month
                                  day n y lineHeight)).
Proof.
  induction n as [|n IH]; intros day y doc Hvalid.
  - exists doc. split; [done|].
    eapply annotsAdded_ext; [|apply annotsAdded_refl].
    intros q. unfold onPage. by case_decide.
  - cbn [linkCombinedRows]. rewrite dateLinks_S.
    destruct (dateLink_added page day y doc Hvalid) as (doc1 & E1 & A1).
    rewrite (bind_Some _ _ _ _ _ E1).
    assert (pageTree doc1 = pageTree doc) as Hpages by (by destruct A1).
    destruct (IH (S day) (y - lineHeight)%Qc doc1) as (doc' & E' & A').
    { by rewrite Hpages. }
    exists doc'. split; [exact E'|].
    eapply annotsAdded_ext; [|exact (annotsAdded_trans _ _ _ _ _ A1 A')].
    intros q. cbv beta. by rewrite onPage_app, Hpages.
Qed.

Lemma linkSplitRows_added page daysInMonth lineHeight :
  ∀ (n dayIndex : nat) (y : Qc) (doc : PDFDocument),
    let rows := n `min` (S daysInMonth - dayIndex) in
    dailyTargetsIn registry (pageTree doc) →
    ∃ doc',
      linkSplitRows dims density registry page year month daysInMonth lineHeight
        n dayIndex y doc = Some (dayIndex + rows, doc')
      ∧ annotsAdded doc doc'
          (onPage page (dateLinks (pageTree doc) dims density registry year month
                                  dayIndex rows y lineHeight)).
Proof.
  induction n as [|n IH]; intros dayIndex y doc rows Hvalid.
  - exists doc. split.
    + simpl. unfold ret. do 2 f_equal. subst rows. lia.
    + eapply annotsAdded_ext; [|apply annotsAdded_refl].
      intros q. unfold onPage. by case_decide.
  - cbn [linkSplitRows]. case_decide as Hle.
    + assert (rows = S (n `min` (S daysInMonth - S dayIndex))) as Hrows
        by (subst rows; lia).
      rewrite Hrows, dateLinks_S.
      destruct (dateLink_added page dayIndex y doc Hvalid) as (doc1 & E1 & A1).
      rewrite (bind_Some _ _ _ _ _ E1).
      assert (pageTree doc1 = pageTree doc) as Hpages by (by destruct A1).
      destruct (IH (S dayIndex) (y - lineHeight)%Qc doc1) as (doc' & E' & A').
      { by rewrite Hpages. }
      exists doc'. split.
      * rewrite E'. do 2 f_equal. lia.
      * eapply annotsAdded_ext; [|exact (annotsAdded_trans _ _ _ _ _ A1 A')].
        intros q. cbv beta. by rewrite onPage_app, Hpages.
    + assert (rows = 0) as -> by (subst rows; lia).
      exists doc. split.
      * unfold ret. do 2 f_equal. lia.
      * eapply annotsAdded_ext; [|apply annotsAdded_refl].
        intros q. unfold onPage. by case_decide.
Qed.

(** The split branch returns for any pages of the document, whatever the
    month. *)
Lemma linkSplitPages_total daysInMonth minLineHeight availableHeight daysPerPage :
  ∀ (monthPages : list PageRef) (dayIndex : nat) (doc : PDFDocument),
    Forall (λ r, pageIndex r < length (pageTree doc)) monthPages →
    dailyTargetsIn registry (pageTree doc) →
    ∃ doc' added,
      linkSplitPages dims density registry year month daysInMonth
        minLineHeight availableHeight daysPerPage monthPages dayIndex doc
        = Some (tt, doc')
      ∧ annotsAdded doc doc' added.
Proof.
  induction monthPages as [|r rest IH]; intros dayIndex doc Hpages Hvalid.
  - exists doc, (λ _, []). split; [done|apply annotsAdded_refl].
  - apply Forall_cons in Hpages as [Hr Hrest].
    destruct (lookup_lt_is_Some_2 _ _ Hr) as [page Hpage].
    cbn [linkSplitPages]. rewrite (bind_Some _ _ _ _ _ (getPage_Some _ _ _ Hpage)).
    match goal with
    | |- context [linkSplitRows _ _ _ _ _ _ _ ?lh ?n _ ?y] =>
        destruct (linkSplitRows_added page daysInMonth lh n dayIndex y doc Hvalid)
          as (doc1 & E1 & A1)
    end.
    rewrite (bind_Some _ _ _ _ _ E1).
    assert (pageTree doc1 = pageTree doc) as Hpt by (by destruct A1).
    destruct (IH (dayIndex + Z.to_nat (Z.min daysPerPage
                                         (Z.of_nat daysInMonth - Z.of_nat dayIndex + 1))
                               `min` (S daysInMonth - dayIndex)) doc1)
      as (doc' & added & E' & A'); [by rewrite Hpt|by rewrite Hpt|].
    exists doc'. eexists. split; [exact E'|].
    exact (annotsAdded_trans _ _ _ _ _ A1 A').
Qed.

End DateLinkRows.

(** ** [addMonthlyDateLinks]: the loop over the months *)

Lemma forEach_getPage_total (monthPages : list PageRef) (doc : PDFDocument) :
  Forall (λ r, pageIndex r < length (pageTree doc)) monthPages →
  forEach (λ pageRef, getPage (pageIndex pageRef) ;; ret tt) monthPages doc
  = Some (tt, doc).
Proof.
  induction 1 as [|r rest Hr _ IH]; [done|].
  destruct (lookup_lt_is_Some_2 _ _ Hr) as [page Hpage].
  cbn [forEach]. unfold bind at 1 2. by rewrite (getPage_Some _ _ _ Hpage).
Qed.

(** [linkMonth] returns for every month whose pages are pages of the
    document, and only appends annotations. *)
Lemma linkMonth_total dims density registry (group : string * list PageRef) doc :
  group.2 ≠ [] →
  Forall (λ r, pageIndex r < length (pageTree doc)) group.2 →
  dailyTargetsIn registry (pageTree doc) →
  ∃ doc' added,
    linkMonth dims density registry group doc = Some (tt, doc')
    ∧ annotsAdded doc doc' added.
Proof.
  destruct group as [ym monthPages]. cbn [snd]. intros Hne Hpages Hvalid.
  unfold linkMonth.
  destruct (JS.split "-" ym !! 0 ≫= JS.parseInt) as [year|];
    [destruct ((λ m, (m - 1)%Z) <$> (JS.split "-" ym !! 1 ≫= JS.parseInt))
       as [month|]|].
  - match goal with |- context [if ?b then _ else _] => destruct b end.
    + by apply linkSplitPages_total.
    + destruct monthPages as [|r rest]; [done|].
      apply Forall_cons in Hpages as [Hr _].
      destruct (lookup_lt_is_Some_2 _ _ Hr) as [page Hpage].
      rewrite (bind_Some _ _ _ _ _ (getPage_Some _ _ _ Hpage)).
      match goal with
      | |- context [linkCombinedRows _ _ _ _ _ _ ?lh ?n ?day ?y] =>
          destruct (linkCombinedRows_added dims density registry year month page lh
                      n day y doc Hvalid) as (doc' & E' & A')
      end.
      exists doc'. eexists. split; [exact E'|exact A'].
  - exists doc, (λ _, []). split; [|apply annotsAdded_refl].
    case_bool_decide.
    + by apply forEach_getPage_total.
    + destruct monthPages as [|r rest]; [done|].
      apply Forall_cons in Hpages as [Hr _].
      destruct (lookup_lt_is_Some_2 _ _ Hr) as [page Hpage].
      unfold bind. by rewrite (getPage_Some _ _ _ Hpage).
  - exists doc, (λ _, []). split; [|apply annotsAdded_refl].
    case_bool_decide.
    + by apply forEach_getPage_total.
    + destruct monthPages as [|r rest]; [done|].
      apply Forall_cons in Hpages as [Hr _].
      destruct (lookup_lt_is_Some_2 _ _ Hr) as [page Hpage].
      unfold bind. by rewrite (getPage_Some _ _ _ Hpage).
Qed.

Lemma forEach_linkMonth_total dims density registry :
  ∀ (groups : list (string * list PageRef)) (doc : PDFDocument),
    Forall (λ g, g.2 ≠ [] ∧ Forall (λ r, pageIndex r < length (pageTree doc)) g.2)
           groups →
    dailyTargetsIn registry (pageTree doc) →
    ∃ doc' added,
      forEach (linkMonth dims density registry) groups doc = Some (tt, doc')
      ∧ annotsAdded doc doc' added.
Proof.
  induction groups as [|g rest IH]; intros doc Hgroups Hvalid.
  - exists doc, (λ _, []). split; [done|apply annotsAdded_refl].
  - apply Forall_cons in Hgroups as [[Hne Hg] Hrest].
    destruct (linkMonth_total dims density registry g doc Hne Hg Hvalid)
      as (doc1 & added1 & E1 & A1).
    cbn [forEach]. rewrite (bind_Some _ _ _ _ _ E1).
    assert (pageTree doc1 = pageTree doc) as Hpt by (by destruct A1).
    destruct (IH doc1) as (doc' & added' & E' & A');
      [by rewrite Hpt|by rewrite Hpt|].
    exists doc'. eexists. split; [exact E'|].
    exact (annotsAdded_trans _ _ _ _ _ A1 A').
Qed.

Lemma forEach_app {A} (f : A → M unit) (l1 l2 : list A) doc doc1 :
  forEach f l1 doc = Some (tt, doc1) →
  forEach f (l1 ++ l2) doc = forEach f l2 doc1.
Proof.
  revert doc. induction l1 as [|a l1 IH]; intros doc H.
  - by injection H as ->.
  - cbn [app forEach] in H |- *.
    apply bind_inv in H as ([] & doc2 & E2 & H).
    rewrite (bind_Some _ _ _ _ _ E2). by apply IH.
Qed.

(** ** The groups of [monthlyPagesByYearMonth] *)

Lemma omGet_omSet {V} (k k' : string) (v : V) (m : list (string * V)) :
  omGet k' (omSet k v m) = if decide (k = k') then Some v else omGet k' m.
Proof.
  induction m as [|[k0 v0] m IH]; cbn [omSet omGet].
  - by repeat case_decide.
  - destruct (decide (k0 = k)) as [->|Hk0]; cbn [omGet].
    + by repeat case_decide.
    + rewrite IH. repeat case_decide; congruence.
Qed.

Lemma omGet_split {V} (k : string) (v : V) (m : list (string * V)) :
  omGet k m = Some v → ∃ m1 m2, m = m1 ++ (k, v) :: m2.
Proof.
  induction m as [|[k0 v0] m IH]; cbn [omGet]; [done|].
  case_decide as Hk.
  - intros [= ->]. subst k0. by exists [], m.
  - intros (m1 & m2 & ->)%IH. by exists ((k0, v0) :: m1), m2.
Qed.

Lemma monthGroup_snoc ym seen r :
  monthGroup ym (seen ++ [r])
  = monthGroup ym seen
    ++ (if decide (JS.truthy (yearMonth r) = Some ym) then [r] else []).
Proof.
  unfold monthGroup. by rewrite filter_app.
Qed.

(** After the grouping loop, a month's key holds the month's calendar
    references in their order, and no key is there without references. *)
Lemma groupMonthlyByYearMonth_get (monthlyRefs : list PageRef) (ym : string) :
  omGet ym (groupMonthlyByYearMonth monthlyRefs)
  = match monthGroup ym monthlyRefs with
    | [] => None
    | r :: rest => Some (r :: rest)
    end.
Proof.
  unfold groupMonthlyByYearMonth.
  set (step := λ (grouped : list (string * list PageRef)) (ref : PageRef), _).
  assert (∀ refs acc seen,
            (∀ ym, omGet ym acc = match monthGroup ym seen with
                                  | [] => None
                                  | r :: rest => Some (r :: rest)
                                  end) →
            ∀ ym, omGet ym (foldl step acc refs)
                  = match monthGroup ym (seen ++ refs) with
                    | [] => None
                    | r :: rest => Some (r :: rest)
                    end) as Hfold.
  { induction refs as [|r refs IH]; intros acc seen Hacc ym'.
    - by rewrite app_nil_r.
    - cbn [foldl]. rewrite (IH (step acc r) (seen ++ [r])).
      + by rewrite <- app_assoc.
      + intros ym0. rewrite monthGroup_snoc. subst step. cbv beta.
        destruct (JS.truthy (yearMonth r)) as [key|] eqn:Ekey.
        * rewrite omGet_omSet. case_decide as Hk.
          -- subst ym0. rewrite decide_True by done. rewrite Hacc.
             by destruct (monthGroup key seen).
          -- rewrite decide_False by congruence. by rewrite app_nil_r.
        * rewrite decide_False by done. by rewrite app_nil_r. }
  apply (Hfold monthlyRefs [] []). done.
Qed.

Lemma groupMonthlyByYearMonth_Forall (Q : PageRef → Prop) (monthlyRefs : list PageRef) :
  Forall Q monthlyRefs →
  Forall (λ g, g.2 ≠ [] ∧ Forall Q g.2) (groupMonthlyByYearMonth monthlyRefs).
Proof.
  intros Hrefs. unfold groupMonthlyByYearMonth.
  apply (foldl_invariant
           (Forall (λ g : string * list PageRef, g.2 ≠ [] ∧ Forall Q g.2)));
    [constructor|].
  intros acc r Hacc Hr. destruct (JS.truthy (yearMonth r)) as [key|]; [|done].
  apply (omSet_Forall (λ v, v ≠ [] ∧ Forall Q v)); [done|].
  split; [by destruct (default [] (omGet key acc))|].
  apply Forall_app. split.
  - destruct (omGet key acc) as [v|] eqn:Ev; [|constructor].
    by apply (omGet_Forall (λ v, v ≠ [] ∧ Forall Q v) key v acc Hacc Ev).
  - constructor; [|constructor]. by apply (proj1 (Forall_forall _ _) Hrefs).
Qed.

(** ** [addMonthlyDateLinks]: the pages of one month *)

Section MonthLinks.

Context (ctx : BujoGeneratorContext) (monthDate : JSDate) (registry : PageRegistry).

Let N := getDaysInMonth monthDate.
Let lay := monthlyLayout ctx N.
Let rpp := Z.to_nat (daysPerPage lay).
Let k := Z.to_nat (calendarPages lay).
Let year := Z.of_nat (getFullYear monthDate).
Let month := Z.of_nat (getMonth monthDate).

Hypothesis year_100 : 100 ≤ getFullYear monthDate.
Hypothesis month_12 : getMonth monthDate < 12.

(** The link pass reads the year and the month back from the key of the
    month, and finds the number of days and the layout numbers of the
    generator. *)
Lemma linkMonth_parsed (monthPages : list PageRef) :
  linkMonth (dims ctx) (density ctx) registry (formatYearMonth monthDate, monthPages)
  = if bool_decide (1 < length monthPages)
       || bool_decide (availableHeight lay < JS.ofNat N * preferredLineHeight lay)%Qc
    then linkSplitPages (dims ctx) (density ctx) registry year month N
           (minLineHeight lay) (availableHeight lay) (daysPerPage lay) monthPages 1
    else match monthPages with
         | [] => throw
         | pageRef :: _ =>
             let* page := getPage (pageIndex pageRef) in
             linkCombinedRows (dims ctx) (density ctx) registry page year month
               (JS.Math_min (preferredLineHeight lay)
                  ((contentTop_of (dims ctx) - bottom (padding (dims ctx)) - JS.ofZ 10)
                   / JS.ofNat N)%Qc)
               N 1 (contentTop_of (dims ctx))
         end.
Proof using year_100 month_12.
  unfold linkMonth. rewrite split_formatYearMonth by done.
  cbn [lookup list_lookup mbind option_bind].
  rewrite parseInt_toString, parseInt_month by done.
  cbn [fmap option_fmap option_map].
  replace (Z.of_nat (getMonth monthDate + 1) - 1)%Z with month by (unfold month; lia).
  fold year. unfold year, month. rewrite Date_day0_next_month by done.
  reflexivity.
Qed.

(** A month on one page: the link pass takes the single-page branch and
    the row height of the generator. *)
Lemma linkMonth_combined (r : PageRef) (page : nat) (doc : PDFDocument) :
  (JS.ofNat N * preferredLineHeight lay ≤ availableHeight lay)%Qc →
  pageTree doc !! pageIndex r = Some page →
  dailyTargetsIn registry (pageTree doc) →
  ∃ doc',
    linkMonth (dims ctx) (density ctx) registry (formatYearMonth monthDate, [r]) doc
      = Some (tt, doc')
    ∧ annotsAdded doc doc'
        (onPage page
           (dateLinks (pageTree doc) (dims ctx) (density ctx) registry year month
                      1 N (contentTop_of (dims ctx)) (preferredLineHeight lay))).
Proof using year_100 month_12.
  intros Hfits Hpage Hvalid. rewrite linkMonth_parsed.
  rewrite bool_decide_eq_false_2 by (simpl; lia).
  rewrite bool_decide_eq_false_2 by (by apply Qcle_not_lt).
  cbn [orb]. rewrite (bind_Some _ _ _ _ _ (getPage_Some _ _ _ Hpage)).
  unfold lay, N. rewrite (one_page_lineHeight ctx monthDate Hfits).
  by apply linkCombinedRows_added.
Qed.

Hypothesis minLineHeight_pos : (0 < minLineHeight lay)%Qc.
Hypothesis daysPerPage_pos : (1 ≤ daysPerPage lay)%Z.

(** The split branch from calendar page [j] on, over the [m] pages that
    are left: on every page it takes the rows and the row height of the
    generator. *)
Lemma linkSplitPages_added (base : nat) :
  ∀ (m j : nat) (monthPages : list PageRef) (doc : PDFDocument),
    j + m = k → length monthPages = m →
    (∀ i r, monthPages !! i = Some r →
            pageTree doc !! pageIndex r = Some (base + (j + i))) →
    dailyTargetsIn registry (pageTree doc) →
    ∃ doc',
      linkSplitPages (dims ctx) (density ctx) registry year month N
        (minLineHeight lay) (availableHeight lay) (daysPerPage lay)
        monthPages (1 + (j * rpp) `min` N) doc = Some (tt, doc')
      ∧ annotsAdded doc doc'
          (λ q, concat ((λ i, onPage (base + (j + i))
                                (dateLinks (pageTree doc) (dims ctx) (density ctx)
                                   registry year month (1 + (j + i) * rpp)
                                   (rowsOnPage rpp N (j + i)) (contentTop_of (dims ctx))
                                   (availableHeight lay
                                    / JS.ofNat (rowsOnPage rpp N (j + i)))%Qc) q)
                        <$> seq 0 m)).
Proof using minLineHeight_pos daysPerPage_pos.
  clear year_100 month_12.
  induction m as [|m IH]; intros j monthPages doc Hjm Hlen Hpages Hvalid.
  - destruct monthPages; [|done]. exists doc. split; [done|].
    apply annotsAdded_refl.
  - destruct monthPages as [|r rest]; [done|].
    assert (j < k) as Hj by lia.
    pose proof (proj1 (page_needed ctx monthDate daysPerPage_pos j) Hj) as HjN.
    pose proof (rowsOnPage_pos ctx monthDate daysPerPage_pos j Hj) as [Hn1 Hn2].
    fold N lay rpp in HjN, Hn1, Hn2.
    replace ((j * rpp) `min` N) with (j * rpp) by lia.
    cbn [linkSplitPages].
    pose proof (Hpages 0 r eq_refl) as Hpage. rewrite Nat.add_0_r in Hpage.
    rewrite (bind_Some _ _ _ _ _ (getPage_Some _ _ _ Hpage)).
    change (HEIGHT (dims ctx) - top (padding (dims ctx)) - JS.ofZ 7 - JS.ofZ 2
            - JS.ofZ 7 - JS.ofZ 6 - JS.ofZ 11 - JS.ofZ 8)%Qc
      with (contentTop_of (dims ctx)).
    pose proof (split_lineHeight ctx monthDate minLineHeight_pos daysPerPage_pos j Hj)
      as Hlh.
    pose proof (split_rows_count ctx monthDate daysPerPage_pos j Hj) as Hrows.
    fold N lay rpp in Hlh, Hrows. rewrite Hlh, Hrows.
    destruct (linkSplitRows_added (dims ctx) (density ctx) registry year month
                (base + j) N
                (availableHeight lay / JS.ofNat (rowsOnPage rpp N j))%Qc
                (rowsOnPage rpp N j) (1 + j * rpp) (contentTop_of (dims ctx)) doc Hvalid)
      as (doc1 & E1 & A1).
    cbv zeta in E1, A1.
    replace (rowsOnPage rpp N j `min` (S N - (1 + j * rpp)))
      with (rowsOnPage rpp N j) in E1, A1 by (unfold rowsOnPage; lia).
    rewrite (bind_Some _ _ _ _ _ E1).
    replace (1 + j * rpp + rowsOnPage rpp N j) with (1 + (S j * rpp) `min` N)
      by (unfold rowsOnPage; lia).
    assert (pageTree doc1 = pageTree doc) as Hpt by (by destruct A1).
    destruct (IH (S j) rest doc1) as (doc' & E' & A').
    { lia. }
    { by injection Hlen. }
    { intros i r' Hr'. rewrite Hpt.
      replace (S j + i) with (j + S i) by lia. by apply (Hpages (S i)). }
    { by rewrite Hpt. }
    exists doc'. split; [exact E'|].
    eapply annotsAdded_ext; [|exact (annotsAdded_trans _ _ _ _ _ A1 A')].
    intros q. cbv beta. cbn [seq fmap list_fmap concat].
    rewrite !Nat.add_0_r. f_equal.
    rewrite <- fmap_S_seq, <- list_fmap_compose. f_equal. apply list_fmap_ext.
    intros _ i _. cbn [compose]. rewrite Hpt.
    by replace (S j + i) with (j + S i) by lia.
Qed.

(** A month that does not fit one page: the link pass takes the split
    branch over the [k] calendar pages of the generator. *)
Lemma linkMonth_split (base : nat) (monthPages : list PageRef) (doc : PDFDocument) :
  (availableHeight lay < JS.ofNat N * preferredLineHeight lay)%Qc →
  length monthPages = k →
  (∀ i r, monthPages !! i = Some r → pageTree doc !! pageIndex r = Some (base + i)) →
  dailyTargetsIn registry (pageTree doc) →
  ∃ doc',
    linkMonth (dims ctx) (density ctx) registry (formatYearMonth monthDate, monthPages)
      doc = Some (tt, doc')
    ∧ annotsAdded doc doc'
        (λ q, concat ((λ i, onPage (base + i)
                              (dateLinks (pageTree doc) (dims ctx) (density ctx)
                                 registry year month (1 + i * rpp)
                                 (rowsOnPage rpp N i) (contentTop_of (dims ctx))
                                 (availableHeight lay
                                  / JS.ofNat (rowsOnPage rpp N i))%Qc) q)
                      <$> seq 0 k)).
Proof using year_100 month_12 minLineHeight_pos daysPerPage_pos.
  intros Hover Hlen Hpages Hvalid. rewrite linkMonth_parsed.
  rewrite (bool_decide_eq_true_2 (availableHeight lay < _)%Qc) by done.
  rewrite orb_true_r.
  destruct (linkSplitPages_added base k 0 monthPages doc) as (doc' & E' & A');
    [lia|done|done|done|].
  exists doc'. split; [exact E'|exact A'].
Qed.

End MonthLinks.

(** Every daily page of the registry is the page of a daily reference
    with that date key. *)
Lemma buildPageRegistry_dailyPages_from (refs : list PageRef) (toc : nat) :
  ∀ key t,
    dailyPages (buildPageRegistry refs toc) !! key = Some t →
    ∃ r d, r ∈ refs ∧ type r = daily ∧ date r = Some d
           ∧ formatDateKey d = key ∧ pageIndex r = t.
Proof.
  unfold buildPageRegistry.
  apply (foldl_invariant
           (λ reg, ∀ key t, dailyPages reg !! key = Some t →
                            ∃ r d, r ∈ refs ∧ type r = daily ∧ date r = Some d
                                   ∧ formatDateKey d = key ∧ pageIndex r = t)).
  - intros key t H. unfold emptyRegistry in H. cbn [dailyPages] in H.
    by rewrite lookup_empty in H.
  - intros acc r Hacc Hr key t. unfold registerPage.
    destruct (type r) eqn:Etype; cbn [dailyPages];
      repeat match goal with
             | |- context [match ?x with _ => _ end] => destruct x eqn:?
             end;
      cbn [dailyPages]; try apply Hacc;
      (rewrite lookup_insert_Some; intros [[<- <-]|[_ H]]; [|by apply Hacc]);
      eauto 10.
Qed.

Lemma buildPageRegistry_dailyTargetsIn (refs : list PageRef) (toc : nat)
    (pages : list nat) :
  Forall (λ r, pageIndex r < length pages) refs →
  dailyTargetsIn (buildPageRegistry refs toc) pages.
Proof.
  intros Hrefs key t (r & d & Hr & _ & _ & _ & <-)%buildPageRegistry_dailyPages_from.
  by apply (proj1 (Forall_forall _ _) Hrefs).
Qed.

(** The loop over the months, seen from one of them: when [linkMonth]
    appends [links] for the month of key [ym], these are among the
    annotations of the document [addMonthlyDateLinks] ends with. *)
Lemma addMonthlyDateLinks_group dims density registry allRefs ym docF
    (links : nat → list LinkAnnotation) :
  monthGroup ym (ofType monthly allRefs) ≠ [] →
  Forall (λ r, pageIndex r < length (pageTree docF)) allRefs →
  dailyTargetsIn registry (pageTree docF) →
  (∀ doc, pageTree doc = pageTree docF →
          ∃ doc', linkMonth dims density registry
                    (ym, monthGroup ym (ofType monthly allRefs)) doc = Some (tt, doc')
                  ∧ annotsAdded doc doc' links) →
  ∃ docF',
    addMonthlyDateLinks dims allRefs registry density docF = Some (tt, docF')
    ∧ pageTree docF' = pageTree docF
    ∧ ∀ q a, a ∈ links q → a ∈ annotsOf docF' q.
Proof.
  intros Hne Hrefs Hvalid Hmonth. unfold addMonthlyDateLinks.
  set (mrefs := ofType monthly allRefs) in *.
  rewrite bool_decide_eq_false_2.
  2: { intros Hlen. apply Hne. by destruct mrefs. }
  pose proof (groupMonthlyByYearMonth_get mrefs ym) as Hget.
  destruct (monthGroup ym mrefs) as [|r0 pages0] eqn:Egroup; [done|].
  apply omGet_split in Hget as (g1 & g2 & Hgroups). rewrite Hgroups.
  pose proof (groupMonthlyByYearMonth_Forall
                (λ r, pageIndex r < length (pageTree docF)) mrefs
                (ofType_Forall _ _ _ Hrefs)) as Hall.
  rewrite Hgroups in Hall.
  apply Forall_app in Hall as [Hall1 Hall2].
  apply Forall_cons in Hall2 as [_ Hall2].
  destruct (forEach_linkMonth_total dims density registry g1 docF Hall1 Hvalid)
    as (docA & addedA & EA & AA).
  rewrite (forEach_app _ _ _ _ _ EA). cbn [forEach].
  assert (pageTree docA = pageTree docF) as HptA by (by destruct AA).
  destruct (Hmonth docA HptA) as (docB & EB & AB).
  rewrite (bind_Some _ _ _ _ _ EB).
  assert (pageTree docB = pageTree docF) as HptB by (destruct AB; congruence).
  destruct (forEach_linkMonth_total dims density registry g2 docB)
    as (docF' & addedB & EF & AF); [by rewrite HptB|by rewrite HptB|].
  exists docF'. split; [exact EF|].
  split; [destruct AF; congruence|].
  intros q a Ha.
  destruct AF as (_ & _ & _ & ->). destruct AB as (_ & _ & _ & ->).
  apply elem_of_app. left. apply elem_of_app. by right.
Qed.

Lemma formatYearMonth_nonempty (date : JSDate) : formatYearMonth date ≠ EmptyString.
Proof.
  unfold formatYearMonth. by destruct (JS.toString (getFullYear date)).
Qed.

Lemma monthGroup_yearMonth (date : JSDate) (refs : list PageRef) :
  monthGroup (formatYearMonth date) refs
  = filter (λ r, yearMonth r = Some (formatYearMonth date)) refs.
Proof.
  unfold monthGroup. apply list_filter_iff. intros r.
  pose proof (formatYearMonth_nonempty date) as Hne.
  destruct (yearMonth r) as [[|c s]|]; cbn [JS.truthy]; split; congruence.
Qed.

(** ** The round trip from the calendar rows to the daily pages *)

(** C4. Take the references and the document [generateMonthlyLog] gives
    for a month, and a final document in which the month's calendar pages
    stand [shift] places further, with the references of the month
    shifted likewise and the registry built from all references.  Then
    [addMonthlyDateLinks] returns, and for every day of the month that
    has a daily page in the registry, at index [t], one of the month's
    calendar pages carries both the day number the generator drew, at some
    height [y], and the link the link pass laid over it, with the
    rectangle [(left - 2, y - 2, 28, fontSize + 4)] of that same [y]; the
    link leads to the page at index [t] of the final document. *)
Theorem addMonthlyDateLinks_round_trip :
  ∀ (env : DateEnv) (ctx : BujoGeneratorContext) (monthDate : JSDate)
    (doc0 doc1 docF : PDFDocument) (monthRefs allRefs : list PageRef) (shift : nat),
    let N := getDaysInMonth monthDate in
    let lay := monthlyLayout ctx N in
    let registry := buildPageRegistry allRefs tocPageIndex in
    let dateOf := mkDate (getFullYear monthDate) (getMonth monthDate) in
    (∀ d, getDay env d < 7) →
    (JS.ofZ 2 ≤ lineHeight (density ctx))%Qc →
    (1 ≤ daysPerPage lay)%Z →
    100 ≤ getFullYear monthDate →
    getMonth monthDate < 12 →
    generateMonthlyLog env ctx monthDate doc0 = Some (monthRefs, doc1) →
    filter (λ r, yearMonth r = Some (formatYearMonth monthDate)) (ofType monthly allRefs)
      = addToPageIndex shift <$> ofType monthly monthRefs →
    (∀ r, r ∈ ofType monthly monthRefs →
          pageTree docF !! (pageIndex r + shift) = pageTree doc1 !! pageIndex r) →
    Forall (λ r, pageIndex r < length (pageTree docF)) allRefs →
    NoDup (pageTree docF) →
    ∃ docF',
      addMonthlyDateLinks (dims ctx) allRefs registry (density ctx) docF
        = Some (tt, docF')
      ∧ pageTree docF' = pageTree docF
      ∧ ∀ day t,
          1 ≤ day ≤ N →
          dailyPages registry !! formatDateKey (dateOf day) = Some t →
          ∃ r page y target,
            r ∈ ofType monthly monthRefs
            ∧ pageTree doc1 !! pageIndex r = Some page
            ∧ pageTree docF !! (pageIndex r + shift) = Some page
            ∧ mkText (JS.padStart 2 " " (JS.toString day)) (left (padding (dims ctx)))
                     y (fontSize (density ctx)) Helvetica
              ∈ textsOf doc1 page
            ∧ pageTree docF !! t = Some target
            ∧ let link :=
                linkAnnotationDict
                  (mkRect (left (padding (dims ctx)) - JS.ofZ 2) (y - JS.ofZ 2)
                          (JS.ofZ 28) (fontSize (density ctx) + JS.ofZ 4))%Qc
                  target in
              link ∈ annotsOf docF' page ∧ previewTargetPage docF' link = t.
Proof.
  intros env ctx monthDate doc0 doc1 docF monthRefs allRefs shift N lay registry dateOf
         Hday Hlh Hdpp Hyear Hmonth Hgen Hgroup Hpages Hrefs Hnd.
  destruct (minLineHeight_bounds _ Hlh) as [Hmin _].
  assert (dailyTargetsIn registry (pageTree docF)) as Hvalid
    by (by apply buildPageRegistry_dailyTargetsIn).
  rewrite <- monthGroup_yearMonth in Hgroup.
  set (year := Z.of_nat (getFullYear monthDate)).
  set (month := Z.of_nat (getMonth monthDate)).
  assert (∀ day, linkDateKey year month day = formatDateKey (dateOf day)) as Hkey
    by (intros; apply linkDateKey_formatDateKey).
  assert (∀ docF' t target y,
            pageTree docF' = pageTree docF → pageTree docF !! t = Some target →
            previewTargetPage docF'
              (linkAnnotationDict
                 (mkRect (left (padding (dims ctx)) - JS.ofZ 2) (y - JS.ofZ 2)
                         (JS.ofZ 28) (fontSize (density ctx) + JS.ofZ 4))%Qc target)
            = t) as Hpreview.
  { intros docF' t target y Hpt Ht. unfold previewTargetPage.
    cbn [linkAnnotationDict annotDest destPage]. rewrite Hpt.
    by rewrite (findPage_lookup _ t 0 target Hnd Ht). }
  destruct (decide (JS.ofNat N * preferredLineHeight lay ≤ availableHeight lay)%Qc)
    as [Hfits|Hover].
  - destruct (generateMonthlyLog_combined env ctx monthDate Hday Hlh Hfits doc0)
      as (calRef & tasksRef & doc1' & E & Hcal & Htasks & Hidx & _ & _ & _ & D).
    rewrite E in Hgen. injection Hgen as <- <-.
    assert (ofType monthly [calRef; tasksRef] = [calRef]) as Hof.
    { rewrite !ofType_cons, decide_True, decide_False by (by rewrite ?Htasks). done. }
    rewrite Hof in Hgroup, Hpages |- *.
    set (page := nextRef doc0).
    assert (pageTree doc1' !! pageIndex calRef = Some page) as Hpage1.
    { destruct D as (-> & _). rewrite Hidx, lookup_app_r, Nat.sub_diag by lia. done. }
    assert (pageTree docF !! (pageIndex calRef + shift) = Some page) as HpageF.
    { rewrite Hpages; [done|by left]. }
    destruct (addMonthlyDateLinks_group (dims ctx) (density ctx) registry allRefs
                (formatYearMonth monthDate) docF
                (onPage page
                   (dateLinks (pageTree docF) (dims ctx) (density ctx) registry
                      year month 1 N (contentTop_of (dims ctx))
                      (preferredLineHeight lay))))
      as (docF' & EF & HptF & Hlinks); [by rewrite Hgroup|done|done| |].
    { intros doc Hpt. rewrite Hgroup. cbn [fmap list_fmap]. rewrite <- Hpt.
      apply (linkMonth_combined ctx monthDate registry Hyear Hmonth); [done| |].
      - cbn [addToPageIndex pageIndex]. by rewrite Hpt.
      - by rewrite Hpt. }
    exists docF'. split; [exact EF|]. split; [done|].
    intros day t Hd Ht.
    destruct (lookup_lt_is_Some_2 (pageTree docF) t) as [target Htarget];
      [by eapply Hvalid|].
    exists calRef, page,
      (contentTop_of (dims ctx) - JS.ofNat (day - 1) * preferredLineHeight lay)%Qc,
      target.
    split; [by left|]. split; [done|]. split; [done|]. split.
    { unfold page. rewrite (drawn_textsOf _ _ _ _ _ D).
      apply elem_of_app. right. apply elem_of_app. right. apply elem_of_app. left.
      pose proof (calendarRowRuns_elem env ctx monthDate 1 N (contentTop_of (dims ctx))
                    (preferredLineHeight lay) (day - 1)) as Hrow.
      replace (1 + (day - 1)) with day in Hrow by lia. apply Hrow. lia. }
    split; [done|]. cbv zeta. split; [|by apply Hpreview].
    apply Hlinks. unfold onPage. rewrite decide_True by done.
    pose proof (dateLinks_elem (pageTree docF) (dims ctx) (density ctx) registry
                  year month 1 N (contentTop_of (dims ctx)) (preferredLineHeight lay)
                  (day - 1) t target) as Hlink.
    replace (1 + (day - 1)) with day in Hlink by lia.
    apply Hlink; [lia|by rewrite Hkey|done].
  - apply Qcnot_le_lt in Hover.
    assert (needsSplit lay = true) as Hsplit.
    { unfold lay, monthlyLayout. cbn [needsSplit]. apply orb_true_intro. right.
      by apply bool_decide_eq_true_2. }
    set (rpp := Z.to_nat (daysPerPage lay)).
    set (k := Z.to_nat (calendarPages lay)).
    destruct (generateMonthlyLog_split env ctx monthDate doc0 Hday Hmin Hdpp Hsplit)
      as (tasksRef & doc1' & E & Htasks & _ & _ & D).
    rewrite E in Hgen. injection Hgen as <- <-.
    fold N lay rpp k in D.
    rewrite ofType_calendarPageRefs in Hgroup, Hpages |- * by done.
    change (Z.to_nat (JS.Math_ceil _)) with k in Hgroup, Hpages, D |- *.
    change (Z.to_nat (JS.Math_floor _)) with rpp in D.
    set (len := length (pageTree doc0)) in *.
    set (base := nextRef doc0) in *.
    assert (∀ j, j < k → pageTree doc1' !! (len + j) = Some (base + j)) as Hobj.
    { intros j Hj. destruct D as (-> & _).
      rewrite lookup_app_r by (unfold len; lia).
      replace (len + j - length (pageTree doc0)) with j by (unfold len; lia).
      apply lookup_seq_lt. lia. }
    assert (∀ j, j < k →
                 calendarPageRef env lay monthDate j (len + j)
                 ∈ (λ i, calendarPageRef env lay monthDate i (len + i)) <$> seq 0 k)
      as Hin.
    { intros j Hj. apply list_elem_of_fmap. exists j. split; [done|].
      apply elem_of_seq. lia. }
    destruct (addMonthlyDateLinks_group (dims ctx) (density ctx) registry allRefs
                (formatYearMonth monthDate) docF
                (λ q, concat ((λ i, onPage (base + i)
                                      (dateLinks (pageTree docF) (dims ctx) (density ctx)
                                         registry year month (1 + i * rpp)
                                         (rowsOnPage rpp N i) (contentTop_of (dims ctx))
                                         (availableHeight lay
                                          / JS.ofNat (rowsOnPage rpp N i))%Qc) q)
                              <$> seq 0 k)))
      as (docF' & EF & HptF & Hlinks); [|done|done| |].
    { rewrite Hgroup.
      pose proof (page_count_pos ctx monthDate Hdpp) as Hk. fold N lay k in Hk.
      intros Hnil. apply (f_equal length) in Hnil.
      rewrite !length_fmap, length_seq in Hnil. cbn [length] in Hnil. lia. }
    { intros doc Hpt. rewrite Hgroup, <- Hpt.
      apply (linkMonth_split ctx monthDate registry Hyear Hmonth Hmin Hdpp);
        [done| | |by rewrite Hpt].
      - by rewrite !length_fmap, length_seq.
      - intros i r Hr. rewrite !list_lookup_fmap in Hr.
        destruct (seq 0 k !! i) as [i'|] eqn:Ei; [|done].
        apply lookup_seq in Ei as [-> Hi]. cbn in Hr. injection Hr as <-.
        cbn [addToPageIndex pageIndex calendarPageRef]. rewrite Hpt.
        pose proof (Hpages _ (Hin i Hi)) as Hp.
        cbn [calendarPageRef pageIndex] in Hp. rewrite Hp. by apply Hobj. }
    exists docF'. split; [exact EF|]. split; [done|].
    intros day t Hd Ht.
    destruct (lookup_lt_is_Some_2 (pageTree docF) t) as [target Htarget];
      [by eapply Hvalid|].
    assert (0 < rpp) as Hrpp by (unfold rpp; lia).
    set (j := (day - 1) / rpp). set (i := (day - 1) mod rpp).
    assert (day - 1 = rpp * j + i) as Hday1 by (apply Nat.div_mod_eq).
    assert (i < rpp) as Hi by (apply Nat.mod_upper_bound; lia).
    assert (j < k) as Hj.
    { apply (page_needed ctx monthDate Hdpp). fold N lay rpp. nia. }
    assert (i < rowsOnPage rpp N j) as Hirow by (unfold rowsOnPage; nia).
    assert (1 + j * rpp + i = day) as Hdayeq by nia.
    exists (calendarPageRef env lay monthDate j (len + j)), (base + j),
      (contentTop_of (dims ctx)
       - JS.ofNat i * (availableHeight lay / JS.ofNat (rowsOnPage rpp N j)))%Qc,
      target.
    split; [by apply Hin|]. split; [by apply Hobj|].
    split; [rewrite (Hpages _ (Hin j Hj)); by apply Hobj|]. split.
    { destruct D as (_ & _ & _ & ->).
      apply elem_of_app. right. apply elem_of_app. left.
      rewrite (concat_onPage_seq base k j
                 (λ i, calendarPageRuns env ctx monthDate lay rpp N i)) by done.
      unfold calendarPageRuns. apply elem_of_app. right.
      pose proof (calendarRowRuns_elem env ctx monthDate (1 + j * rpp)
                    (rowsOnPage rpp N j) (contentTop_of (dims ctx))
                    (availableHeight lay / JS.ofNat (rowsOnPage rpp N j))%Qc i)
        as Hrow.
      rewrite Hdayeq in Hrow. by apply Hrow. }
    split; [done|]. cbv zeta. split; [|by apply Hpreview].
    apply Hlinks.
    rewrite (concat_onPage_seq base k j
               (λ i, dateLinks (pageTree docF) (dims ctx) (density ctx) registry
                       year month (1 + i * rpp) (rowsOnPage rpp N i)
                       (contentTop_of (dims ctx))
                       (availableHeight lay / JS.ofNat (rowsOnPage rpp N i))%Qc))
      by done.
    pose proof (dateLinks_elem (pageTree docF) (dims ctx) (density ctx) registry
                  year month (1 + j * rpp) (rowsOnPage rpp N j)
                  (contentTop_of (dims ctx))
                  (availableHeight lay / JS.ofNat (rowsOnPage rpp N j))%Qc
                  i t target) as Hlink.
    rewrite Hdayeq in Hlink. apply Hlink; [done|by rewrite Hkey|done].
Qed.

(** January 2025 on the smallest device takes two calendar pages, and the
    index before them two pages.  The 30th is drawn on the second
    calendar page; its daily page ends at index 7, and the link over the
    row of the 30th leads there. *)
Lemma addMonthlyDateLinks_round_trip_witness :
  ∃ docF',
    addMonthlyDateLinks (dims ctxMoveNormal) januaryAllRefs
      (buildPageRegistry januaryAllRefs tocPageIndex) (density ctxMoveNormal)
      januaryFinalDoc = Some (tt, docF')
    ∧ dailyPages (buildPageRegistry januaryAllRefs tocPageIndex) !! "2025-01-30"
      = Some 7
    ∧ ∃ r page y target,
        r ∈ ofType monthly januaryRefs
        ∧ pageTree januaryDoc !! pageIndex r = Some page
        ∧ pageTree januaryFinalDoc !! (pageIndex r + 2) = Some page
        ∧ mkText "30" (JS.ofZ 24) y (JS.ofZ 9) Helvetica ∈ textsOf januaryDoc page
        ∧ pageTree januaryFinalDoc !! 7 = Some target
        ∧ let link :=
            linkAnnotationDict
              (mkRect (JS.ofZ 24 - JS.ofZ 2) (y - JS.ofZ 2) (JS.ofZ 28)
                      (JS.ofZ 9 + JS.ofZ 4))%Qc target in
          link ∈ annotsOf docF' page ∧ previewTargetPage docF' link = 7.
Proof.
  destruct (addMonthlyDateLinks_round_trip sampleEnv ctxMoveNormal january2025
              coverOnly januaryDoc januaryFinalDoc januaryRefs januaryAllRefs 2)
    as (docF' & E & _ & Hlinks).
  - intros d. unfold sampleEnv, getDay, sampleDayOfWeek. apply Nat.mod_upper_bound. lia.
  - by vm_compute.
  - by vm_compute.
  - simpl. lia.
  - simpl. lia.
  - by vm_compute.
  - by vm_compute.
  - intros r Hr. vm_compute in Hr.
    repeat (apply elem_of_cons in Hr as [->|Hr]; [by vm_compute|]).
    apply elem_of_nil in Hr. destruct Hr.
  - apply (bool_decide_unpack _). by vm_compute.
  - apply (bool_decide_unpack _). by vm_compute.
  - exists docF'. split; [exact E|]. split; [by vm_compute|].
    apply (Hlinks 30 7); [vm_compute; lia|by vm_compute].
Defined.

(** ** The registry: where its entries come from *)

Lemma indexOf_lookup (l : list nat) :
  ∀ (i x : nat), NoDup l → l !! i = Some x → indexOf x l = Some i.
Proof.
  induction l as [|y l IH]; intros i x Hnd Hi; [done|].
  apply NoDup_cons in Hnd as [Hy Hnd]. cbn [indexOf].
  destruct i as [|i].
  - injection Hi as ->. by rewrite decide_True.
  - cbn in Hi. rewrite decide_False.
    + by rewrite (IH i x Hnd Hi).
    + intros ->. apply Hy. by eapply list_elem_of_lookup_2.
Qed.

(** X2. [prev] and [next] walk the references of the page's own type in
    the order they were generated: on the page that is the [i]-th of its
    type, [prev] resolves to the page of the one before (to nothing for
    the first) and [next] to the page of the one after (to nothing for
    the last), as long as the pages of the type are distinct. *)
Theorem resolveNavTarget_neighbours :
  ∀ (refs : list PageRef) (indexPageIndex : nat) (ref : PageRef) (i : nat),
    let sameType := ofType (type ref) refs in
    let registry := buildPageRegistry refs indexPageIndex in
    NoDup (pageIndex <$> sameType) →
    pageIndex <$> (sameType !! i) = Some (pageIndex ref) →
    (∀ item, targetType item = t_prev →
       resolveNavTarget item ref registry
       = if decide (i = 0) then None else pageIndex <$> (sameType !! (i - 1)))
    ∧ (∀ item, targetType item = t_next →
         resolveNavTarget item ref registry = pageIndex <$> (sameType !! (i + 1))).
Proof.
  intros refs toc ref i sameType registry Hnd Hi.
  rewrite <- list_lookup_fmap in Hi.
  pose proof (indexOf_lookup _ _ _ Hnd Hi) as Hidx.
  pose proof (lookup_lt_Some _ _ _ Hi) as Hlt.
  split; intros item Hitem; unfold resolveNavTarget, registry; rewrite Hitem;
    rewrite buildPageRegistry_pagesByType; fold sameType; rewrite Hidx;
    rewrite <- !list_lookup_fmap.
  - rewrite (bool_decide_eq_true_2 (t_prev = t_prev)) by done. cbn [andb].
    case_decide as Hi0.
    + subst i. rewrite (bool_decide_eq_false_2 (0 < 0)) by lia.
      by rewrite (bool_decide_eq_false_2 (t_prev = t_next)).
    + by rewrite (bool_decide_eq_true_2 (0 < i)) by lia.
  - rewrite (bool_decide_eq_false_2 (t_next = t_prev)) by done. cbn [andb].
    rewrite (bool_decide_eq_true_2 (t_next = t_next)) by done. cbn [andb].
    case_bool_decide as Hlast; [done|].
    symmetry. apply lookup_ge_None. lia.
Qed.

Ltac registerPage_cases :=
  unfold registerPage;
  repeat match goal with
         | |- context [match ?x with _ => _ end] => destruct x eqn:?
         end;
  cbn [indexPage futureLogPages monthlyCalPages monthlyTasksPages weeklyPages
       dailyPages collectionPages keyPage pagesByType].

Lemma buildPageRegistry_indexPage (refs : list PageRef) (toc : nat) :
  indexPage (buildPageRegistry refs toc) = toc.
Proof.
  unfold buildPageRegistry.
  apply (foldl_invariant (λ reg, indexPage reg = toc)); [done|].
  intros acc r Hacc _. by rewrite registerPage_indexPage.
Qed.

Lemma buildPageRegistry_futureLogPages_from (refs : list PageRef) (toc : nat) :
  ∀ t, t ∈ futureLogPages (buildPageRegistry refs toc) →
       ∃ r, r ∈ refs ∧ type r = future ∧ pageIndex r = t.
Proof.
  unfold buildPageRegistry.
  apply (foldl_invariant
           (λ reg, ∀ t, t ∈ futureLogPages reg →
                        ∃ r, r ∈ refs ∧ type r = future ∧ pageIndex r = t)).
  - intros t H. by apply elem_of_nil in H.
  - intros acc r Hacc Hr t. registerPage_cases; try apply Hacc;
      (intros [H|H%list_elem_of_singleton]%elem_of_app; [by apply Hacc|]);
      subst t; eauto.
Qed.

Lemma buildPageRegistry_monthlyCalPages_from (refs : list PageRef) (toc : nat) :
  ∀ key t,
    monthlyCalPages (buildPageRegistry refs toc) !! key = Some t →
    ∃ r, r ∈ refs ∧ type r = monthly ∧ JS.truthy (yearMonth r) = Some key
         ∧ pageIndex r = t.
Proof.
  unfold buildPageRegistry.
  apply (foldl_invariant
           (λ reg, ∀ key t, monthlyCalPages reg !! key = Some t →
                            ∃ r, r ∈ refs ∧ type r = monthly
                                 ∧ JS.truthy (yearMonth r) = Some key
                                 ∧ pageIndex r = t)).
  - intros key t H. unfold emptyRegistry in H. cbn [monthlyCalPages] in H.
    by rewrite lookup_empty in H.
  - intros acc r Hacc Hr key t. registerPage_cases; try apply Hacc;
      (rewrite lookup_insert_Some; intros [[<- <-]|[_ H]]; [|by apply Hacc]);
      eauto 10.
Qed.

Lemma buildPageRegistry_monthlyTasksPages_from (refs : list PageRef) (toc : nat) :
  ∀ key t,
    monthlyTasksPages (buildPageRegistry refs toc) !! key = Some t →
    ∃ r, r ∈ refs ∧ type r = monthly_tasks ∧ JS.truthy (yearMonth r) = Some key
         ∧ pageIndex r = t.
Proof.
  unfold buildPageRegistry.
  apply (foldl_invariant
           (λ reg, ∀ key t, monthlyTasksPages reg !! key = Some t →
                            ∃ r, r ∈ refs ∧ type r = monthly_tasks
                                 ∧ JS.truthy (yearMonth r) = Some key
                                 ∧ pageIndex r = t)).
  - intros key t H. unfold emptyRegistry in H. cbn [monthlyTasksPages] in H.
    by rewrite lookup_empty in H.
  - intros acc r Hacc Hr key t. registerPage_cases; try apply Hacc;
      (rewrite lookup_insert_Some; intros [[<- <-]|[_ H]]; [|by apply Hacc]);
      eauto 10.
Qed.

Lemma buildPageRegistry_weeklyPages_from (refs : list PageRef) (toc : nat) :
  ∀ w t,
    weeklyPages (buildPageRegistry refs toc) !! w = Some t →
    ∃ r, r ∈ refs ∧ type r = weekly ∧ weekIndex r = Some w ∧ pageIndex r = t.
Proof.
  unfold buildPageRegistry.
  apply (foldl_invariant
           (λ reg, ∀ w t, weeklyPages reg !! w = Some t →
                          ∃ r, r ∈ refs ∧ type r = weekly ∧ weekIndex r = Some w
                               ∧ pageIndex r = t)).
  - intros w t H. unfold emptyRegistry in H. cbn [weeklyPages] in H.
    by rewrite lookup_empty in H.
  - intros acc r Hacc Hr w t. registerPage_cases; try apply Hacc;
      (rewrite lookup_insert_Some; intros [[<- <-]|[_ H]]; [|by apply Hacc]);
      eauto 10.
Qed.

(** Where a resolved target comes from, by the kind of the item. *)
Lemma resolveNavTarget_from (refs : list PageRef) (toc : nat)
    (item : NavItem) (ref : PageRef) (t : nat) :
  resolveNavTarget item ref (buildPageRegistry refs toc) = Some t →
  match targetType item with
  | t_index => t = toc
  | t_future => ∃ r, r ∈ refs ∧ type r = future ∧ pageIndex r = t
  | t_monthly =>
      ∃ r, r ∈ refs ∧ type r = monthly
           ∧ JS.truthy (yearMonth r) = JS.truthy (targetKey item) ∧ pageIndex r = t
  | t_monthly_tasks =>
      ∃ r, r ∈ refs ∧ type r = monthly_tasks
           ∧ JS.truthy (yearMonth r) = JS.truthy (targetKey item) ∧ pageIndex r = t
  | t_weekly =>
      ∃ r w, r ∈ refs ∧ type r = weekly ∧ weekIndex r = Some w
             ∧ JS.truthy (targetKey item) ≫= JS.parseInt = Some (Z.of_nat w)
             ∧ pageIndex r = t
  | t_prev | t_next => ∃ r, r ∈ refs ∧ type r = type ref ∧ pageIndex r = t
  end.
Proof.
  unfold resolveNavTarget.
  assert (∀ typePages i,
            pagesByType (buildPageRegistry refs toc) !! type ref = Some typePages →
            typePages !! i = Some t →
            ∃ r, r ∈ refs ∧ type r = type ref ∧ pageIndex r = t) as Hsib.
  { intros typePages i. rewrite buildPageRegistry_pagesByType. intros [= <-].
    rewrite list_lookup_fmap. intros Hi.
    destruct (ofType (type ref) refs !! i) as [r|] eqn:Er; [|done].
    injection Hi as <-. apply list_elem_of_lookup_2 in Er.
    apply list_elem_of_filter in Er as [Ht Hr]. eauto. }
  destruct (targetType item) eqn:Etarget.
  - rewrite buildPageRegistry_indexPage. by intros [= <-].
  - intros H. apply (buildPageRegistry_futureLogPages_from refs toc).
    by eapply list_elem_of_lookup_2.
  - destruct (JS.truthy (targetKey item)) as [k|]; [|done].
    intros (r & ? & ? & ? & ?)%buildPageRegistry_monthlyCalPages_from. eauto 10.
  - destruct (JS.truthy (targetKey item)) as [k|]; [|done].
    intros (r & ? & ? & ? & ?)%buildPageRegistry_monthlyTasksPages_from. eauto 10.
  - destruct (JS.truthy (targetKey item)) as [k|]; [|done].
    cbn [mbind option_bind].
    destruct (JS.parseInt k) as [z|]; [|done].
    destruct (0 <=? z)%Z eqn:Ez; [|done].
    intros (r & ? & ? & ? & ?)%buildPageRegistry_weeklyPages_from.
    exists r, (Z.to_nat z). repeat split; try done.
    f_equal. apply Z.leb_le in Ez. lia.
  - destruct (pagesByType (buildPageRegistry refs toc) !! type ref)
      as [typePages|] eqn:Etp; [|done].
    destruct (indexOf (pageIndex ref) typePages) as [idx|]; [|done].
    repeat case_match; try done; intros Hres; by eapply Hsib.
  - destruct (pagesByType (buildPageRegistry refs toc) !! type ref)
      as [typePages|] eqn:Etp; [|done].
    destruct (indexOf (pageIndex ref) typePages) as [idx|]; [|done].
    repeat case_match; try done; intros Hres; by eapply Hsib.
Qed.

(** ** Loops that only append annotations *)

Lemma annotsGrown_refl P doc : annotsGrown P doc doc.
Proof.
  exists (λ _, []). split; [apply annotsAdded_refl|].
  intros q a H. by apply elem_of_nil in H.
Qed.

Lemma annotsGrown_trans P doc1 doc2 doc3 :
  annotsGrown P doc1 doc2 → annotsGrown P doc2 doc3 → annotsGrown P doc1 doc3.
Proof.
  intros (f & Af & Hf) (g & Ag & Hg). exists (λ q, f q ++ g q).
  split; [by eapply annotsAdded_trans|].
  intros q a [H|H]%elem_of_app; eauto.
Qed.

Lemma annotsGrown_pageTree P doc doc' :
  annotsGrown P doc doc' → pageTree doc' = pageTree doc.
Proof. by intros (f & (H & _) & _). Qed.

Lemma annotsGrown_weaken (P Q : LinkAnnotation → Prop) doc doc' :
  (∀ a, P a → Q a) → annotsGrown P doc doc' → annotsGrown Q doc doc'.
Proof. intros HPQ (f & Af & Hf). exists f. split; [done|]. eauto. Qed.

Lemma forEach_grown {A} (f : A → M unit) (P : LinkAnnotation → Prop)
    (pages : list nat) (l : list A) :
  (∀ a doc, a ∈ l → pageTree doc = pages →
            ∃ doc', f a doc = Some (tt, doc') ∧ annotsGrown P doc doc') →
  ∀ doc, pageTree doc = pages →
         ∃ doc', forEach f l doc = Some (tt, doc') ∧ annotsGrown P doc doc'.
Proof.
  induction l as [|a l IH]; intros Hf doc Hpt.
  - exists doc. split; [done|apply annotsGrown_refl].
  - destruct (Hf a doc) as (doc1 & E1 & G1); [by left|done|].
    destruct (IH (λ b d Hb, Hf b d (list_elem_of_further _ _ _ Hb)) doc1)
      as (doc' & E' & G').
    { by rewrite (annotsGrown_pageTree _ _ _ G1). }
    exists doc'. split; [|by eapply annotsGrown_trans].
    cbn [forEach]. by rewrite (bind_Some _ _ _ _ _ E1).
Qed.

Lemma resolveNavTarget_lt (refs : list PageRef) (toc n : nat)
    (item : NavItem) (ref : PageRef) (t : nat) :
  toc < n → Forall (λ r, pageIndex r < n) refs →
  resolveNavTarget item ref (buildPageRegistry refs toc) = Some t → t < n.
Proof.
  intros Htoc Hrefs Hres.
  assert (∀ r, r ∈ refs → pageIndex r < n) as Hlt
    by (by apply Forall_forall).
  apply resolveNavTarget_from in Hres.
  destruct (targetType item);
    [by subst t
    |destruct Hres as (r & Hr & _ & <-)
    |destruct Hres as (r & Hr & _ & _ & <-)
    |destruct Hres as (r & Hr & _ & _ & <-)
    |destruct Hres as (r & w & Hr & _ & _ & _ & <-)
    |destruct Hres as (r & Hr & _ & <-)
    |destruct Hres as (r & Hr & _ & <-)]; by apply Hlt.
Qed.

Lemma addNavigationFor_grown font dims refs toc ref doc :
  toc < length (pageTree doc) →
  Forall (λ r, pageIndex r < length (pageTree doc)) refs →
  pageIndex ref < length (pageTree doc) →
  ∃ doc',
    addNavigationFor font dims (buildPageRegistry refs toc) ref doc = Some (tt, doc')
    ∧ annotsGrown (leadsInto (pageTree doc)) doc doc'.
Proof.
  intros Htoc Hrefs Href.
  destruct (lookup_lt_is_Some_2 _ _ Href) as [page Hpage].
  destruct (addNavigationFor_added font dims (buildPageRegistry refs toc) ref doc page
              Hpage) as (doc' & E & A).
  { intros item t _ Hres. apply lookup_lt_is_Some_2.
    exact (resolveNavTarget_lt refs toc _ item ref t Htoc Hrefs Hres). }
  exists doc'. split; [exact E|]. eexists. split; [exact A|].
  intros q a Ha. unfold onPage in Ha. case_decide; [|by apply elem_of_nil in Ha].
  unfold resolvedNavLinks in Ha.
  apply list_elem_of_omap in Ha as ([item entry] & _ & Ha).
  destruct (resolveNavTarget item ref (buildPageRegistry refs toc)) as [t|];
    [|done].
  cbn [mbind option_bind] in Ha.
  destruct (pageTree doc !! t) as [p|] eqn:Ep; [|done].
  cbn [mbind option_bind] in Ha. injection Ha as <-.
  unfold leadsInto. cbn [linkAnnotationDict annotDest destPage].
  by eapply list_elem_of_lookup_2.
Qed.

Lemma dateLinks_leadsInto pages dims density registry year month firstDay n
    rowsTop rowHeight a :
  a ∈ dateLinks pages dims density registry year month firstDay n rowsTop rowHeight →
  leadsInto pages a.
Proof.
  unfold dateLinks. intros Ha%list_elem_of_In%in_concat.
  destruct Ha as (l & Hl%list_elem_of_In & Ha%list_elem_of_In).
  apply list_elem_of_fmap in Hl as (i & -> & _).
  unfold dateLink in Ha.
  destruct (dailyPages registry !! linkDateKey year month (firstDay + i)) as [t|];
    [|by apply elem_of_nil in Ha].
  cbn [mbind option_bind] in Ha.
  destruct (pages !! t) as [p|] eqn:Ep; [|by apply elem_of_nil in Ha].
  apply list_elem_of_singleton in Ha as ->.
  unfold leadsInto. cbn [linkAnnotationDict annotDest destPage].
  by eapply list_elem_of_lookup_2.
Qed.

Lemma annotsAdded_onPage_grown P doc doc' page links :
  annotsAdded doc doc' (onPage page links) → (∀ a, a ∈ links → P a) →
  annotsGrown P doc doc'.
Proof.
  intros A HP. eexists. split; [exact A|].
  intros q a Ha. unfold onPage in Ha.
  case_decide; [by apply HP|by apply elem_of_nil in Ha].
Qed.

Section DateLinksGrown.

Context (dims : Dimensions) (density : DensityConfig) (registry : PageRegistry).

Lemma linkSplitPages_grown year month daysInMonth minLineHeight availableHeight
    daysPerPage :
  ∀ (monthPages : list PageRef) (dayIndex : nat) (doc : PDFDocument),
    Forall (λ r, pageIndex r < length (pageTree doc)) monthPages →
    dailyTargetsIn registry (pageTree doc) →
    ∃ doc',
      linkSplitPages dims density registry year month daysInMonth
        minLineHeight availableHeight daysPerPage monthPages dayIndex doc
        = Some (tt, doc')
      ∧ annotsGrown (leadsInto (pageTree doc)) doc doc'.
Proof.
  induction monthPages as [|r rest IH]; intros dayIndex doc Hpages Hvalid.
  - exists doc. split; [done|apply annotsGrown_refl].
  - apply Forall_cons in Hpages as [Hr Hrest].
    destruct (lookup_lt_is_Some_2 _ _ Hr) as [page Hpage].
    cbn [linkSplitPages]. rewrite (bind_Some _ _ _ _ _ (getPage_Some _ _ _ Hpage)).
    match goal with
    | |- context [linkSplitRows _ _ _ _ _ _ _ ?lh ?n _ ?y] =>
        destruct (linkSplitRows_added dims density registry year month page
                    daysInMonth lh n dayIndex y doc Hvalid) as (doc1 & E1 & A1)
    end.
    rewrite (bind_Some _ _ _ _ _ E1).
    assert (pageTree doc1 = pageTree doc) as Hpt by (by destruct A1).
    destruct (IH (dayIndex + Z.to_nat (Z.min daysPerPage
                                         (Z.of_nat daysInMonth - Z.of_nat dayIndex + 1))
                               `min` (S daysInMonth - dayIndex)) doc1)
      as (doc' & E' & G'); [by rewrite Hpt|by rewrite Hpt|].
    exists doc'. split; [exact E'|].
    eapply annotsGrown_trans; [|by rewrite <- Hpt].
    eapply annotsAdded_onPage_grown; [exact A1|].
    intros a. apply dateLinks_leadsInto.
Qed.

Lemma linkMonth_grown (group : string * list PageRef) doc :
  group.2 ≠ [] →
  Forall (λ r, pageIndex r < length (pageTree doc)) group.2 →
  dailyTargetsIn registry (pageTree doc) →
  ∃ doc',
    linkMonth dims density registry group doc = Some (tt, doc')
    ∧ annotsGrown (leadsInto (pageTree doc)) doc doc'.
Proof.
  destruct group as [ym monthPages]. cbn [snd]. intros Hne Hpages Hvalid.
  assert (∀ b : bool,
            (if b
             then forEach (λ pageRef, getPage (pageIndex pageRef) ;; ret tt) monthPages
             else match monthPages with
                  | [] => throw
                  | pageRef :: _ => getPage (pageIndex pageRef) ;; ret tt
                  end) doc = Some (tt, doc)) as Hfetch.
  { intros [|]; [by apply forEach_getPage_total|].
    destruct monthPages as [|r rest]; [done|].
    apply Forall_cons in Hpages as [Hr _].
    destruct (lookup_lt_is_Some_2 _ _ Hr) as [page Hpage].
    unfold bind. by rewrite (getPage_Some _ _ _ Hpage). }
  unfold linkMonth.
  destruct (JS.split "-" ym !! 0 ≫= JS.parseInt) as [year|];
    [destruct ((λ m, (m - 1)%Z) <$> (JS.split "-" ym !! 1 ≫= JS.parseInt))
       as [month|]|].
  - match goal with |- context [if ?b then _ else _] => destruct b end.
    + by apply linkSplitPages_grown.
    + destruct monthPages as [|r rest]; [done|].
      apply Forall_cons in Hpages as [Hr _].
      destruct (lookup_lt_is_Some_2 _ _ Hr) as [page Hpage].
      rewrite (bind_Some _ _ _ _ _ (getPage_Some _ _ _ Hpage)).
      match goal with
      | |- context [linkCombinedRows _ _ _ _ _ _ ?lh ?n ?day ?y] =>
          destruct (linkCombinedRows_added dims density registry year month page lh
                      n day y doc Hvalid) as (doc' & E' & A')
      end.
      exists doc'. split; [exact E'|].
      eapply annotsAdded_onPage_grown; [exact A'|].
      intros a. apply dateLinks_leadsInto.
  - exists doc. split; [apply Hfetch|apply annotsGrown_refl].
  - exists doc. split; [apply Hfetch|apply annotsGrown_refl].
Qed.

Lemma addMonthlyDateLinks_grown (pageRefs : list PageRef) doc :
  Forall (λ r, pageIndex r < length (pageTree doc)) pageRefs →
  dailyTargetsIn registry (pageTree doc) →
  ∃ doc',
    addMonthlyDateLinks dims pageRefs registry density doc = Some (tt, doc')
    ∧ annotsGrown (leadsInto (pageTree doc)) doc doc'.
Proof.
  intros Hrefs Hvalid. unfold addMonthlyDateLinks.
  case_bool_decide; [exists doc; split; [done|apply annotsGrown_refl]|].
  pose proof (groupMonthlyByYearMonth_Forall
                (λ r, pageIndex r < length (pageTree doc)) (ofType monthly pageRefs)
                (ofType_Forall _ _ _ Hrefs)) as Hall.
  apply (forEach_grown _ _ (pageTree doc)); [|done].
  intros g d Hg Hpt. rewrite <- Hpt.
  destruct (proj1 (Forall_forall _ _) Hall g Hg) as [Hne Hpages].
  apply linkMonth_grown; [done|by rewrite Hpt|by rewrite Hpt].
Qed.

End DateLinksGrown.

Lemma addComprehensiveNavigation_grown_aux font dims pageRefs toc doc :
  toc < length (pageTree doc) →
  Forall (λ r, pageIndex r < length (pageTree doc)) pageRefs →
  ∃ doc',
    addComprehensiveNavigation font dims pageRefs (buildPageRegistry pageRefs toc) doc
      = Some (tt, doc')
    ∧ annotsGrown (leadsInto (pageTree doc)) doc doc'.
Proof.
  intros Htoc Hrefs. unfold addComprehensiveNavigation.
  apply (forEach_grown _ _ (pageTree doc)); [|done].
  intros ref d Href Hpt. rewrite <- Hpt.
  apply addNavigationFor_grown; rewrite Hpt; [done|done|].
  by apply (proj1 (Forall_forall _ _) Hrefs).
Qed.




(** X3. A navigation link leads into the section its label names: with
    the registry built from [refs], an item of the page of [ref] that
    resolves leads to the index page for "Index", to a future-log page
    for "Future Log", to a calendar page of the month of [ref] for
    "Monthly" and "Calendar", to a tasks page of that month for "Tasks",
    to a weekly page of the week of [ref] for "Weekly", and to a page of
    the type of [ref] for the arrows. *)
Theorem navigation_links_lead_to_their_section :
  ∀ (refs : list PageRef) (indexPageIndex : nat) (ref : PageRef) (item : NavItem)
    (t : nat),
    let registry := buildPageRegistry refs indexPageIndex in
    let monthOfPage :=
      match JS.truthy (yearMonth ref) with
      | Some ym => Some ym
      | None => formatYearMonth <$> date ref
      end in
    item ∈ getNavItemsForPage ref registry →
    resolveNavTarget item ref registry = Some t →
    (navLabel item = "Index" → t = indexPageIndex)
    ∧ (navLabel item = "Future Log" →
       ∃ r, r ∈ refs ∧ type r = future ∧ pageIndex r = t)
    ∧ (navLabel item = "Monthly" ∨ navLabel item = "Calendar" →
       ∃ r, r ∈ refs ∧ type r = monthly
            ∧ JS.truthy (yearMonth r) = JS.truthy monthOfPage ∧ pageIndex r = t)
    ∧ (navLabel item = "Tasks" →
       ∃ r, r ∈ refs ∧ type r = monthly_tasks
            ∧ JS.truthy (yearMonth r) = JS.truthy monthOfPage ∧ pageIndex r = t)
    ∧ (navLabel item = "Weekly" →
       ∃ r, r ∈ refs ∧ type r = weekly ∧ weekIndex r = weekIndex ref
            ∧ pageIndex r = t)
    ∧ (navLabel item = "<" ∨ navLabel item = ">" →
       ∃ r, r ∈ refs ∧ type r = type ref ∧ pageIndex r = t).
Proof.
  intros refs toc ref item t registry monthOfPage Hitem Hres.
  pose proof (resolveNavTarget_from refs toc item ref t Hres) as Hfrom.
  unfold getNavItemsForPage in Hitem. fold monthOfPage in Hitem.
  assert (∀ w, JS.truthy (Some (JS.toString w)) ≫= JS.parseInt = Some (Z.of_nat w))
    as Hweek.
  { intros w. pose proof (parseInt_toString w) as Hp.
    destruct (JS.toString w); [done|exact Hp]. }
  destruct (type ref);
    destruct (bool_decide (0 < length (futureLogPages registry)));
    destruct (bool_decide (0 < size (monthlyCalPages registry)));
    destruct (bool_decide (0 < size (weeklyPages registry)));
    cbn [app] in Hitem;
    repeat (apply elem_of_cons in Hitem as [->|Hitem]);
    try (by apply elem_of_nil in Hitem);
    cbn [targetType navLabel targetKey] in Hfrom |- *;
    (repeat split; try (intros [?|?]; discriminate); try discriminate; intros _;
     try exact Hfrom);
    destruct Hfrom as (r & w & Hr & Ht & Hw & Hkey & Hidx);
    exists r; (repeat split; try done);
    destruct (weekIndex ref) as [w'|]; try done;
    cbn [fmap option_fmap option_map] in Hkey; rewrite Hweek in Hkey;
    injection Hkey as Hkey; rewrite Hw; f_equal; lia.
Qed.

(** The second of three collection pages, at 2, 3 and 4. *)
Lemma resolveNavTarget_neighbours_witness :
  let ref := mkPageRef "Collection 2" 3 collection None None None None in
  resolveNavTarget (mkNavItem "<" t_prev None) ref (buildPageRegistry collectionsRefs 1)
    = Some 2
  ∧ resolveNavTarget (mkNavItem ">" t_next None) ref (buildPageRegistry collectionsRefs 1)
    = Some 4.
Proof.
  intros ref.
  destruct (resolveNavTarget_neighbours collectionsRefs 1 ref 1) as [Hprev Hnext].
  - apply (bool_decide_unpack _). by vm_compute.
  - by vm_compute.
  - split; [exact (Hprev (mkNavItem "<" t_prev None) eq_refl)
           |exact (Hnext (mkNavItem ">" t_next None) eq_refl)].
Defined.

(** The "Tasks" link of the daily page of January 30th leads to the tasks
    page of January. *)
Lemma navigation_links_lead_to_their_section_witness :
  let ref := mkPageRef "Thu, Jan 30" 7 daily (Some (mkDate 2025 0 30)) None None None in
  ∃ r, r ∈ januaryAllRefs ∧ type r = monthly_tasks
       ∧ JS.truthy (yearMonth r) = Some "2025-01" ∧ pageIndex r = 5.
Proof.
  intros ref.
  destruct (navigation_links_lead_to_their_section januaryAllRefs 1 ref
              (mkNavItem "Tasks" t_monthly_tasks (Some "2025-01")) 5)
    as (_ & _ & _ & Htasks & _).
  - vm_compute. repeat constructor.
  - by vm_compute.
  - by apply Htasks.
Defined.




(** ** The basic navigation *)

Lemma createInternalLink_added_opt sourcePage rect targetPageIndex doc :
  targetPageIndex < length (pageTree doc) →
  ∃ doc',
    createInternalLink sourcePage rect targetPageIndex doc = Some (tt, doc')
    ∧ annotsAdded doc doc'
        (onPage sourcePage
           (from_option (λ p, [linkAnnotationDict rect p]) []
                        (pageTree doc !! targetPageIndex))).
Proof.
  intros Hlt. destruct (lookup_lt_is_Some_2 _ _ Hlt) as [p Hp].
  rewrite Hp. by apply createInternalLink_added.
Qed.

Lemma annotsAdded_nil doc page : annotsAdded doc doc (onPage page []).
Proof.
  eapply annotsAdded_ext; [|apply annotsAdded_refl].
  intros q. unfold onPage. by case_decide.
Qed.

Lemma addNavigationLinks_added (page i : nat) (tocIndex : Z) (dims : Dimensions)
    (doc : PDFDocument) :
  i < length (pageTree doc) →
  ((0 ≤ tocIndex)%Z → Z.to_nat tocIndex < length (pageTree doc)) →
  ∃ doc',
    addNavigationLinks page i (length (pageTree doc))
      (mkNavigationConfig tocIndex true (JS.ofZ 20) (JS.ofZ 40))
      (WIDTH dims) (MARGIN dims) doc = Some (tt, doc')
    ∧ annotsAdded doc doc' (onPage page (basicNavLinks (pageTree doc) tocIndex dims i)).
Proof.
  intros Hi Htoc. unfold addNavigationLinks, basicNavLinks.
  cbn [showPrevNext configTocPageIndex configNavHeight configNavWidth andb].
  set (navY := (MARGIN dims / JS.ofZ 2)%Qc).
  assert (∃ doc1,
            (if bool_decide (0 < i)
             then createInternalLink page
                    (mkRect (MARGIN dims) navY (JS.ofZ 40) (JS.ofZ 20)) (i - 1)
             else ret tt) doc = Some (tt, doc1)
            ∧ annotsAdded doc doc1
                (onPage page
                   (if bool_decide (0 < i)
                    then from_option
                           (λ p, [linkAnnotationDict
                                    (mkRect (MARGIN dims) navY (JS.ofZ 40) (JS.ofZ 20)) p])
                           [] (pageTree doc !! (i - 1))
                    else []))) as (doc1 & E1 & A1).
  { destruct (decide (0 < i)) as [Hp|Hp].
    - rewrite !bool_decide_eq_true_2 by done.
      apply createInternalLink_added_opt. lia.
    - rewrite !bool_decide_eq_false_2 by done.
      exists doc. split; [done|apply annotsAdded_nil]. }
  rewrite (bind_Some _ _ _ _ _ E1).
  assert (pageTree doc1 = pageTree doc) as Hpt1 by (by destruct A1).
  assert (∃ doc2,
            (if bool_decide (0 ≤ tocIndex)%Z
             then createInternalLink page
                    (mkRect (WIDTH dims / JS.ofZ 2 - JS.ofZ 40 / JS.ofZ 2)%Qc navY
                            (JS.ofZ 40) (JS.ofZ 20)) (Z.to_nat tocIndex)
             else ret tt) doc1 = Some (tt, doc2)
            ∧ annotsAdded doc1 doc2
                (onPage page
                   (if bool_decide (0 ≤ tocIndex)%Z
                    then from_option
                           (λ p, [linkAnnotationDict
                                    (mkRect (WIDTH dims / JS.ofZ 2 - JS.ofZ 40 / JS.ofZ 2)%Qc
                                            navY (JS.ofZ 40) (JS.ofZ 20)) p])
                           [] (pageTree doc !! Z.to_nat tocIndex)
                    else []))) as (doc2 & E2 & A2).
  { destruct (decide (0 ≤ tocIndex)%Z) as [Ht|Ht].
    - rewrite !bool_decide_eq_true_2 by done.
      rewrite <- Hpt1. apply createInternalLink_added_opt. rewrite Hpt1. by apply Htoc.
    - rewrite !bool_decide_eq_false_2 by done.
      exists doc1. split; [done|apply annotsAdded_nil]. }
  rewrite (bind_Some _ _ _ _ _ E2).
  assert (pageTree doc2 = pageTree doc) as Hpt2 by (destruct A2; congruence).
  assert (∃ doc3,
            (if bool_decide (i < length (pageTree doc) - 1)
             then createInternalLink page
                    (mkRect (WIDTH dims - MARGIN dims - JS.ofZ 40)%Qc navY
                            (JS.ofZ 40) (JS.ofZ 20)) (i + 1)
             else ret tt) doc2 = Some (tt, doc3)
            ∧ annotsAdded doc2 doc3
                (onPage page
                   (from_option
                      (λ p, [linkAnnotationDict
                               (mkRect (WIDTH dims - MARGIN dims - JS.ofZ 40)%Qc navY
                                       (JS.ofZ 40) (JS.ofZ 20)) p])
                      [] (pageTree doc !! (i + 1))))) as (doc3 & E3 & A3).
  { destruct (decide (i < length (pageTree doc) - 1)) as [Hn|Hn].
    - rewrite bool_decide_eq_true_2 by done.
      rewrite <- Hpt2. apply createInternalLink_added_opt. rewrite Hpt2. lia.
    - rewrite bool_decide_eq_false_2 by done.
      exists doc2. split; [done|].
      rewrite (proj2 (lookup_ge_None _ _)) by lia. apply annotsAdded_nil. }
  exists doc3. split; [exact E3|].
  eapply annotsAdded_ext;
    [|exact (annotsAdded_trans _ _ _ _ _ A1 (annotsAdded_trans _ _ _ _ _ A2 A3))].
  intros q. cbv beta. by rewrite !onPage_app.
Qed.

(** The links of the pages at the positions [l], page by page. *)
Lemma forEach_addNavigationLinks_added (tocIndex : Z) (dims : Dimensions)
    (pages : list nat) (n : nat) :
  n = length pages →
  ((0 ≤ tocIndex)%Z → Z.to_nat tocIndex < length pages) →
  ∀ (l : list nat) (doc : PDFDocument),
    Forall (λ i, i < n) l →
    pageTree doc = pages →
    ∃ doc',
      forEach (λ i, let* page := getPage i in
                    addNavigationLinks page i n
                      (mkNavigationConfig tocIndex true (JS.ofZ 20) (JS.ofZ 40))
                      (WIDTH dims) (MARGIN dims)) l doc = Some (tt, doc')
      ∧ annotsAdded doc doc'
          (λ q, concat ((λ i, if decide (pages !! i = Some q)
                              then basicNavLinks pages tocIndex dims i else [])
                        <$> l)).
Proof.
  intros -> Htoc. induction l as [|i l IH]; intros doc Hl Hpt.
  - exists doc. split; [done|apply annotsAdded_refl].
  - apply Forall_cons in Hl as [Hi Hl].
    destruct (lookup_lt_is_Some_2 pages i Hi) as [page Hpage].
    cbn [forEach]. unfold bind at 1 2.
    rewrite (getPage_Some i doc page) by (by rewrite Hpt).
    destruct (addNavigationLinks_added page i tocIndex dims doc)
      as (doc1 & E1 & A1); [by rewrite Hpt|by rewrite Hpt|].
    rewrite Hpt in E1, A1. rewrite E1.
    destruct (IH doc1 Hl) as (doc' & E' & A'); [destruct A1; congruence|].
    exists doc'. split; [exact E'|].
    eapply annotsAdded_ext; [|exact (annotsAdded_trans _ _ _ _ _ A1 A')].
    intros q. cbv beta. cbn [fmap list_fmap concat]. f_equal.
    unfold onPage. repeat case_decide; congruence.
Qed.

Lemma concat_at_position {A} (pages : list nat) (f : nat → list A) (i p n : nat) :
  NoDup pages → pages !! i = Some p → n = length pages →
  concat ((λ j, if decide (pages !! j = Some p) then f j else []) <$> seq 0 n) = f i.
Proof.
  intros Hnd Hi ->.
  assert (∀ l, NoDup l →
            concat ((λ j, if decide (pages !! j = Some p) then f j else []) <$> l)
            = if decide (i ∈ l) then f i else []) as Hgen.
  { induction l as [|j l IH]; intros Hl; [done|].
    apply NoDup_cons in Hl as [Hj Hl]. cbn [fmap list_fmap concat].
    rewrite (IH Hl). destruct (decide (pages !! j = Some p)) as [Hpj|Hpj].
    - assert (j = i) as -> by exact (NoDup_lookup pages j i p Hnd Hpj Hi).
      rewrite (decide_False (P := i ∈ l)) by done.
      rewrite (decide_True (P := i ∈ i :: l)) by (apply elem_of_cons; by left).
      by rewrite app_nil_r.
    - cbn [app]. destruct (decide (i ∈ l)) as [Hin|Hin].
      + rewrite (decide_True (P := i ∈ j :: l)); [done|].
        apply elem_of_cons. by right.
      + rewrite (decide_False (P := i ∈ j :: l)); [done|].
        intros [->|?]%elem_of_cons; [|done]. by apply Hpj. }
  rewrite (Hgen _ (NoDup_seq 0 (length pages))).
  rewrite decide_True; [done|].
  apply elem_of_seq. pose proof (lookup_lt_Some _ _ _ Hi). lia.
Qed.


(** ** The table of contents *)

Lemma wroteOn_refl doc page : wroteOn doc doc page [] [].
Proof.
  repeat split; intros q; unfold onPage; case_decide; by rewrite app_nil_r.
Qed.

Lemma wroteOn_trans doc1 doc2 doc3 page runs1 links1 runs2 links2 :
  wroteOn doc1 doc2 page runs1 links1 → wroteOn doc2 doc3 page runs2 links2 →
  wroteOn doc1 doc3 page (runs1 ++ runs2) (links1 ++ links2).
Proof.
  intros (H1 & H2 & H3 & H4) (G1 & G2 & G3 & G4).
  split; [congruence|]. split; [congruence|]. split; intros q.
  - by rewrite G3, H3, <- app_assoc, onPage_app.
  - by rewrite G4, H4, <- app_assoc, onPage_app.
Qed.

Lemma drawText_wroteOn page run doc :
  ∃ doc', drawText page run doc = Some (tt, doc') ∧ wroteOn doc doc' page [run] [].
Proof.
  destruct (drawText_drawn page run doc) as (doc' & E & (Hpt & Han & Hn & Htx)).
  exists doc'. split; [exact E|].
  split; [by rewrite Hpt, app_nil_r|]. split; [lia|]. split; [done|].
  intros q. unfold annotsOf. rewrite Han. unfold onPage.
  case_decide; by rewrite app_nil_r.
Qed.

Lemma createInternalLink_wroteOn page rect targetPageIndex doc :
  targetPageIndex < length (pageTree doc) →
  ∃ doc',
    createInternalLink page rect targetPageIndex doc = Some (tt, doc')
    ∧ wroteOn doc doc' page []
        (from_option (λ p, [linkAnnotationDict rect p]) []
                     (pageTree doc !! targetPageIndex)).
Proof.
  intros Hlt.
  destruct (createInternalLink_added_opt page rect targetPageIndex doc Hlt)
    as (doc' & E & (Hpt & Htx & Hn & Han)).
  exists doc'. split; [exact E|]. repeat split; try done.
  intros q. unfold textsOf. rewrite Htx. unfold onPage.
  case_decide; by rewrite app_nil_r.
Qed.

Lemma tocEntries_wroteOn (tocPage : nat) (dims : Dimensions) (lineHeight : Qc) :
  ∀ (pageRefs : list TocEntry) (y : Qc) (doc : PDFDocument),
    Forall (λ r, entryPageIndex r + 1 < length (pageTree doc)) pageRefs →
    ∃ doc' k,
      tocEntries tocPage dims lineHeight pageRefs y doc = Some (tt, doc')
      ∧ k ≤ length pageRefs
      ∧ (∀ j, j < k → ¬ (tocRowY y lineHeight j < MARGIN dims + JS.ofZ 20)%Qc)
      ∧ (k < length pageRefs → (tocRowY y lineHeight k < MARGIN dims + JS.ofZ 20)%Qc)
      ∧ wroteOn doc doc' tocPage
          (concat (imap (tocRowRuns dims y lineHeight) (take k pageRefs)))
          (concat (imap (tocRowLink (pageTree doc) dims y lineHeight) (take k pageRefs))).
Proof.
  assert (∀ y, tocRowY y lineHeight 0 = y) as Hrow0.
  { intros y. unfold tocRowY. rewrite ofNat_0. ring. }
  assert (∀ y j, tocRowY (y - lineHeight) lineHeight j = tocRowY y lineHeight (S j))
    as HrowS.
  { intros y j. unfold tocRowY. rewrite ofNat_S, ofZ_1. ring. }
  induction pageRefs as [|r rest IH]; intros y doc Hvalid.
  - exists doc, 0. split; [done|]. split; [done|]. split; [intros j Hj; lia|].
    split; [cbn; lia|]. apply wroteOn_refl.
  - apply Forall_cons in Hvalid as [Hr Hrest]. cbn [tocEntries].
    case_decide as Hy.
    + exists doc, 0. split; [done|]. split; [cbn; lia|].
      split; [intros j Hj; lia|]. split; [intros _; by rewrite Hrow0|].
      apply wroteOn_refl.
    + destruct (drawText_wroteOn tocPage
                  (mkText (entryLabel r) (MARGIN dims) y (JS.ofZ 10) Helvetica) doc)
        as (doc1 & E1 & W1).
      rewrite (bind_Some _ _ _ _ _ E1).
      destruct (drawText_wroteOn tocPage
                  (mkText (JS.toString (entryPageIndex r + 2))
                          (WIDTH dims - MARGIN dims - JS.ofZ 20)%Qc y (JS.ofZ 10)
                          Helvetica) doc1)
        as (doc2 & E2 & W2).
      rewrite (bind_Some _ _ _ _ _ E2).
      pose proof (wroteOn_trans _ _ _ _ _ _ _ _ W1 W2) as W12.
      assert (pageTree doc2 = pageTree doc) as Hpt2 by (by destruct W12).
      unfold addTocEntryLink.
      destruct (createInternalLink_wroteOn tocPage
                  (mkRect (MARGIN dims) (y - lineHeight / JS.ofZ 4)%Qc
                          (WIDTH dims - JS.ofZ 2 * MARGIN dims)%Qc lineHeight)
                  (entryPageIndex r + 1) doc2)
        as (doc3 & E3 & W3); [by rewrite Hpt2|].
      rewrite (bind_Some _ _ _ _ _ E3).
      pose proof (wroteOn_trans _ _ _ _ _ _ _ _ W12 W3) as W13.
      assert (pageTree doc3 = pageTree doc) as Hpt3 by (by destruct W13).
      destruct (IH (y - lineHeight)%Qc doc3) as (doc' & k & E' & Hk & Hfit & Hout & W');
        [by rewrite Hpt3|].
      exists doc', (S k). split; [exact E'|]. split; [cbn; lia|].
      split.
      { intros [|j] Hj; [by rewrite Hrow0|]. rewrite <- HrowS. apply Hfit. lia. }
      split.
      { intros Hlt. rewrite <- HrowS. apply Hout. cbn in Hlt. lia. }
      pose proof (wroteOn_trans _ _ _ _ _ _ _ _ W13 W') as W.
      cbn [take]. rewrite !imap_cons. cbn [concat].
      unfold tocRowRuns at 1, tocRowLink at 1. rewrite !Hrow0.
      rewrite Hpt2, Hpt3 in W. cbn [app] in W.
      assert (imap (tocRowRuns dims y lineHeight ∘ S) (take k rest)
              = imap (tocRowRuns dims (y - lineHeight) lineHeight) (take k rest)) as ->.
      { apply imap_ext. intros j x _. cbn [compose]. unfold tocRowRuns.
        by rewrite HrowS. }
      assert (imap (tocRowLink (pageTree doc) dims y lineHeight ∘ S) (take k rest)
              = imap (tocRowLink (pageTree doc) dims (y - lineHeight) lineHeight)
                     (take k rest)) as ->.
      { apply imap_ext. intros j x _. cbn [compose]. unfold tocRowLink.
        by rewrite HrowS. }
      exact W.
Qed.

(** What [addTableOfContents] does to the document: one page inserted
    at position 1, with the title and the first [k] rows on it. *)
Lemma addTableOfContents_wrote (dims : Dimensions) (pageRefs : list TocEntry)
    (doc : PDFDocument) :
  let tocPage := nextRef doc in
  let y0 := (HEIGHT dims - MARGIN dims - TOOLBAR_HEIGHT dims - JS.ofZ 35)%Qc in
  let lineHeight := JS.ofZ 18 in
  let pages' := take 1 (pageTree doc) ++ tocPage :: drop 1 (pageTree doc) in
  1 ≤ length (pageTree doc) →
  Forall (λ r, entryPageIndex r < length (pageTree doc)) pageRefs →
  ∃ doc' k,
    addTableOfContents dims pageRefs doc = Some (tt, doc')
    ∧ pageTree doc' = pages'
    ∧ nextRef doc' = S (nextRef doc)
    ∧ k ≤ length pageRefs
    ∧ (∀ j, j < k → ¬ (tocRowY y0 lineHeight j < MARGIN dims + JS.ofZ 20)%Qc)
    ∧ (k < length pageRefs → (tocRowY y0 lineHeight k < MARGIN dims + JS.ofZ 20)%Qc)
    ∧ (∀ q, textsOf doc' q
            = textsOf doc q
              ++ onPage tocPage
                   (mkText "Table of Contents" (MARGIN dims)
                           (HEIGHT dims - MARGIN dims - TOOLBAR_HEIGHT dims - JS.ofZ 5)%Qc
                           (JS.ofZ 16) HelveticaBold
                    :: concat (imap (tocRowRuns dims y0 lineHeight) (take k pageRefs))) q)
    ∧ (∀ q, annotsOf doc' q
            = annotsOf doc q
              ++ onPage tocPage
                   (concat (imap (tocRowLink pages' dims y0 lineHeight)
                                 (take k pageRefs))) q).
Proof.
  intros tocPage y0 lineHeight pages' Hlen Hrefs.
  unfold addTableOfContents, insertPage, bind at 1.
  rewrite decide_True by done.
  set (doc1 := mkDoc (take 1 (pageTree doc) ++ nextRef doc :: drop 1 (pageTree doc))
                     (pageTexts doc) (pageAnnots doc) (S (nextRef doc))).
  destruct (drawText_wroteOn tocPage
              (mkText "Table of Contents" (MARGIN dims)
                      (HEIGHT dims - MARGIN dims - TOOLBAR_HEIGHT dims - JS.ofZ 5)%Qc
                      (JS.ofZ 16) HelveticaBold) doc1) as (doc2 & E2 & W2).
  fold tocPage. rewrite (bind_Some _ _ _ _ _ E2).
  assert (pageTree doc2 = pageTree doc1) as Hpt2 by (by destruct W2).
  assert (length (pageTree doc1) = S (length (pageTree doc))) as Hlen1.
  { cbn [pageTree doc1]. rewrite length_app, length_take. cbn [length].
    rewrite length_drop. lia. }
  destruct (tocEntries_wroteOn tocPage dims lineHeight pageRefs y0 doc2)
    as (doc' & k & E' & Hk & Hfit & Hout & W').
  { rewrite Hpt2, Hlen1. eapply Forall_impl; [exact Hrefs|]. cbv beta. intros r Hr. lia. }
  fold y0 lineHeight. exists doc', k. split; [exact E'|].
  pose proof (wroteOn_trans _ _ _ _ _ _ _ _ W2 W') as (Hpt & Hnext & Htx & Han).
  rewrite Hpt2 in Han. cbn [app] in Htx, Han.
  split; [exact Hpt|]. split; [exact Hnext|]. split; [exact Hk|].
  split; [exact Hfit|]. split; [exact Hout|]. split; [exact Htx|exact Han].
Qed.

(** X8. [addTableOfContents] inserts exactly one page, at position 1,
    however many entries there are: it writes the rows of the first [k]
    entries, where [k] is the number of rows that fit above
    [MARGIN + 20], and drops the others.  The row of an entry shows the
    number [pageIndex + 2], and for an entry of a page behind the cover
    its link leads to position [pageIndex + 1], which holds the page
    that was at [pageIndex] before the insertion. *)
Theorem addTableOfContents_entries :
  ∀ (dims : Dimensions) (pageRefs : list TocEntry) (doc : PDFDocument),
    let tocPage := nextRef doc in
    let y0 := (HEIGHT dims - MARGIN dims - TOOLBAR_HEIGHT dims - JS.ofZ 35)%Qc in
    let lineHeight := JS.ofZ 18 in
    1 ≤ length (pageTree doc) →
    Forall (λ r, entryPageIndex r < length (pageTree doc)) pageRefs →
    NoDup (pageTree doc) →
    (∀ p, p ∈ pageTree doc → p < nextRef doc) →
    ∃ doc' k,
      addTableOfContents dims pageRefs doc = Some (tt, doc')
      ∧ pageTree doc' = take 1 (pageTree doc) ++ tocPage :: drop 1 (pageTree doc)
      ∧ k ≤ length pageRefs
      ∧ (∀ j, j < k → (MARGIN dims + JS.ofZ 20 ≤ tocRowY y0 lineHeight j)%Qc)
      ∧ (k < length pageRefs → (tocRowY y0 lineHeight k < MARGIN dims + JS.ofZ 20)%Qc)
      ∧ textsOf doc' tocPage
        = textsOf doc tocPage
          ++ mkText "Table of Contents" (MARGIN dims)
                    (HEIGHT dims - MARGIN dims - TOOLBAR_HEIGHT dims - JS.ofZ 5)%Qc
                    (JS.ofZ 16) HelveticaBold
             :: concat (imap (tocRowRuns dims y0 lineHeight) (take k pageRefs))
      ∧ annotsOf doc' tocPage
        = annotsOf doc tocPage
          ++ concat (imap (tocRowLink (pageTree doc') dims y0 lineHeight)
                          (take k pageRefs))
      ∧ ∀ j r, j < k → pageRefs !! j = Some r → 1 ≤ entryPageIndex r →
          ∃ p link,
            pageTree doc !! entryPageIndex r = Some p
            ∧ pageTree doc' !! (entryPageIndex r + 1) = Some p
            ∧ tocRowLink (pageTree doc') dims y0 lineHeight j r = [link]
            ∧ destPage (annotDest link) = p
            ∧ previewTargetPage doc' link = entryPageIndex r + 1.
Proof.
  intros dims pageRefs doc tocPage y0 lineHeight Hlen Hrefs Hnd Hfresh.
  destruct (addTableOfContents_wrote dims pageRefs doc Hlen Hrefs)
    as (doc' & k & E & Hpt & _ & Hk & Hfit & Hout & Htx & Han).
  fold tocPage y0 lineHeight in Hpt, Hfit, Hout, Htx, Han.
  exists doc', k. split; [exact E|]. split; [exact Hpt|]. split; [exact Hk|].
  split; [intros j Hj; apply Qcnot_lt_le; by apply Hfit|]. split; [exact Hout|].
  split; [rewrite Htx; unfold onPage; by rewrite decide_True|].
  split; [rewrite Han, Hpt; unfold onPage; by rewrite decide_True|].
  intros j r Hj Hjr Hidx.
  pose proof (proj1 (Forall_forall _ _) Hrefs r (list_elem_of_lookup_2 _ _ _ Hjr)) as Hr.
  destruct (lookup_lt_is_Some_2 _ _ Hr) as [p Hp].
  assert (pageTree doc' !! (entryPageIndex r + 1) = Some p) as Hp'.
  { rewrite Hpt. unfold tocPage.
    pose proof (inserted_lookup_after (pageTree doc) 1 (nextRef doc) 1
                  (entryPageIndex r - 1) Hlen) as Hins.
    cbn [seq app] in Hins.
    replace (1 + 1 + (entryPageIndex r - 1)) with (entryPageIndex r + 1) in Hins by lia.
    replace (1 + (entryPageIndex r - 1)) with (entryPageIndex r) in Hins by lia.
    by rewrite Hins. }
  eexists p, _. split; [done|]. split; [done|].
  unfold tocRowLink. rewrite Hp'. cbn [from_option]. split; [reflexivity|].
  split; [done|].
  unfold previewTargetPage. cbn [linkAnnotationDict annotDest destPage].
  rewrite (findPage_lookup (pageTree doc') (entryPageIndex r + 1) 0 p); [done| |done].
  rewrite Hpt. unfold tocPage.
  exact (inserted_NoDup (pageTree doc) 1 (nextRef doc) 1 Hnd Hfresh).
Qed.



Lemma fourWeeksDoc_fresh : ∀ p, p ∈ pageTree fourWeeksDoc → p < nextRef fourWeeksDoc.
Proof.
  intros p Hp. simpl in Hp. simpl.
  repeat (apply elem_of_cons in Hp as [->|Hp]; [lia|]).
  apply elem_of_nil in Hp. destruct Hp.
Qed.


Lemma addTableOfContents_entries_witness :
  ∃ doc',
    addTableOfContents shortDims fourWeeksEntries fourWeeksDoc = Some (tt, doc')
    ∧ pageTree doc' = [0; 5; 1; 2; 3; 4]
    ∧ text <$> textsOf doc' 5
      = ["Table of Contents"; "Week 1"; "3"; "Week 2"; "4"; "Week 3"; "5"]
    ∧ previewTargetPage doc' <$> annotsOf doc' 5 = [2; 3; 4].
Proof.
  destruct (addTableOfContents_entries shortDims fourWeeksEntries fourWeeksDoc)
    as (doc' & k & E & Hpt & Hk & Hfit & Hout & Htx & Han & _).
  - simpl. lia.
  - apply (bool_decide_unpack _). by vm_compute.
  - apply (bool_decide_unpack _). by vm_compute.
  - exact fourWeeksDoc_fresh.
  - assert (k = 3) as ->.
    { destruct (decide (k < 3)) as [Hlt|Hge].
      - exfalso. assert (k < length fourWeeksEntries) as Hk' by (simpl; lia).
        specialize (Hout Hk'). clear -Hout Hlt.
        destruct k as [|[|[|k]]]; [by vm_compute in Hout..|lia].
      - destruct (decide (k = 3)) as [->|Hne]; [done|]. exfalso.
        assert (3 < k) as H3 by lia. specialize (Hfit 3 H3). clear -Hfit.
        apply Hfit. by vm_compute. }
    exists doc'. split; [exact E|]. split; [exact Hpt|].
    split.
    + simpl nextRef in Htx. rewrite Htx. reflexivity.
    + unfold previewTargetPage. simpl nextRef in Han. rewrite Han, Hpt. reflexivity.
Defined.


(** ** Pages appended and references to them *)

Lemma appendedPages_refl doc : appendedPages doc doc 0.
Proof.
  unfold appendedPages. cbn [seq]. rewrite app_nil_r. split; [done|].
  split; [done|]. split; [lia|done].
Qed.

Lemma appendedPages_trans doc1 doc2 doc3 n m :
  appendedPages doc1 doc2 n → appendedPages doc2 doc3 m →
  appendedPages doc1 doc3 (n + m).
Proof.
  intros (Hpt1 & Han1 & Hn1 & Htx1) (Hpt2 & Han2 & Hn2 & Htx2).
  split; [|split; [congruence|split; [lia|]]].
  - rewrite Hpt2, Hpt1, Hn1, <- app_assoc. f_equal. by rewrite seq_app.
  - intros q Hq. rewrite Htx2 by lia. by apply Htx1.
Qed.

Lemma appendedPages_length doc doc' n :
  appendedPages doc doc' n → length (pageTree doc') = length (pageTree doc) + n.
Proof. intros (-> & _). by rewrite length_app, length_seq. Qed.

Lemma drawn_appendedPages doc doc' k f :
  drawn doc doc' k f → (∀ q, q < nextRef doc → f q = []) → appendedPages doc doc' k.
Proof.
  intros (Hpt & Han & Hn & Htx) Hf. split; [done|]. split; [done|]. split; [done|].
  intros q Hq. by rewrite Htx, Hf, app_nil_r.
Qed.

(** Drawing on one of the new pages keeps the pages appended. *)
Lemma appendedPages_drawn0 doc0 doc doc' n page runs :
  appendedPages doc0 doc n → nextRef doc0 ≤ page →
  drawn doc doc' 0 (onPage page runs) →
  appendedPages doc0 doc' n.
Proof.
  intros (Hpt & Han & Hn & Htx) Hpage (Hpt' & Han' & Hn' & Htx').
  cbn [seq] in Hpt'. rewrite app_nil_r in Hpt'.
  split; [congruence|]. split; [congruence|]. split; [lia|].
  intros q Hq. rewrite Htx', Htx by done. unfold onPage.
  rewrite decide_False by lia. by rewrite app_nil_r.
Qed.

Lemma refsCover_nil base : refsCover base 0 [].
Proof.
  split; [by apply Forall_nil|]. split; [intros i Hi; lia|].
  intros i j r r' _ Hr. by rewrite lookup_nil in Hr.
Qed.

Lemma refsCover_app base n m refs refs' :
  refsCover base n refs → refsCover (base + n) m refs' →
  refsCover base (n + m) (refs ++ refs').
Proof.
  intros (Hr1 & Hc1 & Hs1) (Hr2 & Hc2 & Hs2). split; [|split].
  - apply Forall_app. split.
    + eapply Forall_impl; [exact Hr1|]. cbv beta. intros r Hr. lia.
    + eapply Forall_impl; [exact Hr2|]. cbv beta. intros r Hr. lia.
  - intros i Hi. destruct (decide (i < n)) as [Hlt|Hge].
    + destruct (Hc1 i Hlt) as (r & Hr & Hidx). exists r.
      split; [apply elem_of_app; by left|done].
    + destruct (Hc2 (i - n)) as (r & Hr & Hidx); [lia|]. exists r.
      split; [apply elem_of_app; by right|lia].
  - intros i j r r' Hij Hi Hj.
    destruct (decide (j < length refs)) as [Hjl|Hjl].
    + rewrite lookup_app_l in Hi by lia. rewrite lookup_app_l in Hj by lia.
      exact (Hs1 i j r r' Hij Hi Hj).
    + rewrite lookup_app_r in Hj by lia.
      pose proof (proj1 (Forall_forall _ _) Hr2 r'
                    (list_elem_of_lookup_2 _ _ _ Hj)) as Hr'.
      destruct (decide (i < length refs)) as [Hil|Hil].
      * rewrite lookup_app_l in Hi by lia.
        pose proof (proj1 (Forall_forall _ _) Hr1 r
                      (list_elem_of_lookup_2 _ _ _ Hi)) as Hr.
        cbv beta in Hr, Hr'. lia.
      * rewrite lookup_app_r in Hi by lia.
        exact (Hs2 (i - length refs) (j - length refs) r r' ltac:(lia) Hi Hj).
Qed.

(** References that all lead to the one new page. *)
Lemma refsCover_one base refs :
  refs ≠ [] → Forall (λ r, pageIndex r = base) refs → refsCover base 1 refs.
Proof.
  intros Hne Hall. split; [|split].
  - eapply Forall_impl; [exact Hall|]. cbv beta. intros r Hr. lia.
  - intros i Hi. destruct refs as [|r refs]; [done|]. exists r.
    split; [by left|]. apply Forall_cons in Hall as [-> _]. lia.
  - intros i j r r' _ Hi Hj.
    rewrite (proj1 (Forall_forall _ _) Hall r (list_elem_of_lookup_2 _ _ _ Hi)).
    by rewrite (proj1 (Forall_forall _ _) Hall r' (list_elem_of_lookup_2 _ _ _ Hj)).
Qed.

(** One reference for each of [n] pages in a row. *)
Lemma refsCover_seq base n (f : nat → PageRef) :
  (∀ i, pageIndex (f i) = base + i) → refsCover base n (f <$> seq 0 n).
Proof.
  intros Hf. split; [|split].
  - apply Forall_fmap, Forall_forall. intros i Hi%elem_of_seq. cbn [compose].
    rewrite Hf. lia.
  - intros i Hi. exists (f i). split; [|done].
    apply list_elem_of_fmap_2, elem_of_seq. lia.
  - intros i j r r' Hij Hi Hj.
    rewrite list_lookup_fmap in Hi, Hj.
    destruct (seq 0 n !! i) as [a|] eqn:Ea; [|done].
    destruct (seq 0 n !! j) as [b|] eqn:Eb; [|done].
    apply lookup_seq in Ea as [-> _]. apply lookup_seq in Eb as [-> _].
    injection Hi as <-. injection Hj as <-. rewrite !Hf. lia.
Qed.

(** ** The generators: pages and references *)

(** [generateMonthlyLog], whatever the layout: the pages it appends and
    the references it returns for them. *)
Lemma generateMonthlyLog_pages env ctx monthDate doc :
  let lay := monthlyLayout ctx (getDaysInMonth monthDate) in
  (∀ d, getDay env d < 7) →
  (0 < minLineHeight lay)%Qc →
  (1 ≤ daysPerPage lay)%Z →
  ∃ refs doc' n,
    generateMonthlyLog env ctx monthDate doc = Some (refs, doc')
    ∧ appendedPages doc doc' n
    ∧ refsCover (length (pageTree doc)) n refs
    ∧ Forall (λ r, type r = monthly ∨ type r = monthly_tasks) refs.
Proof.
  intros lay Hday Hmin Hdpp.
  destruct (needsSplit lay) eqn:Hsplit.
  - destruct (generateMonthlyLog_split env ctx monthDate doc Hday Hmin Hdpp Hsplit)
      as (tasksRef & doc' & E & Htype & Hidx & _ & D).
    eexists _, doc', _. split; [exact E|]. split; [|split].
    + eapply drawn_appendedPages; [exact D|]. intros q Hq. cbv beta.
      rewrite concat_onPage_seq_other by lia. unfold onPage.
      rewrite decide_False; [done|lia].
    + apply refsCover_app.
      * by apply refsCover_seq.
      * apply refsCover_one; [done|]. by apply Forall_singleton.
    + apply Forall_app. split.
      * apply Forall_fmap, Forall_forall. intros i _. by left.
      * apply Forall_singleton. by right.
  - unfold generateMonthlyLog. fold lay. rewrite Hsplit.
    destruct (addPage_drawn doc) as (doc1 & E1 & D1).
    rewrite (bind_Some _ _ _ _ _ E1).
    rewrite (bind_Some _ _ _ _ _ (getPageCount_eq doc1)).
    assert (appendedPages doc doc1 1) as A1.
    { eapply drawn_appendedPages; [exact D1|done]. }
    destruct (drawTopNavigation_drawn (nextRef doc) (font ctx) (dims ctx)
                (getNavLabels monthly (nav ctx)) doc1) as (doc2 & E2 & D2).
    rewrite (bind_Some _ _ _ _ _ E2).
    pose proof (appendedPages_drawn0 _ _ _ _ _ _ A1 (le_n _) D2) as A2.
    match goal with
    | |- context [drawPageTitle ?p ?t ?d ?y ?s] =>
        destruct (drawPageTitle_drawn p t d y s doc2) as (doc3 & E3 & D3)
    end.
    rewrite (bind_Some _ _ _ _ _ E3).
    pose proof (appendedPages_drawn0 _ _ _ _ _ _ A2 (le_n _) D3) as A3.
    match goal with
    | |- context [drawCombinedRows ?e ?c ?p ?m ?lh ?n ?d ?y] =>
        destruct (drawCombinedRows_drawn e c m Hday p lh n d y doc3) as (doc4 & E4 & D4)
    end.
    rewrite (bind_Some _ _ _ _ _ E4).
    pose proof (appendedPages_drawn0 _ _ _ _ _ _ A3 (le_n _) D4) as A4.
    match goal with
    | |- context [drawText ?p ?run] =>
        destruct (drawText_drawn p run doc4) as (doc5 & E5 & D5)
    end.
    rewrite (bind_Some _ _ _ _ _ E5).
    pose proof (appendedPages_drawn0 _ _ _ _ _ _ A4 (le_n _) D5) as A5.
    eexists _, doc5, 1. split; [reflexivity|]. split; [exact A5|].
    rewrite (appendedPages_length _ _ _ A1).
    replace (length (pageTree doc) + 1 - 1) with (length (pageTree doc)) by lia.
    split.
    + apply refsCover_one; [done|]. by repeat constructor.
    + apply Forall_cons. split; [by left|]. apply Forall_singleton. by right.
Qed.

Lemma addPage_appended doc0 doc n :
  appendedPages doc0 doc n →
  ∃ doc',
    addPage doc = Some (nextRef doc0 + n, doc')
    ∧ appendedPages doc0 doc' (n + 1)
    ∧ length (pageTree doc') - 1 = length (pageTree doc0) + n.
Proof.
  intros A. destruct (addPage_drawn doc) as (doc' & E & D).
  assert (appendedPages doc0 doc' (n + 1)) as A'.
  { eapply appendedPages_trans; [exact A|].
    eapply drawn_appendedPages; [exact D|done]. }
  exists doc'. destruct A as (_ & _ & <- & _). split; [exact E|]. split; [exact A'|].
  rewrite (appendedPages_length _ _ _ A'). lia.
Qed.

Lemma drawText_appended doc0 doc n page run :
  appendedPages doc0 doc n → nextRef doc0 ≤ page →
  ∃ doc', drawText page run doc = Some (tt, doc') ∧ appendedPages doc0 doc' n.
Proof.
  intros A Hpage. destruct (drawText_drawn page run doc) as (doc' & E & D).
  exists doc'. split; [exact E|]. by eapply appendedPages_drawn0.
Qed.

Lemma drawTopNavigation_appended doc0 doc n page font dims navItems :
  appendedPages doc0 doc n → nextRef doc0 ≤ page →
  ∃ doc',
    drawTopNavigation page font dims navItems doc
      = Some ((navY_of dims - JS.ofZ 7 - JS.ofZ 6)%Qc, doc')
    ∧ appendedPages doc0 doc' n.
Proof.
  intros A Hpage.
  destruct (drawTopNavigation_drawn page font dims navItems doc) as (doc' & E & D).
  exists doc'. split; [exact E|]. by eapply appendedPages_drawn0.
Qed.

Lemma drawPageTitle_appended doc0 doc n page title dims startY size :
  appendedPages doc0 doc n → nextRef doc0 ≤ page →
  ∃ doc',
    drawPageTitle page title dims startY size doc
      = Some ((startY - size - JS.ofZ 8)%Qc, doc')
    ∧ appendedPages doc0 doc' n.
Proof.
  intros A Hpage.
  destruct (drawPageTitle_drawn page title dims startY size doc) as (doc' & E & D).
  exists doc'. split; [exact E|]. by eapply appendedPages_drawn0.
Qed.

(** One step of a generator that keeps [A : appendedPages doc0 doc n]. *)
Ltac appended_step A :=
  let doc' := fresh "doc" in
  let E := fresh "E" in
  let A' := fresh "A" in
  lazymatch goal with
  | |- context [bind (drawText ?p ?run) _ ?d] =>
      destruct (drawText_appended _ d _ p run A ltac:(lia)) as (doc' & E & A')
  | |- context [bind (drawSection ?p ?t ?y ?x) _ ?d] =>
      unfold drawSection at 1;
      destruct (drawText_appended _ d _ p
                  (mkText t x (y - JS.ofZ 2)%Qc (JS.ofZ 8) HelveticaBold) A ltac:(lia))
        as (doc' & E & A')
  | |- context [bind (drawTopNavigation ?p ?f ?dm ?items) _ ?d] =>
      destruct (drawTopNavigation_appended _ d _ p f dm items A ltac:(lia))
        as (doc' & E & A')
  | |- context [bind (drawPageTitle ?p ?t ?dm ?y ?s) _ ?d] =>
      destruct (drawPageTitle_appended _ d _ p t dm y s A ltac:(lia))
        as (doc' & E & A')
  end;
  rewrite (bind_Some _ _ _ _ _ E); clear E A; rename A' into A.

(** The first two steps of every page generator: the new page and its
    position. *)
Ltac appended_addPage A Hidx :=
  let doc' := fresh "doc" in
  let E := fresh "E" in
  let A' := fresh "A" in
  lazymatch goal with
  | |- context [bind addPage _ ?d] =>
      destruct (addPage_appended _ d _ A) as (doc' & E & A' & Hidx);
      rewrite (bind_Some _ _ _ _ _ E);
      rewrite (bind_Some _ _ _ _ _ (getPageCount_eq doc'));
      rewrite Hidx; clear E A; rename A' into A
  end.

Lemma drawKeyEntries_appended ctx page lineHeight doc0 n :
  nextRef doc0 ≤ page →
  ∀ (entries : list BulletKeyEntry) (y : Qc) (doc : PDFDocument),
    appendedPages doc0 doc n →
    ∃ doc',
      drawKeyEntries ctx page lineHeight entries y doc = Some (tt, doc')
      ∧ appendedPages doc0 doc' n.
Proof.
  intros Hpage. induction entries as [|entry rest IH]; intros y doc A.
  - by exists doc.
  - cbn [drawKeyEntries].
    assert (∃ doc1,
              (if drawBulletSymbol (keySymbol entry) then ret tt
               else drawText page (mkText (keySymbol entry) (left (padding (dims ctx)))
                                          y (JS.ofZ 10) HelveticaBold)) doc
              = Some (tt, doc1) ∧ appendedPages doc0 doc1 n) as (doc1 & E1 & A1).
    { destruct (drawBulletSymbol (keySymbol entry)); [by exists doc|].
      by apply drawText_appended. }
    rewrite (bind_Some _ _ _ _ _ E1).
    appended_step A1. appended_step A1. by apply IH.
Qed.

Lemma generateKeyPage_pages ctx doc :
  ∃ ref doc',
    generateKeyPage ctx doc = Some (ref, doc')
    ∧ appendedPages doc doc' 1
    ∧ pageIndex ref = length (pageTree doc) ∧ type ref = key.
Proof.
  pose proof (appendedPages_refl doc) as A. unfold generateKeyPage.
  appended_addPage A Hidx. appended_step A. appended_step A. appended_step A.
  match goal with
  | |- context [drawKeyEntries ?c ?p ?lh ?es ?y] =>
      destruct (drawKeyEntries_appended c p lh doc 1 ltac:(lia) es y _ A)
        as (doc' & E & A')
  end.
  rewrite (bind_Some _ _ _ _ _ E).
  eexists _, doc'. split; [reflexivity|]. split; [exact A'|]. cbn. split; [lia|done].
Qed.

Lemma generateWeeklyReview_pages env fns ctx weekStartDate doc :
  ∃ ref doc',
    generateWeeklyReview env fns ctx weekStartDate doc = Some (ref, doc')
    ∧ appendedPages doc doc' 1
    ∧ pageIndex ref = length (pageTree doc) ∧ type ref = weekly.
Proof.
  pose proof (appendedPages_refl doc) as A. unfold generateWeeklyReview.
  appended_addPage A Hidx. do 6 appended_step A.
  eexists _, _. split; [reflexivity|]. split; [exact A|]. cbn. split; [lia|done].
Qed.

Lemma generateDailyLog_pages env fns ctx date doc :
  ∃ ref doc',
    generateDailyLog env fns ctx date doc = Some (ref, doc')
    ∧ appendedPages doc doc' 1
    ∧ pageIndex ref = length (pageTree doc) ∧ type ref = daily.
Proof.
  pose proof (appendedPages_refl doc) as A. unfold generateDailyLog.
  appended_addPage A Hidx. do 2 appended_step A.
  eexists _, _. split; [reflexivity|]. split; [exact A|]. cbn. split; [lia|done].
Qed.

Lemma generatesPages_ret P : generatesPages P (λ pageRefs, ret pageRefs).
Proof.
  intros pageRefs doc. exists [], doc, 0. rewrite app_nil_r. split; [done|].
  split; [apply appendedPages_refl|]. split; [apply refsCover_nil|done].
Qed.

Lemma generatesPages_bind P m1 m2 :
  generatesPages P m1 → generatesPages P m2 →
  generatesPages P (λ pageRefs, let* pageRefs := m1 pageRefs in m2 pageRefs).
Proof.
  intros H1 H2 pageRefs doc.
  destruct (H1 pageRefs doc) as (refs1 & doc1 & n1 & E1 & A1 & C1 & P1).
  destruct (H2 (pageRefs ++ refs1) doc1) as (refs2 & doc2 & n2 & E2 & A2 & C2 & P2).
  exists (refs1 ++ refs2), doc2, (n1 + n2).
  rewrite (bind_Some _ _ _ _ _ E1), E2, app_assoc. split; [done|].
  split; [by eapply appendedPages_trans|]. split.
  - apply refsCover_app; [done|]. by rewrite <- (appendedPages_length _ _ _ A1).
  - by apply Forall_app.
Qed.

Lemma generatesPages_weaken (P Q : PageRef → Prop) m :
  (∀ r, P r → Q r) → generatesPages P m → generatesPages Q m.
Proof.
  intros HPQ H pageRefs doc.
  destruct (H pageRefs doc) as (refs & doc' & n & E & A & C & HP).
  exists refs, doc', n. split; [done|]. split; [done|]. split; [done|].
  eapply Forall_impl; [exact HP|exact HPQ].
Qed.

(** A generator of one page that returns one reference to it. *)
Lemma generatesPages_one P (g : M PageRef) (k : list PageRef → M (list PageRef)) :
  (∀ doc, ∃ ref doc',
     g doc = Some (ref, doc') ∧ appendedPages doc doc' 1
     ∧ pageIndex ref = length (pageTree doc) ∧ P ref) →
  generatesPages P k →
  generatesPages P (λ pageRefs, let* ref := g in k (pageRefs ++ [ref])).
Proof.
  intros Hg Hk pageRefs doc.
  destruct (Hg doc) as (ref & doc1 & E1 & A1 & Hidx & HP).
  destruct (Hk (pageRefs ++ [ref]) doc1) as (refs & doc' & n & E' & A' & C' & HP').
  exists (ref :: refs), doc', (1 + n).
  rewrite (bind_Some _ _ _ _ _ E1), E'. split; [by rewrite <- app_assoc|].
  split; [by eapply appendedPages_trans|]. split.
  - apply (refsCover_app _ 1 n [ref] refs).
    + apply refsCover_one; [done|]. by apply Forall_singleton.
    + by rewrite <- (appendedPages_length _ _ _ A1).
  - by apply Forall_cons.
Qed.

Lemma weeklyReviews_pages env fns ctx weeks :
  generatesPages (λ r, type r = weekly) (weeklyReviews env fns ctx weeks).
Proof.
  induction weeks as [|weekStart rest IH].
  - apply generatesPages_ret.
  - cbn [weeklyReviews].
    apply (generatesPages_one _ (generateWeeklyReview env fns ctx weekStart)); [|done].
    intros doc.
    destruct (generateWeeklyReview_pages env fns ctx weekStart doc)
      as (ref & doc' & E & A & Hidx & Ht).
    by exists ref, doc'.
Qed.

Lemma dailyLogs_pages env fns ctx includeWeekends days :
  generatesPages (λ r, type r = daily) (dailyLogs env fns ctx includeWeekends days).
Proof.
  induction days as [|day rest IH].
  - apply generatesPages_ret.
  - cbn [dailyLogs].
    destruct (negb includeWeekends
              && (bool_decide (getDay env day = 0) || bool_decide (getDay env day = 6)));
      [done|].
    apply (generatesPages_one _ (generateDailyLog env fns ctx day)); [|done].
    intros doc.
    destruct (generateDailyLog_pages env fns ctx day doc)
      as (ref & doc' & E & A & Hidx & Ht).
    by exists ref, doc'.
Qed.

Lemma monthlyLogs_pages env ctx months :
  (∀ d, getDay env d < 7) →
  (∀ N, (0 < minLineHeight (monthlyLayout ctx N))%Qc
        ∧ (1 ≤ daysPerPage (monthlyLayout ctx N))%Z) →
  generatesPages (λ r, type r = monthly ∨ type r = monthly_tasks)
                 (monthlyLogs env ctx months).
Proof.
  intros Hday Hlay. induction months as [|monthDate rest IH].
  - apply generatesPages_ret.
  - cbn [monthlyLogs]. intros pageRefs doc.
    destruct (Hlay (getDaysInMonth monthDate)) as [Hmin Hdpp].
    destruct (generateMonthlyLog_pages env ctx monthDate doc Hday Hmin Hdpp)
      as (refs1 & doc1 & n1 & E1 & A1 & C1 & P1).
    destruct (IH (pageRefs ++ refs1) doc1) as (refs2 & doc2 & n2 & E2 & A2 & C2 & P2).
    exists (refs1 ++ refs2), doc2, (n1 + n2).
    rewrite (bind_Some _ _ _ _ _ E1), E2, app_assoc. split; [done|].
    split; [by eapply appendedPages_trans|]. split.
    + apply refsCover_app; [done|]. by rewrite <- (appendedPages_length _ _ _ A1).
    + by apply Forall_app.
Qed.

Lemma collectionPagesLoop_pages ctx :
  ∀ n i, generatesPages (λ r, type r = collection) (collectionPagesLoop ctx n i).
Proof.
  induction n as [|n IH]; intros i.
  - apply generatesPages_ret.
  - cbn [collectionPagesLoop]. intros pageRefs doc.
    pose proof (appendedPages_refl doc) as A.
    appended_addPage A Hidx. do 2 appended_step A.
    match goal with
    | |- context [collectionPagesLoop ctx n (S i) (pageRefs ++ [?r]) ?d] =>
        destruct (IH (S i) (pageRefs ++ [r]) d) as (refs & doc' & m & E' & A' & C' & P');
        exists (r :: refs), doc', (1 + m)
    end.
    rewrite E'. split; [by rewrite <- app_assoc|].
    split; [by eapply appendedPages_trans|]. split.
    + match goal with
      | |- refsCover _ _ (?r :: _) => apply (refsCover_app _ 1 m [r] refs)
      end.
      * apply refsCover_one; [done|]. apply Forall_singleton. cbn. lia.
      * rewrite (appendedPages_length _ _ _ A) in C'. exact C'.
    + by apply Forall_cons.
Qed.

Lemma drawFutureMonths_appended env fns ctx page startDate startMonth contentTop h doc0 k :
  nextRef doc0 ≤ page →
  ∀ (n i : nat) (doc : PDFDocument),
    appendedPages doc0 doc k →
    ∃ doc',
      drawFutureMonths env fns ctx page startDate startMonth contentTop h n i doc
        = Some (tt, doc')
      ∧ appendedPages doc0 doc' k.
Proof.
  intros Hpage. induction n as [|n IH]; intros i doc A.
  - by exists doc.
  - cbn [drawFutureMonths]. appended_step A. by apply IH.
Qed.

Lemma futureLogLoop_pages env fns ctx startDate months monthsPerPage :
  ∀ n pageNum,
    generatesPages (λ r, type r = future)
      (futureLogLoop env fns ctx startDate months monthsPerPage n pageNum).
Proof.
  induction n as [|n IH]; intros pageNum.
  - apply generatesPages_ret.
  - cbn [futureLogLoop]. intros pageRefs doc.
    pose proof (appendedPages_refl doc) as A.
    appended_addPage A Hidx. do 2 appended_step A.
    match goal with
    | |- context [drawFutureMonths ?e ?f ?c ?p ?sd ?sm ?ct ?h ?k ?i] =>
        destruct (drawFutureMonths_appended e f c p sd sm ct h doc 1 ltac:(lia) k i _ A)
          as (doc3 & E3 & A3)
    end.
    rewrite (bind_Some _ _ _ _ _ E3).
    match goal with
    | |- context [futureLogLoop _ _ _ _ _ _ n (S pageNum) (pageRefs ++ [?r]) ?d] =>
        destruct (IH (S pageNum) (pageRefs ++ [r]) d)
          as (refs & doc' & m & E' & A' & C' & P');
        exists (r :: refs), doc', (1 + m)
    end.
    rewrite E'. split; [by rewrite <- app_assoc|].
    split; [by eapply appendedPages_trans|]. split.
    + match goal with
      | |- refsCover _ _ (?r :: _) => apply (refsCover_app _ 1 m [r] refs)
      end.
      * apply refsCover_one; [done|]. apply Forall_singleton. cbn. lia.
      * rewrite (appendedPages_length _ _ _ A3) in C'. exact C'.
    + by apply Forall_cons.
Qed.

(** With one of the three densities, a page that leaves 72 points between
    its top and bottom padding has room for a calendar row. *)
Lemma monthlyLayout_room font (d : Dimensions) level nav N :
  (JS.ofZ 72 ≤ HEIGHT d - top (padding d) - bottom (padding d))%Qc →
  let lay := monthlyLayout (mkCtx font d (DENSITY_CONFIGS level) nav) N in
  (0 < minLineHeight lay)%Qc ∧ (1 ≤ daysPerPage lay)%Z.
Proof.
  intros Hroom. unfold monthlyLayout.
  cbn [minLineHeight daysPerPage density dims].
  assert (∃ z, JS.Math_round (lineHeight (DENSITY_CONFIGS level) * Q2Qc (7 # 10))%Qc = z
               ∧ (0 < z ≤ 17)%Z) as (z & -> & Hz).
  { destruct level; eexists; (split; [by vm_compute|lia]). }
  assert (0 < JS.ofZ z)%Qc as Hpos.
  { rewrite <- Z2Qc_inj_0. apply ofZ_lt. lia. }
  split; [exact Hpos|].
  apply floor_ge, le_div; [exact Hpos|].
  assert (JS.ofZ z ≤ JS.ofZ 17)%Qc as Hz17 by (apply ofZ_le; lia).
  revert Hroom Hz17.
  generalize (HEIGHT d - top (padding d) - bottom (padding d))%Qc.
  generalize (JS.ofZ z). intros m h Hroom Hz17.
  qc_to_q. unfold inject_Z in *. lra.
Qed.

(** A generator of several pages that returns their references. *)
Lemma generatesPages_list P (g : M (list PageRef)) :
  (∀ doc, ∃ refs doc' n,
     g doc = Some (refs, doc') ∧ appendedPages doc doc' n
     ∧ refsCover (length (pageTree doc)) n refs ∧ Forall P refs) →
  generatesPages P (λ pageRefs, let* refs := g in ret (pageRefs ++ refs)).
Proof.
  intros Hg pageRefs doc. destruct (Hg doc) as (refs & doc' & n & E & A & C & HP).
  exists refs, doc', n. rewrite (bind_Some _ _ _ _ _ E).
  split; [reflexivity|]. split; [exact A|]. split; [exact C|exact HP].
Qed.

Lemma generateFutureLog_pages env fns ctx startDate months doc :
  ∃ refs doc' n,
    generateFutureLog env fns ctx startDate months doc = Some (refs, doc')
    ∧ appendedPages doc doc' n
    ∧ refsCover (length (pageTree doc)) n refs
    ∧ Forall (λ r, type r = future) refs.
Proof.
  unfold generateFutureLog.
  match goal with
  | |- context [futureLogLoop ?e ?f ?c ?sd ?m ?mpp ?n 0 []] =>
      destruct (futureLogLoop_pages e f c sd m mpp n 0 [] doc)
        as (refs & doc' & k & E & H)
  end.
  exists refs, doc', k. split; [exact E|exact H].
Qed.

Lemma generateCollectionPages_pages ctx count doc :
  ∃ refs doc' n,
    generateCollectionPages ctx count doc = Some (refs, doc')
    ∧ appendedPages doc doc' n
    ∧ refsCover (length (pageTree doc)) n refs
    ∧ Forall (λ r, type r = collection) refs.
Proof.
  unfold generateCollectionPages.
  destruct (collectionPagesLoop_pages ctx count 0 [] doc) as (refs & doc' & k & E & H).
  exists refs, doc', k. split; [exact E|exact H].
Qed.

(** [generateBujoPages] with a configuration of the journal: the pages
    it appends and the references it returns. *)
Lemma generateBujoPages_generates env fns config font dims bc :
  bujoConfig config = Some bc →
  (∀ d, getDay env d < 7) →
  (includeMonthlyLog bc = true →
   (JS.ofZ 72 ≤ HEIGHT dims - top (padding dims) - bottom (padding dims))%Qc
   ∧ is_Some (eachMonthOfInterval fns (startDate config) (endDate config))) →
  (includeWeeklyReview bc = true →
   is_Some (eachWeekOfInterval fns (startDate config) (endDate config))) →
  (includeDailyLog bc = true →
   is_Some (eachDayOfInterval fns (startDate config) (endDate config))) →
  ∀ doc, ∃ refs doc' n,
    generateBujoPages env fns config font dims doc = Some (refs, doc')
    ∧ appendedPages doc doc' n
    ∧ refsCover (length (pageTree doc)) n refs
    ∧ Forall (λ r, sectionIncluded bc (type r)) refs.
Proof.
  intros Hbc Hday Hmonthly Hweekly Hdaily doc.
  unfold generateBujoPages. rewrite Hbc.
  set (ctx := mkCtx font dims (DENSITY_CONFIGS (bujoDensity bc))
                (mkNavContext (includeFutureLog bc) (includeMonthlyLog bc)
                              (includeWeeklyReview bc) (includeDailyLog bc))).
  set (P := λ r : PageRef, sectionIncluded bc (type r)).
  assert (generatesPages P
            (λ pageRefs,
               if showBulletKey bc then
                 let* keyRef := generateKeyPage ctx in ret (pageRefs ++ [keyRef])
               else ret pageRefs)) as S1.
  { destruct (showBulletKey bc) eqn:Hflag; [|apply generatesPages_ret].
    apply (generatesPages_one P (generateKeyPage ctx) (λ pageRefs, ret pageRefs));
      [|apply generatesPages_ret].
    intros d. destruct (generateKeyPage_pages ctx d) as (ref & doc' & E & A & Hidx & Ht).
    exists ref, doc'. split; [exact E|]. split; [exact A|]. split; [exact Hidx|].
    unfold P. rewrite Ht. exact Hflag. }
  assert (generatesPages P
            (λ pageRefs,
               if includeFutureLog bc then
                 let* futureRefs :=
                   generateFutureLog env fns ctx (startDate config) (futureLogMonths bc) in
                 ret (pageRefs ++ futureRefs)
               else ret pageRefs)) as S2.
  { destruct (includeFutureLog bc) eqn:Hflag; [|apply generatesPages_ret].
    apply generatesPages_list. intros d.
    destruct (generateFutureLog_pages env fns ctx (startDate config)
                (futureLogMonths bc) d) as (refs & doc' & n & E & A & C & HP).
    exists refs, doc', n. split; [exact E|]. split; [exact A|]. split; [exact C|].
    eapply Forall_impl; [exact HP|]. intros r Hr. unfold P. rewrite Hr. exact Hflag. }
  assert (generatesPages P
            (λ pageRefs,
               if includeMonthlyLog bc then
                 let* months :=
                   orThrow (eachMonthOfInterval fns (startDate config) (endDate config)) in
                 monthlyLogs env ctx months pageRefs
               else ret pageRefs)) as S3.
  { destruct (includeMonthlyLog bc) eqn:Hflag; [|apply generatesPages_ret].
    destruct (Hmonthly eq_refl) as [Hroom [months Hmonths]]. rewrite Hmonths.
    eapply generatesPages_weaken;
      [|apply (monthlyLogs_pages env ctx months Hday)].
    - intros r Hr. unfold P. destruct Hr as [-> | ->]; exact Hflag.
    - intros N. by apply monthlyLayout_room. }
  assert (generatesPages P
            (λ pageRefs,
               if includeWeeklyReview bc then
                 let* weeks :=
                   orThrow (eachWeekOfInterval fns (startDate config) (endDate config)) in
                 weeklyReviews env fns ctx weeks pageRefs
               else ret pageRefs)) as S4.
  { destruct (includeWeeklyReview bc) eqn:Hflag; [|apply generatesPages_ret].
    destruct (Hweekly eq_refl) as [weeks Hweeks]. rewrite Hweeks.
    eapply generatesPages_weaken; [|apply (weeklyReviews_pages env fns ctx weeks)].
    intros r Hr. unfold P. rewrite Hr. exact Hflag. }
  assert (generatesPages P
            (λ pageRefs,
               if includeDailyLog bc then
                 let* days :=
                   orThrow (eachDayOfInterval fns (startDate config) (endDate config)) in
                 dailyLogs env fns ctx (includeWeekends config) days pageRefs
               else ret pageRefs)) as S5.
  { destruct (includeDailyLog bc) eqn:Hflag; [|apply generatesPages_ret].
    destruct (Hdaily eq_refl) as [days Hdays]. rewrite Hdays.
    eapply generatesPages_weaken;
      [|apply (dailyLogs_pages env fns ctx (includeWeekends config) days)].
    intros r Hr. unfold P. rewrite Hr. exact Hflag. }
  assert (generatesPages P
            (λ pageRefs,
               if bool_decide (0 < includeCollectionPages bc) then
                 let* collectionRefs :=
                   generateCollectionPages ctx (includeCollectionPages bc) in
                 ret (pageRefs ++ collectionRefs)
               else ret pageRefs)) as S6.
  { destruct (decide (0 < includeCollectionPages bc)) as [Hflag|Hflag].
    - rewrite bool_decide_eq_true_2 by done.
      apply generatesPages_list. intros d.
      destruct (generateCollectionPages_pages ctx (includeCollectionPages bc) d)
        as (refs & doc' & n & E & A & C & HP).
      exists refs, doc', n. split; [exact E|]. split; [exact A|]. split; [exact C|].
      eapply Forall_impl; [exact HP|]. intros r Hr. unfold P. rewrite Hr. exact Hflag.
    - rewrite bool_decide_eq_false_2 by done. apply generatesPages_ret. }
  pose proof (generatesPages_bind P _ _ S1
               (generatesPages_bind P _ _ S2
                  (generatesPages_bind P _ _ S3
                     (generatesPages_bind P _ _ S4
                        (generatesPages_bind P _ _ S5
                           (generatesPages_bind P _ _ S6
                              (generatesPages_ret P))))))) as Hall.
  destruct (Hall [] doc) as (refs & doc' & n & E & H).
  exists refs, doc', n. split; [exact E|exact H].
Qed.

(** X10. [generateBujoPages] returns whenever [getDay] is a day of the
    week, the interval calls of the sections that are switched on
    return, and, for the monthly log, the page leaves 72 points between
    its top and bottom padding.  It only appends pages: the pages there
    were keep their text and all annotations stay.  The references it
    returns lead to the appended pages, to every one of them and in
    their order, and each is of a section that is switched on; without
    a journal configuration nothing is generated. *)
Theorem generateBujoPages_pages :
  ∀ (env : DateEnv) (fns : DateFns) (config : PlannerConfig) (font : PDFFont)
    (dims : Dimensions) (doc : PDFDocument),
    (∀ d, getDay env d < 7) →
    (∀ bc, bujoConfig config = Some bc →
       (includeMonthlyLog bc = true →
        (JS.ofZ 72 ≤ HEIGHT dims - top (padding dims) - bottom (padding dims))%Qc
        ∧ is_Some (eachMonthOfInterval fns (startDate config) (endDate config)))
       ∧ (includeWeeklyReview bc = true →
          is_Some (eachWeekOfInterval fns (startDate config) (endDate config)))
       ∧ (includeDailyLog bc = true →
          is_Some (eachDayOfInterval fns (startDate config) (endDate config)))) →
    ∃ refs doc' n,
      generateBujoPages env fns config font dims doc = Some (refs, doc')
      ∧ appendedPages doc doc' n
      ∧ refsCover (length (pageTree doc)) n refs
      ∧ match bujoConfig config with
        | Some bc => Forall (λ r, sectionIncluded bc (type r)) refs
        | None => refs = [] ∧ doc' = doc
        end.
Proof.
  intros env fns config font dims doc Hday Hok.
  destruct (bujoConfig config) as [bc|] eqn:Hbc.
  - destruct (Hok bc eq_refl) as (Hmonthly & Hweekly & Hdaily).
    destruct (generateBujoPages_generates env fns config font dims bc Hbc Hday
                Hmonthly Hweekly Hdaily doc) as (refs & doc' & n & E & A & C & HP).
    exists refs, doc', n. split; [exact E|]. split; [exact A|]. split; [exact C|exact HP].
  - exists [], doc, 0. unfold generateBujoPages. rewrite Hbc.
    split; [reflexivity|]. split; [apply appendedPages_refl|].
    split; [apply refsCover_nil|]. split; reflexivity.
Qed.

Lemma sampleEnv_getDay d : getDay sampleEnv d < 7.
Proof. unfold sampleEnv, getDay, sampleDayOfWeek. apply Nat.mod_upper_bound. lia. Qed.

Lemma generateBujoPages_pages_witness :
  ∃ refs doc',
    generateBujoPages sampleEnv sampleFns sampleBujoPlanner sampleFont
      (getDeviceDimensions move defaultPadding) coverOnly = Some (refs, doc')
    ∧ type <$> refs
      = [key; future; future; monthly; monthly; monthly_tasks; monthly; monthly;
         monthly_tasks; weekly; weekly; daily; daily; collection; collection]
    ∧ appendedPages coverOnly doc' 15
    ∧ refsCover 1 15 refs
    ∧ Forall (λ r, sectionIncluded sampleBujoConfig (type r)) refs.
Proof.
  destruct (generateBujoPages_pages sampleEnv sampleFns sampleBujoPlanner sampleFont
              (getDeviceDimensions move defaultPadding) coverOnly)
    as (refs & doc' & n & E & A & C & HP).
  - exact sampleEnv_getDay.
  - intros bc Hbc. injection Hbc as <-.
    split; [intros _; split; [by vm_compute|eexists; reflexivity]|].
    split; intros _; eexists; reflexivity.
  - assert ((λ r : list PageRef * PDFDocument,
               (type <$> r.1, length (pageTree r.2))) <$>
              generateBujoPages sampleEnv sampleFns sampleBujoPlanner sampleFont
                (getDeviceDimensions move defaultPadding) coverOnly
            = Some ([key; future; future; monthly; monthly; monthly_tasks; monthly;
                     monthly; monthly_tasks; weekly; weekly; daily; daily; collection;
                     collection], 16)) as Hrun by (by vm_compute).
    rewrite E in Hrun. cbn [fmap option_fmap option_map fst snd] in Hrun.
    injection Hrun as Htypes Hlen.
    rewrite (appendedPages_length _ _ _ A) in Hlen. cbn in Hlen.
    assert (n = 15) as -> by lia.
    exists refs, doc'. split; [exact E|]. split; [exact Htypes|].
    split; [exact A|]. split; [exact C|exact HP].
Defined.

(** ** The future log *)

Lemma futureMonthsPerPage_range ctx : (2 ≤ futureMonthsPerPage ctx ≤ 4)%Z.
Proof. unfold futureMonthsPerPage. lia. Qed.

(** The pages of [n] items dealt out [d] to a page: page [j] is needed
    exactly when the pages before it leave items over. *)
Lemma ceil_div_needed (n d j : nat) :
  0 < d →
  j < Z.to_nat (JS.Math_ceil (JS.ofNat n / JS.ofNat d)%Qc) ↔ j * d < n.
Proof.
  intros Hd.
  assert (0 < JS.ofNat d)%Qc as Hq by (by apply ofNat_pos).
  set (x := (JS.ofNat n / JS.ofNat d)%Qc).
  split.
  - intros Hj.
    pose proof (ceil_pred_lt x) as Hlt.
    assert (Z.of_nat j ≤ JS.Math_ceil x - 1)%Z as Hle by lia.
    assert (JS.ofNat j < x)%Qc as Hjx.
    { eapply Qcle_lt_trans; [|exact Hlt]. by apply ofZ_le. }
    apply (Qcmult_lt_mono_pos_r _ _ (JS.ofNat d) Hq) in Hjx.
    subst x. rewrite div_mul_cancel in Hjx by done.
    rewrite <- ofNat_mul in Hjx. apply ofZ_lt_inv in Hjx. lia.
  - intros Hj.
    assert (JS.ofZ (Z.of_nat j) < x)%Qc as Hjx.
    { subst x. apply lt_div; [done|].
      change (JS.ofZ (Z.of_nat j)) with (JS.ofNat j).
      rewrite <- ofNat_mul. apply ofZ_lt. lia. }
    apply ceil_gt in Hjx. lia.
Qed.

(** Dealing out [n] items [d] to a page over [k] pages reaches every
    item once, in order. *)
Lemma dealt_out_seq (n d : nat) :
  ∀ k, concat ((λ j, (λ i, j * d + i) <$> seq 0 (monthsOnPage d n j)) <$> seq 0 k)
       = seq 0 (n `min` (k * d)).
Proof.
  induction k as [|k IH]; [by rewrite Nat.min_0_r|].
  rewrite seq_S, fmap_app, concat_app, IH. cbn [fmap list_fmap concat].
  rewrite app_nil_r, Nat.add_0_l.
  replace ((λ i, k * d + i) <$> seq 0 (monthsOnPage d n k))
    with (seq (n `min` (k * d)) (monthsOnPage d n k)).
  - rewrite <- seq_app. f_equal. unfold monthsOnPage. lia.
  - unfold monthsOnPage. destruct (decide (k * d ≤ n)) as [Hle|Hgt].
    + replace (n `min` (k * d)) with (k * d) by lia.
      change (λ i, k * d + i) with (Nat.add (k * d)).
      by rewrite fmap_add_seq, Nat.add_0_r.
    + by replace (d `min` (n - k * d)) with 0 by lia.
Qed.

Lemma drawFutureMonths_drawn env fns ctx page startDate startMonth contentTop h :
  ∀ (n i : nat) (doc : PDFDocument),
    ∃ doc',
      drawFutureMonths env fns ctx page startDate startMonth contentTop h n i doc
        = Some (tt, doc')
      ∧ drawn doc doc' 0
          (onPage page (futureMonthRun env fns ctx startDate startMonth contentTop h
                        <$> seq i n)).
Proof.
  induction n as [|n IH]; intros i doc.
  - exists doc. split; [done|].
    eapply drawn_ext; [done| |apply drawn_refl].
    intros q. unfold onPage. by case_decide.
  - cbn [drawFutureMonths].
    match goal with
    | |- context [drawText ?p ?run] =>
        destruct (drawText_drawn p run doc) as (doc1 & E1 & D1)
    end.
    rewrite (bind_Some _ _ _ _ _ E1).
    destruct (IH (S i) doc1) as (doc' & E' & D').
    exists doc'. split; [exact E'|].
    eapply drawn_ext; [| |exact (drawn_trans _ _ _ _ _ _ _ D1 D')]; [done|].
    intros q. cbv beta. by rewrite onPage_app.
Qed.

(** The [for] loop from page [j] on, when every page it makes still has
    months to show. *)
Lemma futureLogLoop_drawn env fns ctx startDate months :
  let mpp := Z.to_nat (futureMonthsPerPage ctx) in
  ∀ (m j : nat) (pageRefs : list PageRef) (doc : PDFDocument),
    (∀ i, i < m → (j + i) * mpp < months) →
    ∃ doc',
      futureLogLoop env fns ctx startDate months (futureMonthsPerPage ctx) m j pageRefs doc
        = Some (pageRefs
                ++ ((λ i, futurePageRef (j + i) (length (pageTree doc) + i)) <$> seq 0 m),
                doc')
      ∧ drawn doc doc' m
          (λ q, concat ((λ i, onPage (nextRef doc + i)
                                (futurePageRuns env fns ctx startDate months (j + i)) q)
                        <$> seq 0 m)).
Proof.
  intros mpp. pose proof (futureMonthsPerPage_range ctx) as Hrange.
  induction m as [|m IH]; intros j pageRefs doc Hneeded.
  - exists doc. split; [by rewrite app_nil_r|apply drawn_refl].
  - pose proof (Hneeded 0 ltac:(lia)) as Hj. rewrite Nat.add_0_r in Hj.
    cbn [futureLogLoop]. fold (futurePageTitle j).
    destruct (addPage_drawn doc) as (doc1 & E1 & D1).
    rewrite (bind_Some _ _ _ _ _ E1).
    rewrite (bind_Some _ _ _ _ _ (getPageCount_eq doc1)).
    destruct (drawTopNavigation_drawn (nextRef doc) (font ctx) (dims ctx)
                (getNavLabels future (nav ctx)) doc1) as (doc2 & E2 & D2).
    rewrite (bind_Some _ _ _ _ _ E2).
    destruct (drawPageTitle_drawn (nextRef doc) (futurePageTitle j)
                (dims ctx) (navY_of (dims ctx) - JS.ofZ 7 - JS.ofZ 6)%Qc (JS.ofZ 11) doc2)
      as (doc3 & E3 & D3).
    rewrite (bind_Some _ _ _ _ _ E3).
    change (navY_of (dims ctx) - JS.ofZ 7 - JS.ofZ 6 - JS.ofZ 11 - JS.ofZ 8)%Qc
      with (contentTop_of (dims ctx)).
    set (n := monthsOnPage mpp months j).
    assert (0 < n) as Hn by (unfold n, monthsOnPage, mpp; lia).
    assert (Z.min (futureMonthsPerPage ctx)
                  (Z.of_nat months - Z.of_nat j * futureMonthsPerPage ctx)
            = Z.of_nat n) as ->.
    { unfold n, monthsOnPage, mpp. lia. }
    rewrite Nat2Z.id.
    replace (Z.to_nat (Z.of_nat j * futureMonthsPerPage ctx)) with (j * mpp)
      by (unfold mpp; lia).
    change (JS.ofZ (Z.of_nat n)) with (JS.ofNat n).
    destruct (drawFutureMonths_drawn env fns ctx (nextRef doc) startDate (j * mpp)
                (contentTop_of (dims ctx))
                ((contentTop_of (dims ctx) - bottom (padding (dims ctx))) / JS.ofNat n)%Qc
                n 0 doc3) as (doc4 & E4 & D4).
    rewrite (bind_Some _ _ _ _ _ E4).
    fold (futurePageRef j (length (pageTree doc1) - 1)).
    destruct (IH (S j) (pageRefs ++ [futurePageRef j (length (pageTree doc1) - 1)]) doc4)
      as (doc' & E' & D').
    { intros i Hi. specialize (Hneeded (S i) ltac:(lia)).
      by replace (S j + i) with (j + S i) by lia. }
    exists doc'.
    pose proof (drawn_trans _ _ _ _ _ _ _ D1
                  (drawn_trans _ _ _ _ _ _ _ D2
                     (drawn_trans _ _ _ _ _ _ _ D3 D4))) as D14.
    assert (length (pageTree doc1) - 1 = length (pageTree doc)) as Hidx.
    { destruct D1 as (-> & _). rewrite length_app. simpl. lia. }
    assert (length (pageTree doc4) = S (length (pageTree doc))) as Hlen4.
    { destruct D14 as (-> & _). rewrite length_app. simpl. lia. }
    assert (nextRef doc4 = S (nextRef doc)) as Hnext4.
    { destruct D14 as (_ & _ & -> & _). lia. }
    split.
    + rewrite E'. f_equal. f_equal. rewrite <- app_assoc. f_equal.
      cbn [seq fmap list_fmap app]. rewrite Hidx, !Nat.add_0_r. f_equal.
      rewrite <- fmap_S_seq, <- list_fmap_compose. apply list_fmap_ext.
      intros _ i _. cbn [compose]. rewrite Hlen4. f_equal; lia.
    + eapply drawn_ext; [| |exact (drawn_trans _ _ _ _ _ _ _ D14 D')]; [lia|].
      intros q. cbv beta. cbn [seq fmap list_fmap concat app].
      rewrite !onPage_app, !Nat.add_0_r. unfold futurePageRuns at 2, pageHeaderRuns.
      fold mpp. fold n. rewrite <- !app_assoc. f_equal.
      rewrite <- fmap_S_seq, <- list_fmap_compose. f_equal. apply list_fmap_ext.
      intros _ i _. cbn [compose]. rewrite Hnext4. f_equal; [lia|f_equal; lia].
Qed.

(** X11. The future log shows every month once: with between two and
    four months to a page, page [j] is made exactly when the pages
    before it leave months over, it holds the navigation row, its title
    and the headers of its months at equal distances, and over all
    pages the months [0 .. months - 1] appear once each and in order.
    The references are one to a page, in the order of the pages.  The
    rounded minimal month height is taken to be positive, as it is for
    the three densities. *)
Theorem generateFutureLog_months :
  ∀ (env : DateEnv) (fns : DateFns) (ctx : BujoGeneratorContext) (startDate : JSDate)
    (months : nat) (doc : PDFDocument),
    let monthsPerPage := Z.to_nat (futureMonthsPerPage ctx) in
    (0 < JS.Math_round (JS.ofZ 70 * spacing (density ctx))%Qc)%Z →
    ∃ numPages doc',
      generateFutureLog env fns ctx startDate months doc
        = Some ((λ j, futurePageRef j (length (pageTree doc) + j)) <$> seq 0 numPages,
                doc')
      ∧ 2 ≤ monthsPerPage ≤ 4
      ∧ (∀ j, j < numPages ↔ j * monthsPerPage < months)
      ∧ drawn doc doc' numPages
          (λ q, concat ((λ j, onPage (nextRef doc + j)
                                (futurePageRuns env fns ctx startDate months j) q)
                        <$> seq 0 numPages))
      ∧ concat ((λ j, (λ i, j * monthsPerPage + i)
                      <$> seq 0 (monthsOnPage monthsPerPage months j))
                <$> seq 0 numPages)
        = seq 0 months.
Proof.
  intros env fns ctx startDate months doc mpp _.
  pose proof (futureMonthsPerPage_range ctx) as Hrange.
  assert (0 < mpp) as Hmpp by (unfold mpp; lia).
  unfold generateFutureLog.
  assert (JS.ofZ (futureMonthsPerPage ctx) = JS.ofNat mpp) as ->.
  { unfold JS.ofNat, mpp. by rewrite Z2Nat.id by lia. }
  set (k := Z.to_nat (JS.Math_ceil (JS.ofNat months / JS.ofNat mpp)%Qc)).
  assert (∀ j, j < k ↔ j * mpp < months) as Hneeded.
  { intros j. by apply ceil_div_needed. }
  destruct (futureLogLoop_drawn env fns ctx startDate months k 0 [] doc)
    as (doc' & E & D).
  { intros i Hi. by apply Hneeded. }
  exists k, doc'. split; [exact E|]. split; [unfold mpp; lia|].
  split; [exact Hneeded|]. split; [exact D|].
  rewrite dealt_out_seq. f_equal.
  assert (¬ k * mpp < months) as Hk by (rewrite <- Hneeded; lia). lia.
Qed.

Lemma generateFutureLog_months_witness :
  ∃ doc',
    generateFutureLog sampleEnv sampleFns ctxMoveNormal january2025 6 coverOnly
      = Some ([futurePageRef 0 1; futurePageRef 1 2], doc')
    ∧ pageTree doc' = [0; 1; 2]
    ∧ text <$> textsOf doc' 2
      = ["Index"; "Future Log (2)"; "May 2025"; "June 2025"].
Proof.
  destruct (generateFutureLog_months sampleEnv sampleFns ctxMoveNormal january2025 6
              coverOnly) as (k & doc' & E & _ & Hneeded & D & _).
  - by vm_compute.
  - assert (Z.to_nat (futureMonthsPerPage ctxMoveNormal) = 4) as Hmpp by (by vm_compute).
    rewrite Hmpp in Hneeded.
    assert (k = 2) as ->.
    { pose proof (proj2 (Hneeded 1) ltac:(lia)).
      destruct (decide (2 < k)) as [Hlt|]; [|lia].
      pose proof (proj1 (Hneeded 2) Hlt). lia. }
    exists doc'. split; [exact E|].
    destruct D as (Hpt & _ & _ & Htx). split; [exact Hpt|].
    rewrite Htx. by vm_compute.
Defined.

(** ** Steps that draw on one page *)

Lemma writesOn_ret page (Q : list TextRun → Prop) : Q [] → writesOn page (ret tt) Q.
Proof.
  intros HQ doc. exists doc, []. split; [done|]. split; [|done].
  eapply drawn_ext; [done| |apply drawn_refl].
  intros q. unfold onPage. by case_decide.
Qed.

Lemma writesOn_drawText page run (Q : list TextRun → Prop) :
  Q [run] → writesOn page (drawText page run) Q.
Proof.
  intros HQ doc. destruct (drawText_drawn page run doc) as (doc' & E & D).
  exists doc', [run]. split; [exact E|]. split; [exact D|exact HQ].
Qed.

Lemma writesOn_drawText_eq page run :
  writesOn page (drawText page run) (λ runs, runs = [run]).
Proof. by apply writesOn_drawText. Qed.

Lemma writesOn_bind page (m1 m2 : M unit) (Q1 Q2 Q : list TextRun → Prop) :
  writesOn page m1 Q1 → writesOn page m2 Q2 →
  (∀ runs1 runs2, Q1 runs1 → Q2 runs2 → Q (runs1 ++ runs2)) →
  writesOn page (m1 ;; m2) Q.
Proof.
  intros H1 H2 HQ doc.
  destruct (H1 doc) as (doc1 & runs1 & E1 & D1 & Q1').
  destruct (H2 doc1) as (doc2 & runs2 & E2 & D2 & Q2').
  exists doc2, (runs1 ++ runs2). rewrite (bind_Some _ _ _ _ _ E1).
  split; [exact E2|]. split; [|by apply HQ].
  eapply drawn_ext; [| |exact (drawn_trans _ _ _ _ _ _ _ D1 D2)]; [done|].
  intros q. cbv beta. by rewrite onPage_app.
Qed.

Lemma writesOn_bind_eq page (m1 m2 : M unit) (runs1 runs2 : list TextRun) :
  writesOn page m1 (λ runs, runs = runs1) → writesOn page m2 (λ runs, runs = runs2) →
  writesOn page (m1 ;; m2) (λ runs, runs = runs1 ++ runs2).
Proof.
  intros H1 H2. eapply writesOn_bind; [exact H1|exact H2|].
  by intros ? ? -> ->.
Qed.

Lemma writesOn_weaken page m (Q Q' : list TextRun → Prop) :
  (∀ runs, Q runs → Q' runs) → writesOn page m Q → writesOn page m Q'.
Proof.
  intros HQ H doc. destruct (H doc) as (doc' & runs & E & D & HQ').
  exists doc', runs. split; [exact E|]. split; [exact D|by apply HQ].
Qed.

(** A page that ends with its page number if page numbers are asked
    for. *)
Lemma writesOn_numbered page m config dims pageIndex :
  writesOn page m (λ _, True) →
  writesOn page (m ;; drawPageNumber config dims page pageIndex)
    (λ runs, pageNumbers config = true → last runs = Some (pageNumberRun dims pageIndex)).
Proof.
  intros Hm.
  eapply (writesOn_bind page m _ (λ _, True)
            (λ runs, if pageNumbers config then runs = [pageNumberRun dims pageIndex]
                     else runs = [])); [exact Hm| |].
  - unfold drawPageNumber. destruct (pageNumbers config).
    + by apply writesOn_drawText.
    + by apply writesOn_ret.
  - intros runs1 runs2 _ H2 Hflag. rewrite Hflag in H2. subst runs2.
    by rewrite last_snoc.
Qed.

(** ** The loop of the standard planners *)

Lemma pagesLoop_drawn {A} (entryLabelOf : A → string) (body : A → nat → nat → M unit)
    (Q : A → nat → list TextRun → Prop) :
  (∀ item page pageIndex, writesOn page (body item page pageIndex) (Q item pageIndex)) →
  ∀ (items : list A) (pageRefs : list TocEntry) (doc : PDFDocument),
    ∃ doc' (content : nat → list TextRun),
      pagesLoop entryLabelOf body items pageRefs doc
        = Some (pageRefs
                ++ imap (λ j item, mkTocEntry (entryLabelOf item)
                                              (length (pageTree doc) + j)) items,
                doc')
      ∧ drawn doc doc' (length items)
          (λ q, concat ((λ j, onPage (nextRef doc + j) (content j) q)
                        <$> seq 0 (length items)))
      ∧ ∀ j item, items !! j = Some item →
          Q item (length (pageTree doc) + j) (content j).
Proof.
  intros Hbody. induction items as [|item rest IH]; intros pageRefs doc.
  - exists doc, (λ _, []). split; [by rewrite app_nil_r|].
    split; [apply drawn_refl|]. intros j it Hj. by rewrite lookup_nil in Hj.
  - cbn [pagesLoop].
    destruct (addPage_drawn doc) as (doc1 & E1 & D1).
    rewrite (bind_Some _ _ _ _ _ E1).
    rewrite (bind_Some _ _ _ _ _ (getPageCount_eq doc1)).
    assert (length (pageTree doc1) - 1 = length (pageTree doc)) as Hidx.
    { destruct D1 as (-> & _). rewrite length_app. simpl. lia. }
    rewrite Hidx.
    destruct (Hbody item (nextRef doc) (length (pageTree doc)) doc1)
      as (doc2 & runs & E2 & D2 & HQ).
    rewrite (bind_Some _ _ _ _ _ E2).
    pose proof (drawn_trans _ _ _ _ _ _ _ D1 D2) as D12.
    assert (length (pageTree doc2) = S (length (pageTree doc))) as Hlen2.
    { destruct D12 as (-> & _). rewrite length_app. simpl. lia. }
    assert (nextRef doc2 = S (nextRef doc)) as Hnext2.
    { destruct D12 as (_ & _ & -> & _). lia. }
    destruct (IH (pageRefs ++ [mkTocEntry (entryLabelOf item) (length (pageTree doc))])
                doc2) as (doc' & content & E' & D' & HQ').
    exists doc', (λ j, match j with O => runs | S j' => content j' end).
    split; [|split].
    + rewrite E'. f_equal. f_equal. rewrite <- app_assoc. f_equal.
      rewrite imap_cons, Nat.add_0_r. cbn [app]. f_equal.
      apply imap_ext. intros j it _. cbn [compose]. rewrite Hlen2. f_equal. lia.
    + eapply drawn_ext; [| |exact (drawn_trans _ _ _ _ _ _ _ D12 D')];
        [cbn [length]; lia|].
      intros q. cbv beta. cbn [length seq fmap list_fmap concat app].
      rewrite Nat.add_0_r. f_equal.
      rewrite <- fmap_S_seq, <- list_fmap_compose. f_equal. apply list_fmap_ext.
      intros _ i _. cbn [compose]. rewrite Hnext2. f_equal. lia.
    + intros [|j] it Hj.
      * injection Hj as <-. by rewrite Nat.add_0_r.
      * cbn in Hj. specialize (HQ' j it Hj). rewrite Hlen2 in HQ'.
        by replace (length (pageTree doc) + S j) with (S (length (pageTree doc)) + j)
          by lia.
Qed.

(** The three loops are the shared loop with their content. *)
Lemma pagesLoop_step {A} (entryLabelOf : A → string) (body : A → nat → nat → M unit)
    (item : A) (rest : list A) (k : list TocEntry → M (list TocEntry))
    (pageRefs : list TocEntry) (doc : PDFDocument) :
  (∀ refs d, k refs d = pagesLoop entryLabelOf body rest refs d) →
  (let* page := addPage in
   let* count := getPageCount in
   let pageIndex := count - 1 in
   let pageRefs := pageRefs ++ [mkTocEntry (entryLabelOf item) pageIndex] in
   body item page pageIndex ;; k pageRefs) doc
  = pagesLoop entryLabelOf body (item :: rest) pageRefs doc.
Proof.
  intros Hk. cbn [pagesLoop]. unfold bind at 1 2 4 5. cbn [addPage getPageCount].
  unfold bind. destruct (body item _ _ _) as [[[] d]|]; [apply Hk|done].
Qed.

Lemma dailyPagesLoop_pagesLoop env fns config dims :
  ∀ days pageRefs doc,
    dailyPagesLoop env fns config dims days pageRefs doc
    = pagesLoop (λ day, format env day "EEE, MMM d")
                (dailyPageBody env fns config dims)
                (List.filter (keepsDay env config) days) pageRefs doc.
Proof.
  induction days as [|day rest IH]; intros pageRefs doc; [done|].
  cbn [dailyPagesLoop List.filter]. unfold keepsDay at 1.
  destruct (negb (includeWeekends config)
            && (bool_decide (getDay env day = 0) || bool_decide (getDay env day = 6)));
    cbn [negb]; [apply IH|].
  rewrite <- (pagesLoop_step _ _ day _ (dailyPagesLoop env fns config dims rest)) by done.
  unfold dailyPageBody. unfold bind. cbn [addPage getPageCount].
  repeat match goal with
         | |- context [match ?m ?d with Some _ => _ | None => _ end] =>
             destruct (m d) as [[[] ?]|]; [|done]
         end.
  done.
Qed.

Lemma weeklyPagesLoop_pagesLoop env config dims :
  ∀ weeks pageRefs doc,
    weeklyPagesLoop env config dims weeks pageRefs doc
    = pagesLoop (λ weekStart, "Week of " +:+ format env weekStart "MMM d")
                (weeklyPageBody env config dims) weeks pageRefs doc.
Proof.
  induction weeks as [|weekStart rest IH]; intros pageRefs doc; [done|].
  cbn [weeklyPagesLoop].
  rewrite <- (pagesLoop_step _ _ weekStart _ (weeklyPagesLoop env config dims rest))
    by done.
  unfold weeklyPageBody. unfold bind. cbn [addPage getPageCount].
  repeat match goal with
         | |- context [match ?m ?d with Some _ => _ | None => _ end] =>
             destruct (m d) as [[[] ?]|]; [|done]
         end.
  done.
Qed.

Lemma monthlyPagesLoop_pagesLoop env config dims :
  ∀ months pageRefs doc,
    monthlyPagesLoop env config dims months pageRefs doc
    = pagesLoop (λ monthStart, format env monthStart "MMMM yyyy")
                (monthlyPageBody env config dims) months pageRefs doc.
Proof.
  induction months as [|monthStart rest IH]; intros pageRefs doc; [done|].
  cbn [monthlyPagesLoop].
  rewrite <- (pagesLoop_step _ _ monthStart _ (monthlyPagesLoop env config dims rest))
    by done.
  unfold monthlyPageBody. unfold bind. cbn [addPage getPageCount].
  repeat match goal with
         | |- context [match ?m ?d with Some _ => _ | None => _ end] =>
             destruct (m d) as [[[] ?]|]; [|done]
         end.
  done.
Qed.

(** ** What the loops of a page draw *)

Lemma drawTimeSlots_writes fns config dims page :
  ∀ n hour y, writesOn page (drawTimeSlots fns config dims page n hour y) (λ _, True).
Proof.
  induction n as [|n IH]; intros hour y; cbn [drawTimeSlots].
  - by apply writesOn_ret.
  - eapply writesOn_bind; [by apply (writesOn_drawText _ _ (λ _, True))|apply IH|done].
Qed.

Lemma drawDayColumns_writes dims page dayNames colWidth topY :
  ∀ n i, i + n ≤ length dayNames →
    writesOn page (drawDayColumns dims page dayNames colWidth topY n i) (λ _, True).
Proof.
  induction n as [|n IH]; intros i Hi; cbn [drawDayColumns].
  - by apply writesOn_ret.
  - destruct (lookup_lt_is_Some_2 dayNames i ltac:(lia)) as [name ->].
    eapply writesOn_bind;
      [by apply (writesOn_drawText _ _ (λ _, True))|apply IH; lia|done].
Qed.

Lemma drawDayNames_writes dims page dayNames colWidth topY :
  ∀ n i, i + n ≤ length dayNames →
    writesOn page (drawDayNames dims page dayNames colWidth topY n i) (λ _, True).
Proof.
  induction n as [|n IH]; intros i Hi; cbn [drawDayNames].
  - by apply writesOn_ret.
  - destruct (lookup_lt_is_Some_2 dayNames i ltac:(lia)) as [name ->].
    eapply writesOn_bind;
      [by apply (writesOn_drawText _ _ (λ _, True))|apply IH; lia|done].
Qed.

(** ** The grid of a monthly page *)

Lemma grid_cell_div (row col : nat) : col < 7 → (7 * row + col) / 7 = row.
Proof. intros Hcol. symmetry. apply (Nat.div_unique _ 7 row col); lia. Qed.

Lemma grid_cell_mod (row col : nat) : col < 7 → (7 * row + col) `mod` 7 = col.
Proof. intros Hcol. symmetry. apply (Nat.mod_unique _ 7 row col); lia. Qed.

Lemma omap_all_None {A B} (f : A → option B) (l : list A) :
  (∀ x, x ∈ l → f x = None) → omap f l = [].
Proof.
  induction l as [|x l IH]; intros Hall; [done|].
  cbn [omap list_omap]. rewrite (Hall x) by (by left). apply IH.
  intros y Hy. apply Hall. by right.
Qed.

Section Grid.

Context (dims : Dimensions) (page : nat) (colWidth rowHeight topY : Qc).
Context (firstDay daysInMonth : nat).
Hypothesis firstDay_range : firstDay < 7.

(** The day the loops have reached when they come to the cell [cell]. *)
Let dayAt (cell : nat) : nat := (cell - firstDay + 1) `min` (daysInMonth + 1).
Let cellRun := gridCellRun dims colWidth rowHeight topY firstDay daysInMonth.

Lemma drawGridCols_drawn (row : nat) :
  ∀ (n col : nat) (doc : PDFDocument),
    col + n ≤ 7 →
    ∃ doc',
      drawGridCols dims page colWidth
        (topY - JS.ofZ 60 - JS.ofNat row * rowHeight)%Qc firstDay daysInMonth row
        n col (dayAt (7 * row + col)) doc
      = Some (dayAt (7 * row + col + n), doc')
      ∧ drawn doc doc' 0 (onPage page (omap cellRun (seq (7 * row + col) n))).
Proof using firstDay_range.
  induction n as [|n IH]; intros col doc Hcol.
  - exists doc. rewrite Nat.add_0_r. split; [done|].
    eapply drawn_ext; [done| |apply drawn_refl].
    intros q. unfold onPage. by case_decide.
  - cbn [drawGridCols].
    assert ((bool_decide (row = 0) && bool_decide (firstDay ≤ col)) || bool_decide (0 < row)
            = bool_decide (firstDay ≤ 7 * row + col)) as ->.
    { destruct row as [|row].
      - rewrite bool_decide_eq_true_2 by done.
        rewrite (bool_decide_eq_false_2 (0 < 0)) by lia.
        rewrite orb_false_r, andb_true_l. apply bool_decide_ext. lia.
      - rewrite (bool_decide_eq_true_2 (0 < S row)) by lia.
        rewrite orb_true_r. symmetry. apply bool_decide_eq_true_2. lia. }
    assert (∃ doc1,
              (if bool_decide (firstDay ≤ 7 * row + col) then
                 if bool_decide (dayAt (7 * row + col) ≤ daysInMonth) then
                   drawText page
                     (mkText (JS.toString (dayAt (7 * row + col)))
                             (MARGIN dims + JS.ofNat col * colWidth + JS.ofZ 4)%Qc
                             (topY - JS.ofZ 60 - JS.ofNat row * rowHeight - JS.ofZ 14)%Qc
                             (JS.ofZ 10) Helvetica) ;;
                   ret (dayAt (7 * row + col) + 1)
                 else ret (dayAt (7 * row + col))
               else ret (dayAt (7 * row + col))) doc
              = Some (dayAt (7 * row + S col), doc1)
              ∧ drawn doc doc1 0
                  (onPage page (from_option (λ run, [run]) [] (cellRun (7 * row + col)))))
      as (doc1 & E1 & D1).
    { unfold cellRun, gridCellRun.
      destruct (decide (firstDay ≤ 7 * row + col)) as [Hfirst|Hfirst].
      - rewrite (bool_decide_eq_true_2 (firstDay ≤ 7 * row + col)) by done.
        destruct (decide (7 * row + col - firstDay + 1 ≤ daysInMonth)) as [Hday|Hday].
        + rewrite bool_decide_eq_true_2 by (unfold dayAt; lia).
          rewrite bool_decide_eq_true_2 by done. cbn [from_option].
          match goal with
          | |- context [drawText ?p ?run] =>
              destruct (drawText_drawn p run doc) as (doc1 & E1 & D1)
          end.
          exists doc1. rewrite (bind_Some _ _ _ _ _ E1). split.
          * unfold ret. do 2 f_equal. unfold dayAt. lia.
          * replace (dayAt (7 * row + col)) with (7 * row + col - firstDay + 1) in D1
              by (unfold dayAt; lia).
            unfold gridDayRun.
            replace (firstDay + (7 * row + col - firstDay + 1) - 1) with (7 * row + col)
              by lia.
            rewrite grid_cell_div, grid_cell_mod by lia. exact D1.
        + rewrite bool_decide_eq_false_2 by (unfold dayAt; lia).
          rewrite bool_decide_eq_false_2 by lia. cbn [from_option].
          exists doc. split; [unfold ret; do 2 f_equal; unfold dayAt; lia|].
          eapply drawn_ext; [done| |apply drawn_refl].
          intros q. unfold onPage. by case_decide.
      - rewrite (bool_decide_eq_false_2 (firstDay ≤ 7 * row + col)) by done.
        rewrite bool_decide_eq_false_2 by lia. cbn [from_option].
        exists doc. split; [unfold ret; do 2 f_equal; unfold dayAt; lia|].
        eapply drawn_ext; [done| |apply drawn_refl].
        intros q. unfold onPage. by case_decide. }
    rewrite (bind_Some _ _ _ _ _ E1).
    destruct (IH (S col) doc1) as (doc' & E' & D'); [lia|].
    exists doc'. split.
    + rewrite E'. do 2 f_equal. f_equal. lia.
    + eapply drawn_ext; [| |exact (drawn_trans _ _ _ _ _ _ _ D1 D')]; [done|].
      intros q. cbv beta. rewrite onPage_app. f_equal.
      replace (7 * row + S col) with (S (7 * row + col)) by lia.
      cbn [seq omap list_omap]. by destruct (cellRun (7 * row + col)).
Qed.

Lemma drawGridRows_drawn :
  ∀ (n row : nat) (doc : PDFDocument),
    ∃ doc',
      drawGridRows dims page colWidth rowHeight topY firstDay daysInMonth
        n row (dayAt (7 * row)) doc = Some (tt, doc')
      ∧ drawn doc doc' 0 (onPage page (omap cellRun (seq (7 * row) (7 * n)))).
Proof using firstDay_range.
  induction n as [|n IH]; intros row doc.
  - exists doc. split; [done|]. rewrite Nat.mul_0_r.
    eapply drawn_ext; [done| |apply drawn_refl].
    intros q. unfold onPage. by case_decide.
  - cbn [drawGridRows]. destruct (decide (dayAt (7 * row) ≤ daysInMonth)) as [Hday|Hday].
    + rewrite bool_decide_eq_true_2 by done.
      destruct (drawGridCols_drawn row 7 0 doc) as (doc1 & E1 & D1); [lia|].
      rewrite Nat.add_0_r in E1, D1. rewrite (bind_Some _ _ _ _ _ E1).
      replace (7 * row + 7) with (7 * S row) by lia.
      destruct (IH (S row) doc1) as (doc' & E' & D').
      exists doc'. split; [exact E'|].
      eapply drawn_ext; [| |exact (drawn_trans _ _ _ _ _ _ _ D1 D')]; [done|].
      intros q. cbv beta. rewrite onPage_app. f_equal.
      replace (7 * S n) with (7 + 7 * n) by lia.
      rewrite seq_app, omap_app. do 3 f_equal. lia.
    + rewrite bool_decide_eq_false_2 by done.
      exists doc. split; [done|].
      eapply drawn_ext; [done| |apply drawn_refl].
      intros q. unfold onPage. case_decide; [|done].
      symmetry. apply omap_all_None. intros c Hc%elem_of_seq.
      unfold cellRun, gridCellRun. rewrite bool_decide_eq_false_2; [done|].
      unfold dayAt in Hday. lia.
Qed.

End Grid.

(** Over the first [n] cells the grid shows the days that fall into
    them, in order. *)
Lemma grid_cells_days dims colWidth rowHeight topY firstDay daysInMonth :
  ∀ n, omap (gridCellRun dims colWidth rowHeight topY firstDay daysInMonth) (seq 0 n)
       = gridDayRun dims colWidth rowHeight topY firstDay
         <$> seq 1 (daysInMonth `min` (n - firstDay)).
Proof.
  induction n as [|n IH]; [by rewrite Nat.min_0_r|].
  rewrite seq_S, omap_app, IH. cbn [omap list_omap]. unfold gridCellRun at 1.
  rewrite Nat.add_0_l.
  destruct (decide (firstDay ≤ n ∧ n - firstDay + 1 ≤ daysInMonth)) as [Hin|Hout].
  - rewrite bool_decide_eq_true_2 by done.
    replace (daysInMonth `min` (S n - firstDay)) with (S (daysInMonth `min` (n - firstDay)))
      by lia.
    rewrite seq_S, fmap_app. cbn [fmap list_fmap]. do 3 f_equal. lia.
  - rewrite bool_decide_eq_false_2 by done. rewrite app_nil_r. do 2 f_equal. lia.
Qed.

Lemma daysInMonthOf_le y m : daysInMonthOf y m ≤ 31.
Proof.
  unfold daysInMonthOf. do 12 (destruct m as [|m]; [try destruct (isLeapYear y); lia|]).
  lia.
Qed.

Lemma Date_day0_le year monthIndex : Date_day0 year monthIndex ≤ 31.
Proof. unfold Date_day0. apply daysInMonthOf_le. Qed.

(** The grid of a month that fits into six rows. *)
Lemma drawGridRows_writes dims page colWidth rowHeight topY firstDay daysInMonth :
  firstDay < 7 → firstDay + daysInMonth ≤ 42 →
  writesOn page
    (drawGridRows dims page colWidth rowHeight topY firstDay daysInMonth 6 0 1)
    (λ runs, runs = gridDayRun dims colWidth rowHeight topY firstDay
                    <$> seq 1 daysInMonth).
Proof.
  intros Hfirst Hfits doc.
  destruct (drawGridRows_drawn dims page colWidth rowHeight topY firstDay daysInMonth
              Hfirst 6 0 doc) as (doc' & E & D).
  change (7 * 0) with 0 in E, D. change (7 * 6) with 42 in D.
  replace ((0 - firstDay + 1) `min` (daysInMonth + 1)) with 1 in E by lia.
  eexists doc', _. split; [exact E|]. split; [exact D|].
  rewrite (grid_cells_days dims colWidth rowHeight topY firstDay daysInMonth 42).
  do 2 f_equal. lia.
Qed.

Lemma drawDayNames_drawn dims page dayNames colWidth topY :
  ∀ n i, i + n = length dayNames →
    writesOn page (drawDayNames dims page dayNames colWidth topY n i)
      (λ runs, runs = imap (λ j, dayNameRun dims colWidth topY (i + j)) (drop i dayNames)).
Proof.
  induction n as [|n IH]; intros i Hi; cbn [drawDayNames].
  - apply writesOn_ret. by rewrite drop_ge by lia.
  - destruct (lookup_lt_is_Some_2 dayNames i ltac:(lia)) as [name Hname].
    rewrite Hname. rewrite (drop_S _ _ _ Hname), imap_cons, Nat.add_0_r.
    eapply writesOn_bind; [apply writesOn_drawText_eq|apply (IH (S i)); lia|].
    intros runs1 runs2 -> ->. cbn [app]. f_equal.
    apply imap_ext. intros j x _. cbn [compose]. f_equal. lia.
Qed.

(** ** The pages of the standard planners *)

Lemma writesOn_then_numbered page (m1 m2 : M unit) dims pageIndex (flag : Prop) :
  writesOn page m1 (λ _, True) →
  writesOn page m2 (λ runs, flag → last runs = Some (pageNumberRun dims pageIndex)) →
  writesOn page (m1 ;; m2)
    (λ runs, flag → last runs = Some (pageNumberRun dims pageIndex)).
Proof.
  intros H1 H2. eapply writesOn_bind; [exact H1|exact H2|].
  intros runs1 runs2 _ Hlast Hflag. rewrite last_app, (Hlast Hflag). done.
Qed.

Lemma dailyPageBody_writes env fns config dims day page pageIndex :
  writesOn page (dailyPageBody env fns config dims day page pageIndex)
    (λ runs, pageNumbers config = true → last runs = Some (pageNumberRun dims pageIndex)).
Proof.
  unfold dailyPageBody.
  apply writesOn_then_numbered; [by apply (writesOn_drawText _ _ (λ _, True))|].
  apply writesOn_numbered, drawTimeSlots_writes.
Qed.

Lemma weeklyPageBody_writes env config dims weekStart page pageIndex :
  writesOn page (weeklyPageBody env config dims weekStart page pageIndex)
    (λ runs, pageNumbers config = true → last runs = Some (pageNumberRun dims pageIndex)).
Proof.
  unfold weeklyPageBody.
  apply writesOn_then_numbered; [by apply (writesOn_drawText _ _ (λ _, True))|].
  apply writesOn_then_numbered.
  { apply drawDayColumns_writes. by destruct (includeWeekends config). }
  apply writesOn_numbered. by apply (writesOn_drawText _ _ (λ _, True)).
Qed.

Lemma monthlyPageBody_writes env config dims monthStart page pageIndex :
  (∀ d, getDay env d < 7) →
  writesOn page (monthlyPageBody env config dims monthStart page pageIndex)
    (λ runs, runs = monthlyPageRuns env config dims monthStart pageIndex).
Proof.
  intros Hday. unfold monthlyPageBody, monthlyPageRuns.
  apply writesOn_bind_eq; [apply writesOn_drawText_eq|].
  apply writesOn_bind_eq; [apply (drawDayNames_drawn _ _ _ _ _ 7 0); reflexivity|].
  apply writesOn_bind_eq.
  - apply drawGridRows_writes; [apply Hday|].
    match goal with
    | |- context [Date_day0 ?y ?m] => pose proof (Date_day0_le y m)
    end.
    match goal with
    | |- context [getDay env ?d] => pose proof (Hday d)
    end.
    lia.
  - unfold drawPageNumber. destruct (pageNumbers config).
    + apply writesOn_drawText_eq.
    + by apply writesOn_ret.
Qed.

Lemma monthlyPageRuns_last env config dims monthStart pageIndex :
  pageNumbers config = true →
  last (monthlyPageRuns env config dims monthStart pageIndex)
  = Some (pageNumberRun dims pageIndex).
Proof.
  intros Hflag. unfold monthlyPageRuns. rewrite Hflag.
  by rewrite !app_assoc, last_snoc.
Qed.

(** The pages a daily, weekly or monthly planner generates behind the
    cover: an entry and a page for every item, the page with its number
    at the end if page numbers are asked for. *)
Lemma standard_pages env fns config dims items :
  (∀ d, getDay env d < 7) →
  standardItems env fns config = Some items →
  ∀ doc, ∃ doc' (content : nat → list TextRun),
    (match plannerType config with
     | dailyPlanner => generateDailyPages env fns config dims []
     | weeklyPlanner => generateWeeklyPages env fns config dims []
     | _ => generateMonthlyPages env fns config dims []
     end) doc
    = Some (imap (λ j item, mkTocEntry (standardLabel env config item)
                                       (length (pageTree doc) + j)) items,
            doc')
    ∧ drawn doc doc' (length items)
        (λ q, concat ((λ j, onPage (nextRef doc + j) (content j) q)
                      <$> seq 0 (length items)))
    ∧ ∀ j, j < length items → pageNumbers config = true →
        last (content j) = Some (pageNumberRun dims (length (pageTree doc) + j)).
Proof.
  intros Hday Hitems doc. unfold standardItems, standardLabel in *.
  set (Q := λ (_ : JSDate) (pageIndex : nat) (runs : list TextRun),
              pageNumbers config = true →
              last runs = Some (pageNumberRun dims pageIndex)).
  assert (∀ (entryLabelOf : JSDate → string) body l,
            (∀ item page pageIndex,
               writesOn page (body item page pageIndex) (Q item pageIndex)) →
            ∃ doc' content,
              pagesLoop entryLabelOf body l [] doc
              = Some (imap (λ j item, mkTocEntry (entryLabelOf item)
                                                 (length (pageTree doc) + j)) l, doc')
              ∧ drawn doc doc' (length l)
                  (λ q, concat ((λ j, onPage (nextRef doc + j) (content j) q)
                                <$> seq 0 (length l)))
              ∧ ∀ j, j < length l → pageNumbers config = true →
                  last (content j)
                  = Some (pageNumberRun dims (length (pageTree doc) + j))) as Hloop.
  { intros entryLabelOf body l Hbody.
    destruct (pagesLoop_drawn entryLabelOf body Q Hbody l [] doc)
      as (doc' & content & E & D & HQ).
    exists doc', content. split; [exact E|]. split; [exact D|].
    intros j Hj. destruct (lookup_lt_is_Some_2 l j Hj) as [item Hitem].
    exact (HQ j item Hitem). }
  destruct (plannerType config); try discriminate.
  - destruct (eachDayOfInterval fns (startDate config) (endDate config))
      as [days|] eqn:Hdays; [|discriminate].
    injection Hitems as <-. unfold generateDailyPages. rewrite Hdays.
    unfold bind at 1. cbn [orThrow]. rewrite dailyPagesLoop_pagesLoop.
    apply Hloop. intros item page pageIndex. apply dailyPageBody_writes.
  - unfold generateWeeklyPages. rewrite Hitems.
    unfold bind at 1. cbn [orThrow]. rewrite weeklyPagesLoop_pagesLoop.
    apply Hloop. intros item page pageIndex. apply weeklyPageBody_writes.
  - unfold generateMonthlyPages. rewrite Hitems.
    unfold bind at 1. cbn [orThrow]. rewrite monthlyPagesLoop_pagesLoop.
    apply Hloop. intros item page pageIndex.
    eapply writesOn_weaken; [|by apply monthlyPageBody_writes].
    intros runs -> Hflag. by apply monthlyPageRuns_last.
Qed.

Lemma generateCoverPage_drawn env config font fontBold dims doc :
  ∃ doc' runs,
    generateCoverPage env config font fontBold dims doc = Some (tt, doc')
    ∧ drawn doc doc' 1 (onPage (nextRef doc) runs)
    ∧ length runs = 2.
Proof.
  unfold generateCoverPage.
  destruct (addPage_drawn doc) as (doc1 & E1 & D1).
  rewrite (bind_Some _ _ _ _ _ E1).
  match goal with
  | |- context [bind (drawText ?p ?r1) (λ _, drawText ?p ?r2)] =>
      destruct (writesOn_bind_eq p _ _ _ _ (writesOn_drawText_eq p r1)
                  (writesOn_drawText_eq p r2) doc1) as (doc2 & runs & E2 & D2 & ->)
  end.
  match type of D2 with
  | drawn _ _ _ (onPage _ ?runs) => exists doc2, runs
  end.
  split; [exact E2|]. split; [|reflexivity].
  eapply drawn_ext; [| |exact (drawn_trans _ _ _ _ _ _ _ D1 D2)]; done.
Qed.

(** ** [generatePlannerPDF] for the standard planners, phase by phase *)

Lemma addBasicNavigation_linked tocIndex dims doc :
  ((0 ≤ tocIndex)%Z → Z.to_nat tocIndex < length (pageTree doc)) →
  ∃ doc',
    addBasicNavigation tocIndex dims doc = Some (tt, doc')
    ∧ basicallyLinked tocIndex dims doc doc'.
Proof.
  intros Htoc. unfold addBasicNavigation.
  rewrite (bind_Some _ _ doc (length (pageTree doc)) doc) by done.
  destruct (forEach_addNavigationLinks_added tocIndex dims (pageTree doc)
              (length (pageTree doc)) eq_refl Htoc (seq 0 (length (pageTree doc))) doc)
    as (doc' & E & A); [|done|].
  { apply Forall_forall. intros i Hi%elem_of_seq. lia. }
  by exists doc'.
Qed.

Lemma generatePlannerPDF_standard_phases env fns font fontBold config items :
  let dims := getDeviceDimensions (device config) (configPadding config) in
  let n := length items in
  let entries :=
    imap (λ j item, mkTocEntry (standardLabel env config item) (1 + j)) items in
  let tocIndex := if includeIndex config then 1%Z else (-1)%Z in
  (∀ d, getDay env d < 7) →
  standardItems env fns config = Some items →
  ∃ doc0 doc1 doc2 doc' coverRuns (content : nat → list TextRun) k,
    generatePlannerPDF env fns font fontBold config emptyDocument = Some (tt, doc')
    ∧ drawn emptyDocument doc0 1 (onPage 0 coverRuns)
    ∧ drawn doc0 doc1 n
        (λ q, concat ((λ j, onPage (1 + j) (content j) q) <$> seq 0 n))
    ∧ (∀ j, j < n → pageNumbers config = true →
         last (content j) = Some (pageNumberRun dims (1 + j)))
    ∧ (if includeIndex config && bool_decide (0 < n)
       then tocInserted dims entries doc1 doc2 k else doc2 = doc1)
    ∧ (if bool_decide (0 < n)
       then basicallyLinked tocIndex dims doc2 doc' else doc' = doc2).
Proof.
  intros dims n entries tocIndex Hday Hitems.
  unfold generatePlannerPDF. fold dims.
  destruct (generateCoverPage_drawn env config font fontBold dims emptyDocument)
    as (doc0 & coverRuns & E0 & D0 & _).
  rewrite (bind_Some _ _ _ _ _ E0).
  assert (length (pageTree doc0) = 1 ∧ nextRef doc0 = 1) as [Hlen0 Hnext0].
  { destruct D0 as (-> & _ & -> & _). done. }
  destruct (standard_pages env fns config dims items Hday Hitems doc0)
    as (doc1 & content & E1 & D1 & Hnum).
  rewrite Hlen0 in E1, Hnum. rewrite Hnext0 in D1. fold entries in E1.
  assert (∀ (A : Type) (k : list TocEntry * option (list PageRef) → M A),
            (let* generated :=
               match plannerType config with
               | bujo =>
                   let* bujoPageRefs := generateBujoPages env fns config font dims in
                   ret ([] ++ ((λ ref, mkTocEntry (label ref) (pageIndex ref))
                               <$> bujoPageRefs), Some bujoPageRefs)
               | dailyPlanner =>
                   let* pageRefs := generateDailyPages env fns config dims [] in
                   ret (pageRefs, None)
               | weeklyPlanner =>
                   let* pageRefs := generateWeeklyPages env fns config dims [] in
                   ret (pageRefs, None)
               | monthlyPlanner =>
                   let* pageRefs := generateMonthlyPages env fns config dims [] in
                   ret (pageRefs, None)
               | dotgrid => generateDotGridPages 50 ;; ret ([], None)
               | lined => generateLinedPages 50 ;; ret ([], None)
               | blank => generateBlankPages 50 ;; ret ([], None)
               end in
             k generated) doc0 = k (entries, None) doc1) as Hgen.
  { intros A k. unfold standardItems in Hitems.
    destruct (plannerType config); try discriminate;
      unfold bind at 1 2; rewrite E1; reflexivity. }
  rewrite Hgen. cbn [fst snd]. unfold addIndexAndLinks.
  assert (length entries = n) as Hentries by (unfold entries; by rewrite length_imap).
  rewrite Hentries.
  assert (length (pageTree doc1) = 1 + n) as Hlen1.
  { destruct D1 as (-> & _). rewrite length_app, length_seq. lia. }
  destruct (decide (0 < n)) as [Hn|Hn].
  - rewrite (bool_decide_eq_true_2 (0 < n)) by done. rewrite andb_true_r.
    destruct (includeIndex config) eqn:Hindex; cbn [tocIndex].
    + destruct (addTableOfContents_wrote dims entries doc1) as (doc2 & k & E2 & T2).
      { lia. }
      { unfold entries. apply Forall_forall. intros e He.
        apply list_elem_of_lookup in He as [j Hj].
        rewrite list_lookup_imap in Hj.
        destruct (items !! j) as [item|] eqn:Hitem; [|done].
        injection Hj as <-. cbn [entryPageIndex].
        apply lookup_lt_Some in Hitem. lia. }
      unfold bind at 1 2. rewrite E2. cbn [ret].
      destruct (addBasicNavigation_linked 1 dims doc2) as (doc' & E' & L').
      { intros _. destruct T2 as (-> & _). rewrite length_app, length_take.
        cbn [length]. lia. }
      exists doc0, doc1, doc2, doc', coverRuns, content, k.
      split; [exact E'|]. split; [exact D0|]. split; [exact D1|].
      split; [exact Hnum|]. split; [exact T2|exact L'].
    + unfold bind at 1. cbn [ret].
      destruct (addBasicNavigation_linked (-1) dims doc1) as (doc' & E' & L'); [lia|].
      exists doc0, doc1, doc1, doc', coverRuns, content, 0.
      split; [exact E'|]. split; [exact D0|]. split; [exact D1|].
      split; [exact Hnum|]. split; [reflexivity|exact L'].
  - rewrite (bool_decide_eq_false_2 (0 < n)) by done. rewrite andb_false_r.
    exists doc0, doc1, doc1, doc1, coverRuns, content, 0.
    split; [reflexivity|]. split; [exact D0|]. split; [exact D1|].
    split; [exact Hnum|]. split; reflexivity.
Qed.

Lemma standard_pageTree_NoDup (n : nat) (withToc : bool) :
  NoDup (if withToc then 0 :: (n + 1) :: seq 1 n else seq 0 (n + 1)).
Proof.
  destruct withToc; [|apply NoDup_seq].
  apply NoDup_cons. split.
  { intros [H|H%elem_of_seq]%elem_of_cons; lia. }
  apply NoDup_cons. split; [|apply NoDup_seq].
  intros H%elem_of_seq. lia.
Qed.



(** X14. The page of a month in a monthly planner shows, after the
    month and the names of the days, every day of the month exactly
    once and in order, day [d] in row [(firstDay + d - 1) / 7] and
    column [(firstDay + d - 1) mod 7] of the grid, and then the page
    number if asked for: the six rows of the grid are enough for every
    month.  The entries returned are one per month, with the position
    of its page. *)
Theorem generateMonthlyPages_calendar :
  ∀ (env : DateEnv) (fns : DateFns) (config : PlannerConfig) (dims : Dimensions)
    (months : list JSDate) (doc : PDFDocument),
    (∀ d, getDay env d < 7) →
    eachMonthOfInterval fns (startDate config) (endDate config) = Some months →
    ∃ doc',
      generateMonthlyPages env fns config dims [] doc
        = Some (imap (λ j monthStart,
                        mkTocEntry (format env monthStart "MMMM yyyy")
                                   (length (pageTree doc) + j)) months,
                doc')
      ∧ pageTree doc' = pageTree doc ++ seq (nextRef doc) (length months)
      ∧ pageAnnots doc' = pageAnnots doc
      ∧ ∀ j monthStart, months !! j = Some monthStart →
          textsOf doc' (nextRef doc + j)
          = textsOf doc (nextRef doc + j)
            ++ monthlyPageRuns env config dims monthStart (length (pageTree doc) + j).
Proof.
  intros env fns config dims months doc Hday Hmonths.
  unfold generateMonthlyPages. rewrite Hmonths. unfold bind at 1. cbn [orThrow].
  rewrite monthlyPagesLoop_pagesLoop.
  destruct (pagesLoop_drawn (λ monthStart, format env monthStart "MMMM yyyy")
              (monthlyPageBody env config dims)
              (λ monthStart pageIndex runs,
                 runs = monthlyPageRuns env config dims monthStart pageIndex)
              (λ item page pageIndex,
                 monthlyPageBody_writes env config dims item page pageIndex Hday)
              months [] doc) as (doc' & content & E & D & Hcontent).
  exists doc'. split; [exact E|].
  destruct D as (Hpt & Han & _ & Htx). split; [exact Hpt|]. split; [exact Han|].
  intros j monthStart Hj. rewrite Htx. f_equal.
  rewrite (concat_onPage_seq (nextRef doc) (length months) j content)
    by (by eapply lookup_lt_Some).
  by apply Hcontent.
Qed.

(** ** The notebooks *)

Lemma addPages_drawn :
  ∀ count doc, ∃ doc', addPages count doc = Some (tt, doc') ∧ drawn doc doc' count (λ _, []).
Proof.
  induction count as [|count IH]; intros doc.
  - exists doc. split; [done|apply drawn_refl].
  - cbn [addPages]. destruct (addPage_drawn doc) as (doc1 & E1 & D1).
    rewrite (bind_Some _ _ _ _ _ E1).
    destruct (IH doc1) as (doc' & E' & D'). exists doc'. split; [exact E'|].
    eapply drawn_ext; [| |exact (drawn_trans _ _ _ _ _ _ _ D1 D')]; done.
Qed.


(** ** [generatePlannerPDF] for a bullet journal *)

(** The index and link pass of a journal: where the index pages go and
    where the links lead. *)
Lemma addIndexAndNavigation_linked env font dims density bujoPageRefs doc :
  Forall (λ r, 1 ≤ pageIndex r < length (pageTree doc)) bujoPageRefs →
  1 ≤ length (pageTree doc) →
  ∃ result doc' M,
    addIndexAndNavigation env font dims density bujoPageRefs doc = Some (result, doc')
    ∧ 0 < M
    ∧ pageTree doc'
      = take 1 (pageTree doc) ++ seq (nextRef doc) M ++ drop 1 (pageTree doc)
    ∧ ∀ q a, a ∈ annotsOf doc' q →
             a ∈ annotsOf doc q ∨ destPage (annotDest a) ∈ pageTree doc'.
Proof.
  intros Hrefs Hlen. unfold addIndexAndNavigation.
  destruct (addBujoIndex_inv doc 1 (λ _, True) Hlen env font dims bujoPageRefs)
    as (res & doc1 & b & E1 & -> & (H1 & H2 & H3 & H4 & H5 & H6)).
  { apply Forall_forall. intros r Hr. split; [done|].
    by apply (proj1 (Forall_forall _ _) Hrefs). }
  rewrite (bind_Some _ _ _ _ _ E1). cbn [pageCount resultIndexRefs].
  set (M := indexPageCount b) in *.
  set (allRefs := indexRefs b ++ shiftPageRefs M bujoPageRefs).
  assert (0 < M) as HM by (apply elem_of_seq in H3; lia).
  assert (length (pageTree doc1) = length (pageTree doc) + M) as Hlen1.
  { rewrite H1, !length_app, length_take, length_seq, length_drop. lia. }
  assert (Forall (λ r, pageIndex r < length (pageTree doc1)) allRefs) as Hall.
  { apply Forall_app. split.
    - apply Forall_forall. intros r Hr.
      assert (pageIndex r ∈ seq 1 M) as Hin
        by (rewrite <- H4; by apply list_elem_of_fmap_2).
      apply elem_of_seq in Hin. lia.
    - unfold shiftPageRefs. apply Forall_forall. intros r' Hr'.
      apply list_elem_of_In, in_map_iff in Hr' as (r & <- & Hr%list_elem_of_In).
      cbn [addToPageIndex pageIndex].
      pose proof (proj1 (Forall_forall _ _) Hrefs r Hr) as Hrange.
      cbv beta in Hrange. rewrite Hlen1. unfold M. lia. }
  destruct (addComprehensiveNavigation_grown_aux font dims allRefs tocPageIndex doc1)
    as (doc2 & E2 & G2); [unfold tocPageIndex; lia|done|].
  rewrite (bind_Some _ _ _ _ _ E2).
  pose proof (annotsGrown_pageTree _ _ _ G2) as Hpt2.
  destruct (addMonthlyDateLinks_grown dims density
              (buildPageRegistry allRefs tocPageIndex) allRefs doc2)
    as (doc3 & E3 & G3).
  { by rewrite Hpt2. }
  { rewrite Hpt2. by apply buildPageRegistry_dailyTargetsIn. }
  rewrite (bind_Some _ _ _ _ _ E3).
  pose proof (annotsGrown_pageTree _ _ _ G3) as Hpt3.
  eexists _, doc3, M. split; [reflexivity|]. split; [done|].
  split; [by rewrite Hpt3, Hpt2|].
  intros q a Ha.
  rewrite Hpt2 in G3.
  pose proof (annotsGrown_trans _ _ _ _ G2 G3) as (added & (_ & _ & _ & Hannots) & Hadded).
  rewrite Hannots in Ha. apply elem_of_app in Ha as [Ha|Ha].
  - destruct (H6 q a Ha) as [Hold|[_ (r & _ & Hdest)]]; [by left|].
    right. rewrite Hpt3, Hpt2, H1.
    apply list_elem_of_lookup_2 in Hdest.
    rewrite <- (take_drop 1 (pageTree doc)) in Hdest.
    apply elem_of_app in Hdest as [Hd|Hd].
    + apply elem_of_app. by left.
    + apply elem_of_app. right. apply elem_of_app. by right.
  - right. rewrite Hpt3, Hpt2. by apply (Hadded q a).
Qed.

Lemma basicNavLinks_leadsInto pages tocIndex dims i a :
  a ∈ basicNavLinks pages tocIndex dims i → destPage (annotDest a) ∈ pages.
Proof.
  unfold basicNavLinks. intros Ha.
  assert (∀ rect j, a ∈ from_option (λ p, [linkAnnotationDict rect p]) [] (pages !! j) →
                    destPage (annotDest a) ∈ pages) as Hone.
  { intros rect j Hin. destruct (pages !! j) as [p|] eqn:Hp; cbn [from_option] in Hin.
    - apply list_elem_of_singleton in Hin as ->. cbn.
      by eapply list_elem_of_lookup_2.
    - by apply elem_of_nil in Hin. }
  apply elem_of_app in Ha as [Ha|Ha].
  { case_bool_decide; [by eapply Hone|by apply elem_of_nil in Ha]. }
  apply elem_of_app in Ha as [Ha|Ha].
  { case_bool_decide; [by eapply Hone|by apply elem_of_nil in Ha]. }
  by eapply Hone.
Qed.




Lemma generateMonthlyPages_calendar_witness :
  ∃ doc',
    generateMonthlyPages sampleEnv sampleFns sampleMonthlyPlanner
      (getDeviceDimensions move defaultPadding) [] coverOnly
      = Some ([mkTocEntry "January 2025" 1; mkTocEntry "February 2025" 2], doc')
    ∧ pageTree doc' = [0; 1; 2]
    ∧ text <$> textsOf doc' 2
      = ["February 2025"; "Sun"; "Mon"; "Tue"; "Wed"; "Thu"; "Fri"; "Sat"]
        ++ (JS.toString <$> seq 1 28) ++ ["3"]
    ∧ (λ run, (textX run, textY run)) <$> (textsOf doc' 2 !! 8)
      = Some ((JS.ofZ 24 + JS.ofZ 6 * (JS.ofZ 212 / JS.ofZ 7) + JS.ofZ 4)%Qc,
              (JS.ofZ 399 - JS.ofZ 60 - JS.ofZ 14)%Qc).
Proof.
  destruct (generateMonthlyPages_calendar sampleEnv sampleFns sampleMonthlyPlanner
              (getDeviceDimensions move defaultPadding)
              [mkDate 2025 0 1; mkDate 2025 1 1] coverOnly)
    as (doc' & E & Hpt & _ & Htx).
  - exact sampleEnv_getDay.
  - reflexivity.
  - exists doc'. split; [exact E|]. split; [exact Hpt|].
    pose proof (Htx 1 (mkDate 2025 1 1) eq_refl) as H2.
    change (nextRef coverOnly + 1) with 2 in H2. rewrite H2.
    split; [by vm_compute|].
    apply (bool_decide_unpack _). by vm_compute.
Defined.



(** ** The registry of the daily pages *)

Lemma padStart_day_noDash (n : nat) :
  n ≤ 31 → noDash (JS.padStart 2 "0" (JS.toString n)).
Proof. intros Hn. do 32 (destruct n as [|n]; [by vm_compute|]). lia. Qed.

Lemma parseInt_day (n : nat) :
  n ≤ 31 → JS.parseInt (JS.padStart 2 "0" (JS.toString n)) = Some (Z.of_nat n).
Proof. intros Hn. do 32 (destruct n as [|n]; [by vm_compute|]). lia. Qed.

Lemma padStart_month_noDash (m : nat) :
  m < 12 → noDash (JS.padStart 2 "0" (JS.toString (m + 1))).
Proof. intros Hm. do 12 (destruct m as [|m]; [by vm_compute|]). lia. Qed.

Lemma split_formatDateKey (date : JSDate) :
  getMonth date < 12 → getDate date ≤ 31 →
  JS.split "-" (formatDateKey date)
  = [JS.toString (getFullYear date);
     JS.padStart 2 "0" (JS.toString (getMonth date + 1));
     JS.padStart 2 "0" (JS.toString (getDate date))].
Proof.
  destruct date as [y m d]. cbn [getFullYear getMonth getDate].
  intros Hm Hd. unfold formatDateKey. cbn [getFullYear getMonth getDate].
  repeat change ("-" +:+ ?s) with (String "-" s).
  rewrite split_app_dash by apply split_string_of_uint. f_equal.
  rewrite split_app_dash by (by apply padStart_month_noDash). f_equal.
  by apply padStart_day_noDash.
Qed.

(** The key of a date determines the date. *)
Lemma formatDateKey_inj (d1 d2 : JSDate) :
  getMonth d1 < 12 → getDate d1 ≤ 31 → getMonth d2 < 12 → getDate d2 ≤ 31 →
  formatDateKey d1 = formatDateKey d2 → d1 = d2.
Proof.
  intros Hm1 Hd1 Hm2 Hd2 Hkey.
  pose proof (f_equal (JS.split "-") Hkey) as Hsplit.
  rewrite !split_formatDateKey in Hsplit by done.
  injection Hsplit as Hy Hm Hd.
  apply (f_equal JS.parseInt) in Hy, Hm, Hd.
  rewrite !parseInt_toString in Hy. rewrite !parseInt_month in Hm by done.
  rewrite !parseInt_day in Hd by done.
  injection Hy as Hy. injection Hm as Hm. injection Hd as Hd.
  destruct d1 as [y1 m1 day1], d2 as [y2 m2 day2].
  cbn [getFullYear getMonth getDate] in *. f_equal; lia.
Qed.

Lemma registerPage_dailyPages (registry : PageRegistry) (ref : PageRef) :
  dailyPages (registerPage registry ref)
  = match type ref, date ref with
    | daily, Some d => <[formatDateKey d := pageIndex ref]> (dailyPages registry)
    | _, _ => dailyPages registry
    end.
Proof.
  unfold registerPage.
  destruct (type ref); cbn [dailyPages];
    try destruct (JS.truthy (yearMonth ref));
    try destruct (weekIndex ref); try destruct (date ref); done.
Qed.

(** X17. The registry finds the page of a day under the key of its
    date: [dailyPages] at [formatDateKey d] is the page index of the last
    daily reference for the day [d], and nothing if there is none.  No
    other day has the same key, so no other reference is in the way. *)
Theorem buildPageRegistry_daily_lookup :
  ∀ (refs : list PageRef) (indexPageIndex : nat) (d : JSDate),
    getMonth d < 12 → getDate d ≤ 31 →
    Forall (λ r, ∀ d', type r = daily → date r = Some d' →
                       getMonth d' < 12 ∧ getDate d' ≤ 31) refs →
    dailyPages (buildPageRegistry refs indexPageIndex) !! formatDateKey d
    = pageIndex <$> last (filter (λ r, type r = daily ∧ date r = Some d) refs).
Proof.
  intros refs toc d Hm Hd. unfold buildPageRegistry.
  induction refs as [|r refs IH] using rev_ind; intros Hvalid.
  - cbn. unfold emptyRegistry. cbn [dailyPages]. by rewrite lookup_empty.
  - apply Forall_app in Hvalid as [Hrefs Hr]. rewrite Forall_singleton in Hr.
    rewrite foldl_snoc, registerPage_dailyPages, filter_app.
    destruct (decide (type r = daily ∧ date r = Some d)) as [[Ht Hdate]|Hno].
    + rewrite Ht, Hdate, lookup_insert_eq.
      rewrite (filter_cons_True _ r []) by done. by rewrite filter_nil, last_snoc.
    + rewrite (filter_cons_False _ r []) by done. rewrite filter_nil, app_nil_r.
      destruct (type r) eqn:Ht; try by apply IH.
      destruct (date r) as [d'|] eqn:Hdate; [|by apply IH].
      destruct (Hr d' eq_refl eq_refl) as [Hm' Hd'].
      rewrite lookup_insert_ne; [by apply IH|].
      intros Hkey. apply Hno. split; [done|]. f_equal.
      by apply formatDateKey_inj.
Qed.

(** ** The preview *)

(** X18. The preview reads a link made by [createInternalLink] back:
    its target is the position in the document of the page the link
    leads to, its left edge, width and height are the link's in percent
    of the page, and its lower edge is the link's [y], measured from the
    top of the page. *)
Theorem previewLinkOf_createInternalLink :
  ∀ (doc : PDFDocument) (pageWidth pageHeight : Qc) (rect : LinkRect) (i p : nat),
    pageWidth ≠ 0%Qc → pageHeight ≠ 0%Qc →
    NoDup (pageTree doc) →
    pageTree doc !! i = Some p →
    ∃ link,
      previewLinkOf doc pageWidth pageHeight (linkAnnotationDict rect p) = Some link
      ∧ targetPage link = i
      ∧ previewX link = (rectX rect / pageWidth * JS.ofZ 100)%Qc
      ∧ previewWidth link = (rectWidth rect / pageWidth * JS.ofZ 100)%Qc
      ∧ previewHeight link = (rectHeight rect / pageHeight * JS.ofZ 100)%Qc
      ∧ (previewY link + previewHeight link)%Qc
        = ((pageHeight - rectY rect) / pageHeight * JS.ofZ 100)%Qc.
Proof.
  intros doc W H rect i p HW HH Hnd Hi.
  unfold previewLinkOf, linkAnnotationDict. cbn [annotSubtype annotRect].
  rewrite decide_True by done. eexists. split; [reflexivity|].
  cbn [targetPage previewX previewY previewWidth previewHeight].
  split.
  { unfold previewTargetPage. cbn [annotDest destPage].
    by rewrite (findPage_lookup (pageTree doc) i 0 p Hnd Hi). }
  split; [reflexivity|].
  split; [f_equal; f_equal; ring|].
  split; [f_equal; f_equal; ring|].
  field. exact HH.
Qed.

(** X19. While the current page of the preview is a page of the
    document, [goToPage], [goNext] and [goPrev] keep it one and do not
    change the number of pages; [goToPage] goes to every page of the
    document as asked, and [goPrev] and [goNext] undo each other away
    from the two ends.  The page restored after a new generation is the
    page shown before, or the last page of a document that has become
    shorter. *)
Theorem preview_page_stays_in_range :
  ∀ (prev : PreviewState) (page : Z),
    let inRange st :=
      (0 ≤ currentPage st < totalPages st)%Z ∧ totalPages st = totalPages prev in
    (0 ≤ currentPage prev < totalPages prev)%Z →
    inRange (goToPage page prev) ∧ inRange (goNext prev) ∧ inRange (goPrev prev)
    ∧ ((0 ≤ page < totalPages prev)%Z → currentPage (goToPage page prev) = page)
    ∧ ((currentPage prev + 1 < totalPages prev)%Z → goPrev (goNext prev) = prev)
    ∧ ((0 < currentPage prev)%Z → goNext (goPrev prev) = prev)
    ∧ ∀ previousPage, (0 ≤ previousPage)%Z →
        (0 ≤ restoredPage previousPage (totalPages prev) < totalPages prev)%Z
        ∧ ((previousPage < totalPages prev)%Z →
           restoredPage previousPage (totalPages prev) = previousPage).
Proof.
  intros [cur total] page inRange Hcur. cbn [currentPage totalPages] in Hcur.
  unfold inRange, goToPage, goNext, goPrev, restoredPage.
  cbn [currentPage totalPages].
  repeat split; try lia.
  - intros H. f_equal; lia.
  - intros H. f_equal; lia.
Qed.

(** ** The time slots of a daily page *)

Lemma drawTimeSlots_runs fns config dims page :
  ∀ n hour y,
    (0 < n → (hour + Z.of_nat n ≤ timeEnd config + 1)%Z) →
    writesOn page (drawTimeSlots fns config dims page n hour y)
      (λ runs, runs = timeSlotRun fns config dims hour y <$> seq 0 n).
Proof.
  induction n as [|n IH]; intros hour y Hn; cbn [drawTimeSlots].
  - by apply writesOn_ret.
  - eapply writesOn_weaken;
      [|apply writesOn_bind_eq; [apply writesOn_drawText_eq|apply IH; lia]].
    intros runs ->. cbn [seq fmap list_fmap app]. f_equal.
    + unfold timeSlotRun. rewrite Z.add_0_r. f_equal.
      rewrite ofNat_0. ring.
    + rewrite <- fmap_S_seq, <- list_fmap_compose.
      destruct n as [|n]; [done|]. specialize (Hn ltac:(lia)).
      apply list_fmap_ext. intros _ k _. unfold compose, timeSlotRun.
      f_equal; [f_equal; lia|].
      rewrite ofNat_S, ofZ_1. unfold timeSlotStep.
      rewrite (bool_decide_eq_true_2 (hour < timeEnd config)%Z) by lia.
      rewrite andb_true_r.
      destruct (bool_decide (timeInterval config = 30%Z)); [|ring].
      replace (JS.ofZ 48) with (JS.ofZ 24 + JS.ofZ 24)%Qc by (by apply Qc_is_canon).
      ring.
Qed.

Lemma dailyPageBody_runs env fns config dims day page pageIndex :
  writesOn page (dailyPageBody env fns config dims day page pageIndex)
    (λ runs, runs = dailyPageRuns env fns config dims day pageIndex).
Proof.
  unfold dailyPageBody, dailyPageRuns.
  apply writesOn_bind_eq; [apply writesOn_drawText_eq|].
  apply writesOn_bind_eq.
  - apply drawTimeSlots_runs. lia.
  - unfold drawPageNumber, pageNumberRun. destruct (pageNumbers config).
    + apply writesOn_drawText_eq.
    + by apply writesOn_ret.
Qed.

(** X21. A daily planner gets a page for every day of the interval
    that is kept (the weekends are left out unless they are included), in
    order, and an entry with the position of the page for each.  The
    page of a day shows the date, then the label of every hour from
    [timeStart] to [timeEnd], the first 50 points below the top and each
    one 24 points, or 48 with half-hour slots, below the one before,
    then the page number if asked for: the labels are all on this page,
    however low they get. *)
Theorem generateDailyPages_time_slots :
  ∀ (env : DateEnv) (fns : DateFns) (config : PlannerConfig) (dims : Dimensions)
    (days : list JSDate) (doc : PDFDocument),
    eachDayOfInterval fns (startDate config) (endDate config) = Some days →
    let kept := List.filter (keepsDay env config) days in
    ∃ doc',
      generateDailyPages env fns config dims [] doc
        = Some (imap (λ j day,
                        mkTocEntry (format env day "EEE, MMM d")
                                   (length (pageTree doc) + j)) kept,
                doc')
      ∧ pageTree doc' = pageTree doc ++ seq (nextRef doc) (length kept)
      ∧ pageAnnots doc' = pageAnnots doc
      ∧ ∀ j day, kept !! j = Some day →
          textsOf doc' (nextRef doc + j)
          = textsOf doc (nextRef doc + j)
            ++ dailyPageRuns env fns config dims day (length (pageTree doc) + j).
Proof.
  intros env fns config dims days doc Hdays kept.
  unfold generateDailyPages. rewrite Hdays. unfold bind at 1. cbn [orThrow].
  rewrite dailyPagesLoop_pagesLoop. fold kept.
  destruct (pagesLoop_drawn (λ day, format env day "EEE, MMM d")
              (dailyPageBody env fns config dims)
              (λ day pageIndex runs,
                 runs = dailyPageRuns env fns config dims day pageIndex)
              (λ item page pageIndex,
                 dailyPageBody_runs env fns config dims item page pageIndex)
              kept [] doc) as (doc' & content & E & D & Hcontent).
  exists doc'. split; [exact E|].
  destruct D as (Hpt & Han & _ & Htx). split; [exact Hpt|]. split; [exact Han|].
  intros j day Hj. rewrite Htx. f_equal.
  rewrite (concat_onPage_seq (nextRef doc) (length kept) j content)
    by (by eapply lookup_lt_Some).
  by apply Hcontent.
Qed.



Lemma buildPageRegistry_daily_lookup_witness :
  dailyPages (buildPageRegistry repeatedDailyRefs 1) !! "2025-01-05" = Some 9.
Proof.
  apply (buildPageRegistry_daily_lookup repeatedDailyRefs 1 (mkDate 2025 0 5)).
  - simpl. lia.
  - simpl. lia.
  - apply Forall_forall. intros r Hr.
    unfold repeatedDailyRefs, januaryDailyRefs in Hr. cbn [app] in Hr.
    elem_cases Hr; intros d' _ [= <-]; simpl; lia.
Defined.

Lemma previewLinkOf_createInternalLink_witness :
  ∃ link,
    previewLinkOf indexedDoc (JS.ofZ 260) (JS.ofZ 463)
      (linkAnnotationDict (mkRect (JS.ofZ 24) (JS.ofZ 400) (JS.ofZ 50) (JS.ofZ 12)) 5)
    = Some link
    ∧ targetPage link = 1
    ∧ previewX link = (JS.ofZ 24 / JS.ofZ 260 * JS.ofZ 100)%Qc
    ∧ previewWidth link = (JS.ofZ 50 / JS.ofZ 260 * JS.ofZ 100)%Qc
    ∧ previewHeight link = (JS.ofZ 12 / JS.ofZ 463 * JS.ofZ 100)%Qc
    ∧ (previewY link + previewHeight link)%Qc
      = ((JS.ofZ 463 - JS.ofZ 400) / JS.ofZ 463 * JS.ofZ 100)%Qc.
Proof.
  apply (previewLinkOf_createInternalLink indexedDoc (JS.ofZ 260) (JS.ofZ 463)
           (mkRect (JS.ofZ 24) (JS.ofZ 400) (JS.ofZ 50) (JS.ofZ 12)) 1 5).
  - apply (bool_decide_unpack _). by vm_compute.
  - apply (bool_decide_unpack _). by vm_compute.
  - apply (bool_decide_unpack _). by vm_compute.
  - reflexivity.
Defined.

Lemma preview_page_stays_in_range_witness :
  currentPage (goToPage 9 (mkPreviewState 2 5)) = 4%Z
  ∧ currentPage (goNext (mkPreviewState 2 5)) = 3%Z
  ∧ goPrev (goNext (mkPreviewState 2 5)) = mkPreviewState 2 5
  ∧ restoredPage 7 5 = 4%Z.
Proof.
  pose proof (preview_page_stays_in_range (mkPreviewState 2 5) 9) as H.
  cbv zeta in H. destruct H as (_ & _ & _ & _ & Hback & _ & _).
  - simpl. lia.
  - split; [reflexivity|]. split; [reflexivity|].
    split; [apply Hback; simpl; lia|reflexivity].
Defined.

Lemma generateDailyPages_time_slots_witness :
  ∃ doc',
    generateDailyPages sampleEnv sampleFns longDayPlanner
      (getDeviceDimensions move defaultPadding) [] coverOnly
      = Some ([mkTocEntry (format sampleEnv (mkDate 2025 0 30) "EEE, MMM d") 1;
               mkTocEntry (format sampleEnv (mkDate 2025 0 31) "EEE, MMM d") 2], doc')
    ∧ pageTree doc' = [0; 1; 2]
    ∧ text <$> drop 1 (textsOf doc' 2)
      = ["6:00 AM"; "7:00 AM"; "8:00 AM"; "9:00 AM"; "10:00 AM"; "11:00 AM";
         "12:00 PM"; "1:00 PM"; "2:00 PM"; "3:00 PM"; "4:00 PM"; "5:00 PM";
         "6:00 PM"; "7:00 PM"; "8:00 PM"; "9:00 PM"; "10:00 PM"; "3"]
    ∧ textY <$> (textsOf doc' 2 !! 17) = Some (JS.ofZ (-35)).
Proof.
  destruct (generateDailyPages_time_slots sampleEnv sampleFns longDayPlanner
              (getDeviceDimensions move defaultPadding)
              [mkDate 2025 0 30; mkDate 2025 0 31; mkDate 2025 1 1; mkDate 2025 1 2]
              coverOnly)
    as (doc' & E & Hpt & _ & Htx).
  - reflexivity.
  - exists doc'. split; [exact E|]. split; [exact Hpt|].
    pose proof (Htx 1 (mkDate 2025 0 31) eq_refl) as H2.
    change (nextRef coverOnly + 1) with 2 in H2. rewrite H2.
    split; [by vm_compute|].
    apply (bool_decide_unpack _). by vm_compute.
Defined.

(** ** The key page *)

Lemma drawKeyEntries_runs ctx page lineHeight :
  ∀ entries y,
    writesOn page (drawKeyEntries ctx page lineHeight entries y)
      (λ runs, runs = keyEntriesRuns ctx lineHeight entries y).
Proof.
  induction entries as [|entry rest IH]; intros y; cbn [drawKeyEntries].
  - by apply writesOn_ret.
  - eapply writesOn_weaken;
      [|apply writesOn_bind_eq;
        [|apply writesOn_bind_eq;
          [apply writesOn_drawText_eq
          |apply writesOn_bind_eq; [apply writesOn_drawText_eq|apply IH]]]].
    2: { instantiate (1 := if drawBulletSymbol (keySymbol entry) then []
                          else [mkText (keySymbol entry) (left (padding (dims ctx))) y
                                       (JS.ofZ 10) HelveticaBold]).
         destruct (drawBulletSymbol (keySymbol entry)).
         - by apply writesOn_ret.
         - apply writesOn_drawText_eq. }
    intros runs ->. unfold keyEntriesRuns. rewrite imap_cons. cbn [concat].
    assert ((y - JS.ofNat 0 * lineHeight)%Qc = y) as ->.
    { rewrite ofNat_0. ring. }
    unfold keyEntryRuns at 2. rewrite <- app_assoc. f_equal. cbn [app]. do 3 f_equal.
    apply imap_ext. intros k e _. cbn [compose]. f_equal.
    rewrite ofNat_S, ofZ_1. ring.
Qed.

Lemma navRowRuns_textY navFontSize navY layout :
  Forall (λ run, textY run = navY) (navRowRuns navFontSize navY layout).
Proof.
  induction layout as [|[[l x] w] rest IH]; cbn [navRowRuns]; [constructor|].
  constructor; [done|]. destruct rest; [constructor|].
  constructor; [done|exact IH].
Qed.

Lemma keyEntriesRuns_above ctx lineHeight entries y (bound : Qc) :
  (∀ k, k < length entries → (bound ≤ y - JS.ofNat k * lineHeight - JS.ofZ 10)%Qc) →
  Forall (λ run, (bound ≤ textY run)%Qc) (keyEntriesRuns ctx lineHeight entries y).
Proof.
  intros Hk. unfold keyEntriesRuns. apply Forall_concat, Forall_forall.
  intros runs (k & entry & -> & Hentry)%elem_of_lookup_imap.
  apply lookup_lt_Some in Hentry. specialize (Hk k Hentry).
  assert (bound ≤ y - JS.ofNat k * lineHeight)%Qc as Hk'.
  { revert Hk. generalize (y - JS.ofNat k * lineHeight)%Qc. intros z Hz.
    qc_to_q. unfold inject_Z in *. lra. }
  unfold keyEntryRuns. apply Forall_app. split.
  - destruct (drawBulletSymbol (keySymbol entry)); repeat constructor. exact Hk'.
  - repeat constructor; [exact Hk'|exact Hk].
Qed.

Lemma eighth_of (a : Qc) : (a = JS.ofZ 8 * (a / JS.ofZ 8))%Qc.
Proof.
  unfold Qcdiv. rewrite (Qcmult_comm a), Qcmult_assoc, Qcmult_inv_r, Qcmult_1_l; [done|].
  apply (bool_decide_unpack _). by vm_compute.
Qed.

Lemma key_entry_fits (h m ct b kq : Qc) :
  (JS.ofZ 120 ≤ JS.ofZ 8 * h)%Qc → (m ≤ h)%Qc →
  (JS.ofZ 8 * h ≤ ct - b - JS.ofZ 10)%Qc →
  (0 ≤ kq)%Qc → (kq ≤ JS.ofZ 7)%Qc →
  (b ≤ ct - JS.ofZ 15 - kq * m - JS.ofZ 10)%Qc.
Proof.
  intros Havail Hmin Hh Hk0 Hk7.
  assert (0 ≤ h)%Qc as Hh0.
  { qc_to_q. unfold inject_Z in *. lra. }
  assert (kq * m ≤ JS.ofZ 7 * h)%Qc as Hprod.
  { apply Qcle_trans with (kq * h)%Qc.
    - rewrite !(Qcmult_comm kq). by apply Qcmult_le_compat_r.
    - by apply Qcmult_le_compat_r. }
  revert Hprod. generalize (kq * m)%Qc. intros p Hprod.
  qc_to_q. unfold inject_Z in *. lra.
Qed.

Lemma keyLineHeight_fits ctx k :
  (JS.ofZ 120 ≤ keyAvailableHeight ctx)%Qc → k < 8 →
  (bottom (padding (dims ctx))
   ≤ contentTop_of (dims ctx) - JS.ofZ 15 - JS.ofNat k * keyLineHeight ctx - JS.ofZ 10)%Qc.
Proof.
  intros Havail Hk.
  apply (key_entry_fits (keyAvailableHeight ctx / JS.ofZ 8)%Qc).
  - by rewrite <- eighth_of.
  - unfold keyLineHeight. change (JS.ofNat (length BULLET_KEY)) with (JS.ofZ 8).
    unfold JS.Math_min. case_decide as Hle; [apply Qcle_refl|].
    apply Qclt_le_weak, Qcnot_le_lt, Hle.
  - rewrite <- eighth_of. apply Qcle_refl.
  - rewrite <- Z2Qc_inj_0. apply ofZ_le. lia.
  - apply ofZ_le. lia.
Qed.

(** X22. The key page is one new page, referred to as "Key" at its
    position: the navigation row, the title, the subtitle, and for each
    of the eight signifiers its label and its description ten points
    below, with the symbol before them unless it is drawn as a shape;
    the entries are [keyLineHeight] apart.  If the area for the entries
    is at least 120 points high, no text of the page is below the
    bottom padding. *)
Theorem generateKeyPage_signifiers :
  ∀ (ctx : BujoGeneratorContext) (doc : PDFDocument),
    ∃ doc',
      generateKeyPage ctx doc
        = Some (mkPageRef "Key" (length (pageTree doc)) key None None None None, doc')
      ∧ drawn doc doc' 1 (onPage (nextRef doc) (keyPageRuns ctx))
      ∧ ((JS.ofZ 120 ≤ keyAvailableHeight ctx)%Qc →
         Forall (λ run, (bottom (padding (dims ctx)) ≤ textY run)%Qc)
                (keyPageRuns ctx)).
Proof.
  intros ctx doc. unfold generateKeyPage.
  destruct (addPage_drawn doc) as (doc1 & E1 & D1).
  rewrite (bind_Some _ _ _ _ _ E1).
  rewrite (bind_Some _ _ _ _ _ (getPageCount_eq doc1)).
  assert (length (pageTree doc1) - 1 = length (pageTree doc)) as ->.
  { destruct D1 as (-> & _). rewrite length_app. simpl. lia. }
  destruct (drawTopNavigation_drawn (nextRef doc) (font ctx) (dims ctx)
              (getNavLabels key (nav ctx)) doc1) as (doc2 & E2 & D2).
  rewrite (bind_Some _ _ _ _ _ E2).
  destruct (drawPageTitle_drawn (nextRef doc) "Key" (dims ctx)
              (navY_of (dims ctx) - JS.ofZ 7 - JS.ofZ 6)%Qc (JS.ofZ 11) doc2)
    as (doc3 & E3 & D3).
  rewrite (bind_Some _ _ _ _ _ E3).
  change (navY_of (dims ctx) - JS.ofZ 7 - JS.ofZ 6 - JS.ofZ 11 - JS.ofZ 8)%Qc
    with (contentTop_of (dims ctx)).
  destruct (drawText_drawn (nextRef doc)
              (mkText "Rapid Logging Signifiers" (left (padding (dims ctx)))
                      (contentTop_of (dims ctx) + JS.ofZ 2)%Qc (JS.ofZ 7) Helvetica) doc3)
    as (doc4 & E4 & D4).
  rewrite (bind_Some _ _ _ _ _ E4).
  destruct (drawKeyEntries_runs ctx (nextRef doc) (keyLineHeight ctx) BULLET_KEY
              (contentTop_of (dims ctx) - JS.ofZ 15)%Qc doc4)
    as (doc5 & runs & E5 & D5 & ->).
  change (JS.Math_min _ _) with (keyLineHeight ctx).
  rewrite (bind_Some _ _ _ _ _ E5).
  exists doc5. split; [reflexivity|]. split.
  - pose proof (drawn_trans _ _ _ _ _ _ _
                  (drawn_trans _ _ _ _ _ _ _
                     (drawn_trans _ _ _ _ _ _ _
                        (drawn_trans _ _ _ _ _ _ _ D1 D2) D3) D4) D5) as D.
    eapply drawn_ext; [| |exact D]; [done|].
    intros q. cbv beta. unfold keyPageRuns, onPage. case_decide; [|done].
    cbn [app]. by rewrite <- !app_assoc.
  - intros Havail. unfold keyPageRuns.
    assert (bottom (padding (dims ctx)) ≤ contentTop_of (dims ctx))%Qc as Hct.
    { revert Havail. unfold keyAvailableHeight.
      generalize (contentTop_of (dims ctx)) (bottom (padding (dims ctx))).
      intros ct b Havail. qc_to_q. unfold inject_Z in *. lra. }
    assert (contentTop_of (dims ctx) ≤ navY_of (dims ctx) - JS.ofZ 7 - JS.ofZ 6)%Qc
      as Htitle.
    { unfold contentTop_of. generalize (navY_of (dims ctx)). intros n.
      qc_to_q. unfold inject_Z in *. lra. }
    assert (contentTop_of (dims ctx) ≤ navY_of (dims ctx))%Qc as Hnav.
    { unfold contentTop_of. generalize (navY_of (dims ctx)). intros n.
      qc_to_q. unfold inject_Z in *. lra. }
    apply Forall_app. split; [|apply Forall_app; split].
    + eapply Forall_impl; [apply navRowRuns_textY|].
      intros run ->. by apply Qcle_trans with (contentTop_of (dims ctx)).
    + repeat constructor; cbn [textY].
      * by apply Qcle_trans with (contentTop_of (dims ctx)).
      * revert Hct. generalize (contentTop_of (dims ctx)) (bottom (padding (dims ctx))).
        intros ct b Hct. qc_to_q. unfold inject_Z in *. lra.
    + apply keyEntriesRuns_above. intros k Hk. by apply keyLineHeight_fits.
Qed.

Lemma generateKeyPage_signifiers_witness :
  ∃ doc',
    generateKeyPage ctxMoveNormal coverOnly
      = Some (mkPageRef "Key" 1 key None None None None, doc')
    ∧ text <$> textsOf doc' 1
      = ["Index"; "Key"; "Rapid Logging Signifiers"; "Task"; "Something to be done";
         "Complete"; "Accomplished task"; ">"; "Migrated"; "Moved to future log";
         "<"; "Scheduled"; "Moved to specific date"; "Event"; "Date-related entry";
         "-"; "Note"; "Facts, ideas, thoughts"; "*"; "Priority";
         "Important signifier"; "!"; "Inspiration"; "Great ideas to revisit"]
    ∧ Forall (λ run, (JS.ofZ 24 ≤ textY run)%Qc) (textsOf doc' 1).
Proof.
  destruct (generateKeyPage_signifiers ctxMoveNormal coverOnly)
    as (doc' & E & (_ & _ & _ & Htx) & Hfit).
  exists doc'. split; [exact E|].
  rewrite (Htx 1).
  change (textsOf coverOnly 1 ++ onPage (nextRef coverOnly) (keyPageRuns ctxMoveNormal) 1)
    with (keyPageRuns ctxMoveNormal).
  split; [by vm_compute|].
  apply Hfit. apply (bool_decide_unpack _). by vm_compute.
Defined.
